(** * zstdmt_compress: the multi-threaded compression orchestrator

    A shallow embedding of [lib/compress/zstdmt_compress.c] and the
    properties of its specification.

    Conventions of the embedding.
    - Machine integers are [Z] with the wrap-around written out: [U32] for
      [unsigned]/[U32], [size_t] and [U64] for the 64-bit types of an LP64
      host ([MEM_32bits()] is false).
    - Pointers are addresses in [Z]; [NULL] is [0].  Memory is a total map
      from addresses to bytes.
    - C truth values are integers: zero is false, anything else is true.
    - The collaborators that live outside this file (allocator, inner
      compressor, thread pool, hash) are interfaces (type classes) over an
      abstract world state that is threaded through every call. *)

From Stdlib Require Import ZArith Lia Bool List.
From stdpp Require Import base tactics list.

Local Open Scope Z_scope.

(** ** Machine integers *)

Definition U32 (x : Z) : Z := x mod 2 ^ 32.
Definition U64 (x : Z) : Z := x mod 2 ^ 64.
Definition size_t (x : Z) : Z := x mod 2 ^ 64.

Definition NULL : Z := 0.

(** C truth values. *)
Definition truthy (x : Z) : bool := negb (x =? 0).
Definition c_bool (b : bool) : Z := if b then 1 else 0.

Definition MIN (a b : Z) : Z := if a <? b then a else b.
Definition MAX (a b : Z) : Z := if a >? b then a else b.

Definition KB : Z := 2 ^ 10.
Definition MB : Z := 2 ^ 20.
Definition GB : Z := 2 ^ 30.

(** ** Tuning parameters *)

Definition ZSTDMT_NBTHREADS_MAX : Z := 200.
Definition MEM_32bits : bool := false.
Definition ZSTDMT_JOBSIZE_MAX : Z := if MEM_32bits then 512 * MB else 2 * GB.
Definition ZSTDMT_OVERLAPLOG_DEFAULT : Z := 6.

(** ** Compression parameters

    Modelled from the spec: [ZSTD_CCtx_params] and its two sub-records are
    declared in zstd.h and zstd_compress_internal.h; the fields are the
    tunables the specification enumerates and the ones this file reads or
    writes.  The remaining compression parameters are carried unread. *)

Record ZSTD_compressionParameters := {
  windowLog : Z;
  cParams_rest : Z
}.

Record ZSTD_frameParameters := {
  contentSizeFlag : Z;
  checksumFlag : Z;
  noDictIDFlag : Z
}.

Record ZSTD_CCtx_params := {
  format : Z;
  cParams : ZSTD_compressionParameters;
  fParams : ZSTD_frameParameters;
  compressionLevel : Z;
  forceWindow : Z;
  nbThreads : Z;
  jobSize : Z;
  overlapSizeLog : Z;
  ldmParams : Z
}.

Definition set_checksumFlag (v : Z) (f : ZSTD_frameParameters) : ZSTD_frameParameters :=
  {| contentSizeFlag := contentSizeFlag f; checksumFlag := v; noDictIDFlag := noDictIDFlag f |}.

Definition set_contentSizeFlag (v : Z) (f : ZSTD_frameParameters) : ZSTD_frameParameters :=
  {| contentSizeFlag := v; checksumFlag := checksumFlag f; noDictIDFlag := noDictIDFlag f |}.

Definition set_cParams (v : ZSTD_compressionParameters) (p : ZSTD_CCtx_params) : ZSTD_CCtx_params :=
  let 'Build_ZSTD_CCtx_params a _ c d e f g h i := p in Build_ZSTD_CCtx_params a v c d e f g h i.
Definition set_fParams (v : ZSTD_frameParameters) (p : ZSTD_CCtx_params) : ZSTD_CCtx_params :=
  let 'Build_ZSTD_CCtx_params a b _ d e f g h i := p in Build_ZSTD_CCtx_params a b v d e f g h i.
Definition set_nbThreads (v : Z) (p : ZSTD_CCtx_params) : ZSTD_CCtx_params :=
  let 'Build_ZSTD_CCtx_params a b c d e _ g h i := p in Build_ZSTD_CCtx_params a b c d e v g h i.
Definition set_jobSize (v : Z) (p : ZSTD_CCtx_params) : ZSTD_CCtx_params :=
  let 'Build_ZSTD_CCtx_params a b c d e f _ h i := p in Build_ZSTD_CCtx_params a b c d e f v h i.
Definition set_overlapSizeLog (v : Z) (p : ZSTD_CCtx_params) : ZSTD_CCtx_params :=
  let 'Build_ZSTD_CCtx_params a b c d e f g _ i := p in Build_ZSTD_CCtx_params a b c d e f g v i.

(** [memset(&jobParams, 0, sizeof(jobParams))]. *)
Definition zero_params : ZSTD_CCtx_params :=
  {| format := 0;
     cParams := {| windowLog := 0; cParams_rest := 0 |};
     fParams := {| contentSizeFlag := 0; checksumFlag := 0; noDictIDFlag := 0 |};
     compressionLevel := 0; forceWindow := 0; nbThreads := 0; jobSize := 0;
     overlapSizeLog := 0; ldmParams := 0 |}.

(** Sets parameters relevant to the compression job, initializing others to
    default values. *)
Definition ZSTDMT_initJobCCtxParams (params : ZSTD_CCtx_params) : ZSTD_CCtx_params :=
  {| format := 0;
     cParams := cParams params;
     fParams := fParams params;
     compressionLevel := compressionLevel params;
     forceWindow := 0; nbThreads := 0; jobSize := 0; overlapSizeLog := 0;
     ldmParams := ldmParams params |}.

(** [ZSTDMT_CCtxParam_setNbThreads]: the updated record and the returned
    value. *)
Definition ZSTDMT_CCtxParam_setNbThreads (params : ZSTD_CCtx_params) (nbThreads : Z)
  : ZSTD_CCtx_params * Z :=
  let nbThreads := if nbThreads >? ZSTDMT_NBTHREADS_MAX then ZSTDMT_NBTHREADS_MAX else nbThreads in
  let nbThreads := if nbThreads <? 1 then 1 else nbThreads in
  let params := set_nbThreads nbThreads params in
  let params := set_overlapSizeLog ZSTDMT_OVERLAPLOG_DEFAULT params in
  let params := set_jobSize 0 params in
  (params, nbThreads).

(** ** One-shot partitioning *)

Definition ZSTDMT_computeNbChunks (srcSize windowLog nbThreads : Z) : Z :=
  let chunkSizeTarget := size_t (Z.shiftl 1 (U32 (windowLog + 2))) in
  let chunkMaxSize := size_t (Z.shiftl chunkSizeTarget 2) in
  let passSizeMax := size_t (chunkMaxSize * nbThreads) in
  let multiplier := U32 (U32 (srcSize / passSizeMax) + 1) in
  let nbChunksLarge := U32 (multiplier * nbThreads) in
  let nbChunksMax := U32 (U32 (srcSize / chunkSizeTarget) + 1) in
  let nbChunksSmall := MIN nbChunksMax nbThreads in
  if multiplier >? 1 then nbChunksLarge else nbChunksSmall.

(** The first locals of [ZSTDMT_compress_advanced_internal]. *)
Definition overlapRLog (params : ZSTD_CCtx_params) : Z :=
  if overlapSizeLog params >? 9 then 0 else U32 (9 - overlapSizeLog params).

Definition overlapSize (params : ZSTD_CCtx_params) : Z :=
  if overlapRLog params >=? 9 then 0
  else size_t (Z.shiftl 1 (U32 (windowLog (cParams params) - overlapRLog params))).

Definition proposedChunkSize (srcSize nbChunks : Z) : Z :=
  size_t (srcSize + U32 (nbChunks - 1)) / nbChunks.

Definition avgChunkSize (srcSize nbChunks : Z) : Z :=
  let proposed := proposedChunkSize srcSize nbChunks in
  if Z.land (size_t (proposed - 1)) 0x1FFFF <? 0x7FFF
  then size_t (proposed + 0xFFFF)
  else proposed.

(** ** Constants declared outside this file

    [ZSTD_BLOCKSIZELOG_MAX] and [ZSTD_CONTENTSIZE_UNKNOWN] come from zstd.h,
    [ZSTDMT_JOBSIZE_MIN] from zstdmt_compress.h.  They are parameters of the
    development. *)

Class ZSTD_constants : Type := {
  ZSTD_BLOCKSIZELOG_MAX : Z;
  ZSTD_CONTENTSIZE_UNKNOWN : Z;
  ZSTDMT_JOBSIZE_MIN : Z
}.

Definition ZSTD_BLOCKSIZE_MAX `{ZSTD_constants} : Z := Z.shiftl 1 ZSTD_BLOCKSIZELOG_MAX.

(** ** Error codes

    Modelled from the spec: the error kinds of its section 7, as the
    [size_t] sentinels of error_private.h ([ERROR(name)] is [(size_t)-code],
    and a result is an error when it is above [ERROR(maxCode)]); the numeric
    codes are those of zstd_errors.h. *)

Inductive ZSTD_ErrorCode :=
  | dictionary_wrong
  | parameter_unsupported
  | stage_wrong
  | memory_allocation
  | dstSize_tooSmall
  | maxCode.

Definition error_code (e : ZSTD_ErrorCode) : Z :=
  match e with
  | dictionary_wrong => 32
  | parameter_unsupported => 40
  | stage_wrong => 60
  | memory_allocation => 64
  | dstSize_tooSmall => 70
  | maxCode => 120
  end.

Definition ERROR (e : ZSTD_ErrorCode) : Z := size_t (0 - error_code e).
Definition ZSTD_isError (code : Z) : bool := code >? ERROR maxCode.

(** ** Memory *)

Definition mem := Z -> Z.

Definition mem_store (m : mem) (a b : Z) : mem :=
  fun x => if x =? a then b else m x.

(** [memcpy] and [memmove]: the [n] bytes at [src] are read before any is
    written. *)
Definition memmove (m : mem) (dst src n : Z) : mem :=
  fun x => if (dst <=? x) && (x <? dst + n) then m (src + (x - dst)) else m x.
Definition memcpy := memmove.

Definition MEM_writeLE32 (m : mem) (p v : Z) : mem :=
  mem_store (mem_store (mem_store (mem_store m
    p (v mod 256))
    (p + 1) ((v / 2 ^ 8) mod 256))
    (p + 2) ((v / 2 ^ 16) mod 256))
    (p + 3) ((v / 2 ^ 24) mod 256).

Definition mem_read (m : mem) (p n : Z) : list Z :=
  map (fun i => m (p + Z.of_nat i)) (seq 0 (Z.to_nat n)).

(** ** The collaborators

    Each interface is over the world state [W] in which the collaborator
    keeps what this file cannot see. *)

(** The custom allocator ([ZSTD_customMem]); a failed allocation returns
    [NULL]. *)
Class Allocator (W : Type) : Type := {
  ZSTD_malloc : Z -> W -> Z * W;
  ZSTD_calloc : Z -> W -> Z * W;
  ZSTD_free : Z -> W -> W
}.

Inductive ZSTD_dictMode_e := ZSTD_dm_auto | ZSTD_dm_rawContent | ZSTD_dm_fullDict.
Inductive ZSTD_cParameter := ZSTD_p_forceMaxWindow.
Inductive ZSTD_EndDirective := ZSTD_e_continue | ZSTD_e_flush | ZSTD_e_end.

Record ZSTD_outBuffer := { o_dst : Z; o_size : Z; o_pos : Z }.
Record ZSTD_inBuffer := { i_src : Z; i_size : Z; i_pos : Z }.

(** The inner single-section compressor.  A context is the address of a
    [ZSTD_CCtx]; calls that write compressed bytes return the new memory. *)
Class Compressor (W : Type) : Type := {
  ZSTD_createCCtx_advanced : W -> Z * W;
  ZSTD_freeCCtx : Z -> W -> W;
  ZSTD_compressBound : Z -> Z;
  ZSTD_CCtxParam_setParameter :
    ZSTD_CCtx_params -> ZSTD_cParameter -> Z -> ZSTD_CCtx_params * Z;
  (* cctx dict dictSize dictMode cdict params pledgedSrcSize *)
  ZSTD_compressBegin_advanced_internal :
    Z -> Z -> Z -> ZSTD_dictMode_e -> Z -> ZSTD_CCtx_params -> Z -> mem -> W -> Z * W;
  (* cctx dst dstCapacity src srcSize *)
  ZSTD_compressContinue : Z -> Z -> Z -> Z -> Z -> mem -> W -> Z * mem * W;
  ZSTD_compressEnd : Z -> Z -> Z -> Z -> Z -> mem -> W -> Z * mem * W;
  ZSTD_invalidateRepCodes : Z -> W -> W;
  (* cctx dst dstCapacity src srcSize cdict fParams *)
  ZSTD_compress_usingCDict_advanced :
    Z -> Z -> Z -> Z -> Z -> Z -> ZSTD_frameParameters -> mem -> W -> Z * mem * W;
  (* cctx dst dstCapacity src srcSize dict dictSize params *)
  ZSTD_compress_advanced_internal :
    Z -> Z -> Z -> Z -> Z -> Z -> Z -> ZSTD_CCtx_params -> mem -> W -> Z * mem * W;
  (* zcs dict dictSize cdict params pledgedSrcSize *)
  ZSTD_initCStream_internal :
    Z -> Z -> Z -> Z -> ZSTD_CCtx_params -> Z -> mem -> W -> Z * W;
  ZSTD_resetCStream : Z -> Z -> W -> Z * W;
  ZSTD_compressStream_generic :
    Z -> ZSTD_outBuffer -> ZSTD_inBuffer -> ZSTD_EndDirective -> mem -> W ->
    Z * ZSTD_outBuffer * ZSTD_inBuffer * mem * W;
  ZSTD_flushStream : Z -> ZSTD_outBuffer -> mem -> W -> Z * ZSTD_outBuffer * mem * W;
  ZSTD_endStream : Z -> ZSTD_outBuffer -> mem -> W -> Z * ZSTD_outBuffer * mem * W;
  (* dict dictSize dictMode cParams *)
  ZSTD_createCDict_advanced :
    Z -> Z -> ZSTD_dictMode_e -> ZSTD_compressionParameters -> mem -> W -> Z * W;
  ZSTD_freeCDict : Z -> W -> W
}.

(** The 64-bit hash.  Modelled from the spec: a streaming hash whose digest
    is a function of the seed and of the bytes fed since the reset; the state
    records both. *)
Class Hash : Type := {
  XXH64 : Z -> list Z -> Z
}.

Record XXH64_state_t := { xxh_seed : Z; xxh_input : list Z }.

Definition XXH64_reset (seed : Z) : XXH64_state_t :=
  {| xxh_seed := seed; xxh_input := [] |}.
Definition XXH64_update (st : XXH64_state_t) (m : mem) (p len : Z) : XXH64_state_t :=
  {| xxh_seed := xxh_seed st; xxh_input := xxh_input st ++ mem_read m p len |}.
Definition XXH64_digest `{Hash} (st : XXH64_state_t) : Z :=
  XXH64 (xxh_seed st) (xxh_input st).

(** The worker thread pool.  [POOL_tryAdd] does not block and may refuse the
    job; the jobs it holds are kept by this model (see [factory] below). *)
Class ThreadPool (W : Type) : Type := {
  POOL_tryAdd : W -> bool * W
}.

(** ** Buffer pool *)

Record buffer_t := { start : Z; size : Z }.

Definition g_nullBuffer : buffer_t := {| start := NULL; size := 0 |}.

#[global] Instance buffer_t_inhabited : Inhabited buffer_t := populate g_nullBuffer.

Record ZSTDMT_bufferPool := {
  bufferSize : Z;
  totalBuffers : Z;
  nbBuffers : Z;
  bTable : list buffer_t
}.

Definition set_bufferSize (v : Z) (p : ZSTDMT_bufferPool) : ZSTDMT_bufferPool :=
  {| bufferSize := v; totalBuffers := totalBuffers p; nbBuffers := nbBuffers p;
     bTable := bTable p |}.

(** [bufPool->bTable[i] = b; bufPool->nbBuffers = n]. *)
Definition set_slot (i : Z) (b : buffer_t) (n : Z) (p : ZSTDMT_bufferPool)
  : ZSTDMT_bufferPool :=
  {| bufferSize := bufferSize p; totalBuffers := totalBuffers p; nbBuffers := n;
     bTable := <[Z.to_nat i := b]> (bTable p) |}.

Definition ZSTDMT_createBufferPool_init (nbThreads : Z) : ZSTDMT_bufferPool :=
  let maxNbBuffers := U32 (2 * nbThreads + 3) in
  {| bufferSize := 64 * KB; totalBuffers := maxNbBuffers; nbBuffers := 0;
     bTable := replicate (Z.to_nat maxNbBuffers) g_nullBuffer |}.

Definition ZSTDMT_setBufferSize (bufPool : ZSTDMT_bufferPool) (bSize : Z)
  : ZSTDMT_bufferPool :=
  set_bufferSize bSize bufPool.

Section BufferPool.
Context {W : Type} `{Allocator W}.

(** The tail of [ZSTDMT_getBuffer]: create a new buffer. *)
Definition ZSTDMT_getBuffer_new (bSize : Z) (w : W) : buffer_t * W :=
  let '(start, w) := ZSTD_malloc bSize w in
  ({| start := start; size := if start =? NULL then 0 else bSize |}, w).

Definition ZSTDMT_getBuffer (bufPool : ZSTDMT_bufferPool) (w : W)
  : buffer_t * ZSTDMT_bufferPool * W :=
  let bSize := bufferSize bufPool in
  if truthy (nbBuffers bufPool) then
    (* try to use an existing buffer *)
    let n := U32 (nbBuffers bufPool - 1) in
    let buf := bTable bufPool !!! Z.to_nat n in
    let availBufferSize := size buf in
    let bufPool := set_slot n g_nullBuffer n bufPool in
    if (availBufferSize >=? bSize) && (Z.shiftr availBufferSize 3 <=? bSize) then
      (* large enough, but not too much *)
      (buf, bufPool, w)
    else
      (* size conditions not respected : scratch this buffer, create new one *)
      let w := ZSTD_free (start buf) w in
      let '(buffer, w) := ZSTDMT_getBuffer_new bSize w in
      (buffer, bufPool, w)
  else
    let '(buffer, w) := ZSTDMT_getBuffer_new bSize w in
    (buffer, bufPool, w).

(** Store buffer for later re-use, up to pool capacity. *)
Definition ZSTDMT_releaseBuffer (bufPool : ZSTDMT_bufferPool) (buf : buffer_t) (w : W)
  : ZSTDMT_bufferPool * W :=
  if start buf =? NULL then (bufPool, w)
  else if nbBuffers bufPool <? totalBuffers bufPool then
    (set_slot (nbBuffers bufPool) buf (U32 (nbBuffers bufPool + 1)) bufPool, w)
  else
    (* reached bufferPool capacity *)
    (bufPool, ZSTD_free (start buf) w).

End BufferPool.

(** ** CCtx pool *)

Record ZSTDMT_CCtxPool := {
  totalCCtx : Z;
  availCCtx : Z;
  cctx : list Z
}.

Section CCtxPool.
Context {W : Type} `{Compressor W}.

Definition ZSTDMT_getCCtx (cctxPool : ZSTDMT_CCtxPool) (w : W)
  : Z * ZSTDMT_CCtxPool * W :=
  if truthy (availCCtx cctxPool) then
    let n := U32 (availCCtx cctxPool - 1) in
    let cctxPool' :=
      {| totalCCtx := totalCCtx cctxPool; availCCtx := n; cctx := cctx cctxPool |} in
    (cctx cctxPool !!! Z.to_nat n, cctxPool', w)
  else
    let '(c, w) := ZSTD_createCCtx_advanced w in
    (c, cctxPool, w).

Definition ZSTDMT_releaseCCtx (pool : ZSTDMT_CCtxPool) (c : Z) (w : W)
  : ZSTDMT_CCtxPool * W :=
  if c =? NULL then (pool, w)
  else if availCCtx pool <? totalCCtx pool then
    ({| totalCCtx := totalCCtx pool; availCCtx := U32 (availCCtx pool + 1);
        cctx := <[Z.to_nat (availCCtx pool) := c]> (cctx pool) |}, w)
  else
    (* pool overflow *)
    (pool, ZSTD_freeCCtx c w).

End CCtxPool.

(** ** Jobs

    [ZSTDMT_jobDescription].  The pointers to the completion mutex and
    condition variable and to the two pools are left out: every job of a
    context refers to that context's own. *)

Record ZSTDMT_jobDescription := {
  src : buffer_t;
  srcStart : Z;
  prefixSize : Z;
  srcSize : Z;
  consumed : Z;
  dstBuff : buffer_t;
  cSize : Z;
  dstFlushed : Z;
  firstChunk : Z;
  lastChunk : Z;
  jobCompleted : Z;
  frameChecksumNeeded : Z;
  params : ZSTD_CCtx_params;
  cdict : Z;
  fullFrameSize : Z
}.

Definition set_src (v : buffer_t) (j : ZSTDMT_jobDescription) :=
  let 'Build_ZSTDMT_jobDescription _ b c d e f g h i k l m n o p := j in
  Build_ZSTDMT_jobDescription v b c d e f g h i k l m n o p.
Definition set_srcStart (v : Z) (j : ZSTDMT_jobDescription) :=
  let 'Build_ZSTDMT_jobDescription a _ c d e f g h i k l m n o p := j in
  Build_ZSTDMT_jobDescription a v c d e f g h i k l m n o p.
Definition set_consumed (v : Z) (j : ZSTDMT_jobDescription) :=
  let 'Build_ZSTDMT_jobDescription a b c d _ f g h i k l m n o p := j in
  Build_ZSTDMT_jobDescription a b c d v f g h i k l m n o p.
Definition set_dstBuff (v : buffer_t) (j : ZSTDMT_jobDescription) :=
  let 'Build_ZSTDMT_jobDescription a b c d e _ g h i k l m n o p := j in
  Build_ZSTDMT_jobDescription a b c d e v g h i k l m n o p.
Definition set_cSize (v : Z) (j : ZSTDMT_jobDescription) :=
  let 'Build_ZSTDMT_jobDescription a b c d e f _ h i k l m n o p := j in
  Build_ZSTDMT_jobDescription a b c d e f v h i k l m n o p.
Definition set_dstFlushed (v : Z) (j : ZSTDMT_jobDescription) :=
  let 'Build_ZSTDMT_jobDescription a b c d e f g _ i k l m n o p := j in
  Build_ZSTDMT_jobDescription a b c d e f g v i k l m n o p.
Definition set_jobCompleted (v : Z) (j : ZSTDMT_jobDescription) :=
  let 'Build_ZSTDMT_jobDescription a b c d e f g h i k _ m n o p := j in
  Build_ZSTDMT_jobDescription a b c d e f g h i k v m n o p.
Definition set_frameChecksumNeeded (v : Z) (j : ZSTDMT_jobDescription) :=
  let 'Build_ZSTDMT_jobDescription a b c d e f g h i k l _ n o p := j in
  Build_ZSTDMT_jobDescription a b c d e f g h i k l v n o p.

(** A job of a [calloc]ed or [memset] table. *)
Definition zero_job : ZSTDMT_jobDescription :=
  {| src := g_nullBuffer; srcStart := NULL; prefixSize := 0; srcSize := 0;
     consumed := 0; dstBuff := g_nullBuffer; cSize := 0; dstFlushed := 0;
     firstChunk := 0; lastChunk := 0; jobCompleted := 0; frameChecksumNeeded := 0;
     params := zero_params; cdict := NULL; fullFrameSize := 0 |}.

#[global] Instance job_inhabited : Inhabited ZSTDMT_jobDescription := populate zero_job.

(** ** Thread worker *)

(** What a worker shares with the rest of the program: its job, the two
    pools, the memory and the world. *)
Record worker_state (W : Type) := {
  w_job : ZSTDMT_jobDescription;
  w_bufPool : ZSTDMT_bufferPool;
  w_cctxPool : ZSTDMT_CCtxPool;
  w_mem : mem;
  w_world : W
}.
Arguments Build_worker_state {W}.
Arguments w_job {W}.
Arguments w_bufPool {W}.
Arguments w_cctxPool {W}.
Arguments w_mem {W}.
Arguments w_world {W}.

(** [(int)] cast of a [size_t]. *)
Definition to_int (x : Z) : Z := (x + 2 ^ 31) mod 2 ^ 32 - 2 ^ 31.

Section Worker.
Context {W : Type} `{ZSTD_constants} `{Allocator W} `{Compressor W}.

Definition upd_job (f : ZSTDMT_jobDescription -> ZSTDMT_jobDescription)
    (st : worker_state W) : worker_state W :=
  Build_worker_state (f (w_job st)) (w_bufPool st) (w_cctxPool st) (w_mem st) (w_world st).

Definition upd_mem_world (m : mem) (w : W) (st : worker_state W) : worker_state W :=
  Build_worker_state (w_job st) (w_bufPool st) (w_cctxPool st) m w.

(** The statements of [ZSTDMT_compressChunk] run until control reaches the
    label [_endJob]; each part returns [inl] when it jumps there ([goto
    _endJob]) and [inr] when it falls through. *)

(** Resources: the destination buffer. *)
Definition compressChunk_resources (cctx : Z) (st : worker_state W)
  : worker_state W + worker_state W * buffer_t :=
  let job := w_job st in
  let dstBuff := dstBuff job in
  if cctx =? NULL then
    inl (upd_job (set_cSize (ERROR memory_allocation)) st)
  else if start dstBuff =? NULL then
    let '(dstBuff, bufPool, w) := ZSTDMT_getBuffer (w_bufPool st) (w_world st) in
    let st := Build_worker_state job bufPool (w_cctxPool st) (w_mem st) w in
    if start dstBuff =? NULL then
      inl (upd_job (set_cSize (ERROR memory_allocation)) st)
    else inr (upd_job (set_dstBuff dstBuff) st, dstBuff)
  else inr (st, dstBuff).

(** Init: begin the frame or the section. *)
Definition compressChunk_init (cctx : Z) (st : worker_state W)
  : worker_state W + worker_state W :=
  let job := w_job st in
  if truthy (cdict job) then
    let '(initError, w) :=
      ZSTD_compressBegin_advanced_internal cctx NULL 0 ZSTD_dm_auto (cdict job)
        (params job) (fullFrameSize job) (w_mem st) (w_world st) in
    let st := upd_mem_world (w_mem st) w st in
    if ZSTD_isError initError then inl (upd_job (set_cSize initError) st)
    else inr st
  else
    (* srcStart points at reloaded section *)
    let pledgedSrcSize := if truthy (firstChunk job) then fullFrameSize job else srcSize job in
    let '(jobParams, forceWindowError) :=
      ZSTD_CCtxParam_setParameter (params job) ZSTD_p_forceMaxWindow
        (c_bool (negb (truthy (firstChunk job)))) in
    if ZSTD_isError forceWindowError then
      inl (upd_job (set_cSize forceWindowError) st)
    else
      let '(initError, w) :=
        ZSTD_compressBegin_advanced_internal cctx (srcStart job) (prefixSize job)
          ZSTD_dm_rawContent NULL jobParams pledgedSrcSize (w_mem st) (w_world st) in
      let st := upd_mem_world (w_mem st) w st in
      if ZSTD_isError initError then inl (upd_job (set_cSize initError) st)
      else inr st.

(** Flush and overwrite frame header when it's not first job. *)
Definition compressChunk_header (cctx src : Z) (dstBuff : buffer_t) (st : worker_state W)
  : worker_state W + worker_state W :=
  let job := w_job st in
  if negb (truthy (firstChunk job)) then
    let '(hSize, m, w) :=
      ZSTD_compressContinue cctx (start dstBuff) (size dstBuff) src 0
        (w_mem st) (w_world st) in
    let st := upd_mem_world m w st in
    if ZSTD_isError hSize then inl (upd_job (set_cSize hSize) st)
    else inr (upd_mem_world m (ZSTD_invalidateRepCodes cctx w) st)
  else inr st.

(** The loop over the full blocks: [n] iterations are left, the next one is
    number [blockNb]. *)
Fixpoint compressChunk_blocks (n : nat) (cctx blockNb ip op oend : Z) (st : worker_state W)
  : worker_state W + worker_state W * Z * Z :=
  match n with
  | O => inr (st, ip, op)
  | S n =>
    let '(cSize', m, w) :=
      ZSTD_compressContinue cctx op (size_t (oend - op)) ip ZSTD_BLOCKSIZE_MAX
        (w_mem st) (w_world st) in
    let st := upd_mem_world m w st in
    if ZSTD_isError cSize' then inl (upd_job (set_cSize cSize') st)
    else
      let ip := ip + ZSTD_BLOCKSIZE_MAX in
      let op := op + cSize' in
      (* stats *)
      let st := upd_job (fun job => set_cSize (size_t (cSize job + cSize')) job) st in
      let st := upd_job (set_consumed (size_t (ZSTD_BLOCKSIZE_MAX * blockNb))) st in
      compressChunk_blocks n cctx (blockNb + 1) ip op oend st
  end.

Definition lastBlockSize (job : ZSTDMT_jobDescription) : Z :=
  let lastBlockSize1 := Z.land (srcSize job) (ZSTD_BLOCKSIZE_MAX - 1) in
  if (lastBlockSize1 =? 0) && (srcSize job >=? ZSTD_BLOCKSIZE_MAX)
  then ZSTD_BLOCKSIZE_MAX else lastBlockSize1.

(** Last block. *)
Definition compressChunk_last (cctx nbBlocks ip op oend : Z) (st : worker_state W)
  : worker_state W :=
  let job := w_job st in
  if (nbBlocks >? 0) || truthy (lastChunk job) then
    (* must output a "last block" flag *)
    let '(cSize', m, w) :=
      if truthy (lastChunk job)
      then ZSTD_compressEnd cctx op (size_t (oend - op)) ip (lastBlockSize job)
             (w_mem st) (w_world st)
      else ZSTD_compressContinue cctx op (size_t (oend - op)) ip (lastBlockSize job)
             (w_mem st) (w_world st) in
    let st := upd_mem_world m w st in
    if ZSTD_isError cSize' then upd_job (set_cSize cSize') st
    else
      (* stats *)
      let st := upd_job (fun job => set_cSize (size_t (cSize job + cSize')) job) st in
      upd_job (set_consumed (srcSize job)) st
  else st.

(** Compress, block by block. *)
Definition compressChunk_compress (cctx src : Z) (dstBuff : buffer_t) (st : worker_state W)
  : worker_state W :=
  let job := w_job st in
  let nbBlocks := to_int (size_t (srcSize job + (ZSTD_BLOCKSIZE_MAX - 1)) / ZSTD_BLOCKSIZE_MAX) in
  let ip := src in
  let ostart := start dstBuff in
  let op := ostart in
  let oend := op + size dstBuff in
  match compressChunk_blocks (Z.to_nat (nbBlocks - 1)) cctx 1 ip op oend st with
  | inl st => st
  | inr (st, ip, op) => compressChunk_last cctx nbBlocks ip op oend st
  end.

(** [_endJob]: release and report. *)
Definition compressChunk_endJob (cctx : Z) (st : worker_state W) : worker_state W :=
  let job := w_job st in
  let '(cctxPool, w) := ZSTDMT_releaseCCtx (w_cctxPool st) cctx (w_world st) in
  let '(bufPool, w) := ZSTDMT_releaseBuffer (w_bufPool st) (src job) w in
  let job := set_srcStart NULL (set_src g_nullBuffer job) in
  let job := set_jobCompleted 1 (set_consumed (srcSize job) job) in
  Build_worker_state job bufPool cctxPool (w_mem st) w.

(** [ZSTDMT_compressChunk] is a [POOL_function]. *)
Definition ZSTDMT_compressChunk (st : worker_state W) : worker_state W :=
  let job := w_job st in
  let '(cctx, cctxPool, w) := ZSTDMT_getCCtx (w_cctxPool st) (w_world st) in
  let st := Build_worker_state job (w_bufPool st) cctxPool (w_mem st) w in
  let src := srcStart job + prefixSize job in
  let st :=
    match compressChunk_resources cctx st with
    | inl st => st
    | inr (st, dstBuff) =>
      match compressChunk_init cctx st with
      | inl st => st
      | inr st =>
        match compressChunk_header cctx src dstBuff st with
        | inl st => st
        | inr st => compressChunk_compress cctx src dstBuff st
        end
      end
    end in
  compressChunk_endJob cctx st.

End Worker.

(** ** Observing the collaborators

    A world that also records the calls made to the allocator and to the
    inner compressor, oldest first.  The calls are passed on unchanged. *)

Inductive lib_call :=
  | call_malloc (size ret : Z)
  | call_calloc (size ret : Z)
  | call_free (ptr : Z)
  | call_createCCtx (ret : Z)
  | call_freeCCtx (cctx : Z)
  | call_compressBegin (cctx dict dictSize : Z) (dictMode : ZSTD_dictMode_e)
      (cdict : Z) (params : ZSTD_CCtx_params) (pledgedSrcSize ret : Z)
  | call_compressContinue (cctx dst dstCapacity src srcSize ret : Z)
  | call_compressEnd (cctx dst dstCapacity src srcSize ret : Z)
  | call_invalidateRepCodes (cctx : Z).

Definition logged (W : Type) : Type := W * list lib_call.

Definition log1 {W A : Type} (l : list lib_call) (ev : A -> lib_call) (r : A * W)
  : A * logged W :=
  (fst r, (snd r, l ++ [ev (fst r)])).

Definition log2 {W A : Type} (l : list lib_call) (ev : A -> lib_call) (r : A * mem * W)
  : A * mem * logged W :=
  (fst r, (snd r, l ++ [ev (fst (fst r))])).

Definition keep_log {W A : Type} (l : list lib_call) (r : A * W) : A * logged W :=
  (fst r, (snd r, l)).

#[global] Instance logged_allocator {W : Type} `{Allocator W} : Allocator (logged W) := {|
  ZSTD_malloc n w := log1 (snd w) (call_malloc n) (ZSTD_malloc n (fst w));
  ZSTD_calloc n w := log1 (snd w) (call_calloc n) (ZSTD_calloc n (fst w));
  ZSTD_free p w := (ZSTD_free p (fst w), snd w ++ [call_free p])
|}.

#[global] Instance logged_compressor {W : Type} `{Compressor W} : Compressor (logged W) := {|
  ZSTD_createCCtx_advanced w := log1 (snd w) call_createCCtx (ZSTD_createCCtx_advanced (fst w));
  ZSTD_freeCCtx c w := (ZSTD_freeCCtx c (fst w), snd w ++ [call_freeCCtx c]);
  ZSTD_compressBound := ZSTD_compressBound;
  ZSTD_CCtxParam_setParameter := ZSTD_CCtxParam_setParameter;
  ZSTD_compressBegin_advanced_internal c dict dictSize dictMode cdict params pledged m w :=
    log1 (snd w) (call_compressBegin c dict dictSize dictMode cdict params pledged)
      (ZSTD_compressBegin_advanced_internal c dict dictSize dictMode cdict params pledged
         m (fst w));
  ZSTD_compressContinue c dst cap src n m w :=
    log2 (snd w) (call_compressContinue c dst cap src n)
      (ZSTD_compressContinue c dst cap src n m (fst w));
  ZSTD_compressEnd c dst cap src n m w :=
    log2 (snd w) (call_compressEnd c dst cap src n)
      (ZSTD_compressEnd c dst cap src n m (fst w));
  ZSTD_invalidateRepCodes c w :=
    (ZSTD_invalidateRepCodes c (fst w), snd w ++ [call_invalidateRepCodes c]);
  ZSTD_compress_usingCDict_advanced c dst cap src n cdict fp m w :=
    let '(r, m', w') := ZSTD_compress_usingCDict_advanced c dst cap src n cdict fp m (fst w) in
    (r, m', (w', snd w));
  ZSTD_compress_advanced_internal c dst cap src n dict dictSize p m w :=
    let '(r, m', w') := ZSTD_compress_advanced_internal c dst cap src n dict dictSize p m (fst w) in
    (r, m', (w', snd w));
  ZSTD_initCStream_internal c dict dictSize cdict p pledged m w :=
    keep_log (snd w) (ZSTD_initCStream_internal c dict dictSize cdict p pledged m (fst w));
  ZSTD_resetCStream c pledged w := keep_log (snd w) (ZSTD_resetCStream c pledged (fst w));
  ZSTD_compressStream_generic c o i e m w :=
    let '(r, o', i', m', w') := ZSTD_compressStream_generic c o i e m (fst w) in
    (r, o', i', m', (w', snd w));
  ZSTD_flushStream c o m w :=
    let '(r, o', m', w') := ZSTD_flushStream c o m (fst w) in (r, o', m', (w', snd w));
  ZSTD_endStream c o m w :=
    let '(r, o', m', w') := ZSTD_endStream c o m (fst w) in (r, o', m', (w', snd w));
  ZSTD_createCDict_advanced dict dictSize dm cp m w :=
    keep_log (snd w) (ZSTD_createCDict_advanced dict dictSize dm cp m (fst w));
  ZSTD_freeCDict c w := (ZSTD_freeCDict c (fst w), snd w)
|}.

(** The calls that hand a block to the inner compressor. *)
Definition is_block_call (c : lib_call) : bool :=
  match c with
  | call_compressContinue _ _ _ _ _ _ | call_compressEnd _ _ _ _ _ _ => true
  | _ => false
  end.

Definition block_calls (l : list lib_call) : list lib_call := List.filter is_block_call l.

(** ** A concrete world

    A small executable instance of every interface, on which the model can
    be run: a bump allocator over a bounded heap, a compressor that stores
    each block behind a three-byte header, a thread pool that accepts a job
    while it has a free slot, and a byte sum as the hash. *)

Record toy_world := {
  next_addr : Z;
  heap_limit : Z;
  free_workers : Z
}.

Definition toy_alloc (n : Z) (w : toy_world) : Z * toy_world :=
  if next_addr w + n <=? heap_limit w
  then (next_addr w,
        {| next_addr := next_addr w + n; heap_limit := heap_limit w;
           free_workers := free_workers w |})
  else (NULL, w).

Definition toy_store (dst dstCapacity src n : Z) (m : mem) (w : toy_world)
  : Z * mem * toy_world :=
  if dstCapacity <? n + 3 then (ERROR dstSize_tooSmall, m, w)
  else (n + 3, memcpy m (dst + 3) src n, w).

#[global] Instance toy_constants : ZSTD_constants := {|
  ZSTD_BLOCKSIZELOG_MAX := 17;
  ZSTD_CONTENTSIZE_UNKNOWN := 2 ^ 64 - 1;
  ZSTDMT_JOBSIZE_MIN := 2 ^ 20
|}.

#[global] Instance toy_allocator : Allocator toy_world := {|
  ZSTD_malloc := toy_alloc;
  ZSTD_calloc := toy_alloc;
  ZSTD_free _ w := w
|}.

#[global] Instance toy_compressor : Compressor toy_world := {|
  ZSTD_createCCtx_advanced := toy_alloc 1;
  ZSTD_freeCCtx _ w := w;
  ZSTD_compressBound n := n + n / 256 + 64;
  ZSTD_CCtxParam_setParameter p _ v :=
    let 'Build_ZSTD_CCtx_params a b c d _ f g h i := p in
    (Build_ZSTD_CCtx_params a b c d (c_bool (v >? 0)) f g h i, c_bool (v >? 0));
  ZSTD_compressBegin_advanced_internal _ _ _ _ _ _ _ _ w := (0, w);
  ZSTD_compressContinue _ := toy_store;
  ZSTD_compressEnd _ := toy_store;
  ZSTD_invalidateRepCodes _ w := w;
  ZSTD_compress_usingCDict_advanced _ dst cap src n _ _ := toy_store dst cap src n;
  ZSTD_compress_advanced_internal _ dst cap src n _ _ _ := toy_store dst cap src n;
  ZSTD_initCStream_internal _ _ _ _ _ _ _ w := (0, w);
  ZSTD_resetCStream _ _ w := (0, w);
  ZSTD_compressStream_generic _ o i _ m w := (0, o, i, m, w);
  ZSTD_flushStream _ o m w := (0, o, m, w);
  ZSTD_endStream _ o m w := (0, o, m, w);
  ZSTD_createCDict_advanced _ _ _ _ _ := toy_alloc 1;
  ZSTD_freeCDict _ w := w
|}.

#[global] Instance toy_hash : Hash := {|
  XXH64 seed data := U64 (fold_left Z.add data seed)
|}.

#[global] Instance toy_pool : ThreadPool toy_world := {|
  POOL_tryAdd w :=
    if free_workers w >? 0
    then (true, {| next_addr := next_addr w; heap_limit := heap_limit w;
                   free_workers := free_workers w - 1 |})
    else (false, w)
|}.

Definition toy_world0 : toy_world :=
  {| next_addr := 4096; heap_limit := 2 ^ 30; free_workers := 2 |}.

Definition toy_mem : mem := fun a => a mod 251.

Definition toy_cctxPool : ZSTDMT_CCtxPool :=
  {| totalCCtx := 2; availCCtx := 1; cctx := [1024; NULL] |}.

Definition toy_params : ZSTD_CCtx_params :=
  {| format := 0;
     cParams := {| windowLog := 17; cParams_rest := 0 |};
     fParams := {| contentSizeFlag := 1; checksumFlag := 1; noDictIDFlag := 0 |};
     compressionLevel := 3; forceWindow := 0; nbThreads := 2; jobSize := 0;
     overlapSizeLog := 6; ldmParams := 0 |}.

(** A last chunk of [n] bytes at address [2 ^ 20], with no destination
    buffer yet. *)
Definition toy_job (n : Z) : ZSTDMT_jobDescription :=
  {| src := g_nullBuffer; srcStart := 2 ^ 20; prefixSize := 0; srcSize := n;
     consumed := 0; dstBuff := g_nullBuffer; cSize := 0; dstFlushed := 0;
     firstChunk := 1; lastChunk := 1; jobCompleted := 0; frameChecksumNeeded := 0;
     params := toy_params; cdict := NULL; fullFrameSize := n |}.

Definition toy_worker (n : Z) : worker_state (logged toy_world) :=
  {| w_job := toy_job n;
     w_bufPool := ZSTDMT_setBufferSize (ZSTDMT_createBufferPool_init 2)
                    (ZSTD_compressBound (2 ^ 18));
     w_cctxPool := toy_cctxPool;
     w_mem := toy_mem;
     w_world := (toy_world0, []) |}.

(** ** The orchestrator

    [ZSTDMT_CCtx_s], together with the memory and the world it runs in.  The
    thread pool [factory] is the list of the job slots it was handed and
    whose worker has not finished; the pointer [jobs] is the address
    [jobs_ptr] and the table [jobs] it points to; the mutex, the condition
    variable and the allocator handle carry no data. *)

Record inBuff_t := { buffer : buffer_t; filled : Z }.

Module mt.

Record t (W : Type) := {
  factory : list nat;
  jobs_ptr : Z;
  jobs : list ZSTDMT_jobDescription;
  bufPool : ZSTDMT_bufferPool;
  cctxPool : ZSTDMT_CCtxPool;
  params : ZSTD_CCtx_params;
  targetSectionSize : Z;
  inBuffSize : Z;
  prefixSize : Z;
  targetPrefixSize : Z;
  inBuff : inBuff_t;
  jobReady : Z;
  xxhState : XXH64_state_t;
  singleBlockingThread : Z;
  jobIDMask : Z;
  doneJobID : Z;
  nextJobID : Z;
  frameEnded : Z;
  allJobsCompleted : Z;
  frameContentSize : Z;
  consumed : Z;
  produced : Z;
  cdictLocal : Z;
  cdict : Z;
  memory : mem;
  world : W
}.

Arguments factory {W}.
Arguments jobs_ptr {W}.
Arguments jobs {W}.
Arguments bufPool {W}.
Arguments cctxPool {W}.
Arguments params {W}.
Arguments targetSectionSize {W}.
Arguments inBuffSize {W}.
Arguments prefixSize {W}.
Arguments targetPrefixSize {W}.
Arguments inBuff {W}.
Arguments jobReady {W}.
Arguments xxhState {W}.
Arguments singleBlockingThread {W}.
Arguments jobIDMask {W}.
Arguments doneJobID {W}.
Arguments nextJobID {W}.
Arguments frameEnded {W}.
Arguments allJobsCompleted {W}.
Arguments frameContentSize {W}.
Arguments consumed {W}.
Arguments produced {W}.
Arguments cdictLocal {W}.
Arguments cdict {W}.
Arguments memory {W}.
Arguments world {W}.
Arguments Build_t {W}.

Definition set_factory {W : Type} (v : list nat) (s : t W) : t W :=
  let 'Build_t _ x1 x2 x3 x4 x5 x6 x7 x8 x9 x10 x11 x12 x13 x14 x15 x16 x17 x18 x19 x20 x21 x22 x23 x24 x25 := s in
  Build_t v x1 x2 x3 x4 x5 x6 x7 x8 x9 x10 x11 x12 x13 x14 x15 x16 x17 x18 x19 x20 x21 x22 x23 x24 x25.
Definition set_jobs_ptr {W : Type} (v : Z) (s : t W) : t W :=
  let 'Build_t x0 _ x2 x3 x4 x5 x6 x7 x8 x9 x10 x11 x12 x13 x14 x15 x16 x17 x18 x19 x20 x21 x22 x23 x24 x25 := s in
  Build_t x0 v x2 x3 x4 x5 x6 x7 x8 x9 x10 x11 x12 x13 x14 x15 x16 x17 x18 x19 x20 x21 x22 x23 x24 x25.
Definition set_jobs {W : Type} (v : list ZSTDMT_jobDescription) (s : t W) : t W :=
  let 'Build_t x0 x1 _ x3 x4 x5 x6 x7 x8 x9 x10 x11 x12 x13 x14 x15 x16 x17 x18 x19 x20 x21 x22 x23 x24 x25 := s in
  Build_t x0 x1 v x3 x4 x5 x6 x7 x8 x9 x10 x11 x12 x13 x14 x15 x16 x17 x18 x19 x20 x21 x22 x23 x24 x25.
Definition set_bufPool {W : Type} (v : ZSTDMT_bufferPool) (s : t W) : t W :=
  let 'Build_t x0 x1 x2 _ x4 x5 x6 x7 x8 x9 x10 x11 x12 x13 x14 x15 x16 x17 x18 x19 x20 x21 x22 x23 x24 x25 := s in
  Build_t x0 x1 x2 v x4 x5 x6 x7 x8 x9 x10 x11 x12 x13 x14 x15 x16 x17 x18 x19 x20 x21 x22 x23 x24 x25.
Definition set_cctxPool {W : Type} (v : ZSTDMT_CCtxPool) (s : t W) : t W :=
  let 'Build_t x0 x1 x2 x3 _ x5 x6 x7 x8 x9 x10 x11 x12 x13 x14 x15 x16 x17 x18 x19 x20 x21 x22 x23 x24 x25 := s in
  Build_t x0 x1 x2 x3 v x5 x6 x7 x8 x9 x10 x11 x12 x13 x14 x15 x16 x17 x18 x19 x20 x21 x22 x23 x24 x25.
Definition set_params {W : Type} (v : ZSTD_CCtx_params) (s : t W) : t W :=
  let 'Build_t x0 x1 x2 x3 x4 _ x6 x7 x8 x9 x10 x11 x12 x13 x14 x15 x16 x17 x18 x19 x20 x21 x22 x23 x24 x25 := s in
  Build_t x0 x1 x2 x3 x4 v x6 x7 x8 x9 x10 x11 x12 x13 x14 x15 x16 x17 x18 x19 x20 x21 x22 x23 x24 x25.
Definition set_targetSectionSize {W : Type} (v : Z) (s : t W) : t W :=
  let 'Build_t x0 x1 x2 x3 x4 x5 _ x7 x8 x9 x10 x11 x12 x13 x14 x15 x16 x17 x18 x19 x20 x21 x22 x23 x24 x25 := s in
  Build_t x0 x1 x2 x3 x4 x5 v x7 x8 x9 x10 x11 x12 x13 x14 x15 x16 x17 x18 x19 x20 x21 x22 x23 x24 x25.
Definition set_inBuffSize {W : Type} (v : Z) (s : t W) : t W :=
  let 'Build_t x0 x1 x2 x3 x4 x5 x6 _ x8 x9 x10 x11 x12 x13 x14 x15 x16 x17 x18 x19 x20 x21 x22 x23 x24 x25 := s in
  Build_t x0 x1 x2 x3 x4 x5 x6 v x8 x9 x10 x11 x12 x13 x14 x15 x16 x17 x18 x19 x20 x21 x22 x23 x24 x25.
Definition set_prefixSize {W : Type} (v : Z) (s : t W) : t W :=
  let 'Build_t x0 x1 x2 x3 x4 x5 x6 x7 _ x9 x10 x11 x12 x13 x14 x15 x16 x17 x18 x19 x20 x21 x22 x23 x24 x25 := s in
  Build_t x0 x1 x2 x3 x4 x5 x6 x7 v x9 x10 x11 x12 x13 x14 x15 x16 x17 x18 x19 x20 x21 x22 x23 x24 x25.
Definition set_targetPrefixSize {W : Type} (v : Z) (s : t W) : t W :=
  let 'Build_t x0 x1 x2 x3 x4 x5 x6 x7 x8 _ x10 x11 x12 x13 x14 x15 x16 x17 x18 x19 x20 x21 x22 x23 x24 x25 := s in
  Build_t x0 x1 x2 x3 x4 x5 x6 x7 x8 v x10 x11 x12 x13 x14 x15 x16 x17 x18 x19 x20 x21 x22 x23 x24 x25.
Definition set_inBuff {W : Type} (v : inBuff_t) (s : t W) : t W :=
  let 'Build_t x0 x1 x2 x3 x4 x5 x6 x7 x8 x9 _ x11 x12 x13 x14 x15 x16 x17 x18 x19 x20 x21 x22 x23 x24 x25 := s in
  Build_t x0 x1 x2 x3 x4 x5 x6 x7 x8 x9 v x11 x12 x13 x14 x15 x16 x17 x18 x19 x20 x21 x22 x23 x24 x25.
Definition set_jobReady {W : Type} (v : Z) (s : t W) : t W :=
  let 'Build_t x0 x1 x2 x3 x4 x5 x6 x7 x8 x9 x10 _ x12 x13 x14 x15 x16 x17 x18 x19 x20 x21 x22 x23 x24 x25 := s in
  Build_t x0 x1 x2 x3 x4 x5 x6 x7 x8 x9 x10 v x12 x13 x14 x15 x16 x17 x18 x19 x20 x21 x22 x23 x24 x25.
Definition set_xxhState {W : Type} (v : XXH64_state_t) (s : t W) : t W :=
  let 'Build_t x0 x1 x2 x3 x4 x5 x6 x7 x8 x9 x10 x11 _ x13 x14 x15 x16 x17 x18 x19 x20 x21 x22 x23 x24 x25 := s in
  Build_t x0 x1 x2 x3 x4 x5 x6 x7 x8 x9 x10 x11 v x13 x14 x15 x16 x17 x18 x19 x20 x21 x22 x23 x24 x25.
Definition set_singleBlockingThread {W : Type} (v : Z) (s : t W) : t W :=
  let 'Build_t x0 x1 x2 x3 x4 x5 x6 x7 x8 x9 x10 x11 x12 _ x14 x15 x16 x17 x18 x19 x20 x21 x22 x23 x24 x25 := s in
  Build_t x0 x1 x2 x3 x4 x5 x6 x7 x8 x9 x10 x11 x12 v x14 x15 x16 x17 x18 x19 x20 x21 x22 x23 x24 x25.
Definition set_jobIDMask {W : Type} (v : Z) (s : t W) : t W :=
  let 'Build_t x0 x1 x2 x3 x4 x5 x6 x7 x8 x9 x10 x11 x12 x13 _ x15 x16 x17 x18 x19 x20 x21 x22 x23 x24 x25 := s in
  Build_t x0 x1 x2 x3 x4 x5 x6 x7 x8 x9 x10 x11 x12 x13 v x15 x16 x17 x18 x19 x20 x21 x22 x23 x24 x25.
Definition set_doneJobID {W : Type} (v : Z) (s : t W) : t W :=
  let 'Build_t x0 x1 x2 x3 x4 x5 x6 x7 x8 x9 x10 x11 x12 x13 x14 _ x16 x17 x18 x19 x20 x21 x22 x23 x24 x25 := s in
  Build_t x0 x1 x2 x3 x4 x5 x6 x7 x8 x9 x10 x11 x12 x13 x14 v x16 x17 x18 x19 x20 x21 x22 x23 x24 x25.
Definition set_nextJobID {W : Type} (v : Z) (s : t W) : t W :=
  let 'Build_t x0 x1 x2 x3 x4 x5 x6 x7 x8 x9 x10 x11 x12 x13 x14 x15 _ x17 x18 x19 x20 x21 x22 x23 x24 x25 := s in
  Build_t x0 x1 x2 x3 x4 x5 x6 x7 x8 x9 x10 x11 x12 x13 x14 x15 v x17 x18 x19 x20 x21 x22 x23 x24 x25.
Definition set_frameEnded {W : Type} (v : Z) (s : t W) : t W :=
  let 'Build_t x0 x1 x2 x3 x4 x5 x6 x7 x8 x9 x10 x11 x12 x13 x14 x15 x16 _ x18 x19 x20 x21 x22 x23 x24 x25 := s in
  Build_t x0 x1 x2 x3 x4 x5 x6 x7 x8 x9 x10 x11 x12 x13 x14 x15 x16 v x18 x19 x20 x21 x22 x23 x24 x25.
Definition set_allJobsCompleted {W : Type} (v : Z) (s : t W) : t W :=
  let 'Build_t x0 x1 x2 x3 x4 x5 x6 x7 x8 x9 x10 x11 x12 x13 x14 x15 x16 x17 _ x19 x20 x21 x22 x23 x24 x25 := s in
  Build_t x0 x1 x2 x3 x4 x5 x6 x7 x8 x9 x10 x11 x12 x13 x14 x15 x16 x17 v x19 x20 x21 x22 x23 x24 x25.
Definition set_frameContentSize {W : Type} (v : Z) (s : t W) : t W :=
  let 'Build_t x0 x1 x2 x3 x4 x5 x6 x7 x8 x9 x10 x11 x12 x13 x14 x15 x16 x17 x18 _ x20 x21 x22 x23 x24 x25 := s in
  Build_t x0 x1 x2 x3 x4 x5 x6 x7 x8 x9 x10 x11 x12 x13 x14 x15 x16 x17 x18 v x20 x21 x22 x23 x24 x25.
Definition set_consumed {W : Type} (v : Z) (s : t W) : t W :=
  let 'Build_t x0 x1 x2 x3 x4 x5 x6 x7 x8 x9 x10 x11 x12 x13 x14 x15 x16 x17 x18 x19 _ x21 x22 x23 x24 x25 := s in
  Build_t x0 x1 x2 x3 x4 x5 x6 x7 x8 x9 x10 x11 x12 x13 x14 x15 x16 x17 x18 x19 v x21 x22 x23 x24 x25.
Definition set_produced {W : Type} (v : Z) (s : t W) : t W :=
  let 'Build_t x0 x1 x2 x3 x4 x5 x6 x7 x8 x9 x10 x11 x12 x13 x14 x15 x16 x17 x18 x19 x20 _ x22 x23 x24 x25 := s in
  Build_t x0 x1 x2 x3 x4 x5 x6 x7 x8 x9 x10 x11 x12 x13 x14 x15 x16 x17 x18 x19 x20 v x22 x23 x24 x25.
Definition set_cdictLocal {W : Type} (v : Z) (s : t W) : t W :=
  let 'Build_t x0 x1 x2 x3 x4 x5 x6 x7 x8 x9 x10 x11 x12 x13 x14 x15 x16 x17 x18 x19 x20 x21 _ x23 x24 x25 := s in
  Build_t x0 x1 x2 x3 x4 x5 x6 x7 x8 x9 x10 x11 x12 x13 x14 x15 x16 x17 x18 x19 x20 x21 v x23 x24 x25.
Definition set_cdict {W : Type} (v : Z) (s : t W) : t W :=
  let 'Build_t x0 x1 x2 x3 x4 x5 x6 x7 x8 x9 x10 x11 x12 x13 x14 x15 x16 x17 x18 x19 x20 x21 x22 _ x24 x25 := s in
  Build_t x0 x1 x2 x3 x4 x5 x6 x7 x8 x9 x10 x11 x12 x13 x14 x15 x16 x17 x18 x19 x20 x21 x22 v x24 x25.
Definition set_memory {W : Type} (v : mem) (s : t W) : t W :=
  let 'Build_t x0 x1 x2 x3 x4 x5 x6 x7 x8 x9 x10 x11 x12 x13 x14 x15 x16 x17 x18 x19 x20 x21 x22 x23 _ x25 := s in
  Build_t x0 x1 x2 x3 x4 x5 x6 x7 x8 x9 x10 x11 x12 x13 x14 x15 x16 x17 x18 x19 x20 x21 x22 x23 v x25.
Definition set_world {W : Type} (v : W) (s : t W) : t W :=
  let 'Build_t x0 x1 x2 x3 x4 x5 x6 x7 x8 x9 x10 x11 x12 x13 x14 x15 x16 x17 x18 x19 x20 x21 x22 x23 x24 _ := s in
  Build_t x0 x1 x2 x3 x4 x5 x6 x7 x8 x9 x10 x11 x12 x13 x14 x15 x16 x17 x18 x19 x20 x21 x22 x23 x24 v.

End mt.


(** Sizes of the C structures this file allocates: parameters fixed by the
    ABI. *)
Class Sizeof : Type := {
  sizeof_ZSTDMT_CCtx : Z;
  sizeof_jobDescription : Z;
  sizeof_bufferPool : Z;
  sizeof_buffer_t : Z;
  sizeof_CCtxPool : Z;
  sizeof_pointer : Z
}.

#[global] Instance toy_sizeof : Sizeof := {|
  sizeof_ZSTDMT_CCtx := 512;
  sizeof_jobDescription := 256;
  sizeof_bufferPool := 80;
  sizeof_buffer_t := 16;
  sizeof_CCtxPool := 64;
  sizeof_pointer := 8
|}.

(** Creation and blocking submission, the other two entries of the thread
    pool that this file calls.  [POOL_create_advanced] tells whether a pool
    was created. *)
Class ThreadPoolAdmin (W : Type) : Type := {
  POOL_create_advanced : Z -> Z -> W -> bool * W;
  POOL_add : W -> W
}.

#[global] Instance toy_pool_admin : ThreadPoolAdmin toy_world := {|
  POOL_create_advanced n _ w :=
    (true, {| next_addr := next_addr w; heap_limit := heap_limit w; free_workers := n |});
  POOL_add w := w
|}.

(** What happens to the shared state while the caller sleeps in
    [ZSTD_pthread_cond_wait]: the workers run. *)
Class Workers (W : Type) : Type := {
  ZSTD_pthread_cond_wait : mt.t W -> mt.t W
}.

Section JobTable.
Context {W : Type}.

Definition job_at (s : mt.t W) (jobID : Z) : ZSTDMT_jobDescription :=
  mt.jobs s !!! Z.to_nat jobID.

(** [zcs->jobs[jobID] = f (zcs->jobs[jobID])]. *)
Definition upd_job_at (jobID : Z) (f : ZSTDMT_jobDescription -> ZSTDMT_jobDescription)
    (s : mt.t W) : mt.t W :=
  mt.set_jobs (<[Z.to_nat jobID := f (job_at s jobID)]> (mt.jobs s)) s.

Definition set_job_at (jobID : Z) (j : ZSTDMT_jobDescription) (s : mt.t W) : mt.t W :=
  mt.set_jobs (<[Z.to_nat jobID := j]> (mt.jobs s)) s.

Definition set_inBuff_buffer (b : buffer_t) (s : mt.t W) : mt.t W :=
  mt.set_inBuff {| buffer := b; filled := filled (mt.inBuff s) |} s.

Definition set_inBuff_filled (v : Z) (s : mt.t W) : mt.t W :=
  mt.set_inBuff {| buffer := buffer (mt.inBuff s); filled := v |} s.

(** [while (blocked) ZSTD_pthread_cond_wait(...)], giving up after [fuel]
    wake-ups. *)
Fixpoint wait_while `{Workers W} (fuel : nat) (blocked : mt.t W -> bool) (s : mt.t W)
  : option (mt.t W) :=
  if blocked s then
    match fuel with
    | O => None
    | S fuel => wait_while fuel blocked (ZSTD_pthread_cond_wait s)
    end
  else Some s.

End JobTable.

Section Orchestrator.
Context {W : Type} `{ZSTD_constants} `{Sizeof} `{Allocator W} `{Compressor W} `{Hash}
  `{ThreadPool W} `{ThreadPoolAdmin W} `{Workers W}.

(** A worker of the pool runs the job of slot [i]. *)
Definition run_worker (i : nat) (s : mt.t W) : mt.t W :=
  let st :=
    ZSTDMT_compressChunk
      {| w_job := mt.jobs s !!! i; w_bufPool := mt.bufPool s; w_cctxPool := mt.cctxPool s;
         w_mem := mt.memory s; w_world := mt.world s |} in
  let s := mt.set_jobs (<[i := w_job st]> (mt.jobs s)) s in
  let s := mt.set_bufPool (w_bufPool st) (mt.set_cctxPool (w_cctxPool st) s) in
  let s := mt.set_memory (w_mem st) (mt.set_world (w_world st) s) in
  mt.set_factory (List.filter (fun k => negb (Nat.eqb k i)) (mt.factory s)) s.

(** [ZSTDMT_allocJobsTable]: the new [*nbJobsPtr] and the table, [None] for
    [NULL]. *)
Definition ZSTDMT_allocJobsTable (nbJobs : Z) (w : W)
  : Z * option (Z * list ZSTDMT_jobDescription) * W :=
  let nbJobsLog2 := U32 (Z.log2 nbJobs + 1) in
  let nbJobs := U32 (Z.shiftl 1 nbJobsLog2) in
  let '(p, w) := ZSTD_calloc (size_t (nbJobs * sizeof_jobDescription)) w in
  (nbJobs,
   if p =? NULL then None else Some (p, replicate (Z.to_nat nbJobs) zero_job),
   w).

Definition ZSTDMT_createBufferPool (nbThreads : Z) (w : W)
  : option ZSTDMT_bufferPool * W :=
  let maxNbBuffers := U32 (2 * nbThreads + 3) in
  let '(p, w) :=
    ZSTD_calloc (size_t (sizeof_bufferPool + U32 (maxNbBuffers - 1) * sizeof_buffer_t)) w in
  if p =? NULL then (None, w)
  else (Some (ZSTDMT_createBufferPool_init nbThreads), w).

Definition ZSTDMT_createCCtxPool (nbThreads : Z) (w : W)
  : option ZSTDMT_CCtxPool * W :=
  let '(p, w) :=
    ZSTD_calloc (size_t (sizeof_CCtxPool + U32 (nbThreads - 1) * sizeof_pointer)) w in
  if p =? NULL then (None, w)
  else
    let '(c, w) := ZSTD_createCCtx_advanced w in
    if c =? NULL then (None, w)
    else (Some {| totalCCtx := nbThreads; availCCtx := 1;
                  cctx := c :: replicate (Z.to_nat (nbThreads - 1)) NULL |}, w).

(** [ZSTDMT_createCCtx_advanced]: [None] when it returns [NULL] (the release
    of what was allocated before the failure is not modelled; the mutex and
    the condition variable always initialise). *)
Definition ZSTDMT_createCCtx_advanced (nbThreads : Z) (m : mem) (w : W)
  : option (mt.t W) :=
  let nbJobs := U32 (nbThreads + 2) in
  if nbThreads <? 1 then None
  else
    let nbThreads := MIN nbThreads ZSTDMT_NBTHREADS_MAX in
    let '(p, w) := ZSTD_calloc sizeof_ZSTDMT_CCtx w in
    if p =? NULL then None
    else
      let '(params, _) := ZSTDMT_CCtxParam_setNbThreads zero_params nbThreads in
      let '(factory_ok, w) := POOL_create_advanced nbThreads 0 w in
      let '(nbJobs, jobs, w) := ZSTDMT_allocJobsTable nbJobs w in
      let '(bufPool, w) := ZSTDMT_createBufferPool nbThreads w in
      let '(cctxPool, w) := ZSTDMT_createCCtxPool nbThreads w in
      match factory_ok, jobs, bufPool, cctxPool with
      | true, Some (jobs_ptr, jobs), Some bufPool, Some cctxPool =>
        Some {| mt.factory := []; mt.jobs_ptr := jobs_ptr; mt.jobs := jobs;
                mt.bufPool := bufPool;
                mt.cctxPool := cctxPool; mt.params := params;
                mt.targetSectionSize := 0; mt.inBuffSize := 0; mt.prefixSize := 0;
                mt.targetPrefixSize := 0;
                mt.inBuff := {| buffer := g_nullBuffer; filled := 0 |};
                mt.jobReady := 0; mt.xxhState := XXH64_reset 0;
                mt.singleBlockingThread := 0; mt.jobIDMask := U32 (nbJobs - 1);
                mt.doneJobID := 0; mt.nextJobID := 0; mt.frameEnded := 0;
                mt.allJobsCompleted := 1; mt.frameContentSize := 0; mt.consumed := 0;
                mt.produced := 0; mt.cdictLocal := NULL; mt.cdict := NULL;
                mt.memory := m; mt.world := w |}
      | _, _, _, _ => None
      end.

(** The loop of [ZSTDMT_releaseAllJobResources], [n] slots from [jobID]. *)
Fixpoint releaseAllJobResources_loop (n : nat) (jobID : Z) (s : mt.t W) : mt.t W :=
  match n with
  | O => s
  | S n =>
    let '(bufPool, w) :=
      ZSTDMT_releaseBuffer (mt.bufPool s) (dstBuff (job_at s jobID)) (mt.world s) in
    let s := mt.set_world w (mt.set_bufPool bufPool s) in
    let s := upd_job_at jobID (set_dstBuff g_nullBuffer) s in
    let '(bufPool, w) :=
      ZSTDMT_releaseBuffer (mt.bufPool s) (src (job_at s jobID)) (mt.world s) in
    let s := mt.set_world w (mt.set_bufPool bufPool s) in
    let s := upd_job_at jobID (set_src g_nullBuffer) s in
    releaseAllJobResources_loop n (jobID + 1) s
  end.

(** Note : ensure all workers are killed first ! *)
Definition ZSTDMT_releaseAllJobResources (s : mt.t W) : mt.t W :=
  let nbJobs := Z.to_nat (mt.jobIDMask s + 1) in
  let s := releaseAllJobResources_loop nbJobs 0 s in
  let s := mt.set_jobs (replicate nbJobs zero_job ++ drop nbJobs (mt.jobs s)) s in
  let '(bufPool, w) :=
    ZSTDMT_releaseBuffer (mt.bufPool s) (buffer (mt.inBuff s)) (mt.world s) in
  let s := mt.set_world w (mt.set_bufPool bufPool s) in
  let s := set_inBuff_buffer g_nullBuffer s in
  mt.set_allJobsCompleted 1 s.

(** The outer loop of [ZSTDMT_waitForAllJobsCompleted], at most [n] jobs. *)
Fixpoint waitForAllJobsCompleted_loop (fuel n : nat) (s : mt.t W) : option (mt.t W) :=
  match n with
  | O => Some s
  | S n =>
    if mt.doneJobID s <? mt.nextJobID s then
      let jobID := Z.land (mt.doneJobID s) (mt.jobIDMask s) in
      match wait_while fuel (fun s => jobCompleted (job_at s jobID) =? 0) s with
      | None => None
      | Some s =>
        waitForAllJobsCompleted_loop fuel n (mt.set_doneJobID (U32 (mt.doneJobID s + 1)) s)
      end
    else Some s
  end.

Definition ZSTDMT_waitForAllJobsCompleted (fuel : nat) (s : mt.t W) : option (mt.t W) :=
  waitForAllJobsCompleted_loop fuel (Z.to_nat (mt.nextJobID s - mt.doneJobID s)) s.

End Orchestrator.

(** ** Streaming *)

Section Streaming.
Context {W : Type} `{ZSTD_constants} `{Sizeof} `{Allocator W} `{Compressor W} `{Hash}
  `{ThreadPool W} `{ThreadPoolAdmin W} `{Workers W}.

(** The sizing of [ZSTDMT_initCStream_internal]: the automatic job size. *)
Definition initCStream_jobSize (params : ZSTD_CCtx_params) : ZSTD_CCtx_params :=
  let params :=
    if jobSize params =? 0 then
      if windowLog (cParams params) >=? 29
      then set_jobSize ZSTDMT_JOBSIZE_MAX params
      else set_jobSize (U32 (Z.shiftl 1 (U32 (windowLog (cParams params) + 2)))) params
    else params in
  if jobSize params >? ZSTDMT_JOBSIZE_MAX then set_jobSize ZSTDMT_JOBSIZE_MAX params
  else params.

Definition ZSTDMT_initCStream_internal (fuel : nat) (zcs : mt.t W)
    (dict dictSize : Z) (dictMode : ZSTD_dictMode_e) (cdict : Z)
    (params : ZSTD_CCtx_params) (pledgedSrcSize : Z)
  : option (Z * mt.t W) :=
  (* do not trigger multi-threading when srcSize is too small *)
  let zcs := mt.set_singleBlockingThread (c_bool (pledgedSrcSize <=? ZSTDMT_JOBSIZE_MIN)) zcs in
  let params := initCStream_jobSize params in
  if truthy (mt.singleBlockingThread zcs) then
    let singleThreadParams := ZSTDMT_initJobCCtxParams params in
    let '(r, w) :=
      ZSTD_initCStream_internal (cctx (mt.cctxPool zcs) !!! 0%nat) dict dictSize cdict
        singleThreadParams pledgedSrcSize (mt.memory zcs) (mt.world zcs) in
    Some (r, mt.set_world w zcs)
  else
    let cleaned :=
      if mt.allJobsCompleted zcs =? 0 then
        (* previous compression not correctly finished *)
        match ZSTDMT_waitForAllJobsCompleted fuel zcs with
        | None => None
        | Some zcs => Some (mt.set_allJobsCompleted 1 (ZSTDMT_releaseAllJobResources zcs))
        end
      else Some zcs in
    match cleaned with
    | None => None
    | Some zcs =>
      let zcs := mt.set_params params zcs in
      let zcs := mt.set_frameContentSize pledgedSrcSize zcs in
      let zcs := mt.set_world (ZSTD_freeCDict (mt.cdictLocal zcs) (mt.world zcs)) zcs in
      let zcs :=
        if truthy dict then
          (* note : a loadPrefix becomes an internal CDict *)
          let '(cd, w) :=
            ZSTD_createCDict_advanced dict dictSize dictMode (cParams params)
              (mt.memory zcs) (mt.world zcs) in
          mt.set_cdict cd (mt.set_cdictLocal cd (mt.set_world w zcs))
        else mt.set_cdict cdict (mt.set_cdictLocal NULL zcs) in
      if truthy dict && (mt.cdictLocal zcs =? NULL) then Some (ERROR memory_allocation, zcs)
      else
        let zcs :=
          mt.set_targetPrefixSize
            (if overlapSizeLog params =? 0 then 0
             else size_t (Z.shiftl 1 (U32 (windowLog (cParams params)
                                           - U32 (9 - overlapSizeLog params))))) zcs in
        let zcs := mt.set_targetSectionSize (jobSize params) zcs in
        let zcs :=
          if mt.targetSectionSize zcs <? ZSTDMT_JOBSIZE_MIN
          then mt.set_targetSectionSize ZSTDMT_JOBSIZE_MIN zcs else zcs in
        let zcs :=
          (* job size must be >= overlap size *)
          if mt.targetSectionSize zcs <? mt.targetPrefixSize zcs
          then mt.set_targetSectionSize (mt.targetPrefixSize zcs) zcs else zcs in
        let zcs :=
          mt.set_inBuffSize (size_t (mt.targetPrefixSize zcs + mt.targetSectionSize zcs)) zcs in
        let zcs :=
          mt.set_bufPool
            (ZSTDMT_setBufferSize (mt.bufPool zcs)
               (MAX (mt.inBuffSize zcs) (ZSTD_compressBound (mt.targetSectionSize zcs)))) zcs in
        let zcs := set_inBuff_buffer g_nullBuffer zcs in
        let zcs := mt.set_prefixSize 0 zcs in
        let zcs := mt.set_doneJobID 0 zcs in
        let zcs := mt.set_nextJobID 0 zcs in
        let zcs := mt.set_frameEnded 0 zcs in
        let zcs := mt.set_allJobsCompleted 0 zcs in
        let zcs := mt.set_consumed 0 zcs in
        let zcs := mt.set_produced 0 zcs in
        let zcs :=
          if truthy (checksumFlag (fParams params))
          then mt.set_xxhState (XXH64_reset 0) zcs else zcs in
        Some (0, zcs)
    end.

(** [ZSTDMT_resetCStream]: pledgedSrcSize can be zero == unknown (for the
    time being). *)
Definition ZSTDMT_resetCStream (fuel : nat) (zcs : mt.t W) (pledgedSrcSize : Z)
  : option (Z * mt.t W) :=
  let pledgedSrcSize :=
    if negb (truthy pledgedSrcSize) then ZSTD_CONTENTSIZE_UNKNOWN else pledgedSrcSize in
  if nbThreads (mt.params zcs) =? 1 then
    let '(r, w) :=
      ZSTD_resetCStream (cctx (mt.cctxPool zcs) !!! 0%nat) pledgedSrcSize (mt.world zcs) in
    Some (r, mt.set_world w zcs)
  else
    ZSTDMT_initCStream_internal fuel zcs NULL 0 ZSTD_dm_auto 0 (mt.params zcs) pledgedSrcSize.

(** The job that [ZSTDMT_createCompressionJob] prepares in the slot of
    [nextJobID]. *)
Definition prepared_job (zcs : mt.t W) (srcSize endFrame : Z) : ZSTDMT_jobDescription :=
  {| src := buffer (mt.inBuff zcs);
     srcStart := start (buffer (mt.inBuff zcs));
     srcSize := srcSize;
     consumed := 0;
     cSize := 0;
     prefixSize := mt.prefixSize zcs;
     params :=
       (* do not calculate checksum within sections, but write it in header
          for first section *)
       if truthy (mt.nextJobID zcs)
       then set_fParams (set_checksumFlag 0 (fParams (mt.params zcs))) (mt.params zcs)
       else mt.params zcs;
     cdict := if mt.nextJobID zcs =? 0 then mt.cdict zcs else NULL;
     fullFrameSize := mt.frameContentSize zcs;
     dstBuff := g_nullBuffer;
     firstChunk := c_bool (mt.nextJobID zcs =? 0);
     lastChunk := endFrame;
     jobCompleted := 0;
     frameChecksumNeeded :=
       c_bool (truthy endFrame && (mt.nextJobID zcs >? 0)
               && truthy (checksumFlag (fParams (mt.params zcs))));
     dstFlushed := 0 |}.

(** The part of [ZSTDMT_createCompressionJob] under [if (!zcs->jobReady)]:
    [inl] is an early [return]. *)
Definition createCompressionJob_prepare (fuel : nat) (zcs : mt.t W) (jobID srcSize endFrame : Z)
  : option (Z * mt.t W + mt.t W) :=
  let zcs := set_job_at jobID (prepared_job zcs srcSize endFrame) zcs in
  let zcs :=
    if truthy (checksumFlag (fParams (mt.params zcs))) then
      mt.set_xxhState
        (XXH64_update (mt.xxhState zcs) (mt.memory zcs)
           (start (buffer (mt.inBuff zcs)) + mt.prefixSize zcs) srcSize) zcs
    else zcs in
  (* get a new buffer for next input *)
  if negb (truthy endFrame) then
    let newPrefixSize := MIN (size_t (srcSize + mt.prefixSize zcs)) (mt.targetPrefixSize zcs) in
    let '(b, bufPool, w) := ZSTDMT_getBuffer (mt.bufPool zcs) (mt.world zcs) in
    let zcs := set_inBuff_buffer b (mt.set_world w (mt.set_bufPool bufPool zcs)) in
    if start (buffer (mt.inBuff zcs)) =? NULL then
      (* not enough memory to allocate next input buffer *)
      let zcs := upd_job_at jobID (set_jobCompleted 1) zcs in
      let zcs := mt.set_nextJobID (U32 (mt.nextJobID zcs + 1)) zcs in
      match ZSTDMT_waitForAllJobsCompleted fuel zcs with
      | None => None
      | Some zcs => Some (inl (ERROR memory_allocation, ZSTDMT_releaseAllJobResources zcs))
      end
    else
      let zcs :=
        set_inBuff_filled
          (size_t (filled (mt.inBuff zcs) - size_t (srcSize + mt.prefixSize zcs - newPrefixSize)))
          zcs in
      let zcs :=
        (* copy end of current job into next job, as "prefix" *)
        mt.set_memory
          (memmove (mt.memory zcs) (start (buffer (mt.inBuff zcs)))
             (srcStart (job_at zcs jobID) + mt.prefixSize zcs + srcSize - newPrefixSize)
             (filled (mt.inBuff zcs))) zcs in
      Some (inr (mt.set_prefixSize newPrefixSize zcs))
  else
    (* endFrame==1 => no need for another input buffer *)
    let zcs := mt.set_inBuff {| buffer := g_nullBuffer; filled := 0 |} zcs in
    let zcs := mt.set_prefixSize 0 zcs in
    let zcs := mt.set_frameEnded 1 zcs in
    if mt.nextJobID zcs =? 0 then
      (* single chunk exception : checksum is calculated directly within
         worker thread *)
      Some (inr (mt.set_params
                   (set_fParams (set_checksumFlag 0 (fParams (mt.params zcs))) (mt.params zcs))
                   zcs))
    else Some (inr zcs).

(** The end of [ZSTDMT_createCompressionJob]: post the job. *)
Definition createCompressionJob_post (zcs : mt.t W) (jobID : Z) : Z * mt.t W :=
  let '(accepted, w) := POOL_tryAdd (mt.world zcs) in
  let zcs := mt.set_world w zcs in
  if accepted then
    let zcs := mt.set_factory (mt.factory zcs ++ [Z.to_nat jobID]) zcs in
    let zcs := mt.set_nextJobID (U32 (mt.nextJobID zcs + 1)) zcs in
    (0, mt.set_jobReady 0 zcs)
  else
    (0, mt.set_jobReady 1 zcs).

Definition ZSTDMT_createCompressionJob (fuel : nat) (zcs : mt.t W) (srcSize endFrame : Z)
  : option (Z * mt.t W) :=
  let jobID := Z.land (mt.nextJobID zcs) (mt.jobIDMask zcs) in
  if mt.nextJobID zcs >? U32 (mt.doneJobID zcs + mt.jobIDMask zcs) then
    (* will not create new job : table is full *)
    Some (0, zcs)
  else if negb (truthy (mt.jobReady zcs)) then
    match createCompressionJob_prepare fuel zcs jobID srcSize endFrame with
    | None => None
    | Some (inl r) => Some r
    | Some (inr zcs) => Some (createCompressionJob_post zcs jobID)
    end
  else Some (createCompressionJob_post zcs jobID).

End Streaming.

Section Flush.
Context {W : Type} `{ZSTD_constants} `{Sizeof} `{Allocator W} `{Compressor W} `{Hash}
  `{ThreadPool W} `{ThreadPoolAdmin W} `{Workers W}.

Definition set_o_pos (v : Z) (o : ZSTD_outBuffer) : ZSTD_outBuffer :=
  {| o_dst := o_dst o; o_size := o_size o; o_pos := v |}.
Definition set_i_pos (v : Z) (i : ZSTD_inBuffer) : ZSTD_inBuffer :=
  {| i_src := i_src i; i_size := i_size i; i_pos := v |}.

(** The wait at the head of [ZSTDMT_flushProduced]: block when nothing is
    available to flush but more is to come. *)
Definition flushProduced_wait (fuel : nat) (zcs : mt.t W) (wJobID blockToFlush : Z)
  : option (mt.t W) :=
  if truthy blockToFlush && (mt.doneJobID zcs <? mt.nextJobID zcs) then
    wait_while fuel
      (fun zcs =>
         (dstFlushed (job_at zcs wJobID) =? cSize (job_at zcs wJobID))
         && negb (jobCompleted (job_at zcs wJobID) =? 1))
      zcs
  else Some zcs.

(** Add frame checksum if necessary (can only happen once): the local copy
    [job], and the context. *)
Definition flushProduced_checksum (zcs : mt.t W) (wJobID : Z) (job : ZSTDMT_jobDescription)
  : ZSTDMT_jobDescription * mt.t W :=
  if truthy (jobCompleted job) && truthy (frameChecksumNeeded job) then
    let checksum := U32 (XXH64_digest (mt.xxhState zcs)) in
    let zcs :=
      mt.set_memory (MEM_writeLE32 (mt.memory zcs) (start (dstBuff job) + cSize job) checksum)
        zcs in
    let job := set_cSize (size_t (cSize job + 4)) job in
    let zcs := upd_job_at wJobID (fun j => set_cSize (size_t (cSize j + 4)) j) zcs in
    let zcs := upd_job_at wJobID (set_frameChecksumNeeded 0) zcs in
    (job, zcs)
  else (job, zcs).

(** One buffer present : some job is ongoing. *)
Definition flushProduced_copy (zcs : mt.t W) (output : ZSTD_outBuffer) (wJobID : Z)
    (job : ZSTDMT_jobDescription)
  : ZSTDMT_jobDescription * mt.t W * ZSTD_outBuffer :=
  if negb (start (dstBuff job) =? NULL) then
    let toWrite :=
      MIN (size_t (cSize job - dstFlushed job)) (size_t (o_size output - o_pos output)) in
    let zcs :=
      mt.set_memory
        (memcpy (mt.memory zcs) (o_dst output + o_pos output)
           (start (dstBuff job) + dstFlushed job) toWrite) zcs in
    let output := set_o_pos (size_t (o_pos output + toWrite)) output in
    let job := set_dstFlushed (size_t (dstFlushed job + toWrite)) job in
    if truthy (jobCompleted job) && (dstFlushed job =? cSize job) then
      (* output buffer fully flushed => move to next one *)
      let '(bufPool, w) :=
        ZSTDMT_releaseBuffer (mt.bufPool zcs) (dstBuff job) (mt.world zcs) in
      let zcs := mt.set_world w (mt.set_bufPool bufPool zcs) in
      let zcs := upd_job_at wJobID (set_dstBuff g_nullBuffer) zcs in
      let zcs := upd_job_at wJobID (set_jobCompleted 0) zcs in
      let zcs := mt.set_consumed (U64 (mt.consumed zcs + srcSize job)) zcs in
      let zcs := mt.set_produced (U64 (mt.produced zcs + cSize job)) zcs in
      let zcs := mt.set_doneJobID (U32 (mt.doneJobID zcs + 1)) zcs in
      (job, zcs, output)
    else
      (* remember how much was flushed for next attempt *)
      (job, upd_job_at wJobID (set_dstFlushed (dstFlushed job)) zcs, output)
  else (job, zcs, output).

(** Return value : how many bytes left in buffer ; fake it to 1 when unknown
    but >0. *)
Definition flushProduced_return (zcs : mt.t W) (job : ZSTDMT_jobDescription)
  : Z * mt.t W :=
  if cSize job >? dstFlushed job then (size_t (cSize job - dstFlushed job), zcs)
  else if srcSize job >? consumed job then (1, zcs)   (* current job not completely compressed *)
  else if mt.doneJobID zcs <? mt.nextJobID zcs then (1, zcs)   (* some more jobs to flush *)
  else if truthy (mt.jobReady zcs) then (1, zcs)   (* at least one more job to do ! *)
  else if filled (mt.inBuff zcs) >? 0 then (1, zcs)   (* input not empty *)
  else
    (* last frame entirely flushed *)
    (0, mt.set_allJobsCompleted (mt.frameEnded zcs) zcs).

Definition ZSTDMT_flushProduced (fuel : nat) (zcs : mt.t W) (output : ZSTD_outBuffer)
    (blockToFlush : Z)
  : option (Z * mt.t W * ZSTD_outBuffer) :=
  let wJobID := Z.land (mt.doneJobID zcs) (mt.jobIDMask zcs) in
  match flushProduced_wait fuel zcs wJobID blockToFlush with
  | None => None
  | Some zcs =>
    (* some output is available to be flushed *)
    let job := job_at zcs wJobID in
    if ZSTD_isError (cSize job) then
      match ZSTDMT_waitForAllJobsCompleted fuel zcs with
      | None => None
      | Some zcs => Some (cSize job, ZSTDMT_releaseAllJobResources zcs, output)
      end
    else
      let '(job, zcs) := flushProduced_checksum zcs wJobID job in
      let '(job, zcs, output) := flushProduced_copy zcs output wJobID job in
      let '(r, zcs) := flushProduced_return zcs job in
      Some (r, zcs, output)
  end.

End Flush.

(** ** One-shot compression *)

Section OneShot.
Context {W : Type} `{ZSTD_constants} `{Sizeof} `{Allocator W} `{Compressor W} `{Hash}
  `{ThreadPool W} `{ThreadPoolAdmin W} `{Workers W}.

(** The locals that the dispatch loop of
    [ZSTDMT_compress_advanced_internal] carries from chunk to chunk. *)
Record dispatch_state := {
  remainingSrcSize : Z;
  frameStartPos : Z;
  dstBufferPos : Z;
  xxh64 : XXH64_state_t
}.

(** The job of chunk [u]; the two fields the loop does not assign keep the
    value [old] had. *)
Definition oneshot_job (old : ZSTDMT_jobDescription) (u nbChunks : Z)
    (srcStart' frameStartPos' chunkSize dictSize srcSize' cdict' : Z)
    (jobParams : ZSTD_CCtx_params) (dstBuffer : buffer_t) : ZSTDMT_jobDescription :=
  {| src := g_nullBuffer;
     srcStart := srcStart' + frameStartPos' - dictSize;
     prefixSize := dictSize;
     srcSize := chunkSize;
     consumed := 0;
     cSize := 0;
     cdict := if u =? 0 then cdict' else NULL;
     fullFrameSize := srcSize';
     params :=
       (* do not calculate checksum within sections, but write it in header
          for first section *)
       if negb (u =? 0) then set_fParams (set_checksumFlag 0 (fParams jobParams)) jobParams
       else jobParams;
     dstBuff := dstBuffer;
     firstChunk := c_bool (u =? 0);
     lastChunk := c_bool (u =? U32 (nbChunks - 1));
     jobCompleted := 0;
     dstFlushed := dstFlushed old;
     frameChecksumNeeded := frameChecksumNeeded old |}.

(** The dispatch loop, [n] chunks from chunk [u]. *)
Fixpoint oneshot_dispatch (n : nat) (u nbChunks compressWithinDst avgChunkSize' overlapSize' : Z)
    (dst srcStart' srcSize' cdict' : Z) (params jobParams : ZSTD_CCtx_params)
    (d : dispatch_state) (mtctx : mt.t W) : dispatch_state * mt.t W :=
  match n with
  | O => (d, mtctx)
  | S n =>
    let chunkSize := MIN (remainingSrcSize d) avgChunkSize' in
    let dstBufferCapacity := ZSTD_compressBound chunkSize in
    let dstAsBuffer := {| start := dst + dstBufferPos d; size := dstBufferCapacity |} in
    let dstBuffer := if u <? compressWithinDst then dstAsBuffer else g_nullBuffer in
    let dictSize := if truthy u then overlapSize' else 0 in
    let mtctx :=
      set_job_at u
        (oneshot_job (job_at mtctx u) u nbChunks srcStart' (frameStartPos d) chunkSize
           dictSize srcSize' cdict' jobParams dstBuffer) mtctx in
    let xxh :=
      if truthy (checksumFlag (fParams params))
      then XXH64_update (xxh64 d) (mt.memory mtctx) (srcStart' + frameStartPos d) chunkSize
      else xxh64 d in
    let mtctx := mt.set_world (POOL_add (mt.world mtctx)) mtctx in
    let mtctx := mt.set_factory (mt.factory mtctx ++ [Z.to_nat u]) mtctx in
    let d :=
      {| remainingSrcSize := size_t (remainingSrcSize d - chunkSize);
         frameStartPos := size_t (frameStartPos d + chunkSize);
         dstBufferPos := size_t (dstBufferPos d + dstBufferCapacity);
         xxh64 := xxh |} in
    oneshot_dispatch n (U32 (u + 1)) nbChunks compressWithinDst avgChunkSize' overlapSize'
      dst srcStart' srcSize' cdict' params jobParams d mtctx
  end.

(** Collect result: [n] chunks from [chunkID], with the locals [error] and
    [dstPos]. *)
Fixpoint oneshot_collect (fuel n : nat) (chunkID compressWithinDst dst dstCapacity : Z)
    (error dstPos : Z) (mtctx : mt.t W) : option (Z * Z * mt.t W) :=
  match n with
  | O => Some (error, dstPos, mtctx)
  | S n =>
    match wait_while fuel (fun s => jobCompleted (job_at s chunkID) =? 0) mtctx with
    | None => None
    | Some mtctx =>
      let mtctx := upd_job_at chunkID (set_srcStart NULL) mtctx in
      let cSize' := cSize (job_at mtctx chunkID) in
      let error := if ZSTD_isError cSize' then cSize' else error in
      let error :=
        if negb (truthy error) && (size_t (dstPos + cSize') >? dstCapacity)
        then ERROR dstSize_tooSmall else error in
      let mtctx :=
        if truthy chunkID then
          (* note : chunk 0 is written directly at dst, which is correct position *)
          let mtctx :=
            if negb (truthy error) then
              (* may overlap when chunk compressed within dst *)
              mt.set_memory
                (memmove (mt.memory mtctx) (dst + dstPos)
                   (start (dstBuff (job_at mtctx chunkID))) cSize') mtctx
            else mtctx in
          if chunkID >=? compressWithinDst then
            (* chunk compressed into its own buffer, which must be released *)
            let '(bufPool, w) :=
              ZSTDMT_releaseBuffer (mt.bufPool mtctx) (dstBuff (job_at mtctx chunkID))
                (mt.world mtctx) in
            mt.set_world w (mt.set_bufPool bufPool mtctx)
          else mtctx
        else mtctx in
      let mtctx := upd_job_at chunkID (set_dstBuff g_nullBuffer) mtctx in
      let dstPos := size_t (dstPos + cSize') in
      oneshot_collect fuel n (U32 (chunkID + 1)) compressWithinDst dst dstCapacity
        error dstPos mtctx
    end
  end.

(** [ZSTDMT_compress_advanced_internal] is a blocking function : it will
    only give back control to caller after finishing its compression job. *)
Definition ZSTDMT_compress_advanced_internal (fuel : nat) (mtctx : mt.t W)
    (dst dstCapacity src srcSize cdict : Z) (params : ZSTD_CCtx_params)
  : option (Z * mt.t W) :=
  let jobParams := ZSTDMT_initJobCCtxParams params in
  let nbChunks := ZSTDMT_computeNbChunks srcSize (windowLog (cParams params)) (nbThreads params) in
  let avg := avgChunkSize srcSize nbChunks in
  let compressWithinDst :=
    if dstCapacity >=? ZSTD_compressBound srcSize then nbChunks
    else U32 (dstCapacity / ZSTD_compressBound avg) in
  if (nbChunks =? 1) || (nbThreads params <=? 1) then
    (* fallback to single-thread mode : this is a blocking invocation anyway *)
    let cctx0 := cctx (mt.cctxPool mtctx) !!! 0%nat in
    let '(r, m, w) :=
      if truthy cdict
      then ZSTD_compress_usingCDict_advanced cctx0 dst dstCapacity src srcSize cdict
             (fParams jobParams) (mt.memory mtctx) (mt.world mtctx)
      else ZSTD_compress_advanced_internal cctx0 dst dstCapacity src srcSize NULL 0
             jobParams (mt.memory mtctx) (mt.world mtctx) in
    Some (r, mt.set_world w (mt.set_memory m mtctx))
  else
    let mtctx :=
      mt.set_bufPool (ZSTDMT_setBufferSize (mt.bufPool mtctx) (ZSTD_compressBound avg)) mtctx in
    let xxh := XXH64_reset 0 in
    let enlarged :=
      if nbChunks >? U32 (mt.jobIDMask mtctx + 1) then
        (* enlarge job table *)
        let mtctx := mt.set_world (ZSTD_free (mt.jobs_ptr mtctx) (mt.world mtctx)) mtctx in
        let mtctx := mt.set_jobIDMask 0 mtctx in
        let '(nbJobs, table, w) := ZSTDMT_allocJobsTable nbChunks (mt.world mtctx) in
        let mtctx := mt.set_world w mtctx in
        match table with
        | None => inl (mt.set_jobs [] (mt.set_jobs_ptr NULL mtctx))
        | Some (p, jobs) =>
          inr (mt.set_jobIDMask (U32 (nbJobs - 1)) (mt.set_jobs jobs (mt.set_jobs_ptr p mtctx)))
        end
      else inr mtctx in
    match enlarged with
    | inl mtctx => Some (ERROR memory_allocation, mtctx)
    | inr mtctx =>
      let '(d, mtctx) :=
        oneshot_dispatch (Z.to_nat nbChunks) 0 nbChunks compressWithinDst avg
          (overlapSize params) dst src srcSize cdict params jobParams
          {| remainingSrcSize := srcSize; frameStartPos := 0; dstBufferPos := 0;
             xxh64 := xxh |} mtctx in
      match oneshot_collect fuel (Z.to_nat nbChunks) 0 compressWithinDst dst dstCapacity
              0 0 mtctx with
      | None => None
      | Some (error, dstPos, mtctx) =>
        let '(error, dstPos, mtctx) :=
          if truthy (checksumFlag (fParams params)) then
            let checksum := U32 (XXH64_digest (xxh64 d)) in
            if size_t (dstPos + 4) >? dstCapacity then (ERROR dstSize_tooSmall, dstPos, mtctx)
            else
              (error, size_t (dstPos + 4),
               mt.set_memory (MEM_writeLE32 (mt.memory mtctx) (dst + dstPos) checksum) mtctx)
          else (error, dstPos, mtctx) in
        Some (if truthy error then error else dstPos, mtctx)
      end
    end.

End OneShot.

(** ** The streaming entry points *)

Section Stream.
Context {W : Type} `{ZSTD_constants} `{Sizeof} `{Allocator W} `{Compressor W} `{Hash}
  `{ThreadPool W} `{ThreadPoolAdmin W} `{Workers W}.

Definition endOp_eqb (a b : ZSTD_EndDirective) : bool :=
  match a, b with
  | ZSTD_e_continue, ZSTD_e_continue | ZSTD_e_flush, ZSTD_e_flush
  | ZSTD_e_end, ZSTD_e_end => true
  | _, _ => false
  end.

(** Fill input buffer: [inl] is an early [return]; otherwise the context,
    the input, [forwardInputProgress] and [endOp]. *)
Definition compressStream_fill (mtctx : mt.t W) (input : ZSTD_inBuffer)
    (endOp : ZSTD_EndDirective)
  : Z * mt.t W + mt.t W * ZSTD_inBuffer * Z * ZSTD_EndDirective :=
  if negb (truthy (mt.jobReady mtctx)) && (i_size input >? i_pos input) then
    (* support NULL input *)
    let allocated :=
      if start (buffer (mt.inBuff mtctx)) =? NULL then
        (* note : allocation can fail, in which case, no forward input progress *)
        let '(b, bufPool, w) := ZSTDMT_getBuffer (mt.bufPool mtctx) (mt.world mtctx) in
        let mtctx := mt.set_world w (mt.set_bufPool bufPool mtctx) in
        let mtctx := mt.set_inBuff {| buffer := b; filled := 0 |} mtctx in
        if (start (buffer (mt.inBuff mtctx)) =? NULL)       (* allocation failure *)
           && (mt.doneJobID mtctx =? mt.nextJobID mtctx)    (* and nothing to flush *)
        then
          (* no forward progress possible => output an error *)
          inl (ERROR memory_allocation, mtctx)
        else inr mtctx
      else inr mtctx in
    match allocated with
    | inl r => inl r
    | inr mtctx =>
      let '(mtctx, input, forwardInputProgress) :=
        if negb (start (buffer (mt.inBuff mtctx)) =? NULL) then
          let toLoad :=
            MIN (size_t (i_size input - i_pos input))
                (size_t (mt.inBuffSize mtctx - filled (mt.inBuff mtctx))) in
          let mtctx :=
            mt.set_memory
              (memcpy (mt.memory mtctx)
                 (start (buffer (mt.inBuff mtctx)) + filled (mt.inBuff mtctx))
                 (i_src input + i_pos input) toLoad) mtctx in
          let input := set_i_pos (size_t (i_pos input + toLoad)) input in
          let mtctx := set_inBuff_filled (size_t (filled (mt.inBuff mtctx) + toLoad)) mtctx in
          (mtctx, input, c_bool (toLoad >? 0))
        else (mtctx, input, 0) in
      let endOp :=
        if (i_pos input <? i_size input) && endOp_eqb endOp ZSTD_e_end
        then ZSTD_e_flush   (* can't end now : not all input consumed *)
        else endOp in
      inr (mtctx, input, forwardInputProgress, endOp)
    end
  else inr (mtctx, input, 0, endOp).

(** The single-pass shortcut of [ZSTDMT_compressStream_generic], from the
    call of the one-shot compression on. *)
Definition compressStream_shortcut (fuel : nat) (mtctx : mt.t W)
    (output : ZSTD_outBuffer) (input : ZSTD_inBuffer)
  : option (Z * mt.t W * ZSTD_outBuffer * ZSTD_inBuffer) :=
  match ZSTDMT_compress_advanced_internal fuel mtctx
          (o_dst output + o_pos output) (size_t (o_size output - o_pos output))
          (i_src input + i_pos input) (size_t (i_size input - i_pos input))
          (mt.cdict mtctx) (mt.params mtctx) with
  | None => None
  | Some (cSize', mtctx) =>
    if ZSTD_isError cSize' then Some (cSize', mtctx, output, input)
    else
      let input := set_i_pos (i_size input) input in
      let output := set_o_pos (size_t (o_pos output + cSize')) output in
      (* was allocated in initStream *)
      let '(bufPool, w) :=
        ZSTDMT_releaseBuffer (mt.bufPool mtctx) (buffer (mt.inBuff mtctx)) (mt.world mtctx) in
      let mtctx := mt.set_world w (mt.set_bufPool bufPool mtctx) in
      let mtctx := mt.set_allJobsCompleted 1 mtctx in
      let mtctx := mt.set_frameEnded 1 mtctx in
      Some (0, mtctx, output, input)
  end.

(** [ZSTDMT_compressStream_generic]: the returned value, the context, the
    output and the input. *)
Definition ZSTDMT_compressStream_generic (fuel : nat) (mtctx : mt.t W)
    (output : ZSTD_outBuffer) (input : ZSTD_inBuffer) (endOp : ZSTD_EndDirective)
  : option (Z * mt.t W * ZSTD_outBuffer * ZSTD_inBuffer) :=
  let newJobThreshold := size_t (mt.prefixSize mtctx + mt.targetSectionSize mtctx) in
  if truthy (mt.singleBlockingThread mtctx) then
    (* delegate to single-thread (synchronous) *)
    let '(r, output, input, m, w) :=
      ZSTD_compressStream_generic (cctx (mt.cctxPool mtctx) !!! 0%nat) output input endOp
        (mt.memory mtctx) (mt.world mtctx) in
    Some (r, mt.set_world w (mt.set_memory m mtctx), output, input)
  else if truthy (mt.frameEnded mtctx) && endOp_eqb endOp ZSTD_e_continue then
    (* current frame being ended. Only flush/end are allowed *)
    Some (ERROR stage_wrong, mtctx, output, input)
  else if (mt.nextJobID mtctx =? 0)                  (* just started *)
          && (filled (mt.inBuff mtctx) =? 0)         (* nothing buffered *)
          && endOp_eqb endOp ZSTD_e_end              (* end order *)
          && (size_t (o_size output - o_pos output)
              >=? ZSTD_compressBound (size_t (i_size input - i_pos input)))  (* enough room *)
  then
    (* single-pass shortcut (note : synchronous-mode) *)
    compressStream_shortcut fuel mtctx output input
  else
    match compressStream_fill mtctx input endOp with
    | inl (r, mtctx) => Some (r, mtctx, output, input)
    | inr (mtctx, input, forwardInputProgress, endOp) =>
      let created :=
        if truthy (mt.jobReady mtctx)
           || (filled (mt.inBuff mtctx) >=? newJobThreshold)   (* filled enough : let's compress *)
           || (negb (endOp_eqb endOp ZSTD_e_continue) && (filled (mt.inBuff mtctx) >? 0))
                                                               (* something to flush : let's go *)
           || (endOp_eqb endOp ZSTD_e_end && negb (truthy (mt.frameEnded mtctx)))
                                               (* must finish the frame with a zero-size block *)
        then
          let jobSize' :=
            MIN (size_t (filled (mt.inBuff mtctx) - mt.prefixSize mtctx))
                (mt.targetSectionSize mtctx) in
          ZSTDMT_createCompressionJob fuel mtctx jobSize' (c_bool (endOp_eqb endOp ZSTD_e_end))
        else Some (0, mtctx) in
      match created with
      | None => None
      | Some (errcod, mtctx) =>
        if ZSTD_isError errcod then Some (errcod, mtctx, output, input)
        else
          (* check for potential compressed data ready to be flushed; block if
             there was no forward input progress *)
          match ZSTDMT_flushProduced fuel mtctx output
                  (c_bool (negb (truthy forwardInputProgress))) with
          | None => None
          | Some (remainingToFlush, mtctx, output) =>
            if i_pos input <? i_size input
            then Some (MAX remainingToFlush 1, mtctx, output, input)
                 (* input not consumed : do not flush yet *)
            else Some (remainingToFlush, mtctx, output, input)
          end
      end
    end.

Definition ZSTDMT_compressStream (fuel : nat) (zcs : mt.t W)
    (output : ZSTD_outBuffer) (input : ZSTD_inBuffer)
  : option (Z * mt.t W * ZSTD_outBuffer * ZSTD_inBuffer) :=
  match ZSTDMT_compressStream_generic fuel zcs output input ZSTD_e_continue with
  | None => None
  | Some (errcod, zcs, output, input) =>
    if ZSTD_isError errcod then Some (errcod, zcs, output, input)
    else
      (* recommended next input size : fill current input buffer *)
      Some (size_t (mt.inBuffSize zcs - filled (mt.inBuff zcs)), zcs, output, input)
  end.

Definition ZSTDMT_flushStream_internal (fuel : nat) (mtctx : mt.t W)
    (output : ZSTD_outBuffer) (endFrame : Z)
  : option (Z * mt.t W * ZSTD_outBuffer) :=
  let srcSize' := size_t (filled (mt.inBuff mtctx) - mt.prefixSize mtctx) in
  let created :=
    if truthy (mt.jobReady mtctx)     (* one job ready for a worker to pick up *)
       || (srcSize' >? 0)             (* still some data within input buffer *)
       || (truthy endFrame && negb (truthy (mt.frameEnded mtctx)))
                                      (* need a last 0-size block to end frame *)
    then ZSTDMT_createCompressionJob fuel mtctx srcSize' endFrame
    else Some (0, mtctx) in
  match created with
  | None => None
  | Some (errcod, mtctx) =>
    if ZSTD_isError errcod then Some (errcod, mtctx, output)
    else
      (* check if there is any data available to flush *)
      ZSTDMT_flushProduced fuel mtctx output 1
  end.

Definition ZSTDMT_flushStream (fuel : nat) (mtctx : mt.t W) (output : ZSTD_outBuffer)
  : option (Z * mt.t W * ZSTD_outBuffer) :=
  if truthy (mt.singleBlockingThread mtctx) then
    let '(r, output, m, w) :=
      ZSTD_flushStream (cctx (mt.cctxPool mtctx) !!! 0%nat) output
        (mt.memory mtctx) (mt.world mtctx) in
    Some (r, mt.set_world w (mt.set_memory m mtctx), output)
  else ZSTDMT_flushStream_internal fuel mtctx output 0.

Definition ZSTDMT_endStream (fuel : nat) (mtctx : mt.t W) (output : ZSTD_outBuffer)
  : option (Z * mt.t W * ZSTD_outBuffer) :=
  if truthy (mt.singleBlockingThread mtctx) then
    let '(r, output, m, w) :=
      ZSTD_endStream (cctx (mt.cctxPool mtctx) !!! 0%nat) output
        (mt.memory mtctx) (mt.world mtctx) in
    Some (r, mt.set_world w (mt.set_memory m mtctx), output)
  else ZSTDMT_flushStream_internal fuel mtctx output 1.

End Stream.

(** ** Workers that run at once

    The schedule in which every job the pool holds is run to completion as
    soon as the caller waits. *)

Section EagerWorkers.
Context {W : Type} `{ZSTD_constants} `{Allocator W} `{Compressor W}.

(** Run the job at the head of the pool, [n] times at most. *)
Fixpoint run_workers (n : nat) (s : mt.t W) : mt.t W :=
  match n, mt.factory s with
  | S n, i :: _ => run_workers n (run_worker i s)
  | _, _ => s
  end.

Definition run_all_workers (s : mt.t W) : mt.t W :=
  run_workers (length (mt.factory s)) s.

Definition eager_workers : Workers W :=
  {| ZSTD_pthread_cond_wait := run_all_workers |}.

End EagerWorkers.

#[global] Instance toy_workers : Workers toy_world := eager_workers.

(** A context for two threads, before and after [ZSTDMT_initCStream]-like
    initialisation with an unknown content size. *)
Definition toy_created : option (mt.t toy_world) :=
  ZSTDMT_createCCtx_advanced 2 toy_mem toy_world0.

Definition toy_zcs0 : mt.t toy_world :=
  match toy_created with
  | Some zcs => zcs
  | None => mt.Build_t [] NULL [] (ZSTDMT_createBufferPool_init 2) toy_cctxPool toy_params
              0 0 0 0 {| buffer := g_nullBuffer; filled := 0 |} 0 (XXH64_reset 0) 0 0 0 0 0 1
              0 0 0 NULL NULL toy_mem toy_world0
  end.

Definition toy_zcs : mt.t toy_world :=
  match ZSTDMT_initCStream_internal 1 toy_zcs0 NULL 0 ZSTD_dm_auto NULL toy_params
          ZSTD_CONTENTSIZE_UNKNOWN with
  | Some (_, zcs) => zcs
  | None => toy_zcs0
  end.

(** ** Workers and the orchestrator, interleaved

    What the workers may do to the shared state between two steps of the
    orchestrator, or while it sleeps: they touch the jobs the thread pool
    holds, the two pools, the memory and the world, and nothing else.  Of a
    job they write [src], [srcStart], [consumed], [dstBuff], [cSize] and
    [jobCompleted]; a worker leaves the pool when it sets [jobCompleted],
    together with [consumed = srcSize]. *)

Definition job_rely (j j' : ZSTDMT_jobDescription) : Prop :=
  prefixSize j' = prefixSize j /\ srcSize j' = srcSize j /\
  dstFlushed j' = dstFlushed j /\ firstChunk j' = firstChunk j /\
  lastChunk j' = lastChunk j /\ frameChecksumNeeded j' = frameChecksumNeeded j /\
  params j' = params j /\ cdict j' = cdict j /\ fullFrameSize j' = fullFrameSize j /\
  (jobCompleted j' = jobCompleted j \/ (jobCompleted j' = 1 /\ consumed j' = srcSize j')).

Definition worker_rely {W : Type} (s s' : mt.t W) : Prop :=
  s' = mt.set_factory (mt.factory s')
         (mt.set_jobs (mt.jobs s')
            (mt.set_bufPool (mt.bufPool s')
               (mt.set_cctxPool (mt.cctxPool s')
                  (mt.set_memory (mt.memory s') (mt.set_world (mt.world s') s))))) /\
  length (mt.jobs s') = length (mt.jobs s) /\
  (forall i : nat, In i (mt.factory s') -> In i (mt.factory s)) /\
  (forall i : nat, ~ In i (mt.factory s) -> mt.jobs s' !!! i = mt.jobs s !!! i) /\
  (forall i : nat, In i (mt.factory s) -> job_rely (mt.jobs s !!! i) (mt.jobs s' !!! i)) /\
  (forall i : nat, In i (mt.factory s') ->
     jobCompleted (mt.jobs s' !!! i) = jobCompleted (mt.jobs s !!! i)).

(** Job number [id] is in flight and sits in slot [i]. *)
Definition in_window {W : Type} (s : mt.t W) (i : nat) : Prop :=
  exists id, mt.doneJobID s <= id < mt.nextJobID s /\
             Z.to_nat (Z.land id (mt.jobIDMask s)) = i.

(** The invariant of the ring.  The code relies on it and does not check
    it: it holds along the disciplined runs defined below, and a caller who
    leaves their protocol breaks it. *)
Record mt_inv {W : Type} (s : mt.t W) : Prop := {
  inv_mask : exists k, 0 <= k < 32 /\ mt.jobIDMask s = Z.ones k;
  inv_table : Z.of_nat (length (mt.jobs s)) = mt.jobIDMask s + 1 /\ mt.jobs_ptr s <> NULL;
  inv_order : 0 <= mt.doneJobID s <= mt.nextJobID s;
  inv_ring : mt.nextJobID s - mt.doneJobID s <= mt.jobIDMask s + 1;
  inv_nowrap : mt.nextJobID s + mt.jobIDMask s < 2 ^ 32;
  inv_running : forall i : nat, In i (mt.factory s) ->
      in_window s i /\ jobCompleted (mt.jobs s !!! i) = 0;
  inv_idle : forall i : nat, (i < length (mt.jobs s))%nat -> ~ in_window s i ->
      start (dstBuff (mt.jobs s !!! i)) = NULL /\
      (srcSize (mt.jobs s !!! i) <= consumed (mt.jobs s !!! i) \/
       (truthy (mt.jobReady s) = true /\
        i = Z.to_nat (Z.land (mt.nextJobID s) (mt.jobIDMask s))));
  inv_completed : forall i : nat, truthy (jobCompleted (mt.jobs s !!! i)) = true ->
      consumed (mt.jobs s !!! i) = srcSize (mt.jobs s !!! i);
  inv_ready : truthy (mt.jobReady s) = true ->
      mt.nextJobID s <= mt.doneJobID s + mt.jobIDMask s /\
      jobCompleted
        (mt.jobs s !!! Z.to_nat (Z.land (mt.nextJobID s) (mt.jobIDMask s))) = 0;
  inv_flushed : mt.allJobsCompleted s <> 0 ->
      mt.doneJobID s = mt.nextJobID s /\
      (mt.nextJobID s = 0 \/
       forall i : nat,
         srcSize (mt.jobs s !!! i) <= consumed (mt.jobs s !!! i) /\
         (truthy (mt.jobReady s) = true -> jobCompleted (mt.jobs s !!! i) = 0))
}.

(** ** Disciplined runs

    The code does not check how it is called: of a frame that has ended it
    only refuses [ZSTD_e_continue], it goes on counting jobs past the end of
    [unsigned], and it starts a one-shot compression over whatever the ring
    holds.  [disciplined] is therefore not the set of the states that the
    entry points can produce, but the smaller set of those that a caller
    produces who keeps to this protocol:
    - the context is created for a number of threads that fits the job
      table;
    - [ZSTDMT_createCompressionJob] is only called while a frame is in
      progress ([allJobsCompleted = 0]: after an initialisation, and before
      the frame is entirely flushed or an error has drained the ring) and
      while [nextJobID + jobIDMask + 1 < 2 ^ 32];
    - the single-pass shortcut and the one-shot compression are entered
      with an empty ring ([nextJobID = 0]), no prepared job waiting for a
      worker and a chunk count below [2 ^ 31], and they do not lose the job
      table (which happens when its enlargement fails).
    Initialisation, filling, flushing, a change of the parameters and the
    steps of the workers are not restricted. *)

Section Disciplined.
Context {W : Type} `{ZSTD_constants} `{Sizeof} `{Allocator W} `{Compressor W} `{Hash}
  `{ThreadPool W} `{ThreadPoolAdmin W} `{Workers W}.

Inductive disciplined : mt.t W -> Prop :=
  | disc_fresh nbThreads m w s :
      nbThreads + 2 < 2 ^ 31 ->
      ZSTDMT_createCCtx_advanced nbThreads m w = Some s ->
      disciplined s
  | disc_workers s s' :
      disciplined s -> worker_rely s s' -> disciplined s'
  | disc_single_thread s m w :
      (* a call delegated to the single-thread compressor *)
      disciplined s -> disciplined (mt.set_memory m (mt.set_world w s))
  | disc_params s params :
      (* ZSTDMT_setMTCtxParameter, which writes the parameters only *)
      disciplined s -> disciplined (mt.set_params params s)
  | disc_init s fuel dict dictSize dictMode cdict params pledgedSrcSize r s' :
      disciplined s ->
      ZSTDMT_initCStream_internal fuel s dict dictSize dictMode cdict params pledgedSrcSize
        = Some (r, s') ->
      disciplined s'
  | disc_fill_error s input endOp r s' :
      disciplined s ->
      compressStream_fill s input endOp = inl (r, s') ->
      disciplined s'
  | disc_fill s input endOp s' input' progress endOp' :
      disciplined s ->
      compressStream_fill s input endOp = inr (s', input', progress, endOp') ->
      disciplined s'
  | disc_job s fuel srcSize endFrame r s' :
      disciplined s ->
      mt.allJobsCompleted s = 0 ->
      mt.nextJobID s + mt.jobIDMask s + 1 < 2 ^ 32 ->
      ZSTDMT_createCompressionJob fuel s srcSize endFrame = Some (r, s') ->
      disciplined s'
  | disc_flush s fuel output blockToFlush r s' output' :
      disciplined s ->
      ZSTDMT_flushProduced fuel s output blockToFlush = Some (r, s', output') ->
      disciplined s'
  | disc_shortcut s fuel output input r s' output' input' :
      disciplined s ->
      mt.nextJobID s = 0 ->
      truthy (mt.jobReady s) = false ->
      ZSTDMT_computeNbChunks (size_t (i_size input - i_pos input))
        (windowLog (cParams (mt.params s))) (nbThreads (mt.params s)) < 2 ^ 31 ->
      compressStream_shortcut fuel s output input = Some (r, s', output', input') ->
      mt.jobs_ptr s' <> NULL ->
      disciplined s'
  | disc_oneshot s fuel dst dstCapacity src srcSize cdict params r s' :
      (* ZSTDMT_compress_advanced and ZSTDMT_compressCCtx go through here *)
      disciplined s ->
      mt.nextJobID s = 0 ->
      truthy (mt.jobReady s) = false ->
      ZSTDMT_computeNbChunks srcSize (windowLog (cParams params)) (nbThreads params)
        < 2 ^ 31 ->
      ZSTDMT_compress_advanced_internal fuel s dst dstCapacity src srcSize cdict params
        = Some (r, s') ->
      mt.jobs_ptr s' <> NULL ->
      disciplined s'.

End Disciplined.

(** ** The multi-threading parameters

    [ZSTDMT_parameter] is declared in zstdmt_compress.h: the two parameters
    that this file handles, and any other value of the enumeration's
    integer type. *)

Inductive ZSTDMT_parameter :=
  | ZSTDMT_p_jobSize
  | ZSTDMT_p_overlapSectionLog
  | ZSTDMT_p_other (code : Z).

Section MTParameters.
Context {W : Type} `{ZSTD_constants}.

(** [ZSTDMT_CCtxParam_setMTCtxParameter]: the updated record and the
    returned value; [value] is an [unsigned]. *)
Definition ZSTDMT_CCtxParam_setMTCtxParameter (params : ZSTD_CCtx_params)
    (parameter : ZSTDMT_parameter) (value : Z) : ZSTD_CCtx_params * Z :=
  match parameter with
  | ZSTDMT_p_jobSize =>
    let value :=
      if (value >? 0)   (* value==0 => automatic job size *)
         && (value <? ZSTDMT_JOBSIZE_MIN)
      then U32 ZSTDMT_JOBSIZE_MIN else value in
    (set_jobSize value params, value)
  | ZSTDMT_p_overlapSectionLog =>
    let value := if value >? 9 then 9 else value in
    (set_overlapSizeLog (if value >=? 9 then 9 else value) params, value)
  | ZSTDMT_p_other _ => (params, ERROR parameter_unsupported)
  end.

Definition ZSTDMT_setMTCtxParameter (mtctx : mt.t W) (parameter : ZSTDMT_parameter)
    (value : Z) : Z * mt.t W :=
  match parameter with
  | ZSTDMT_p_jobSize =>
    let '(params, r) := ZSTDMT_CCtxParam_setMTCtxParameter (mt.params mtctx) parameter value in
    (r, mt.set_params params mtctx)
  | ZSTDMT_p_overlapSectionLog =>
    let '(params, r) := ZSTDMT_CCtxParam_setMTCtxParameter (mt.params mtctx) parameter value in
    (r, mt.set_params params mtctx)
  | ZSTDMT_p_other _ => (ERROR parameter_unsupported, mtctx)
  end.

(** [ZSTDMT_getNbThreads]: nb threads currently active in mtctx. *)
Definition ZSTDMT_getNbThreads (mtctx : mt.t W) : Z := nbThreads (mt.params mtctx).

End MTParameters.

(** ** Frame progression

    [ZSTD_frameProgression] is declared in zstd.h: three 64-bit counters. *)

Record ZSTD_frameProgression := {
  ingested : Z;
  fp_consumed : Z;
  fp_produced : Z
}.

Section Progression.
Context {W : Type}.

(** The loop of [ZSTDMT_getFrameProgression], [n] jobs from [jobNb]. *)
Fixpoint getFrameProgression_loop (n : nat) (jobNb : Z) (mtctx : mt.t W)
    (fs : ZSTD_frameProgression) : ZSTD_frameProgression :=
  match n with
  | O => fs
  | S n =>
    let wJobID := Z.land jobNb (mt.jobIDMask mtctx) in
    let cResult := cSize (job_at mtctx wJobID) in
    let produced := if ZSTD_isError cResult then 0 else cResult in
    let fs :=
      {| fp_consumed := U64 (fp_consumed fs + consumed (job_at mtctx wJobID));
         ingested := U64 (ingested fs + srcSize (job_at mtctx wJobID));
         fp_produced := U64 (fp_produced fs + produced) |} in
    getFrameProgression_loop n (U32 (jobNb + 1)) mtctx fs
  end.

(** [ZSTDMT_getFrameProgression] tells how much data has been consumed
    (input) and produced (output) for current frame; able to count
    progression inside worker threads. *)
Definition ZSTDMT_getFrameProgression (mtctx : mt.t W) : ZSTD_frameProgression :=
  let fs :=
    {| fp_consumed := mt.consumed mtctx;
       fp_produced := mt.produced mtctx;
       ingested :=
         U64 (mt.consumed mtctx
              + size_t (filled (mt.inBuff mtctx) - mt.prefixSize mtctx)) |} in
  let lastJobNb := U32 (mt.nextJobID mtctx + mt.jobReady mtctx) in
  getFrameProgression_loop (Z.to_nat (lastJobNb - mt.doneJobID mtctx))
    (mt.doneJobID mtctx) mtctx fs.

End Progression.

(** ** The other entry points

    The parameter tables of the inner compressor ([ZSTD_parameters] and the
    three functions are declared in zstd.h). *)

Record ZSTD_parameters := {
  p_cParams : ZSTD_compressionParameters;
  p_fParams : ZSTD_frameParameters
}.

Class ParameterTables (W : Type) : Type := {
  ZSTD_maxCLevel : Z;
  (* compressionLevel estimatedSrcSize dictSize *)
  ZSTD_getParams : Z -> Z -> Z -> ZSTD_parameters;
  ZSTD_getCParamsFromCDict : Z -> mem -> W -> ZSTD_compressionParameters
}.

Section EntryPoints.
Context {W : Type} `{ZSTD_constants} `{Sizeof} `{Allocator W} `{Compressor W} `{Hash}
  `{ThreadPool W} `{ThreadPoolAdmin W} `{Workers W} `{ParameterTables W}.

Definition ZSTDMT_compress_advanced (fuel : nat) (mtctx : mt.t W)
    (dst dstCapacity src srcSize cdict : Z) (params : ZSTD_parameters) (overlapLog : Z)
  : option (Z * mt.t W) :=
  let cctxParams := mt.params mtctx in
  let cctxParams := set_cParams (p_cParams params) cctxParams in
  let cctxParams := set_fParams (p_fParams params) cctxParams in
  let cctxParams := set_overlapSizeLog overlapLog cctxParams in
  ZSTDMT_compress_advanced_internal fuel mtctx dst dstCapacity src srcSize cdict cctxParams.

Definition ZSTDMT_compressCCtx (fuel : nat) (mtctx : mt.t W)
    (dst dstCapacity src srcSize compressionLevel : Z)
  : option (Z * mt.t W) :=
  let overlapLog :=
    if compressionLevel >=? ZSTD_maxCLevel then 9 else ZSTDMT_OVERLAPLOG_DEFAULT in
  let params := ZSTD_getParams compressionLevel srcSize 0 in
  let params :=
    {| p_cParams := p_cParams params;
       p_fParams := set_contentSizeFlag 1 (p_fParams params) |} in
  ZSTDMT_compress_advanced fuel mtctx dst dstCapacity src srcSize NULL params overlapLog.

Definition ZSTDMT_initCStream_advanced (fuel : nat) (mtctx : mt.t W)
    (dict dictSize : Z) (params : ZSTD_parameters) (pledgedSrcSize : Z)
  : option (Z * mt.t W) :=
  (* retrieve sticky params *)
  let cctxParams := mt.params mtctx in
  let cctxParams := set_cParams (p_cParams params) cctxParams in
  let cctxParams := set_fParams (p_fParams params) cctxParams in
  ZSTDMT_initCStream_internal fuel mtctx dict dictSize ZSTD_dm_auto NULL
    cctxParams pledgedSrcSize.

Definition ZSTDMT_initCStream_usingCDict (fuel : nat) (mtctx : mt.t W)
    (cdict : Z) (fParams : ZSTD_frameParameters) (pledgedSrcSize : Z)
  : option (Z * mt.t W) :=
  let cctxParams := mt.params mtctx in
  if cdict =? NULL then
    (* method incompatible with NULL cdict *)
    Some (ERROR dictionary_wrong, mtctx)
  else
    let cctxParams :=
      set_cParams (ZSTD_getCParamsFromCDict cdict (mt.memory mtctx) (mt.world mtctx))
        cctxParams in
    let cctxParams := set_fParams fParams cctxParams in
    ZSTDMT_initCStream_internal fuel mtctx NULL 0 ZSTD_dm_auto cdict
      cctxParams pledgedSrcSize.

Definition ZSTDMT_initCStream (fuel : nat) (zcs : mt.t W) (compressionLevel : Z)
  : option (Z * mt.t W) :=
  let params := ZSTD_getParams compressionLevel ZSTD_CONTENTSIZE_UNKNOWN 0 in
  (* retrieve sticky params *)
  let cctxParams := mt.params zcs in
  let cctxParams := set_cParams (p_cParams params) cctxParams in
  let cctxParams := set_fParams (p_fParams params) cctxParams in
  ZSTDMT_initCStream_internal fuel zcs NULL 0 ZSTD_dm_auto NULL cctxParams
    ZSTD_CONTENTSIZE_UNKNOWN.

End EntryPoints.

#[global] Instance toy_tables : ParameterTables toy_world := {|
  ZSTD_maxCLevel := 22;
  ZSTD_getParams level _ _ :=
    {| p_cParams := {| windowLog := 10 + Z.min (Z.max level 0) 17; cParams_rest := level |};
       p_fParams := {| contentSizeFlag := 0; checksumFlag := 0; noDictIDFlag := 0 |} |};
  ZSTD_getCParamsFromCDict _ _ _ := {| windowLog := 17; cParams_rest := 0 |}
|}.

(** * Auxiliary definitions

    Predicates and views that the properties below are stated with. *)

(** What [ZSTDMT_getBuffer] gives when it allocates: the buffer at [p], or
    the null buffer. *)
Definition fresh_buffer (p S : Z) : buffer_t :=
  if p =? NULL then g_nullBuffer else {| start := p; size := S |}.

(** Two states of the same chunk. *)
Definition same_chunk (j j' : ZSTDMT_jobDescription) : Prop :=
  srcSize j' = srcSize j /\ lastChunk j' = lastChunk j /\ firstChunk j' = firstChunk j.

(** The fields of a job that its worker only reads. *)
Definition job_stable (j : ZSTDMT_jobDescription) :=
  (prefixSize j, srcSize j, dstFlushed j, firstChunk j, lastChunk j,
   frameChecksumNeeded j, params j, cdict j, fullFrameSize j).

Section RingViews.
Context {W : Type}.
Implicit Types s z : mt.t W.

(** The fields of the ring other than the job table. *)
Definition ring_view s :=
  (mt.factory s, mt.jobs_ptr s, mt.jobIDMask s, mt.doneJobID s, mt.nextJobID s,
   mt.jobReady s, mt.frameEnded s, mt.allJobsCompleted s).

(** What the drain of the ring needs of a state. *)
Definition draining s : Prop :=
  (exists k, 0 <= k < 32 /\ mt.jobIDMask s = Z.ones k) /\
  (Z.of_nat (length (mt.jobs s)) = mt.jobIDMask s + 1 /\ mt.jobs_ptr s <> NULL) /\
  0 <= mt.doneJobID s /\
  mt.nextJobID s + mt.jobIDMask s < 2 ^ 32 /\
  mt.nextJobID s - mt.doneJobID s <= mt.jobIDMask s + 1 /\
  (forall i : nat, In i (mt.factory s) ->
     in_window s i /\ jobCompleted (mt.jobs s !!! i) = 0).

(** A state whose slot of [nextJobID] holds a job that can be posted. *)
Definition postable z : Prop :=
  (exists k, 0 <= k < 32 /\ mt.jobIDMask z = Z.ones k) /\
  (Z.of_nat (length (mt.jobs z)) = mt.jobIDMask z + 1 /\ mt.jobs_ptr z <> NULL) /\
  0 <= mt.doneJobID z <= mt.nextJobID z /\
  mt.nextJobID z <= mt.doneJobID z + mt.jobIDMask z /\
  mt.nextJobID z + mt.jobIDMask z + 1 < 2 ^ 32 /\
  (forall i : nat, In i (mt.factory z) ->
     in_window z i /\ jobCompleted (mt.jobs z !!! i) = 0) /\
  (forall i : nat, (i < length (mt.jobs z))%nat -> ~ in_window z i ->
     start (dstBuff (mt.jobs z !!! i)) = NULL /\
     (srcSize (mt.jobs z !!! i) <= consumed (mt.jobs z !!! i) \/
      i = Z.to_nat (Z.land (mt.nextJobID z) (mt.jobIDMask z)))) /\
  (forall i : nat, truthy (jobCompleted (mt.jobs z !!! i)) = true ->
     consumed (mt.jobs z !!! i) = srcSize (mt.jobs z !!! i)) /\
  jobCompleted (mt.jobs z !!! Z.to_nat (Z.land (mt.nextJobID z) (mt.jobIDMask z))) = 0 /\
  mt.allJobsCompleted z = 0.

(** The ring during a one-shot compression: the chunks [lo, hi) are with
    the workers, every other slot is at rest. *)
Definition oneshot_inv (lo hi : nat) z : Prop :=
  (exists k, 0 <= k < 32 /\ mt.jobIDMask z = Z.ones k) /\
  (Z.of_nat (length (mt.jobs z)) = mt.jobIDMask z + 1 /\ mt.jobs_ptr z <> NULL) /\
  mt.doneJobID z = 0 /\ mt.nextJobID z = 0 /\ truthy (mt.jobReady z) = false /\
  (hi <= length (mt.jobs z))%nat /\
  (forall i : nat, In i (mt.factory z) ->
     (lo <= i < hi)%nat /\ jobCompleted (mt.jobs z !!! i) = 0) /\
  (forall i : nat, truthy (jobCompleted (mt.jobs z !!! i)) = true ->
     consumed (mt.jobs z !!! i) = srcSize (mt.jobs z !!! i)) /\
  (forall i : nat, (i < length (mt.jobs z))%nat -> (i < lo \/ hi <= i)%nat ->
     start (dstBuff (mt.jobs z !!! i)) = NULL /\
     srcSize (mt.jobs z !!! i) <= consumed (mt.jobs z !!! i)).

End RingViews.

(** ** A run of the toy context

    Ten bytes are given to the context of [toy_zcs]; a job is created for
    them, the workers run, and the result is flushed to an output of five
    bytes.  A second run cuts the frame in two jobs, the second of which
    ends it. *)

Definition toy_input : ZSTD_inBuffer := {| i_src := 2 ^ 21; i_size := 10; i_pos := 0 |}.
Definition toy_output : ZSTD_outBuffer := {| o_dst := 2 ^ 22; o_size := 5; o_pos := 0 |}.
Definition toy_sink : ZSTD_outBuffer := {| o_dst := 2 ^ 22; o_size := 100; o_pos := 0 |}.

Definition toy_filled : mt.t toy_world :=
  match compressStream_fill toy_zcs toy_input ZSTD_e_end with
  | inr (zcs, _, _, _) => zcs
  | inl _ => toy_zcs
  end.

(** The only job of a frame. *)
Definition toy_posted : mt.t toy_world :=
  match ZSTDMT_createCompressionJob 1 toy_filled 10 1 with
  | Some (_, zcs) => zcs
  | None => toy_filled
  end.

Definition toy_worked : mt.t toy_world := run_all_workers toy_posted.





(** A pool that holds one buffer of 128 bytes, for buffers of 100 bytes. *)
Definition toy_bufPool : ZSTDMT_bufferPool :=
  {| bufferSize := 100; totalBuffers := 7; nbBuffers := 1;
     bTable := [{| start := 8192; size := 128 |}] |}.

(** A buffer pool whose counters fit its table. *)
Definition pool_fits (p : ZSTDMT_bufferPool) : Prop :=
  0 <= nbBuffers p <= totalBuffers p /\
  totalBuffers p = Z.of_nat (length (bTable p)) /\
  totalBuffers p < 2 ^ 32.

(** The arguments and the result of a call that hands a block to the inner
    compressor. *)
Definition call_dst (c : lib_call) : Z :=
  match c with
  | call_compressContinue _ dst _ _ _ _ | call_compressEnd _ dst _ _ _ _ => dst
  | _ => 0
  end.
Definition call_dstCapacity (c : lib_call) : Z :=
  match c with
  | call_compressContinue _ _ cap _ _ _ | call_compressEnd _ _ cap _ _ _ => cap
  | _ => 0
  end.
Definition call_src (c : lib_call) : Z :=
  match c with
  | call_compressContinue _ _ _ src _ _ | call_compressEnd _ _ _ src _ _ => src
  | _ => 0
  end.
Definition call_srcSize (c : lib_call) : Z :=
  match c with
  | call_compressContinue _ _ _ _ n _ | call_compressEnd _ _ _ _ n _ => n
  | _ => 0
  end.
Definition call_ret (c : lib_call) : Z :=
  match c with
  | call_compressContinue _ _ _ _ _ r | call_compressEnd _ _ _ _ _ r => r
  | _ => 0
  end.

Definition sum_of (f : lib_call -> Z) (l : list lib_call) : Z :=
  fold_right (fun c acc => f c + acc) 0 l.

(** The calls [l] read blocks of [B] bytes at most that follow one another
    from [ip], and write their results one after the other from [op], each
    with the room that is left up to [oend]. *)
Fixpoint consecutive_blocks (B ip op oend : Z) (l : list lib_call) : Prop :=
  match l with
  | [] => True
  | c :: l =>
    call_src c = ip /\ 0 <= call_srcSize c <= B /\
    call_dst c = op /\ call_dstCapacity c = size_t (oend - op) /\
    consecutive_blocks B (ip + call_srcSize c) (op + call_ret c) oend l
  end.

(** The fields of a context that neither the workers nor the release of the
    job resources write. *)
Definition settings_view {W : Type} (s : mt.t W) :=
  (mt.params s, mt.targetSectionSize s, mt.inBuffSize s, mt.prefixSize s,
   mt.targetPrefixSize s, mt.xxhState s, mt.singleBlockingThread s,
   mt.frameContentSize s, mt.consumed s, mt.produced s, mt.cdictLocal s, mt.cdict s,
   filled (mt.inBuff s)).

(** What a job contributes to the frame progression. *)
Definition job_progress (j : ZSTDMT_jobDescription) := (consumed j, srcSize j, cSize j).

(** A frame progression to which a job's contribution is added. *)
Definition progression_add (fs : ZSTD_frameProgression) (c i p : Z) : ZSTD_frameProgression :=
  {| fp_consumed := U64 (fp_consumed fs + c);
     ingested := U64 (ingested fs + i);
     fp_produced := U64 (fp_produced fs + p) |}.

(** The mode of a context, its end flag and the mask of its ring. *)
Definition frame_view {W : Type} (z : mt.t W) :=
  (mt.singleBlockingThread z, mt.frameEnded z, mt.jobIDMask z).

(** ** More of the toy context

    The pool of buffers of a context for two threads, here for buffers of
    100 bytes, and a buffer that fits it. *)
Definition toy_emptyPool : ZSTDMT_bufferPool :=
  ZSTDMT_setBufferSize (ZSTDMT_createBufferPool_init 2) 100.

Definition toy_buffer : buffer_t := {| start := 8192; size := 128 |}.

(** A world whose heap is exhausted, a worker and three contexts in it: one
    that holds ten bytes of input, one whose only job is with the pool, and
    the latter after the workers ran. *)
Definition toy_world_full : toy_world :=
  {| next_addr := 2 ^ 30; heap_limit := 2 ^ 30; free_workers := 2 |}.

Definition toy_starved : worker_state (logged toy_world) :=
  {| w_job := toy_job 10;
     w_bufPool := toy_emptyPool;
     w_cctxPool := toy_cctxPool;
     w_mem := toy_mem;
     w_world := (toy_world_full, []) |}.

Definition toy_filled_full : mt.t toy_world :=
  mt.set_memory (mt.memory toy_filled) (mt.set_world toy_world_full toy_filled).

Definition toy_posted_full : mt.t toy_world :=
  mt.set_memory (mt.memory toy_posted) (mt.set_world toy_world_full toy_posted).

Definition toy_failed : mt.t toy_world := run_all_workers toy_posted_full.

(** ** Runs that leave the protocol

    A context for six threads, whose thread pool takes every job of the
    runs below, and the calls of the runs: an initialisation, a call of
    [ZSTDMT_compressStream_generic] that is given [toy_input], a call of
    [ZSTDMT_endStream] and a call of [ZSTDMT_flushProduced] that does not
    block, the last two with the room of [toy_sink]. *)
Definition toy_wide0 : mt.t toy_world :=
  match ZSTDMT_createCCtx_advanced 6 toy_mem toy_world0 with
  | Some zcs => zcs
  | None => toy_zcs0
  end.

Definition toy_init (zcs : mt.t toy_world) : mt.t toy_world :=
  match ZSTDMT_initCStream_internal 1 zcs NULL 0 ZSTD_dm_auto NULL toy_params
          ZSTD_CONTENTSIZE_UNKNOWN with
  | Some (_, zcs') => zcs'
  | None => zcs
  end.

Definition toy_give (zcs : mt.t toy_world) (output : ZSTD_outBuffer) (endOp : ZSTD_EndDirective)
  : mt.t toy_world :=
  match ZSTDMT_compressStream_generic 1 zcs output toy_input endOp with
  | Some (_, zcs', _, _) => zcs'
  | None => zcs
  end.

Definition toy_end (zcs : mt.t toy_world) : mt.t toy_world :=
  match ZSTDMT_endStream 1 zcs toy_sink with
  | Some (_, zcs', _) => zcs'
  | None => zcs
  end.

Definition toy_flush (zcs : mt.t toy_world) : mt.t toy_world :=
  match ZSTDMT_flushProduced 1 zcs toy_sink 0 with
  | Some (_, zcs', _) => zcs'
  | None => zcs
  end.

Definition toy_wide : mt.t toy_world := toy_init toy_wide0.


(** An empty frame, ended and flushed; ten bytes given after its end with
    [ZSTD_e_flush], which makes job 1; a new initialisation, which finds
    [allJobsCompleted] set and waits for nothing; ten bytes given to the new
    frame, which makes its job 0. *)
Definition toy_empty_done : mt.t toy_world := toy_end toy_wide.
Definition toy_stale : mt.t toy_world := toy_give toy_empty_done toy_sink ZSTD_e_flush.
Definition toy_restarted : mt.t toy_world := toy_init toy_stale.


(** The new frame is ended with its ten bytes instead (with the five bytes
    of room of [toy_output], so that the shortcut is not taken); the worker
    of its job 0 runs, the job is flushed, and one more flush follows. *)
Definition toy_restarted_end : mt.t toy_world := toy_give toy_restarted toy_output ZSTD_e_end.
Definition toy_restarted_flushed : mt.t toy_world :=
  toy_flush (run_worker 0 toy_restarted_end).
Definition toy_stalled : mt.t toy_world := toy_flush toy_restarted_flushed.


(** * Properties

    ** Machine integers and parameters *)

Lemma U32_small x : 0 <= x < 2^32 -> U32 x = x.
Proof. intros; unfold U32; apply Z.mod_small; lia. Qed.
Lemma size_t_small x : 0 <= x < 2^64 -> size_t x = x.
Proof. intros; unfold size_t; apply Z.mod_small; lia. Qed.

(** C9: for every params record and every requested thread count [n],
    ZSTDMT_CCtxParam_setNbThreads sets nbThreads to [n] clamped into
    [1, 200] and returns that value; it also resets overlapSizeLog to the
    default 6 and jobSize to 0, whatever they were, and leaves the other
    fields alone. *)
Theorem setNbThreads_clamps_and_resets (params : ZSTD_CCtx_params) (n : Z) :
  let r := snd (ZSTDMT_CCtxParam_setNbThreads params n) in
  let params' := fst (ZSTDMT_CCtxParam_setNbThreads params n) in
  r = Z.max 1 (Z.min n ZSTDMT_NBTHREADS_MAX) /\ 1 <= r <= 200 /\
  nbThreads params' = r /\
  overlapSizeLog params' = 6 /\
  jobSize params' = 0 /\
  format params' = format params /\ cParams params' = cParams params /\
  fParams params' = fParams params /\ compressionLevel params' = compressionLevel params /\
  forceWindow params' = forceWindow params /\ ldmParams params' = ldmParams params.
Proof.
  destruct params; unfold ZSTDMT_CCtxParam_setNbThreads, ZSTDMT_NBTHREADS_MAX; cbn.
  destruct (n >? 200) eqn:E1; [|destruct (n <? 1) eqn:E2]; cbn; repeat split; try lia.
Qed.

(** C6: with target = 1 << (W+2), maxChunk = target << 2, perPass =
    maxChunk * T and m = srcSize / perPass + 1, ZSTDMT_computeNbChunks gives
    m * T when m > 1 and min(T, srcSize / target + 1) otherwise, for a
    [size_t] srcSize, a window log for which perPass is a [size_t], 1 <= T
    <= ZSTDMT_NBTHREADS_MAX, and a count m * T that an [unsigned] holds. *)
Theorem computeNbChunks_formula (srcSize W T : Z) :
  0 <= srcSize < 2 ^ 64 -> 0 <= W <= 52 -> 1 <= T <= ZSTDMT_NBTHREADS_MAX ->
  let target := 2 ^ (W + 2) in
  let maxChunk := target * 4 in
  let perPass := maxChunk * T in
  let m := srcSize / perPass + 1 in
  m * T < 2 ^ 32 ->
  ZSTDMT_computeNbChunks srcSize W T =
    if m >? 1 then m * T else Z.min T (srcSize / target + 1).
Proof.
  intros Hs HW HT target maxChunk perPass m Hfit. unfold ZSTDMT_NBTHREADS_MAX in HT.
  assert (Ht : 0 < target) by (apply Z.pow_pos_nonneg; lia).
  assert (Htle : target <= 2 ^ 54) by (apply Z.pow_le_mono_r; lia).
  assert (Hp : 0 < perPass) by (unfold perPass, maxChunk; nia).
  assert (Hq : 0 <= srcSize / perPass) by (apply Z.div_pos; lia).
  assert (Hm : 1 <= m) by (unfold m; lia).
  unfold ZSTDMT_computeNbChunks.
  rewrite (U32_small (W + 2)) by lia.
  rewrite Z.shiftl_1_l. fold target.
  rewrite (size_t_small target) by lia.
  rewrite Z.shiftl_mul_pow2 by lia. change (2 ^ 2) with 4. fold maxChunk.
  rewrite (size_t_small maxChunk) by (unfold maxChunk; lia).
  fold perPass. rewrite (size_t_small perPass) by (unfold perPass, maxChunk; nia).
  rewrite (U32_small (srcSize / perPass)) by nia.
  fold m. rewrite (U32_small m) by nia.
  destruct (m >? 1) eqn:Em.
  - apply U32_small; nia.
  - assert (m = 1) by lia.
    assert (Hlt : srcSize < perPass).
    { destruct (Z_lt_ge_dec srcSize perPass) as [|Hge]; [assumption|].
      assert (1 <= srcSize / perPass) by (apply Z.div_le_lower_bound; lia). lia. }
    assert (Hd : 0 <= srcSize / target) by (apply Z.div_pos; lia).
    assert (Hd2 : srcSize / target < 4 * T).
    { apply Z.div_lt_upper_bound; [lia|]. unfold perPass, maxChunk in Hlt. nia. }
    rewrite (U32_small (srcSize / target)) by lia.
    rewrite (U32_small (srcSize / target + 1)) by lia.
    unfold MIN. destruct (srcSize / target + 1 <? T) eqn:E; lia.
Qed.

Lemma land_size_t_1FFFF x : Z.land (size_t x) 0x1FFFF = Z.land x 0x1FFFF.
Proof.
  unfold size_t. change 0x1FFFF with (Z.ones 17).
  rewrite !Z.land_ones by lia.
  apply Z.mod_mod_divide.
  exists (2 ^ 47). reflexivity.
Qed.

(** C2 as the specification has it fails: for 2^20 bytes in 2 chunks the
    average 2^19 has ((avg-1) & 0x1FFFF) = 0x1FFFF >= 0x7FFF, and it is left
    as it is. *)
Lemma avgChunkSize_claim_fails :
  let avg := (2 ^ 20 + 2 - 1) / 2 in
  avgChunkSize (2 ^ 20) 2 <>
    (if Z.land (avg - 1) 0x1FFFF >=? 0x7FFF then avg + 0x10000 else avg).
Proof. vm_compute. discriminate. Qed.

(** C2, amended: the average chunk size is avg = ceil(srcSize/nbChunks),
    raised by 0xFFFF exactly when ((avg-1) & 0x1FFFF) < 0x7FFF, and left
    unchanged otherwise. *)
Theorem avgChunkSize_adjustment (srcSize nbChunks : Z) :
  0 <= srcSize < 2 ^ 63 -> 1 <= nbChunks < 2 ^ 32 ->
  let avg := (srcSize + nbChunks - 1) / nbChunks in
  (avg - 1) * nbChunks < srcSize <= avg * nbChunks /\
  proposedChunkSize srcSize nbChunks = avg /\
  avgChunkSize srcSize nbChunks =
    (if Z.land (avg - 1) 0x1FFFF <? 0x7FFF then avg + 0xFFFF else avg).
Proof.
  intros Hs Hn avg.
  assert (Hp : proposedChunkSize srcSize nbChunks = avg).
  { unfold proposedChunkSize. rewrite U32_small by lia.
    rewrite size_t_small by lia. unfold avg. f_equal. lia. }
  assert (Hlo : 0 <= avg) by (apply Z.div_pos; lia).
  assert (Hbounds : (avg - 1) * nbChunks < srcSize <= avg * nbChunks).
  { pose proof (Z.div_mod (srcSize + nbChunks - 1) nbChunks ltac:(lia)) as E.
    pose proof (Z.mod_pos_bound (srcSize + nbChunks - 1) nbChunks ltac:(lia)) as B.
    fold avg in E. nia. }
  split; [exact Hbounds|]. split; [exact Hp|].
  unfold avgChunkSize. rewrite Hp, land_size_t_1FFFF.
  destruct (Z.land (avg - 1) 131071 <? 32767); [|reflexivity].
  apply size_t_small. nia.
Qed.

(** ** The buffer pool *)

Section BufferPoolFacts.
Context {W : Type} `{Allocator W}.

Lemma getBuffer_new_logged (S : Z) (w : W) (l : list lib_call) :
  exists p w',
    ZSTDMT_getBuffer_new S ((w, l) : logged W) = (fresh_buffer p S, (w', l ++ [call_malloc S p])).
Proof.
  unfold ZSTDMT_getBuffer_new. cbn. unfold log1. cbn.
  destruct (ZSTD_malloc S w) as [p w'] eqn:E. exists p, w'. cbn.
  unfold fresh_buffer, g_nullBuffer. destruct (p =? NULL) eqn:Ep; [|reflexivity].
  apply Z.eqb_eq in Ep. subst p. reflexivity.
Qed.

Lemma fresh_buffer_eq (p S : Z) :
  {| start := p; size := if p =? NULL then 0 else S |} = fresh_buffer p S.
Proof.
  unfold fresh_buffer, g_nullBuffer. destruct (p =? NULL) eqn:Ep; [|reflexivity].
  apply Z.eqb_eq in Ep. subst p. reflexivity.
Qed.

(** C5: with S the buffer size of the pool, ZSTDMT_getBuffer returns the
    buffer on top of a non-empty pool, and calls neither [ZSTD_free] nor
    [ZSTD_malloc], exactly when the size s of that buffer has s >= S and
    (s >> 3) <= S; otherwise it frees that buffer and allocates S bytes, as
    it does at once on an empty pool; when the allocation fails it returns
    the null buffer {NULL, 0}. *)
Theorem getBuffer_size_band (pool pool' : ZSTDMT_bufferPool) (w w' : W)
    (buf : buffer_t) (log : list lib_call) :
  0 <= nbBuffers pool < 2 ^ 32 ->
  ZSTDMT_getBuffer pool ((w, []) : logged W) = (buf, pool', (w', log)) ->
  let S := bufferSize pool in
  let top := bTable pool !!! Z.to_nat (nbBuffers pool - 1) in
  let s := size top in
  (nbBuffers pool <> 0 ->
     ((buf = top /\ log = []) <-> (s >= S /\ Z.shiftr s 3 <= S))) /\
  (nbBuffers pool <> 0 -> ~ (s >= S /\ Z.shiftr s 3 <= S) ->
     exists p, log = [call_free (start top); call_malloc S p] /\ buf = fresh_buffer p S) /\
  (nbBuffers pool = 0 ->
     exists p, log = [call_malloc S p] /\ buf = fresh_buffer p S) /\
  fresh_buffer NULL S = {| start := NULL; size := 0 |}.
Proof.
  intros Hn Hget S top s.
  unfold ZSTDMT_getBuffer in Hget. fold S in Hget.
  unfold truthy in Hget.
  destruct (nbBuffers pool =? 0) eqn:E0; cbn [negb] in Hget.
  - apply Z.eqb_eq in E0. cbn in Hget. rewrite fresh_buffer_eq in Hget.
    inversion Hget; subst.
    split; [|split; [|split]]; try (intros; exfalso; lia).
    + intros _. eexists. split; reflexivity.
    + reflexivity.
  - apply Z.eqb_neq in E0.
    rewrite U32_small in Hget by lia. fold top in Hget. fold s in Hget.
    destruct ((s >=? S) && (Z.shiftr s 3 <=? S)) eqn:Eband.
    + apply andb_true_iff in Eband as [E1 E2].
      inversion Hget; subst.
      split; [|split; [|split]]; try (intros; exfalso; lia).
      * intros _. split; [intros _; lia | intros _; split; reflexivity].
      * reflexivity.
    + assert (Hnot : ~ (s >= S /\ Z.shiftr s 3 <= S)).
      { intros [H1 H2]. apply andb_false_iff in Eband as [E|E]; lia. }
      cbn in Hget. rewrite fresh_buffer_eq in Hget.
      inversion Hget; subst.
      split; [|split; [|split]].
      * intros _. split; [intros [_ Hl]; discriminate Hl | intros Hb; contradiction].
      * intros _ _. eexists. split; reflexivity.
      * intros; lia.
      * reflexivity.
Qed.

End BufferPoolFacts.

(** ** The worker *)

Lemma isError_memory_allocation : ZSTD_isError (ERROR memory_allocation) = true.
Proof. reflexivity. Qed.

Section WorkerFacts.
Context {W : Type} `{ZSTD_constants} `{Allocator W} `{Compressor W}.


Lemma same_chunk_refl j : same_chunk j j.
Proof. repeat split. Qed.

Lemma same_chunk_set_cSize v j : same_chunk j (set_cSize v j).
Proof. destruct j; repeat split. Qed.
Lemma same_chunk_set_consumed v j : same_chunk j (set_consumed v j).
Proof. destruct j; repeat split. Qed.
Lemma same_chunk_set_dstBuff v j : same_chunk j (set_dstBuff v j).
Proof. destruct j; repeat split. Qed.
Lemma same_chunk_trans j1 j2 j3 : same_chunk j1 j2 -> same_chunk j2 j3 -> same_chunk j1 j3.
Proof. unfold same_chunk; intuition congruence. Qed.

Lemma cSize_set_cSize v j : cSize (set_cSize v j) = v.
Proof. destruct j; reflexivity. Qed.

Lemma resources_inl cctx (st st' : worker_state (logged W)) :
  compressChunk_resources cctx st = inl st' -> ZSTD_isError (cSize (w_job st')) = true.
Proof.
  unfold compressChunk_resources.
  destruct (cctx =? NULL).
  - intros [= <-]. cbn. now rewrite cSize_set_cSize.
  - destruct (start (dstBuff (w_job st)) =? NULL); [|discriminate].
    destruct (ZSTDMT_getBuffer _ _) as [[d bp] w].
    destruct (start d =? NULL); [|discriminate].
    intros [= <-]. cbn. now rewrite cSize_set_cSize.
Qed.

Lemma resources_inr cctx (st st' : worker_state (logged W)) d :
  compressChunk_resources cctx st = inr (st', d) ->
  same_chunk (w_job st) (w_job st').
Proof.
  unfold compressChunk_resources.
  destruct (cctx =? NULL); [discriminate|].
  destruct (start (dstBuff (w_job st)) =? NULL).
  - destruct (ZSTDMT_getBuffer _ _) as [[d' bp] w].
    destruct (start d' =? NULL); [discriminate|].
    intros [= <- <-]. cbn. apply same_chunk_set_dstBuff.
  - intros [= <- <-]. apply same_chunk_refl.
Qed.

Lemma init_inl cctx (st st' : worker_state (logged W)) :
  compressChunk_init cctx st = inl st' -> ZSTD_isError (cSize (w_job st')) = true.
Proof.
  unfold compressChunk_init.
  destruct (truthy (cdict (w_job st))).
  - destruct (ZSTD_compressBegin_advanced_internal _ _ _ _ _ _ _ _ _) as [e w].
    destruct (ZSTD_isError e) eqn:E; [|discriminate].
    intros [= <-]. cbn. now rewrite cSize_set_cSize.
  - destruct (ZSTD_CCtxParam_setParameter _ _ _) as [jp fe].
    destruct (ZSTD_isError fe) eqn:E1.
    + intros [= <-]. cbn. now rewrite cSize_set_cSize.
    + destruct (ZSTD_compressBegin_advanced_internal _ _ _ _ _ _ _ _ _) as [e w].
      destruct (ZSTD_isError e) eqn:E; [|discriminate].
      intros [= <-]. cbn. now rewrite cSize_set_cSize.
Qed.

Lemma init_inr cctx (st st' : worker_state (logged W)) :
  compressChunk_init cctx st = inr st' -> same_chunk (w_job st) (w_job st').
Proof.
  unfold compressChunk_init.
  destruct (truthy (cdict (w_job st))).
  - destruct (ZSTD_compressBegin_advanced_internal _ _ _ _ _ _ _ _ _) as [e w].
    destruct (ZSTD_isError e); [discriminate|].
    intros [= <-]. apply same_chunk_refl.
  - destruct (ZSTD_CCtxParam_setParameter _ _ _) as [jp fe].
    destruct (ZSTD_isError fe); [discriminate|].
    destruct (ZSTD_compressBegin_advanced_internal _ _ _ _ _ _ _ _ _) as [e w].
    destruct (ZSTD_isError e); [discriminate|].
    intros [= <-]. apply same_chunk_refl.
Qed.

Lemma header_inl cctx src d (st st' : worker_state (logged W)) :
  compressChunk_header cctx src d st = inl st' -> ZSTD_isError (cSize (w_job st')) = true.
Proof.
  unfold compressChunk_header.
  destruct (negb (truthy (firstChunk (w_job st)))); [|discriminate].
  destruct (ZSTD_compressContinue _ _ _ _ _ _ _) as [[h m] w].
  destruct (ZSTD_isError h) eqn:E; [|discriminate].
  intros [= <-]. cbn. now rewrite cSize_set_cSize.
Qed.

Lemma header_inr cctx src d (st st' : worker_state (logged W)) :
  compressChunk_header cctx src d st = inr st' -> same_chunk (w_job st) (w_job st').
Proof.
  unfold compressChunk_header.
  destruct (negb (truthy (firstChunk (w_job st)))).
  - destruct (ZSTD_compressContinue _ _ _ _ _ _ _) as [[h m] w].
    destruct (ZSTD_isError h); [discriminate|].
    intros [= <-]. apply same_chunk_refl.
  - intros [= <-]. apply same_chunk_refl.
Qed.

Lemma blocks_inl n : forall cctx blockNb ip op oend (st st' : worker_state (logged W)),
  compressChunk_blocks n cctx blockNb ip op oend st = inl st' ->
  ZSTD_isError (cSize (w_job st')) = true.
Proof.
  induction n as [|n IH]; intros cctx blockNb ip op oend st st'; cbn [compressChunk_blocks].
  - discriminate.
  - destruct (ZSTD_compressContinue _ _ _ _ _ _ _) as [[c m] w].
    destruct (ZSTD_isError c) eqn:E.
    + intros [= <-]. cbn. now rewrite cSize_set_cSize.
    + apply IH.
Qed.

Lemma blocks_inr n : forall cctx blockNb ip op oend (st st' : worker_state (logged W)) ip' op',
  compressChunk_blocks n cctx blockNb ip op oend st = inr (st', ip', op') ->
  same_chunk (w_job st) (w_job st').
Proof.
  induction n as [|n IH]; intros cctx blockNb ip op oend st st' ip' op'; cbn [compressChunk_blocks].
  - intros [= <- <- <-]. apply same_chunk_refl.
  - destruct (ZSTD_compressContinue _ _ _ _ _ _ _) as [[c m] w].
    destruct (ZSTD_isError c) eqn:E; [discriminate|].
    intros Hrec. apply IH in Hrec. cbn in Hrec.
    eapply same_chunk_trans; [|exact Hrec].
    eapply same_chunk_trans; [apply same_chunk_set_cSize | apply same_chunk_set_consumed].
Qed.

(** A last chunk always ends with a call of [ZSTD_compressEnd] on a block of
    [lastBlockSize] bytes. *)
Lemma last_calls_compressEnd cctx nbBlocks ip op oend (st : worker_state (logged W)) :
  truthy (lastChunk (w_job st)) = true ->
  exists ret,
    block_calls (snd (w_world (compressChunk_last cctx nbBlocks ip op oend st))) =
    block_calls (snd (w_world st)) ++
      [call_compressEnd cctx op (size_t (oend - op)) ip (lastBlockSize (w_job st)) ret].
Proof.
  intros Hlast. unfold compressChunk_last. rewrite Hlast, orb_true_r.
  cbn [ZSTD_compressEnd logged_compressor]. unfold log2.
  destruct (ZSTD_compressEnd cctx op (size_t (oend - op)) ip (lastBlockSize (w_job st))
              (w_mem st) (fst (w_world st))) as [[c m] w] eqn:E.
  exists c. cbn [fst snd].
  destruct (ZSTD_isError c); cbn; unfold block_calls;
    rewrite List.filter_app; reflexivity.
Qed.

Lemma endJob_cSize cctx (st : worker_state (logged W)) :
  cSize (w_job (compressChunk_endJob cctx st)) = cSize (w_job st).
Proof.
  unfold compressChunk_endJob.
  destruct (ZSTDMT_releaseCCtx _ _ _) as [cp w].
  destruct (ZSTDMT_releaseBuffer _ _ _) as [bp w'].
  cbn. destruct (w_job st); reflexivity.
Qed.

Lemma endJob_block_calls cctx (st : worker_state (logged W)) :
  block_calls (snd (w_world (compressChunk_endJob cctx st))) = block_calls (snd (w_world st)).
Proof.
  unfold compressChunk_endJob, ZSTDMT_releaseCCtx, ZSTDMT_releaseBuffer.
  destruct (cctx =? NULL);
    destruct (availCCtx (w_cctxPool st) <? totalCCtx (w_cctxPool st));
    destruct (start (src (w_job st)) =? NULL);
    destruct (nbBuffers (w_bufPool st) <? totalBuffers (w_bufPool st)); cbn;
    unfold block_calls; rewrite ?List.filter_app; cbn; rewrite ?app_nil_r; reflexivity.
Qed.

Lemma lastBlockSize_cases (job : ZSTDMT_jobDescription) :
  0 <= ZSTD_BLOCKSIZELOG_MAX -> 0 <= srcSize job ->
  let n := srcSize job in
  let B := ZSTD_BLOCKSIZE_MAX in
  lastBlockSize job = if n =? 0 then 0 else if n mod B =? 0 then B else n mod B.
Proof.
  intros Hk Hn n B. unfold lastBlockSize. fold n. fold B.
  assert (HB : B = 2 ^ ZSTD_BLOCKSIZELOG_MAX) by (unfold B, ZSTD_BLOCKSIZE_MAX; apply Z.shiftl_1_l).
  assert (HBpos : 0 < B) by (rewrite HB; apply Z.pow_pos_nonneg; lia).
  replace (B - 1) with (Z.ones ZSTD_BLOCKSIZELOG_MAX) by (rewrite Z.ones_equiv, HB; lia).
  rewrite Z.land_ones by lia. rewrite <- HB.
  destruct (n =? 0) eqn:E0.
  - apply Z.eqb_eq in E0. rewrite E0, Z.mod_0_l by lia. cbn.
    destruct (0 >=? B) eqn:E; [lia|reflexivity].
  - apply Z.eqb_neq in E0.
    destruct (n mod B =? 0) eqn:Em; cbn; [|reflexivity].
    apply Z.eqb_eq in Em.
    destruct (n >=? B) eqn:E; [reflexivity|].
    exfalso. rewrite Z.mod_small in Em by lia. lia.
Qed.

(** C1, amended: when ZSTDMT_compressChunk succeeds on a job whose
    lastChunk is set, its last call of the block compressor is
    ZSTD_compressEnd, on a block of 0 bytes when srcSize = 0, of
    ZSTD_BLOCKSIZE_MAX bytes when srcSize is another multiple of
    ZSTD_BLOCKSIZE_MAX, and of srcSize mod ZSTD_BLOCKSIZE_MAX bytes
    otherwise. *)
Theorem compressChunk_last_block (st : worker_state (logged W)) :
  0 <= ZSTD_BLOCKSIZELOG_MAX ->
  0 <= srcSize (w_job st) ->
  truthy (lastChunk (w_job st)) = true ->
  ZSTD_isError (cSize (w_job (ZSTDMT_compressChunk st))) = false ->
  let n := srcSize (w_job st) in
  let B := ZSTD_BLOCKSIZE_MAX in
  exists cctx dst dstCapacity src ret,
    last (block_calls (snd (w_world (ZSTDMT_compressChunk st)))) =
      Some (call_compressEnd cctx dst dstCapacity src
              (if n =? 0 then 0 else if n mod B =? 0 then B else n mod B) ret).
Proof.
  intros Hk Hn Hlast Hok n B.
  unfold ZSTDMT_compressChunk in *.
  destruct (ZSTDMT_getCCtx (w_cctxPool st) (w_world st)) as [[c cp] w].
  set (st0 := Build_worker_state (w_job st) (w_bufPool st) cp (w_mem st) w) in *.
  rewrite endJob_cSize in Hok. rewrite endJob_block_calls.
  destruct (compressChunk_resources c st0) as [st1|[st1 d]] eqn:E1.
  { apply resources_inl in E1. congruence. }
  apply resources_inr in E1.
  destruct (compressChunk_init c st1) as [st2|st2] eqn:E2.
  { apply init_inl in E2. congruence. }
  apply init_inr in E2.
  destruct (compressChunk_header c _ d st2) as [st3|st3] eqn:E3.
  { apply header_inl in E3. congruence. }
  apply header_inr in E3.
  unfold compressChunk_compress in *.
  destruct (compressChunk_blocks _ c 1 _ _ _ st3) as [st4|[[st4 ip] op]] eqn:E4.
  { apply blocks_inl in E4. congruence. }
  apply blocks_inr in E4.
  assert (Hsame : same_chunk (w_job st) (w_job st4)).
  { change (w_job st) with (w_job st0).
    eauto using same_chunk_trans. }
  destruct Hsame as (Hs & Hl & _).
  edestruct (last_calls_compressEnd c
     (to_int (size_t (srcSize (w_job st3) + (ZSTD_BLOCKSIZE_MAX - 1)) / ZSTD_BLOCKSIZE_MAX))
     ip op (start d + size d) st4) as [ret Hcalls].
  { rewrite Hl. exact Hlast. }
  rewrite Hcalls, last_snoc.
  exists c, op, (size_t (start d + size d - op)), ip, ret.
  rewrite lastBlockSize_cases by (rewrite ?Hs; assumption).
  rewrite Hs. reflexivity.
Qed.

End WorkerFacts.

(** ** Entering the stream *)

Section StreamFacts.
Context {W : Type} `{ZSTD_constants} `{Sizeof} `{Allocator W} `{Compressor W} `{Hash}
  `{ThreadPool W} `{ThreadPoolAdmin W} `{Workers W}.

(** C8: once the frame has ended (frameEnded is set) and outside the
    single-thread mode, ZSTDMT_compressStream_generic with endOp =
    ZSTD_e_continue returns the error stage_wrong, and leaves the context,
    the input and the output as they were. *)
Theorem compressStream_after_end (fuel : nat) (mtctx : mt.t W)
    (output : ZSTD_outBuffer) (input : ZSTD_inBuffer) :
  truthy (mt.frameEnded mtctx) = true ->
  truthy (mt.singleBlockingThread mtctx) = false ->
  ZSTDMT_compressStream_generic fuel mtctx output input ZSTD_e_continue
    = Some (ERROR stage_wrong, mtctx, output, input)
  /\ ZSTD_isError (ERROR stage_wrong) = true.
Proof.
  intros Hend Hsingle. unfold ZSTDMT_compressStream_generic.
  rewrite Hsingle, Hend. cbn. split; reflexivity.
Qed.

(** C10: ZSTDMT_resetCStream with pledgedSrcSize = 0 re-initialises with
    ZSTD_CONTENTSIZE_UNKNOWN in the place of 0: it does what it does for a
    pledgedSrcSize of ZSTD_CONTENTSIZE_UNKNOWN. *)
Theorem resetCStream_zero_is_unknown (fuel : nat) (zcs : mt.t W) :
  ZSTDMT_resetCStream fuel zcs 0 =
    (if nbThreads (mt.params zcs) =? 1 then
       let '(r, w) :=
         ZSTD_resetCStream (cctx (mt.cctxPool zcs) !!! 0%nat) ZSTD_CONTENTSIZE_UNKNOWN
           (mt.world zcs) in
       Some (r, mt.set_world w zcs)
     else
       ZSTDMT_initCStream_internal fuel zcs NULL 0 ZSTD_dm_auto 0 (mt.params zcs)
         ZSTD_CONTENTSIZE_UNKNOWN)
  /\ ZSTDMT_resetCStream fuel zcs 0 = ZSTDMT_resetCStream fuel zcs ZSTD_CONTENTSIZE_UNKNOWN.
Proof.
  unfold ZSTDMT_resetCStream. cbn. split; [reflexivity|].
  destruct (negb (truthy ZSTD_CONTENTSIZE_UNKNOWN)); reflexivity.
Qed.

End StreamFacts.

(** ** The orchestrator

    From here on the arithmetic of the machine is kept folded. *)

Arguments U32 : simpl never.
Arguments U64 : simpl never.
Arguments size_t : simpl never.
Arguments ERROR : simpl never.
Arguments ZSTD_isError : simpl never.
Arguments Z.land : simpl never.
Arguments Z.shiftl : simpl never.
Arguments Z.shiftr : simpl never.
Arguments Z.ones : simpl never.
Arguments Z.pow : simpl never.
Arguments MEM_writeLE32 : simpl never.
Arguments memmove : simpl never.
Arguments memcpy : simpl never.
Arguments XXH64_update : simpl never.
Arguments XXH64_digest : simpl never.
Arguments MIN : simpl never.
Arguments MAX : simpl never.

(** *** Creating a job *)

Section JobFacts.
Context {W : Type}.

Lemma job_at_set_job_at (s : mt.t W) jobID j :
  (Z.to_nat jobID < length (mt.jobs s))%nat ->
  job_at (set_job_at jobID j s) jobID = j.
Proof.
  intros Hlt. unfold job_at, set_job_at. destruct s; cbn in *.
  now apply list_lookup_total_insert_eq.
Qed.

End JobFacts.

Section CreateFacts.
Context {W : Type} `{ZSTD_constants} `{Sizeof} `{Allocator W} `{Compressor W} `{Hash}
  `{ThreadPool W} `{ThreadPoolAdmin W} `{Workers W}.



Lemma post_ret (zcs : mt.t W) jobID : fst (createCompressionJob_post zcs jobID) = 0.
Proof.
  unfold createCompressionJob_post. destruct (POOL_tryAdd (mt.world zcs)) as [[] w]; reflexivity.
Qed.




End CreateFacts.

(** *** Flushing *)


Lemma MEM_writeLE32_other (m : mem) (p v a : Z) :
  ~ (p <= a < p + 4) -> MEM_writeLE32 m p v a = m a.
Proof.
  intros Ha. unfold MEM_writeLE32, mem_store.
  repeat match goal with
         | |- context [?x =? ?y] => replace (x =? y) with false by (symmetry; apply Z.eqb_neq; lia)
         end.
  reflexivity.
Qed.

Lemma memcpy_other (m : mem) (dst src n a : Z) :
  ~ (dst <= a < dst + n) -> memcpy m dst src n a = m a.
Proof.
  intros Ha. unfold memcpy, memmove.
  destruct ((dst <=? a) && (a <? dst + n)) eqn:E; [|reflexivity].
  apply andb_true_iff in E as [E1 E2]. lia.
Qed.


Ltac mt_norm :=
  repeat (progress (unfold job_at, upd_job_at, set_job_at, set_inBuff_buffer,
                      set_inBuff_filled in *; cbn in * )).

Section FlushFacts.
Context {W : Type} `{ZSTD_constants} `{Sizeof} `{Allocator W} `{Compressor W} `{Hash}
  `{ThreadPool W} `{ThreadPoolAdmin W} `{Workers W}.

Lemma job_at_upd_job_at (s : mt.t W) jobID f :
  (Z.to_nat jobID < length (mt.jobs s))%nat ->
  job_at (upd_job_at jobID f s) jobID = f (job_at s jobID).
Proof.
  intros Hlt. unfold job_at, upd_job_at. destruct s; cbn in *.
  now apply list_lookup_total_insert_eq.
Qed.

Lemma length_upd_job_at (s : mt.t W) jobID f :
  length (mt.jobs (upd_job_at jobID f s)) = length (mt.jobs s).
Proof. unfold upd_job_at. destruct s; cbn. apply length_insert. Qed.


(** The wait is over at once when the job is complete. *)
Lemma flushProduced_wait_completed fuel (zcs : mt.t W) wJobID block :
  jobCompleted (job_at zcs wJobID) = 1 ->
  flushProduced_wait fuel zcs wJobID block = Some zcs.
Proof.
  intros Hc. unfold flushProduced_wait.
  destruct (truthy block && _); [|reflexivity].
  destruct fuel; cbn; rewrite Hc; cbn; rewrite andb_false_r; reflexivity.
Qed.

Lemma flushProduced_wait_nonblocking fuel (zcs : mt.t W) wJobID :
  flushProduced_wait fuel zcs wJobID 0 = Some zcs.
Proof. reflexivity. Qed.


Lemma flushProduced_return_frame (zcs : mt.t W) job :
  mt.jobs (snd (flushProduced_return zcs job)) = mt.jobs zcs /\
  mt.memory (snd (flushProduced_return zcs job)) = mt.memory zcs.
Proof.
  unfold flushProduced_return.
  repeat match goal with |- context [if ?c then _ else _] => destruct c end;
    destruct zcs; cbn; auto.
Qed.

End FlushFacts.

(** *** Slots of the ring *)

Lemma land_ones_mod id k : 0 <= k -> Z.land id (Z.ones k) = id mod 2 ^ k.
Proof. intros. now apply Z.land_ones. Qed.

Lemma ones_succ k : 0 <= k -> Z.ones k + 1 = 2 ^ k.
Proof. intros. rewrite Z.ones_equiv. lia. Qed.

Lemma pow2_pos k : 0 <= k -> 0 < 2 ^ k.
Proof. intros. apply Z.pow_pos_nonneg; lia. Qed.

(** Two job numbers less than a table apart do not share a slot. *)
Lemma same_slot_eq (N a b : Z) :
  0 < N -> a mod N = b mod N -> 0 <= b - a < N -> a = b.
Proof.
  intros HN Hm Hd.
  assert (Hz : (b - a) mod N = 0).
  { rewrite Zminus_mod, Hm, Z.sub_diag. apply Z.mod_0_l. lia. }
  rewrite Z.mod_small in Hz by lia. lia.
Qed.

Lemma slot_range id k : 0 <= k -> 0 <= Z.land id (Z.ones k) < 2 ^ k.
Proof.
  intros. rewrite land_ones_mod by lia. apply Z.mod_pos_bound. now apply pow2_pos.
Qed.

Section Window.
Context {W : Type}.
Implicit Types s : mt.t W.

Lemma slot_lt_length s id :
  mt_inv s -> (Z.to_nat (Z.land id (mt.jobIDMask s)) < length (mt.jobs s))%nat.
Proof.
  intros [[k [Hk Hm]] [Hlen _] _ _ _ _ _ _ _ _].
  rewrite Hm in *. pose proof (slot_range id k ltac:(lia)).
  rewrite ones_succ in Hlen by lia. lia.
Qed.

(** The slot of [nextJobID] is free while the ring has room. *)
Lemma next_slot_idle s :
  mt_inv s -> mt.nextJobID s <= mt.doneJobID s + mt.jobIDMask s ->
  ~ in_window s (Z.to_nat (Z.land (mt.nextJobID s) (mt.jobIDMask s))).
Proof.
  intros [[k [Hk Hm]] _ Ho _ _ _ _ _ _ _] Hroom [id [Hid Hslot]].
  rewrite Hm in *.
  pose proof (slot_range id k ltac:(lia)).
  pose proof (slot_range (mt.nextJobID s) k ltac:(lia)).
  apply Z2Nat.inj in Hslot; try lia.
  rewrite !land_ones_mod in Hslot by lia.
  pose proof (pow2_pos k ltac:(lia)).
  rewrite <- ones_succ in * by lia.
  assert (id = mt.nextJobID s) by (eapply same_slot_eq; eauto; lia).
  lia.
Qed.

(** A slot in the window while [doneJobID = nextJobID]: there is none. *)
Lemma empty_window s i : mt.nextJobID s <= mt.doneJobID s -> ~ in_window s i.
Proof. intros Hle [id [Hid _]]. lia. Qed.

Lemma done_slot_in_window s :
  mt.doneJobID s < mt.nextJobID s ->
  in_window s (Z.to_nat (Z.land (mt.doneJobID s) (mt.jobIDMask s))).
Proof. intros. exists (mt.doneJobID s). split; [lia|reflexivity]. Qed.

End Window.

(** *** The workers' interference *)

Lemma job_rely_refl j : job_rely j j.
Proof. unfold job_rely. intuition. Qed.

Section Rely.
Context {W : Type}.
Implicit Types s : mt.t W.

Lemma worker_rely_refl s : worker_rely s s.
Proof.
  unfold worker_rely. repeat split; auto using job_rely_refl.
  destruct s; reflexivity.
Qed.

Lemma worker_rely_trans s1 s2 s3 :
  worker_rely s1 s2 -> worker_rely s2 s3 -> worker_rely s1 s3.
Proof.
  intros (E1 & L1 & F1 & O1 & J1 & C1) (E2 & L2 & F2 & O2 & J2 & C2).
  unfold worker_rely. repeat apply conj.
  - rewrite E2. rewrite E1. destruct s1; reflexivity.
  - congruence.
  - auto.
  - intros i Hi. rewrite O2 by auto. auto.
  - intros i Hi.
    destruct (in_dec Nat.eq_dec i (mt.factory s2)) as [Hin|Hout].
    + specialize (J1 i Hi). specialize (J2 i Hin). specialize (C1 i Hin).
      unfold job_rely in *.
      destruct J1 as (?&?&?&?&?&?&?&?&?&?), J2 as (?&?&?&?&?&?&?&?&?&?).
      repeat split; try congruence; intuition congruence.
    + rewrite O2 by assumption. auto.
  - intros i Hi. rewrite C2 by assumption. auto.
Qed.

(** The fields the workers leave alone. *)
Lemma worker_rely_frame s s' :
  worker_rely s s' ->
  mt.jobIDMask s' = mt.jobIDMask s /\ mt.doneJobID s' = mt.doneJobID s /\
  mt.nextJobID s' = mt.nextJobID s /\ mt.jobReady s' = mt.jobReady s /\
  mt.allJobsCompleted s' = mt.allJobsCompleted s /\ mt.jobs_ptr s' = mt.jobs_ptr s /\
  mt.frameEnded s' = mt.frameEnded s /\ mt.inBuff s' = mt.inBuff s /\
  mt.params s' = mt.params s /\ mt.xxhState s' = mt.xxhState s.
Proof.
  intros (E & _). rewrite E. destruct s; cbn. repeat split.
Qed.

Lemma in_window_frame s s' i :
  mt.jobIDMask s' = mt.jobIDMask s -> mt.doneJobID s' = mt.doneJobID s ->
  mt.nextJobID s' = mt.nextJobID s -> in_window s' i <-> in_window s i.
Proof. unfold in_window. intros -> -> ->. reflexivity. Qed.

Lemma mt_inv_rely s s' : mt_inv s -> worker_rely s s' -> mt_inv s'.
Proof.
  intros Hinv Hrely.
  pose proof (worker_rely_frame _ _ Hrely) as (Hm & Hd & Hn & Hr & Ha & Hp & _).
  destruct Hrely as (E & L & F & O & J & C).
  pose proof (next_slot_idle s Hinv) as Hnext.
  destruct Hinv as [Imask Itable Iorder Iring Iwrap Irun Iidle Icomp Iready Iflush].
  assert (Hwin : forall i, in_window s' i <-> in_window s i)
    by (intros; now apply in_window_frame).
  constructor; rewrite ?Hm, ?Hd, ?Hn, ?Hr, ?Ha, ?Hp, ?L; auto.
  - intros i Hi. specialize (Irun i (F i Hi)) as [Hw Hc].
    split; [now apply Hwin|]. rewrite C by assumption. exact Hc.
  - intros i Hi Hnw.
    assert (Hout : ~ In i (mt.factory s)).
    { intros Hin. apply Hnw, Hwin. now apply Irun. }
    rewrite O by assumption. apply Iidle; [assumption|]. intros Hw. apply Hnw. now apply Hwin.
  - intros i Ht.
    destruct (in_dec Nat.eq_dec i (mt.factory s)) as [Hin|Hout].
    + destruct (J i Hin) as (_&Hs&_&_&_&_&_&_&_&[Hsame|[_ Hdone]]).
      * specialize (Irun i Hin) as [_ Hc]. rewrite Hsame, Hc in Ht. discriminate.
      * exact Hdone.
    + rewrite O in * by assumption. auto.
  - intros Hr'. specialize (Iready Hr') as [Hroom Hc]. split; [assumption|].
    rewrite O; [assumption|]. intros Hin. apply (Hnext Hroom). now apply Irun.
  - intros Hne. specialize (Iflush Hne) as [He Hz]. split; [assumption|].
    destruct Hz as [Hz|Hz]; [left; assumption|right].
    intros i.
    assert (Hout : ~ In i (mt.factory s)).
    { intros Hin. specialize (Irun i Hin) as [Hw _]. revert Hw. apply empty_window. lia. }
    rewrite O by assumption. apply Hz.
Qed.

End Rely.

Section Waiting.
Context {W : Type} `{Workers W}.
Hypothesis cond_wait_rely : forall s : mt.t W, worker_rely s (ZSTD_pthread_cond_wait s).

Lemma wait_while_rely fuel blocked (s s' : mt.t W) :
  wait_while fuel blocked s = Some s' -> worker_rely s s' /\ blocked s' = false.
Proof.
  revert s. induction fuel as [|fuel IH]; intros s; cbn.
  - destruct (blocked s) eqn:E; [discriminate|].
    intros [= <-]. split; [apply worker_rely_refl|assumption].
  - destruct (blocked s) eqn:E.
    + intros Hw. apply IH in Hw as [Hr Hb]. split; [|assumption].
      eapply worker_rely_trans; [apply cond_wait_rely|exact Hr].
    + intros [= <-]. split; [apply worker_rely_refl|assumption].
Qed.

End Waiting.

(** *** Draining the ring *)

Section Drain.
Context {W : Type} `{ZSTD_constants} `{Sizeof} `{Allocator W} `{Compressor W} `{Hash}
  `{ThreadPool W} `{ThreadPoolAdmin W} `{Workers W}.
Hypothesis cond_wait_rely : forall s : mt.t W, worker_rely s (ZSTD_pthread_cond_wait s).
Implicit Types s : mt.t W.

Lemma mt_inv_draining s : mt_inv s -> draining s.
Proof. intros []. unfold draining. intuition lia. Qed.

Lemma draining_rely s s' : draining s -> worker_rely s s' -> draining s'.
Proof.
  intros (Hm & Ht & Hd & Hw & Hring & Hrun) Hrely.
  pose proof (worker_rely_frame _ _ Hrely) as (Em & Ed & En & Er & Ea & Ep & _).
  destruct Hrely as (E & L & F & O & J & C).
  unfold draining. rewrite Em, Ed, En, Ep, L. split_and!; try tauto; try lia.
  intros i Hi. split.
  - specialize (Hrun i (F i Hi)) as [Hwin _].
    eapply in_window_frame; eauto.
  - rewrite C by assumption. exact (proj2 (Hrun i (F i Hi))).
Qed.

Lemma draining_no_workers s :
  draining s -> mt.nextJobID s <= mt.doneJobID s -> mt.factory s = [].
Proof.
  intros (_ & _ & _ & _ & _ & Hrun) Hle.
  destruct (mt.factory s) as [|i l] eqn:E; [reflexivity|].
  exfalso. destruct (Hrun i) as [Hw _]; [first [rewrite E; now left | now left]|].
  revert Hw. now apply empty_window.
Qed.

Lemma waitForAll_loop_drains fuel n : forall s s',
  draining s -> (Z.to_nat (mt.nextJobID s - mt.doneJobID s) <= n)%nat ->
  waitForAllJobsCompleted_loop fuel n s = Some s' ->
  draining s' /\ mt.nextJobID s' <= mt.doneJobID s' /\
  (mt.doneJobID s <= mt.nextJobID s -> mt.doneJobID s' = mt.nextJobID s) /\
  (mt.nextJobID s <= mt.doneJobID s -> mt.doneJobID s' = mt.doneJobID s) /\
  mt.nextJobID s' = mt.nextJobID s /\ mt.jobIDMask s' = mt.jobIDMask s /\
  mt.jobReady s' = mt.jobReady s /\ length (mt.jobs s') = length (mt.jobs s) /\
  mt.frameEnded s' = mt.frameEnded s.
Proof.
  induction n as [|n IH]; intros s s' Hdr Hn; cbn [waitForAllJobsCompleted_loop].
  - intros [= <-]. split_and!; auto; lia.
  - destruct (mt.doneJobID s <? mt.nextJobID s) eqn:Elt.
    2:{ intros [= <-]. apply Z.ltb_ge in Elt. split_and!; auto; lia. }
    apply Z.ltb_lt in Elt.
    destruct (wait_while _ _ s) as [s1|] eqn:Ewait; [|discriminate].
    apply (wait_while_rely cond_wait_rely) in Ewait as [Hrely Hdone].
    pose proof (worker_rely_frame _ _ Hrely) as (Em & Ed & En & Er & Ea & Ep & Ef & _).
    pose proof (draining_rely _ _ Hdr Hrely) as Hdr1.
    assert (Hlen : length (mt.jobs s1) = length (mt.jobs s)) by (destruct Hrely; tauto).
    set (s2 := mt.set_doneJobID (U32 (mt.doneJobID s1 + 1)) s1).
    intros Hrec.
    destruct Hdr1 as (Hm1 & Ht1 & Hd1 & Hw1 & Hring1 & Hrun1).
    assert (Hmask_nonneg : 0 <= mt.jobIDMask s1).
    { destruct Hm1 as (k & Hk & ->). rewrite Z.ones_equiv.
      pose proof (pow2_pos k ltac:(lia)). lia. }
    assert (HU : U32 (mt.doneJobID s1 + 1) = mt.doneJobID s1 + 1)
      by (apply U32_small; lia).
    assert (Hdone1 : jobCompleted (mt.jobs s1 !!!
                        Z.to_nat (Z.land (mt.doneJobID s1) (mt.jobIDMask s1))) <> 0).
    { rewrite Ed, Em. unfold job_at in Hdone. apply Z.eqb_neq in Hdone. exact Hdone. }
    assert (Hdr2 : draining s2).
    { subst s2. unfold draining. rewrite HU.
      destruct s1; cbn in *. split_and!; try tauto; try lia.
      intros i Hi. specialize (Hrun1 i Hi) as [[id [Hid Hslot]] Hc]. split; [|exact Hc].
      cbn in Hid, Hslot.
      destruct (Z.eq_dec id doneJobID) as [->|Hne].
      + exfalso. rewrite Hslot, Hc in Hdone1. now apply Hdone1.
      + exists id. cbn. split; [lia|assumption]. }
    apply IH in Hrec; [|assumption|subst s2; rewrite HU; destruct s1; cbn in *; lia].
    destruct Hrec as (Hdr' & Hle' & Hd' & Hd'' & Hn' & Hm' & Hr' & Hl' & Hf').
    subst s2. rewrite HU in *. destruct s1; cbn in *. subst.
    split_and!; auto; try lia.
Qed.

Lemma waitForAll_drains fuel s s' :
  draining s -> ZSTDMT_waitForAllJobsCompleted fuel s = Some s' ->
  draining s' /\ mt.factory s' = [] /\ mt.nextJobID s' <= mt.doneJobID s' /\
  (mt.doneJobID s <= mt.nextJobID s -> mt.doneJobID s' = mt.nextJobID s) /\
  (mt.nextJobID s <= mt.doneJobID s -> mt.doneJobID s' = mt.doneJobID s) /\
  mt.nextJobID s' = mt.nextJobID s /\ mt.jobIDMask s' = mt.jobIDMask s /\
  mt.jobReady s' = mt.jobReady s /\ mt.frameEnded s' = mt.frameEnded s.
Proof.
  intros Hdr Hw. unfold ZSTDMT_waitForAllJobsCompleted in Hw.
  apply waitForAll_loop_drains in Hw; [|assumption|lia].
  destruct Hw as (Hdr' & Hle & ? & ? & ? & ? & ? & ? & ?).
  split_and!; auto. now apply draining_no_workers.
Qed.

End Drain.

Section Release.
Context {W : Type} `{Allocator W}.
Implicit Types s : mt.t W.

Lemma releaseAll_loop_frame n : forall jobID s,
  ring_view (releaseAllJobResources_loop n jobID s) = ring_view s /\
  length (mt.jobs (releaseAllJobResources_loop n jobID s)) = length (mt.jobs s).
Proof.
  induction n as [|n IH]; intros jobID s; cbn [releaseAllJobResources_loop].
  - auto.
  - destruct (ZSTDMT_releaseBuffer _ _ _) as [bp w].
    destruct (ZSTDMT_releaseBuffer (mt.bufPool _) _ _) as [bp' w'].
    match goal with |- context [releaseAllJobResources_loop n ?j ?s'] =>
      destruct (IH j s') as [Hv Hl]; rewrite Hv, Hl end.
    destruct s; unfold ring_view; mt_norm. rewrite !length_insert. auto.
Qed.

Lemma lookup_zero_table (n : nat) (l : list ZSTDMT_jobDescription) (i : nat) :
  length l = n -> (replicate n zero_job ++ drop n l) !!! i = zero_job.
Proof.
  intros Hl. rewrite drop_ge by lia. rewrite app_nil_r.
  destruct (decide (i < n)%nat) as [Hlt|Hge].
  - now apply lookup_total_replicate_2.
  - rewrite list_lookup_total_alt.
    replace (replicate n zero_job !! i) with (@None ZSTDMT_jobDescription); [reflexivity|].
    symmetry. apply lookup_replicate_None. lia.
Qed.

Lemma releaseAll_inv s :
  draining s -> mt.factory s = [] -> mt.doneJobID s = mt.nextJobID s ->
  let s' := ZSTDMT_releaseAllJobResources s in
  mt_inv s' /\ mt.doneJobID s' = mt.doneJobID s /\ mt.nextJobID s' = mt.nextJobID s /\
  mt.jobIDMask s' = mt.jobIDMask s /\ mt.allJobsCompleted s' = 1 /\
  mt.jobReady s' = mt.jobReady s /\ mt.frameEnded s' = mt.frameEnded s /\
  (forall i : nat, mt.jobs s' !!! i = zero_job).
Proof.
  intros (Hm & [Hlen Hptr] & Hd & Hw & Hring & Hrun) Hf Heq.
  unfold ZSTDMT_releaseAllJobResources.
  set (n := Z.to_nat (mt.jobIDMask s + 1)).
  destruct (releaseAll_loop_frame n 0 s) as [Hv Hl].
  set (s1 := releaseAllJobResources_loop n 0 s) in *.
  assert (Hn : length (mt.jobs s1) = n) by (subst n; lia).
  destruct (ZSTDMT_releaseBuffer _ _ _) as [bp w].
  unfold ring_view in Hv. injection Hv as Hv1 Hv2 Hv3 Hv4 Hv5 Hv6 Hv7 Hv8.
  assert (Hz : forall i : nat,
             (replicate n zero_job ++ drop n (mt.jobs s1)) !!! i = zero_job)
    by (intros; now apply lookup_zero_table).
  assert (HlenZ : Z.of_nat (length (replicate n zero_job ++ drop n (mt.jobs s1)))
                  = mt.jobIDMask s + 1).
  { rewrite length_app, length_replicate, drop_ge by lia. cbn. lia. }
  destruct s1; mt_norm. subst.
  split_and!; auto.
  constructor; cbn; auto; try lia.
  - rewrite Hf. intros i [].
  - intros i _ _. rewrite Hz. cbn. split; [reflexivity|left; lia].
  - intros i. rewrite Hz. cbn. discriminate.
  - intros _. rewrite Hz. cbn. split; [|reflexivity].
    destruct Hm as (k & Hk & ->). pose proof (pow2_pos k ltac:(lia)).
    rewrite Z.ones_equiv. lia.
  - intros _. split; [assumption|right]. intros i. rewrite Hz. cbn. split; [lia|reflexivity].
Qed.

End Release.

(** *** Job creation keeps the invariant *)

Section Create.
Context {W : Type} `{ZSTD_constants} `{Sizeof} `{Allocator W} `{Compressor W} `{Hash}
  `{ThreadPool W} `{ThreadPoolAdmin W} `{Workers W}.
Hypothesis cond_wait_rely : forall s : mt.t W, worker_rely s (ZSTD_pthread_cond_wait s).
Implicit Types s z : mt.t W.

Lemma in_window_grow z z' i :
  mt.jobIDMask z' = mt.jobIDMask z -> mt.doneJobID z' = mt.doneJobID z ->
  mt.nextJobID z' = mt.nextJobID z + 1 ->
  in_window z i -> in_window z' i.
Proof.
  unfold in_window. intros -> -> -> (id & Hid & Hs). exists id. split; [lia|assumption].
Qed.

Lemma post_fields z p :
  let z' := snd (createCompressionJob_post z p) in
  mt.jobs z' = mt.jobs z /\ mt.jobIDMask z' = mt.jobIDMask z /\
  mt.doneJobID z' = mt.doneJobID z /\ mt.jobs_ptr z' = mt.jobs_ptr z /\
  mt.allJobsCompleted z' = mt.allJobsCompleted z /\
  mt.frameEnded z' = mt.frameEnded z /\
  ((mt.factory z' = mt.factory z ++ [Z.to_nat p] /\
    mt.nextJobID z' = U32 (mt.nextJobID z + 1) /\ mt.jobReady z' = 0) \/
   (mt.factory z' = mt.factory z /\ mt.nextJobID z' = mt.nextJobID z /\
    mt.jobReady z' = 1)).
Proof.
  unfold createCompressionJob_post.
  destruct (POOL_tryAdd (mt.world z)) as [[] w]; destruct z; cbn; split_and!; auto.
Qed.

Lemma post_inv z :
  postable z ->
  mt_inv (snd (createCompressionJob_post z (Z.land (mt.nextJobID z) (mt.jobIDMask z)))).
Proof.
  intros (Hm & Ht & Ho & Hroom & Hwrap & Hrun & Hidle & Hcomp & Hjc & Hall).
  destruct (post_fields z (Z.land (mt.nextJobID z) (mt.jobIDMask z)))
    as (Ej & Em & Ed & Ep & Ea & _ & Hcase).
  set (z' := snd _) in *. clearbody z'.
  destruct Hcase as [(Ef & En & Er)|(Ef & En & Er)].
  - assert (Hn : U32 (mt.nextJobID z + 1) = mt.nextJobID z + 1)
      by (destruct Hm as (k & Hk & Hm); rewrite Hm in *; apply U32_small;
          pose proof (pow2_pos k ltac:(lia)); rewrite Z.ones_equiv in *; lia).
    rewrite Hn in En.
    assert (Hgrow : forall i, in_window z i -> in_window z' i)
      by (intros i; now apply in_window_grow).
    assert (Hlast : in_window z' (Z.to_nat (Z.land (mt.nextJobID z) (mt.jobIDMask z)))).
    { exists (mt.nextJobID z). rewrite Em, Ed, En. split; [lia|reflexivity]. }
    constructor; rewrite ?Ej, ?Em, ?Ed, ?Ep, ?Ea, ?Ef, ?En, ?Er; auto; try lia.
    + intros i Hi. apply in_app_or in Hi as [Hi|[<-|[]]].
      * destruct (Hrun i Hi) as [Hw Hc]. auto.
      * auto.
    + intros i Hi Hnw.
      destruct (Hidle i Hi) as [Hnull [Hle|Heq]]; auto.
      exfalso. apply Hnw. rewrite Heq. exact Hlast.
    + discriminate.
  - assert (Hsame : forall i, in_window z' i <-> in_window z i)
      by (intros; now apply in_window_frame).
    constructor; rewrite ?Ej, ?Em, ?Ed, ?Ep, ?Ea, ?Ef, ?En, ?Er; auto; try lia.
    + intros i Hi. rewrite Hsame. auto.
    + intros i Hi Hnw. rewrite Hsame in Hnw.
      destruct (Hidle i Hi Hnw) as [Hnull [Hle|Heq]]; auto.
Qed.

(** The ring after the preparation of a job. *)
Lemma prepare_inr_ring fuel z z' jobID srcSize endFrame :
  createCompressionJob_prepare fuel z jobID srcSize endFrame = Some (inr z') ->
  mt.jobs z' = <[Z.to_nat jobID := prepared_job z srcSize endFrame]> (mt.jobs z) /\
  mt.factory z' = mt.factory z /\ mt.jobs_ptr z' = mt.jobs_ptr z /\
  mt.jobIDMask z' = mt.jobIDMask z /\ mt.doneJobID z' = mt.doneJobID z /\
  mt.nextJobID z' = mt.nextJobID z /\ mt.jobReady z' = mt.jobReady z /\
  mt.allJobsCompleted z' = mt.allJobsCompleted z.
Proof.
  unfold createCompressionJob_prepare.
  destruct (truthy endFrame) eqn:Eend; cbn [negb andb].
  - destruct z; cbn.
    destruct (truthy (checksumFlag (fParams _))); cbn;
      destruct (nextJobID =? 0); cbn; intros [= <-]; split_and!; reflexivity.
  - set (z1 := set_job_at jobID _ z).
    set (z2 := if truthy _ then _ else z1).
    assert (Hj : mt.jobs z2 = <[Z.to_nat jobID := prepared_job z srcSize endFrame]> (mt.jobs z)
                 /\ ring_view z2 = ring_view z).
    { subst z2 z1. destruct z; cbn. destruct (truthy (checksumFlag (fParams _))); cbn; auto. }
    destruct Hj as [Hj Hv].
    destruct (ZSTDMT_getBuffer (mt.bufPool z2) (mt.world z2)) as [[b bp] w].
    unfold ring_view in Hv. injection Hv as Hv1 Hv2 Hv3 Hv4 Hv5 Hv6 Hv7 Hv8.
    destruct z2; cbn in *.
    destruct (start b =? NULL).
    + destruct (ZSTDMT_waitForAllJobsCompleted _ _); discriminate.
    + intros [= <-]. cbn. split_and!; auto.
Qed.

(** The failure of the preparation: the job is marked complete, counted,
    the ring drained and the table released. *)
Lemma prepare_inl_ring fuel z jobID srcSize endFrame r z' :
  (Z.to_nat jobID < length (mt.jobs z))%nat ->
  createCompressionJob_prepare fuel z jobID srcSize endFrame = Some (inl (r, z')) ->
  exists zf zw,
    ZSTDMT_waitForAllJobsCompleted fuel zf = Some zw /\
    z' = ZSTDMT_releaseAllJobResources zw /\
    mt.jobs zf = <[Z.to_nat jobID := set_jobCompleted 1 (prepared_job z srcSize endFrame)]>
                   (mt.jobs z) /\
    mt.factory zf = mt.factory z /\ mt.jobs_ptr zf = mt.jobs_ptr z /\
    mt.jobIDMask zf = mt.jobIDMask z /\ mt.doneJobID zf = mt.doneJobID z /\
    mt.nextJobID zf = U32 (mt.nextJobID z + 1) /\ mt.jobReady zf = mt.jobReady z.
Proof.
  intros Hlt. unfold createCompressionJob_prepare.
  destruct (truthy endFrame) eqn:Eend; cbn [negb andb].
  - match goal with |- context [if ?c then _ else _] => destruct c end; discriminate.
  - set (z1 := set_job_at jobID _ z).
    set (z2 := if truthy _ then _ else z1).
    assert (Hj : mt.jobs z2 = <[Z.to_nat jobID := prepared_job z srcSize endFrame]> (mt.jobs z)
                 /\ ring_view z2 = ring_view z).
    { subst z2 z1. destruct z; cbn. destruct (truthy (checksumFlag (fParams _))); cbn; auto. }
    destruct Hj as [Hj Hv].
    destruct (ZSTDMT_getBuffer (mt.bufPool z2) (mt.world z2)) as [[b bp] w].
    unfold ring_view in Hv. injection Hv as Hv1 Hv2 Hv3 Hv4 Hv5 Hv6 Hv7 Hv8.
    match goal with |- context [if ?c then _ else _] => destruct c end; [|discriminate].
    match goal with |- context [ZSTDMT_waitForAllJobsCompleted fuel ?s] =>
      set (zf := s) end.
    destruct (ZSTDMT_waitForAllJobsCompleted fuel zf) as [zw|] eqn:Ew; [|discriminate].
    intros [= <- <-]. exists zf, zw. split; [assumption|]. split; [reflexivity|].
    subst zf. destruct z2; mt_norm. subst.
    split_and!; auto.
    rewrite list_insert_insert_eq. f_equal.
    rewrite list_lookup_total_insert_eq by assumption. reflexivity.
Qed.

Lemma guard_room z :
  mt_inv z ->
  (mt.nextJobID z >? U32 (mt.doneJobID z + mt.jobIDMask z)) = false ->
  mt.nextJobID z <= mt.doneJobID z + mt.jobIDMask z.
Proof.
  intros Hinv Hg. destruct Hinv as [(k & Hk & Hm) _ Ho _ Hw _ _ _ _ _].
  pose proof (pow2_pos k ltac:(lia)). rewrite Hm, Z.ones_equiv in *.
  rewrite U32_small in Hg by lia. rewrite Z.gtb_ltb in Hg. apply Z.ltb_ge in Hg. lia.
Qed.

Lemma prepare_inv fuel z srcSize endFrame :
  mt_inv z -> truthy (mt.jobReady z) = false -> mt.allJobsCompleted z = 0 ->
  mt.nextJobID z <= mt.doneJobID z + mt.jobIDMask z ->
  mt.nextJobID z + mt.jobIDMask z + 1 < 2 ^ 32 ->
  match createCompressionJob_prepare fuel z (Z.land (mt.nextJobID z) (mt.jobIDMask z))
          srcSize endFrame with
  | Some (inl (r, z')) => mt_inv z' /\ mt.allJobsCompleted z' = 1
  | Some (inr z') => postable z'
  | None => True
  end.
Proof.
  intros Hinv Hr Hall Hroom Hwrap.
  pose proof (next_slot_idle z Hinv Hroom) as Hfree.
  pose proof (slot_lt_length z (mt.nextJobID z) Hinv) as Hlt.
  set (p := Z.to_nat (Z.land (mt.nextJobID z) (mt.jobIDMask z))) in *.
  destruct (createCompressionJob_prepare _ _ _ _ _) as [[[r z']|z']|] eqn:Eprep; [| |exact I].
  - apply prepare_inl_ring in Eprep; [|assumption].
    destruct Eprep as (zf & zw & Ew & -> & Ej & Ef & Ep & Em & Ed & En & Erdy).
    destruct Hinv as [Imask Itable Iorder Iring Iwrap Irun Iidle Icomp Iready Iflush].
    assert (Hn : U32 (mt.nextJobID z + 1) = mt.nextJobID z + 1).
    { destruct Imask as (k & Hk & Hm). pose proof (pow2_pos k ltac:(lia)).
      rewrite Hm, Z.ones_equiv in *. apply U32_small. lia. }
    rewrite Hn in En.
    assert (Hdr : draining zf).
    { unfold draining. rewrite Em, Ed, En, Ep, Ef, Ej, length_insert.
      split_and!; auto; try lia.
      intros i Hi. destruct (Irun i Hi) as [Hw Hc]. split.
      - eapply in_window_grow; eauto.
      - rewrite list_lookup_total_insert_ne; [assumption|].
        intros <-. contradiction. }
    destruct (waitForAll_drains cond_wait_rely fuel zf zw Hdr Ew)
      as (Hdr' & Hf' & Hle & Hd1 & _ & Hn' & Hm' & _).
    destruct (releaseAll_inv zw Hdr' Hf') as (Hi' & _ & _ & _ & Ha' & _); [lia|].
    split; assumption.
  - apply prepare_inr_ring in Eprep as (Ej & Ef & Ep & Em & Ed & En & Erdy & Ea).
    assert (Hsame : forall i, in_window z' i <-> in_window z i)
      by (intros; now apply in_window_frame).
    destruct Hinv as [Imask Itable Iorder Iring Iwrap Irun Iidle Icomp Iready Iflush].
    unfold postable. rewrite Em, Ed, En, Ep, Ef, Ea, Ej, length_insert.
    fold p.
    split_and!; auto; try lia.
    + intros i Hi. destruct (Irun i Hi) as [Hw Hc]. rewrite Hsame. split; [assumption|].
      rewrite list_lookup_total_insert_ne; [assumption|]. intros <-. contradiction.
    + intros i Hi Hnw. rewrite Hsame in Hnw.
      destruct (decide (i = p)) as [->|Hne].
      * rewrite list_lookup_total_insert_eq by assumption. cbn. auto.
      * rewrite list_lookup_total_insert_ne by auto.
        destruct (Iidle i Hi Hnw) as [Hnull [Hle|[Ht _]]]; auto.
        rewrite Hr in Ht. discriminate.
    + intros i. destruct (decide (i = p)) as [->|Hne].
      * rewrite list_lookup_total_insert_eq by assumption. cbn. discriminate.
      * rewrite list_lookup_total_insert_ne by auto. apply Icomp.
    + rewrite list_lookup_total_insert_eq by assumption. reflexivity.
Qed.

(** Job creation keeps the invariant of the orchestrator. *)
Lemma createCompressionJob_inv fuel z srcSize endFrame r z' :
  mt_inv z -> mt.allJobsCompleted z = 0 ->
  mt.nextJobID z + mt.jobIDMask z + 1 < 2 ^ 32 ->
  ZSTDMT_createCompressionJob fuel z srcSize endFrame = Some (r, z') ->
  mt_inv z'.
Proof.
  intros Hinv Hall Hwrap. unfold ZSTDMT_createCompressionJob.
  destruct (mt.nextJobID z >? U32 (mt.doneJobID z + mt.jobIDMask z)) eqn:Eg.
  { intros [= <- <-]. assumption. }
  pose proof (guard_room z Hinv Eg) as Hroom.
  destruct (truthy (mt.jobReady z)) eqn:Er; cbn [negb].
  - intros [= Hpost].
    assert (Hz : z' = snd (createCompressionJob_post z (Z.land (mt.nextJobID z) (mt.jobIDMask z))))
      by (rewrite Hpost; reflexivity).
    rewrite Hz. apply post_inv.
    destruct Hinv as [Imask Itable Iorder Iring Iwrap Irun Iidle Icomp Iready Iflush].
    unfold postable. split_and!; auto; try lia.
    + intros i Hi Hnw. destruct (Iidle i Hi Hnw) as [Hnull [Hle|[_ Heq]]]; auto.
    + now apply Iready.
  - pose proof (prepare_inv fuel z srcSize endFrame Hinv Er Hall Hroom Hwrap) as Hprep.
    destruct (createCompressionJob_prepare _ _ _ _ _) as [[[r0 z0]|z1]|] eqn:Eprep;
      [| |discriminate].
    + intros [= <- <-]. tauto.
    + intros [= Hpost].
      assert (Hz : z' = snd (createCompressionJob_post z1 (Z.land (mt.nextJobID z) (mt.jobIDMask z))))
        by (rewrite Hpost; reflexivity).
      rewrite Hz.
      assert (Hslot : Z.land (mt.nextJobID z) (mt.jobIDMask z)
                      = Z.land (mt.nextJobID z1) (mt.jobIDMask z1)).
      { apply prepare_inr_ring in Eprep as (_ & _ & _ & -> & _ & -> & _). reflexivity. }
      rewrite Hslot. now apply post_inv.
Qed.

End Create.

(** *** Flushing keeps the invariant *)

Section Ext.
Context {W : Type}.
Implicit Types s z : mt.t W.

(** The invariant only reads the ring. *)
Lemma mt_inv_ext z z' :
  ring_view z' = ring_view z -> mt.jobs z' = mt.jobs z -> mt_inv z -> mt_inv z'.
Proof.
  unfold ring_view. intros Hv Hj. injection Hv as Hv1 Hv2 Hv3 Hv4 Hv5 Hv6 Hv7 Hv8.
  assert (Hsame : forall i, in_window z' i <-> in_window z i)
    by (intros; now apply in_window_frame).
  intros [Imask Itable Iorder Iring Iwrap Irun Iidle Icomp Iready Iflush].
  constructor; rewrite ?Hj, ?Hv1, ?Hv2, ?Hv3, ?Hv4, ?Hv5, ?Hv6, ?Hv8; auto.
  - intros i Hi. rewrite Hsame. auto.
  - intros i Hi Hnw. rewrite Hsame in Hnw. auto.
Qed.

(** ... and of a job only its buffer, its sizes and its completion. *)
Lemma mt_inv_upd z w f :
  (forall j, dstBuff (f j) = dstBuff j /\ srcSize (f j) = srcSize j /\
             consumed (f j) = consumed j /\ jobCompleted (f j) = jobCompleted j) ->
  mt_inv z -> mt_inv (upd_job_at w f z).
Proof.
  intros Hf Hinv.
  assert (Hv : ring_view (upd_job_at w f z) = ring_view z) by (destruct z; reflexivity).
  assert (Hj : mt.jobs (upd_job_at w f z)
               = <[Z.to_nat w := f (mt.jobs z !!! Z.to_nat w)]> (mt.jobs z))
    by (destruct z; reflexivity).
  unfold ring_view in Hv. injection Hv as Hv1 Hv2 Hv3 Hv4 Hv5 Hv6 Hv7 Hv8.
  assert (Hsame : forall i, in_window (upd_job_at w f z) i <-> in_window z i)
    by (intros; now apply in_window_frame).
  assert (Hlook : forall i,
            dstBuff (mt.jobs (upd_job_at w f z) !!! i) = dstBuff (mt.jobs z !!! i) /\
            srcSize (mt.jobs (upd_job_at w f z) !!! i) = srcSize (mt.jobs z !!! i) /\
            consumed (mt.jobs (upd_job_at w f z) !!! i) = consumed (mt.jobs z !!! i) /\
            jobCompleted (mt.jobs (upd_job_at w f z) !!! i) = jobCompleted (mt.jobs z !!! i)).
  { intros i. rewrite Hj. destruct (decide (i = Z.to_nat w)) as [->|Hne].
    - destruct (decide (Z.to_nat w < length (mt.jobs z))%nat) as [Hlt|Hge].
      + rewrite list_lookup_total_insert_eq by assumption. apply Hf.
      + rewrite list_insert_ge by lia. auto.
    - rewrite list_lookup_total_insert_ne by auto. auto. }
  destruct Hinv as [Imask Itable Iorder Iring Iwrap Irun Iidle Icomp Iready Iflush].
  constructor; rewrite ?Hv1, ?Hv2, ?Hv3, ?Hv4, ?Hv5, ?Hv6, ?Hv8; auto.
  - rewrite Hj, length_insert. assumption.
  - intros i Hi. rewrite Hsame. destruct (Hlook i) as (_ & _ & _ & ->). auto.
  - intros i Hi Hnw. rewrite Hsame in Hnw. rewrite Hj, length_insert in Hi.
    destruct (Hlook i) as (-> & -> & -> & _). auto.
  - intros i. destruct (Hlook i) as (_ & -> & -> & ->). auto.
  - intros Hr. destruct (Hlook (Z.to_nat (Z.land (mt.nextJobID z) (mt.jobIDMask z))))
      as (_ & _ & _ & ->). auto.
  - intros Hne. destruct (Iflush Hne) as [He Hz]. split; [assumption|].
    destruct Hz as [Hz|Hz]; [left; assumption|right].
    intros i. destruct (Hlook i) as (_ & -> & -> & ->). auto.
Qed.

End Ext.

Section Drained.
Context {W : Type}.
Implicit Types s z : mt.t W.

(** A slot with a buffer is in flight: at the slot of [doneJobID], the
    window is not empty. *)
Lemma buffer_at_done z :
  mt_inv z ->
  start (dstBuff (job_at z (Z.land (mt.doneJobID z) (mt.jobIDMask z)))) <> NULL ->
  mt.doneJobID z < mt.nextJobID z.
Proof.
  intros Hinv Hb.
  destruct (Z_lt_dec (mt.doneJobID z) (mt.nextJobID z)) as [Hlt|Hge]; [assumption|].
  exfalso. apply Hb.
  apply (inv_idle z Hinv); [apply slot_lt_length; assumption|].
  apply empty_window. lia.
Qed.

(** The slot of [doneJobID] is drained: its buffer is released, its
    completion reset, and [doneJobID] moves on. *)
Lemma drain_inv z z' j' :
  mt_inv z ->
  mt.doneJobID z < mt.nextJobID z ->
  truthy (jobCompleted (job_at z (Z.land (mt.doneJobID z) (mt.jobIDMask z)))) = true ->
  mt.factory z' = mt.factory z -> mt.jobs_ptr z' = mt.jobs_ptr z ->
  mt.jobIDMask z' = mt.jobIDMask z -> mt.nextJobID z' = mt.nextJobID z ->
  mt.jobReady z' = mt.jobReady z -> mt.allJobsCompleted z' = mt.allJobsCompleted z ->
  mt.doneJobID z' = mt.doneJobID z + 1 ->
  mt.jobs z' = <[Z.to_nat (Z.land (mt.doneJobID z) (mt.jobIDMask z)) := j']> (mt.jobs z) ->
  start (dstBuff j') = NULL -> jobCompleted j' = 0 ->
  srcSize j' = srcSize (job_at z (Z.land (mt.doneJobID z) (mt.jobIDMask z))) ->
  consumed j' = consumed (job_at z (Z.land (mt.doneJobID z) (mt.jobIDMask z))) ->
  mt_inv z'.
Proof.
  intros Hinv Hlt Hc Ef Ep Em En Er Ea Ed Ej Hnull Hjc Hs Hcons.
  pose proof (slot_lt_length z (mt.doneJobID z) Hinv) as Hw.
  unfold job_at in *.
  set (w := Z.to_nat (Z.land (mt.doneJobID z) (mt.jobIDMask z))) in *.
  destruct Hinv as [Imask Itable Iorder Iring Iwrap Irun Iidle Icomp Iready Iflush].
  assert (Hshrink : forall i, i <> w -> in_window z i -> in_window z' i).
  { intros i Hne (id & Hid & Hslot). exists id. rewrite Em, Ed, En. split; [|assumption].
    destruct (Z.eq_dec id (mt.doneJobID z)) as [->|]; [|lia].
    exfalso. apply Hne. symmetry. exact Hslot. }
  assert (Hsub : forall i, in_window z' i -> in_window z i).
  { intros i (id & Hid & Hslot). exists id. rewrite Em, Ed, En in *. split; [lia|assumption]. }
  constructor; rewrite ?Ef, ?Ep, ?Em, ?En, ?Er, ?Ea, ?Ed, ?Ej, ?length_insert; auto; try lia.
  - intros i Hi. destruct (Irun i Hi) as [Hwin Hz].
    assert (Hne : i <> w) by (intros ->; rewrite Hz in Hc; discriminate).
    rewrite list_lookup_total_insert_ne by auto. auto.
  - intros i Hi Hnw.
    destruct (decide (i = w)) as [->|Hne].
    + rewrite list_lookup_total_insert_eq by assumption.
      split; [assumption|left]. rewrite Hs, Hcons, (Icomp w Hc). lia.
    + rewrite list_lookup_total_insert_ne by auto.
      apply Iidle; [assumption|]. intros Hwin. apply Hnw. auto.
  - intros i. destruct (decide (i = w)) as [->|Hne].
    + rewrite list_lookup_total_insert_eq by assumption. rewrite Hjc. discriminate.
    + rewrite list_lookup_total_insert_ne by auto. apply Icomp.
  - intros Hr. split; [destruct (Iready Hr); lia|].
    destruct (decide (Z.to_nat (Z.land (mt.nextJobID z) (mt.jobIDMask z)) = w)) as [->|Hne].
    + rewrite list_lookup_total_insert_eq by assumption. assumption.
    + rewrite list_lookup_total_insert_ne by auto. now apply Iready.
Qed.

End Drained.

Section FlushInv.
Context {W : Type} `{ZSTD_constants} `{Sizeof} `{Allocator W} `{Compressor W} `{Hash}
  `{ThreadPool W} `{ThreadPoolAdmin W} `{Workers W}.
Hypothesis cond_wait_rely : forall s : mt.t W, worker_rely s (ZSTD_pthread_cond_wait s).
Implicit Types s z : mt.t W.

Lemma flushProduced_wait_rely fuel z w block z1 :
  flushProduced_wait fuel z w block = Some z1 -> worker_rely z z1.
Proof.
  unfold flushProduced_wait.
  destruct (truthy block && _).
  - intros Hw. now apply (wait_while_rely cond_wait_rely) in Hw.
  - intros [= <-]. apply worker_rely_refl.
Qed.

(** The checksum stage: the local copy and the slot change together. *)
Lemma flushProduced_checksum_stage z w job job' z' :
  (Z.to_nat w < length (mt.jobs z))%nat ->
  job = job_at z w ->
  flushProduced_checksum z w job = (job', z') ->
  ring_view z' = ring_view z /\ mt.inBuff z' = mt.inBuff z /\
  length (mt.jobs z') = length (mt.jobs z) /\
  (mt_inv z -> mt_inv z') /\
  set_frameChecksumNeeded 0 job' = set_frameChecksumNeeded 0 (job_at z' w) /\
  dstBuff job' = dstBuff job /\ srcSize job' = srcSize job /\
  consumed job' = consumed job /\ jobCompleted job' = jobCompleted job /\
  dstFlushed job' = dstFlushed job.
Proof.
  intros Hw -> . unfold flushProduced_checksum.
  destruct (truthy _ && truthy _).
  - intros [= <- <-].
    split_and!; try reflexivity; try (destruct z; reflexivity).
    all: try (now destruct (job_at z w)).
    + rewrite !length_upd_job_at. destruct z; reflexivity.
    + intros Hinv. apply mt_inv_upd; [intros j; now destruct j|].
      apply mt_inv_upd; [intros j; now destruct j|].
      revert Hinv. apply mt_inv_ext; destruct z; reflexivity.
    + rewrite job_at_upd_job_at by (rewrite length_upd_job_at; destruct z; exact Hw).
      rewrite job_at_upd_job_at by (destruct z; exact Hw).
      destruct z; mt_norm. now destruct (_ !!! _).
  - intros [= <- <-]. split_and!; auto.
Qed.

Lemma same_but_checksum_fields (j1 j2 : ZSTDMT_jobDescription) :
  set_frameChecksumNeeded 0 j1 = set_frameChecksumNeeded 0 j2 ->
  dstBuff j1 = dstBuff j2 /\ jobCompleted j1 = jobCompleted j2 /\
  srcSize j1 = srcSize j2 /\ consumed j1 = consumed j2 /\
  cSize j1 = cSize j2 /\ dstFlushed j1 = dstFlushed j2.
Proof. destruct j1, j2; cbn. intros [= ]; subst. split_and!; reflexivity. Qed.

Lemma same_but_checksum_flushed (j1 j2 : ZSTDMT_jobDescription) v :
  set_frameChecksumNeeded 0 j1 = set_frameChecksumNeeded 0 j2 ->
  set_frameChecksumNeeded 0 (set_dstFlushed v j1)
  = set_frameChecksumNeeded 0 (set_dstFlushed v j2).
Proof. destruct j1, j2; cbn. intros [= ]; subst. reflexivity. Qed.

(** The copy stage: either the slot stays the current one, or it is
    drained and [doneJobID] moves on. *)
Lemma flushProduced_copy_stage z out job job' z' out' :
  let w := Z.land (mt.doneJobID z) (mt.jobIDMask z) in
  mt_inv z ->
  set_frameChecksumNeeded 0 job = set_frameChecksumNeeded 0 (job_at z w) ->
  flushProduced_copy z out w job = (job', z', out') ->
  mt_inv z' /\ mt.nextJobID z' = mt.nextJobID z /\ mt.jobReady z' = mt.jobReady z /\
  mt.allJobsCompleted z' = mt.allJobsCompleted z /\ mt.frameEnded z' = mt.frameEnded z /\
  mt.jobIDMask z' = mt.jobIDMask z /\ mt.inBuff z' = mt.inBuff z /\
  srcSize job' = srcSize job /\ consumed job' = consumed job /\ cSize job' = cSize job /\
  ((mt.doneJobID z' = mt.doneJobID z /\
    set_frameChecksumNeeded 0 job' = set_frameChecksumNeeded 0 (job_at z' w)) \/
   (mt.doneJobID z' = mt.doneJobID z + 1 /\ truthy (jobCompleted job) = true /\
    dstFlushed job' = cSize job' /\
    start (dstBuff (job_at z' w)) = NULL /\ jobCompleted (job_at z' w) = 0 /\
    cSize (job_at z' w) = cSize job /\ dstFlushed (job_at z' w) = dstFlushed job /\
    exists toWrite, o_pos out' = size_t (o_pos out + toWrite) /\
                    cSize job = size_t (dstFlushed job + toWrite))).
Proof.
  intros w Hinv Hag.
  pose proof (slot_lt_length z (mt.doneJobID z) Hinv) as Hw. fold w in Hw.
  destruct (same_but_checksum_fields _ _ Hag) as (Hbuf & Hjc & Hss & Hco & Hcs & Hdf).
  assert (Hset : forall v, set_frameChecksumNeeded 0 (set_dstFlushed v job)
                           = set_frameChecksumNeeded 0 (set_dstFlushed v (job_at z w)))
    by (intros; now apply same_but_checksum_flushed).
  clear Hag. unfold flushProduced_copy.
  destruct job as [j1 j2 j3 j4 j5 j6 j7 j8 j9 j10 j11 j12 j13 j14 j15].
  cbn in Hbuf, Hjc, Hss, Hco, Hcs, Hdf, Hset |- *.
  destruct (start j6 =? NULL) eqn:Enull; cbn [negb].
  { intros [= <- <- <-]. cbn. split_and!; auto. left. split; [reflexivity|].
    specialize (Hset j8). cbn in Hset. rewrite Hset.
    destruct (job_at z w); cbn in *. subst. reflexivity. }
  apply Z.eqb_neq in Enull.
  set (toWrite := MIN _ _).
  destruct (truthy j11 && _) eqn:Edrain.
  - apply andb_true_iff in Edrain as [Ejc Eeq]. apply Z.eqb_eq in Eeq.
    destruct (ZSTDMT_releaseBuffer _ _ _) as [bp w0].
    intros [= <- <- <-].
    assert (Hlt : mt.doneJobID z < mt.nextJobID z).
    { apply buffer_at_done; [assumption|]. fold w. rewrite <- Hbuf. exact Enull. }
    assert (Hd : U32 (mt.doneJobID z + 1) = mt.doneJobID z + 1).
    { destruct Hinv as [(k & Hk & Hm) _ Ho _ Hwrap _ _ _ _ _].
      pose proof (pow2_pos k ltac:(lia)). rewrite Hm, Z.ones_equiv in Hwrap.
      apply U32_small. lia. }
    assert (Hjobs : forall l : list ZSTDMT_jobDescription, (Z.to_nat w < length l)%nat ->
              <[Z.to_nat w := set_jobCompleted 0
                  (<[Z.to_nat w := set_dstBuff g_nullBuffer (l !!! Z.to_nat w)]> l !!! Z.to_nat w)]>
                (<[Z.to_nat w := set_dstBuff g_nullBuffer (l !!! Z.to_nat w)]> l)
              = <[Z.to_nat w := set_jobCompleted 0 (set_dstBuff g_nullBuffer (l !!! Z.to_nat w))]> l).
    { intros l Hl. rewrite list_insert_insert_eq.
      rewrite list_lookup_total_insert_eq by assumption. reflexivity. }
    assert (Hslot : forall j, start (dstBuff (set_jobCompleted 0 (set_dstBuff g_nullBuffer j))) = NULL /\
                              jobCompleted (set_jobCompleted 0 (set_dstBuff g_nullBuffer j)) = 0 /\
                              srcSize (set_jobCompleted 0 (set_dstBuff g_nullBuffer j)) = srcSize j /\
                              consumed (set_jobCompleted 0 (set_dstBuff g_nullBuffer j)) = consumed j /\
                              cSize (set_jobCompleted 0 (set_dstBuff g_nullBuffer j)) = cSize j /\
                              dstFlushed (set_jobCompleted 0 (set_dstBuff g_nullBuffer j)) = dstFlushed j)
      by (intros j; destruct j; cbn; split_and!; reflexivity).
    split.
    { apply (drain_inv z _ (set_jobCompleted 0 (set_dstBuff g_nullBuffer (job_at z w))));
        try assumption; try (destruct z; reflexivity).
      - fold w. rewrite <- Hjc. exact Ejc.
      - destruct z; cbn in *. rewrite Hd. reflexivity.
      - fold w. destruct z; mt_norm. apply Hjobs. assumption.
      - apply Hslot.
      - apply Hslot.
      - apply Hslot.
      - apply Hslot. }
    split_and!; try (destruct z; reflexivity).
    right.
    assert (Hat : job_at (mt.set_doneJobID (U32 (mt.doneJobID z + 1)) z) w = job_at z w)
      by (destruct z; reflexivity).
    split_and!.
    + destruct z; cbn in *. rewrite Hd. reflexivity.
    + exact Ejc.
    + exact Eeq.
    + destruct z; mt_norm. rewrite Hjobs by assumption.
      rewrite list_lookup_total_insert_eq by assumption. apply Hslot.
    + destruct z; mt_norm. rewrite Hjobs by assumption.
      rewrite list_lookup_total_insert_eq by assumption. apply Hslot.
    + destruct z; mt_norm. rewrite Hjobs by assumption.
      rewrite list_lookup_total_insert_eq by assumption.
      rewrite (proj1 (proj2 (proj2 (proj2 (proj2 (Hslot _)))))). symmetry. exact Hcs.
    + destruct z; mt_norm. rewrite Hjobs by assumption.
      rewrite list_lookup_total_insert_eq by assumption.
      rewrite (proj2 (proj2 (proj2 (proj2 (proj2 (Hslot _)))))). symmetry. exact Hdf.
    + exists toWrite. split; [reflexivity|]. symmetry. exact Eeq.
  - intros [= <- <- <-].
    split.
    { apply mt_inv_upd; [intros j; now destruct j|].
      revert Hinv. apply mt_inv_ext; destruct z; reflexivity. }
    split_and!; try (destruct z; reflexivity).
    left. split; [destruct z; reflexivity|].
    rewrite job_at_upd_job_at by (destruct z; exact Hw).
    replace (job_at (mt.set_memory _ z) w) with (job_at z w) by (destruct z; reflexivity).
    exact (Hset (size_t (j8 + toWrite))).
Qed.

Lemma lookup_total_beyond (l : list ZSTDMT_jobDescription) (i : nat) :
  (length l <= i)%nat -> l !!! i = zero_job.
Proof.
  intros Hi. rewrite list_lookup_total_alt.
  replace (l !! i) with (@None ZSTDMT_jobDescription); [reflexivity|].
  symmetry. apply lookup_ge_None. lia.
Qed.

(** Every slot is at rest when the window is empty and no job is ready. *)
Lemma all_consumed z :
  mt_inv z -> mt.nextJobID z <= mt.doneJobID z -> truthy (mt.jobReady z) = false ->
  forall i : nat, srcSize (mt.jobs z !!! i) <= consumed (mt.jobs z !!! i).
Proof.
  intros Hinv Hle Hr i.
  destruct (decide (i < length (mt.jobs z))%nat) as [Hlt|Hge].
  - destruct (inv_idle z Hinv i Hlt) as [_ [Hc|[Ht _]]].
    + apply empty_window. lia.
    + assumption.
    + rewrite Hr in Ht. discriminate.
  - rewrite lookup_total_beyond by lia. cbn. lia.
Qed.

Lemma flushProduced_return_inv z job r z' :
  mt_inv z -> flushProduced_return z job = (r, z') ->
  mt_inv z' /\ mt.jobs z' = mt.jobs z /\ mt.doneJobID z' = mt.doneJobID z /\
  mt.nextJobID z' = mt.nextJobID z /\ mt.jobIDMask z' = mt.jobIDMask z /\
  mt.jobReady z' = mt.jobReady z /\ mt.frameEnded z' = mt.frameEnded z /\
  mt.inBuff z' = mt.inBuff z.
Proof.
  intros Hinv. unfold flushProduced_return.
  destruct (cSize job >? dstFlushed job); [intros [= <- <-]; split_and!; auto|].
  destruct (srcSize job >? consumed job); [intros [= <- <-]; split_and!; auto|].
  destruct (mt.doneJobID z <? mt.nextJobID z) eqn:Eq; [intros [= <- <-]; split_and!; auto|].
  destruct (truthy (mt.jobReady z)) eqn:Er; [intros [= <- <-]; split_and!; auto|].
  destruct (filled (mt.inBuff z) >? 0); [intros [= <- <-]; split_and!; auto|].
  intros [= <- <-]. apply Z.ltb_ge in Eq.
  pose proof (all_consumed z Hinv Eq Er) as Hall.
  split; [|destruct z; split_and!; reflexivity].
  pose proof (inv_order z Hinv) as Ho.
  assert (Hsame : forall i, in_window (mt.set_allJobsCompleted (mt.frameEnded z) z) i
                            <-> in_window z i)
    by (intros; apply in_window_frame; destruct z; reflexivity).
  destruct Hinv as [Imask Itable Iorder Iring Iwrap Irun Iidle Icomp Iready Iflush].
  destruct z; cbn in *.
  constructor; cbn; auto.
  intros _. split; [lia|right]. intros i. split; [apply Hall|].
  rewrite Er. discriminate.
Qed.

(** [ZSTDMT_flushProduced], stage by stage. *)
Lemma flushProduced_stages fuel z out block r z' out' :
  let w := Z.land (mt.doneJobID z) (mt.jobIDMask z) in
  mt_inv z ->
  ZSTDMT_flushProduced fuel z out block = Some (r, z', out') ->
  exists z1, worker_rely z z1 /\ mt_inv z1 /\
    ((ZSTD_isError (cSize (job_at z1 w)) = true /\ r = cSize (job_at z1 w) /\
      mt_inv z' /\ out' = out) \/
     (ZSTD_isError (cSize (job_at z1 w)) = false /\
      exists job z2,
        flushProduced_return z2 job = (r, z') /\ mt_inv z2 /\
        mt.nextJobID z2 = mt.nextJobID z /\ mt.jobReady z2 = mt.jobReady z /\
        mt.allJobsCompleted z2 = mt.allJobsCompleted z /\
        mt.frameEnded z2 = mt.frameEnded z /\ mt.jobIDMask z2 = mt.jobIDMask z /\
        mt.inBuff z2 = mt.inBuff z /\
        srcSize job = srcSize (job_at z1 w) /\ consumed job = consumed (job_at z1 w) /\
        ((mt.doneJobID z2 = mt.doneJobID z /\
          set_frameChecksumNeeded 0 job = set_frameChecksumNeeded 0 (job_at z2 w)) \/
         (mt.doneJobID z2 = mt.doneJobID z + 1 /\
          truthy (jobCompleted (job_at z1 w)) = true /\
          dstFlushed job = cSize job /\
          start (dstBuff (job_at z2 w)) = NULL /\ jobCompleted (job_at z2 w) = 0 /\
          cSize (job_at z2 w) = cSize job /\
          exists toWrite, o_pos out' = size_t (o_pos out + toWrite) /\
                          cSize job = size_t (dstFlushed (job_at z2 w) + toWrite))))).
Proof.
  intros w Hinv. unfold ZSTDMT_flushProduced. fold w.
  destruct (flushProduced_wait fuel z w block) as [z1|] eqn:Ewait; [|discriminate].
  apply flushProduced_wait_rely in Ewait.
  pose proof (mt_inv_rely _ _ Hinv Ewait) as Hinv1.
  pose proof (worker_rely_frame _ _ Ewait) as (Em & Ed & En & Er & Ea & Ep & Ef & Ei & _).
  assert (Hw1 : w = Z.land (mt.doneJobID z1) (mt.jobIDMask z1)) by (subst w; congruence).
  pose proof (slot_lt_length z1 (mt.doneJobID z1) Hinv1) as Hlt. rewrite <- Hw1 in Hlt.
  intros Hf. exists z1. split; [assumption|]. split; [assumption|]. revert Hf.
  destruct (ZSTD_isError (cSize (job_at z1 w))) eqn:Eerr.
  - destruct (ZSTDMT_waitForAllJobsCompleted fuel z1) as [zw|] eqn:Edrain; [|discriminate].
    intros [= <- <- <-]. left. split_and!; auto.
    destruct (waitForAll_drains cond_wait_rely fuel z1 zw (mt_inv_draining _ Hinv1) Edrain)
      as (Hdr' & Hf' & Hle & Hd1 & _ & Hn' & _).
    pose proof (inv_order z1 Hinv1).
    destruct (releaseAll_inv zw Hdr' Hf') as (Hi' & _); [lia|assumption].
  - destruct (flushProduced_checksum z1 w (job_at z1 w)) as [job1 zc] eqn:Ecs.
    apply flushProduced_checksum_stage in Ecs; [|assumption|reflexivity].
    destruct Ecs as (Hv & Hib & Hlen & Hi & Hag & Hb & Hs & Hc & Hj & Hdf).
    unfold ring_view in Hv. injection Hv as Hv1 Hv2 Hv3 Hv4 Hv5 Hv6 Hv7 Hv8.
    assert (Hwc : w = Z.land (mt.doneJobID zc) (mt.jobIDMask zc)) by congruence.
    destruct (flushProduced_copy zc out w job1) as [[job2 z2] out2] eqn:Ecopy.
    rewrite Hwc in Ecopy, Hag.
    apply flushProduced_copy_stage in Ecopy; [|auto|assumption].
    rewrite <- Hwc in Ecopy.
    destruct Ecopy as (Hi2 & En2 & Er2 & Ea2 & Ef2 & Em2 & Eib2 & Hs2 & Hc2 & Hcs2 & Hcase).
    destruct (flushProduced_return z2 job2) as [r2 zr] eqn:Eret.
    intros [= <- <- <-]. right. split; [reflexivity|].
    exists job2, z2. split_and!; try congruence.
    destruct Hcase as [[Hd2 Hag2]|(Hd2 & Hjc2 & Hfl & Hnull & Hjz & Hcz & Hdz & tw & Hpos & Hsz)].
    + left. split; [congruence|assumption].
    + right. split_and!; try congruence.
      exists tw. split; [assumption|]. congruence.
Qed.

(** [ZSTDMT_flushProduced] keeps the invariant of the orchestrator. *)
Lemma flushProduced_inv fuel z out block r z' out' :
  mt_inv z -> ZSTDMT_flushProduced fuel z out block = Some (r, z', out') -> mt_inv z'.
Proof.
  intros Hinv Hf.
  destruct (flushProduced_stages _ _ _ _ _ _ _ Hinv Hf)
    as (z1 & _ & _ & [(_ & _ & Hi & _)|(_ & job & z2 & Hret & Hi2 & _)]); [assumption|].
  now apply flushProduced_return_inv in Hret.
Qed.

End FlushInv.

(** *** Initialisation keeps the invariant *)

Section InitInv.
Context {W : Type} `{ZSTD_constants} `{Sizeof} `{Allocator W} `{Compressor W} `{Hash}
  `{ThreadPool W} `{ThreadPoolAdmin W} `{Workers W}.
Hypothesis cond_wait_rely : forall s : mt.t W, worker_rely s (ZSTD_pthread_cond_wait s).
Implicit Types s z : mt.t W.

(** The ring is at rest: nothing in flight, and every slot consumed. *)
Lemma restart_inv z z' :
  mt_inv z -> mt.doneJobID z = mt.nextJobID z ->
  (mt.nextJobID z = 0 \/
   forall i : nat,
     srcSize (mt.jobs z !!! i) <= consumed (mt.jobs z !!! i) /\
     (truthy (mt.jobReady z) = true -> jobCompleted (mt.jobs z !!! i) = 0)) ->
  mt.factory z' = mt.factory z -> mt.jobs_ptr z' = mt.jobs_ptr z ->
  mt.jobIDMask z' = mt.jobIDMask z -> mt.jobs z' = mt.jobs z ->
  mt.jobReady z' = mt.jobReady z ->
  mt.doneJobID z' = 0 -> mt.nextJobID z' = 0 -> mt.allJobsCompleted z' = 0 ->
  mt_inv z'.
Proof.
  intros Hinv Heq Hrest Ef Ep Em Ej Er Ed En Ea.
  assert (Hf : mt.factory z = []) by (apply draining_no_workers; [now apply mt_inv_draining|lia]).
  assert (Hnw : forall i, ~ in_window z i) by (intros i; apply empty_window; lia).
  destruct Hinv as [Imask Itable Iorder Iring Iwrap Irun Iidle Icomp Iready Iflush].
  assert (Hmask : 0 <= mt.jobIDMask z < 2 ^ 32).
  { destruct Imask as (k & Hk & ->). pose proof (pow2_pos k ltac:(lia)).
    rewrite Z.ones_equiv. split; [lia|].
    assert (2 ^ k <= 2 ^ 31) by (apply Z.pow_le_mono_r; lia). lia. }
  constructor; rewrite ?Ef, ?Ep, ?Em, ?Ej, ?Er, ?Ed, ?En, ?Ea, ?Hf; auto; try lia.
  - intros i [].
  - intros i Hi _. destruct (Iidle i Hi (Hnw i)) as [Hnull Hc]. split; [assumption|].
    destruct Hrest as [Hz|Hall].
    + rewrite Hz in Hc. exact Hc.
    + left. apply Hall.
  - intros Hr. split; [lia|].
    destruct Hrest as [Hz|Hall].
    + replace (Z.land 0 (mt.jobIDMask z)) with (Z.land (mt.nextJobID z) (mt.jobIDMask z))
        by (now rewrite Hz).
      now apply Iready.
    + now apply Hall.
Qed.

(** The clean-up at the head of [ZSTDMT_initCStream_internal]. *)
Lemma init_cleaned fuel z zw :
  mt_inv z -> ZSTDMT_waitForAllJobsCompleted fuel z = Some zw ->
  let zc := mt.set_allJobsCompleted 1 (ZSTDMT_releaseAllJobResources zw) in
  mt_inv zc /\ mt.doneJobID zc = mt.nextJobID zc /\
  (forall i : nat,
     srcSize (mt.jobs zc !!! i) <= consumed (mt.jobs zc !!! i) /\
     (truthy (mt.jobReady zc) = true -> jobCompleted (mt.jobs zc !!! i) = 0)).
Proof.
  intros Hinv Hw.
  destruct (waitForAll_drains cond_wait_rely fuel z zw (mt_inv_draining _ Hinv) Hw)
    as (Hdr & Hf & Hle & Hd1 & _ & Hn & _).
  pose proof (inv_order z Hinv).
  destruct (releaseAll_inv zw Hdr Hf) as (Hi & Ed & En & Em & Ea & Er & Efr & Hz); [lia|].
  set (zr := ZSTDMT_releaseAllJobResources zw) in *. cbv zeta.
  assert (Hsame : mt.set_allJobsCompleted 1 zr = zr)
    by (destruct zr; cbn in *; now subst).
  rewrite Hsame. split_and!; auto; try lia.
  intros i. rewrite Hz. cbn. split; [lia|reflexivity].
Qed.

(** [ZSTDMT_initCStream_internal] keeps the invariant of the orchestrator. *)
Lemma initCStream_inv fuel z dict dictSize dictMode cdict params pledgedSrcSize r z' :
  mt_inv z ->
  ZSTDMT_initCStream_internal fuel z dict dictSize dictMode cdict params pledgedSrcSize
    = Some (r, z') ->
  mt_inv z'.
Proof.
  intros Hinv. unfold ZSTDMT_initCStream_internal.
  set (z0 := mt.set_singleBlockingThread _ z).
  assert (Hinv0 : mt_inv z0) by (revert Hinv; apply mt_inv_ext; destruct z; reflexivity).
  assert (Ha0 : mt.allJobsCompleted z0 = mt.allJobsCompleted z) by (destruct z; reflexivity).
  clearbody z0. clear Hinv.
  destruct (truthy (mt.singleBlockingThread z0)).
  { destruct (ZSTD_initCStream_internal _ _ _ _ _ _ _ _) as [r0 w0].
    intros [= <- <-]. revert Hinv0. apply mt_inv_ext; destruct z0; reflexivity. }
  match goal with |- match ?c with _ => _ end = _ -> _ =>
    assert (Hc : match c with
                 | Some zc => mt_inv zc /\ mt.doneJobID zc = mt.nextJobID zc /\
                     (mt.nextJobID zc = 0 \/
                      forall i : nat,
                        srcSize (mt.jobs zc !!! i) <= consumed (mt.jobs zc !!! i) /\
                        (truthy (mt.jobReady zc) = true ->
                         jobCompleted (mt.jobs zc !!! i) = 0))
                 | None => True
                 end);
    [|destruct c as [zc|]; [|discriminate]]
  end.
  { destruct (mt.allJobsCompleted z0 =? 0) eqn:Ea.
    - destruct (ZSTDMT_waitForAllJobsCompleted fuel z0) as [zw|] eqn:Ew; [|exact I].
      destruct (init_cleaned fuel z0 zw Hinv0 Ew) as (Hi & Hd & Hz). auto.
    - apply Z.eqb_neq in Ea. destruct (inv_flushed z0 Hinv0 Ea) as [Hd Hz]. auto. }
  destruct Hc as (Hic & Hdc & Hzc).
  assert (Hstep : forall z1, mt.factory z1 = mt.factory zc -> mt.jobs_ptr z1 = mt.jobs_ptr zc ->
            mt.jobIDMask z1 = mt.jobIDMask zc -> mt.jobs z1 = mt.jobs zc ->
            mt.jobReady z1 = mt.jobReady zc ->
            mt.doneJobID z1 = 0 -> mt.nextJobID z1 = 0 -> mt.allJobsCompleted z1 = 0 ->
            mt_inv z1) by (intros z1; now apply restart_inv).
  destruct zc; cbn in *.
  destruct (truthy dict); cbn.
  - destruct (ZSTD_createCDict_advanced _ _ _ _ _ _) as [cd w1]; cbn.
    destruct (cd =? NULL); cbn.
    + intros [= <- <-]. revert Hic. apply mt_inv_ext; reflexivity.
    + repeat match goal with |- context [if ?c then _ else _] => destruct c; cbn end;
        intros [= <- <-]; apply Hstep; reflexivity.
  - repeat match goal with |- context [if ?c then _ else _] => destruct c; cbn end;
      intros [= <- <-]; apply Hstep; reflexivity.
Qed.

End InitInv.

Section FillInv.
Context {W : Type} `{ZSTD_constants} `{Sizeof} `{Allocator W} `{Compressor W} `{Hash}
  `{ThreadPool W} `{ThreadPoolAdmin W} `{Workers W}.
Implicit Types s z : mt.t W.

(** Filling the input buffer leaves the ring alone. *)
Lemma compressStream_fill_ring z input endOp :
  match compressStream_fill z input endOp with
  | inl (_, z') => ring_view z' = ring_view z /\ mt.jobs z' = mt.jobs z
  | inr (z', _, _, _) => ring_view z' = ring_view z /\ mt.jobs z' = mt.jobs z
  end.
Proof.
  unfold compressStream_fill.
  destruct (negb (truthy (mt.jobReady z)) && _); [|auto].
  destruct (start (buffer (mt.inBuff z)) =? NULL) eqn:Es.
  - destruct (ZSTDMT_getBuffer _ _) as [[b bp] w].
    destruct z; cbn in *.
    destruct (start b =? NULL) eqn:Eb; cbn.
    + destruct (doneJobID =? nextJobID); cbn; [auto|].
      rewrite Eb. cbn. auto.
    + rewrite Eb. cbn. auto.
  - rewrite Es. cbn. destruct z; cbn. auto.
Qed.

Lemma single_thread_inv z m w : mt_inv z -> mt_inv (mt.set_memory m (mt.set_world w z)).
Proof. apply mt_inv_ext; destruct z; reflexivity. Qed.

Lemma allocJobsTable_ok nbJobs (w : W) n p jobs w' :
  0 < nbJobs < 2 ^ 31 ->
  ZSTDMT_allocJobsTable nbJobs w = (n, Some (p, jobs), w') ->
  p <> NULL /\ jobs = replicate (Z.to_nat n) zero_job /\
  n = 2 ^ (Z.log2 nbJobs + 1) /\ 0 <= Z.log2 nbJobs + 1 < 32 /\ nbJobs < n.
Proof.
  intros Hn. unfold ZSTDMT_allocJobsTable.
  pose proof (Z.log2_nonneg nbJobs) as Hl0.
  assert (Hl : Z.log2 nbJobs < 31) by (apply Z.log2_lt_pow2; lia).
  rewrite (U32_small (Z.log2 nbJobs + 1)) by lia.
  rewrite Z.shiftl_1_l.
  assert (Hp : 2 ^ (Z.log2 nbJobs + 1) <= 2 ^ 31) by (apply Z.pow_le_mono_r; lia).
  pose proof (pow2_pos (Z.log2 nbJobs + 1) ltac:(lia)).
  rewrite U32_small by lia.
  destruct (ZSTD_calloc _ w) as [q w0].
  destruct (q =? NULL) eqn:Eq; [discriminate|].
  intros [= <- <- <- <-]. apply Z.eqb_neq in Eq.
  split_and!; auto; try lia.
  replace (Z.log2 nbJobs + 1) with (Z.succ (Z.log2 nbJobs)) by lia.
  apply Z.log2_spec. lia.
Qed.

(** A created context satisfies the invariant. *)
Lemma createCCtx_inv nbThreads m w z :
  nbThreads + 2 < 2 ^ 31 ->
  ZSTDMT_createCCtx_advanced nbThreads m w = Some z -> mt_inv z.
Proof.
  intros Hn. unfold ZSTDMT_createCCtx_advanced.
  destruct (nbThreads <? 1) eqn:E1; [discriminate|]. apply Z.ltb_ge in E1.
  destruct (ZSTD_calloc _ w) as [p w0].
  destruct (p =? NULL); [discriminate|].
  destruct (ZSTDMT_CCtxParam_setNbThreads _ _) as [params r0].
  destruct (POOL_create_advanced _ _ _) as [ok w1].
  destruct (ZSTDMT_allocJobsTable _ _) as [[n tbl] w2] eqn:Etab.
  destruct (ZSTDMT_createBufferPool _ _) as [bp w3].
  destruct (ZSTDMT_createCCtxPool _ _) as [cp w4].
  destruct ok; [|discriminate]. destruct tbl as [[jp jobs]|]; [|discriminate].
  destruct bp; [|discriminate]. destruct cp; [|discriminate].
  intros [= <-].
  rewrite (U32_small (nbThreads + 2)) in Etab by lia.
  apply allocJobsTable_ok in Etab; [|lia].
  destruct Etab as (Hp & -> & -> & Hk & Hlt).
  set (k := Z.log2 (nbThreads + 2) + 1) in *.
  pose proof (pow2_pos k ltac:(lia)).
  assert (Hp2 : 2 ^ k <= 2 ^ 31) by (apply Z.pow_le_mono_r; lia).
  assert (Hm : U32 (2 ^ k - 1) = Z.ones k)
    by (rewrite Z.ones_equiv; apply U32_small; lia).
  constructor; cbn; rewrite ?Hm; try lia.
  - exists k. split; [lia|reflexivity].
  - rewrite length_replicate, Z.ones_equiv. split; [lia|assumption].
  - rewrite Z.ones_equiv. lia.
  - rewrite Z.ones_equiv. lia.
  - intros i Hi _. rewrite length_replicate in Hi.
    rewrite lookup_total_replicate_2 by assumption. cbn. split; [reflexivity|left; lia].
  - intros i.
    destruct (decide (i < Z.to_nat (2 ^ k))%nat) as [Hlt'|Hge].
    + rewrite lookup_total_replicate_2 by assumption. cbn. discriminate.
    + rewrite lookup_total_beyond by (rewrite length_replicate; lia). cbn. discriminate.
Qed.

End FillInv.

(** *** One-shot compression keeps the invariant *)

Section OneShotInv.
Context {W : Type} `{ZSTD_constants} `{Sizeof} `{Allocator W} `{Compressor W} `{Hash}
  `{ThreadPool W} `{ThreadPoolAdmin W} `{Workers W}.
Hypothesis cond_wait_rely : forall s : mt.t W, worker_rely s (ZSTD_pthread_cond_wait s).
Implicit Types s z : mt.t W.

Lemma oneshot_inv_rely lo hi z z' :
  oneshot_inv lo hi z -> worker_rely z z' -> oneshot_inv lo hi z'.
Proof.
  intros (Hm & Ht & Hd & Hn & Hr & Hhi & Hrun & Hcomp & Hidle) Hrely.
  pose proof (worker_rely_frame _ _ Hrely) as (Em & Ed & En & Er & Ea & Ep & _).
  destruct Hrely as (E & L & F & O & J & C).
  unfold oneshot_inv. rewrite Em, Ed, En, Er, Ep, L.
  split_and!; auto; try tauto.
  - intros i Hi. destruct (Hrun i (F i Hi)) as [Hb Hc]. split; [assumption|].
    rewrite C by assumption. exact Hc.
  - intros i Ht'.
    destruct (in_dec Nat.eq_dec i (mt.factory z)) as [Hin|Hout].
    + destruct (J i Hin) as (_&Hs&_&_&_&_&_&_&_&[Hsame|[_ Hdone]]).
      * destruct (Hrun i Hin) as [_ Hc]. rewrite Hsame, Hc in Ht'. discriminate.
      * exact Hdone.
    + rewrite O in * by assumption. auto.
  - intros i Hi Hout.
    assert (Hnf : ~ In i (mt.factory z)) by (intros Hin; destruct (Hrun i Hin); lia).
    rewrite O by assumption. auto.
Qed.

Lemma oneshot_inv_start z :
  mt_inv z -> mt.nextJobID z = 0 -> truthy (mt.jobReady z) = false -> oneshot_inv 0 0 z.
Proof.
  intros Hinv Hn Hr.
  pose proof (inv_order z Hinv) as Ho.
  assert (Hf : mt.factory z = [])
    by (apply draining_no_workers; [now apply mt_inv_draining|lia]).
  pose proof (all_consumed z Hinv ltac:(lia) Hr) as Hall.
  destruct Hinv as [Imask Itable Iorder Iring Iwrap Irun Iidle Icomp Iready Iflush].
  unfold oneshot_inv. rewrite Hf. split_and!; auto; try lia.
  - intros i [].
  - intros i Hi _. split; [|apply Hall].
    apply Iidle; [assumption|]. apply empty_window. lia.
Qed.

Lemma oneshot_inv_end n z z' :
  oneshot_inv n n z ->
  mt.factory z' = mt.factory z -> mt.jobs_ptr z' = mt.jobs_ptr z ->
  mt.jobIDMask z' = mt.jobIDMask z -> mt.jobs z' = mt.jobs z ->
  mt.jobReady z' = mt.jobReady z ->
  mt.doneJobID z' = mt.doneJobID z -> mt.nextJobID z' = mt.nextJobID z ->
  mt_inv z'.
Proof.
  intros (Hm & Ht & Hd & Hn & Hr & Hhi & Hrun & Hcomp & Hidle) Ef Ep Em Ej Er Ed En.
  assert (Hmask : 0 <= mt.jobIDMask z < 2 ^ 32).
  { destruct Hm as (k & Hk & ->). pose proof (pow2_pos k ltac:(lia)).
    rewrite Z.ones_equiv. split; [lia|].
    assert (2 ^ k <= 2 ^ 31) by (apply Z.pow_le_mono_r; lia). lia. }
  constructor; rewrite ?Ef, ?Ep, ?Em, ?Ej, ?Er, ?Ed, ?En, ?Hd, ?Hn; auto; try lia.
  - intros i Hi. destruct (Hrun i Hi). lia.
  - intros i Hi _. destruct (Hidle i Hi ltac:(lia)) as [Hnull Hc]. auto.
  - rewrite Hr. discriminate.
Qed.

Lemma oneshot_dispatch_inv n : forall (u : nat) d z nbChunks cwd avg ov dst src0 srcSize0 cdict0
    params0 jobParams,
  oneshot_inv 0 u z -> (u + n <= length (mt.jobs z))%nat -> Z.of_nat (u + n) < 2 ^ 32 ->
  oneshot_inv 0 (u + n)
    (snd (oneshot_dispatch n (Z.of_nat u) nbChunks cwd avg ov dst src0 srcSize0 cdict0
            params0 jobParams d z)).
Proof.
  induction n as [|n IH]; intros u d z nbChunks cwd avg ov dst src0 srcSize0 cdict0
    params0 jobParams Hinv Hlen Hu; cbn [oneshot_dispatch].
  - cbn. now rewrite Nat.add_0_r.
  - rewrite (U32_small (Z.of_nat u + 1)) by lia.
    replace (Z.of_nat u + 1) with (Z.of_nat (S u)) by lia.
    replace (u + S n)%nat with (S u + n)%nat by lia.
    match goal with |- context [oneshot_dispatch n _ _ _ _ _ _ _ _ _ _ _ ?d' ?z'] =>
      set (z3 := z'); set (d3 := d') end.
    set (job := oneshot_job _ _ _ _ _ _ _ _ _ _ _) in z3.
    assert (Hj : jobCompleted job = 0) by reflexivity.
    assert (Hring : mt.jobs z3 = <[u := job]> (mt.jobs z) /\
                    mt.factory z3 = mt.factory z ++ [u] /\
                    mt.jobIDMask z3 = mt.jobIDMask z /\ mt.jobs_ptr z3 = mt.jobs_ptr z /\
                    mt.doneJobID z3 = mt.doneJobID z /\ mt.nextJobID z3 = mt.nextJobID z /\
                    mt.jobReady z3 = mt.jobReady z).
    { subst z3. destruct z; mt_norm. rewrite Nat2Z.id. split_and!; reflexivity. }
    clearbody z3 job d3.
    destruct Hring as (Ej & Ef & Em & Ep & Ed & En & Er).
    apply IH; [|rewrite Ej, length_insert; lia|lia].
    destruct Hinv as (Hm & Ht & Hd & Hn & Hr & Hhi & Hrun & Hcomp & Hidle).
    unfold oneshot_inv. rewrite Ej, Ef, Em, Ep, Ed, En, Er, length_insert.
    split_and!; auto; try tauto; try lia.
    + intros i Hi. apply in_app_or in Hi as [Hi|[<-|[]]].
      * destruct (Hrun i Hi) as [Hb Hc]. split; [lia|].
        rewrite list_lookup_total_insert_ne by lia. exact Hc.
      * split; [lia|]. rewrite list_lookup_total_insert_eq by lia. exact Hj.
    + intros i. destruct (decide (i = u)) as [->|Hne].
      * rewrite list_lookup_total_insert_eq by lia. rewrite Hj. discriminate.
      * rewrite list_lookup_total_insert_ne by auto. apply Hcomp.
    + intros i Hi Hout. rewrite list_lookup_total_insert_ne by lia.
      apply Hidle; [assumption|lia].
Qed.

Lemma collected_job_fields j :
  let j' := set_dstBuff g_nullBuffer (set_srcStart NULL j) in
  start (dstBuff j') = NULL /\ jobCompleted j' = jobCompleted j /\
  srcSize j' = srcSize j /\ consumed j' = consumed j.
Proof. destruct j; cbn. split_and!; reflexivity. Qed.

Lemma oneshot_collect_inv fuel n : forall (u : nat) err pos z cwd dst cap e p z',
  oneshot_inv u (u + n) z -> Z.of_nat (u + n) < 2 ^ 32 ->
  oneshot_collect fuel n (Z.of_nat u) cwd dst cap err pos z = Some (e, p, z') ->
  oneshot_inv (u + n) (u + n) z'.
Proof.
  induction n as [|n IH]; intros u err pos z cwd dst cap e p z' Hinv Hu;
    cbn [oneshot_collect].
  - intros [= <- <- <-]. now rewrite Nat.add_0_r in *.
  - destruct (wait_while fuel _ z) as [z1|] eqn:Ewait; [|discriminate].
    apply (wait_while_rely cond_wait_rely) in Ewait as [Hrely Hdone].
    apply (oneshot_inv_rely _ _ _ _ Hinv) in Hrely. clear Hinv z.
    apply Z.eqb_neq in Hdone. unfold job_at in Hdone. rewrite Nat2Z.id in Hdone.
    rewrite (U32_small (Z.of_nat u + 1)) by lia.
    replace (Z.of_nat u + 1) with (Z.of_nat (S u)) by lia.
    replace (u + S n)%nat with (S u + n)%nat in * by lia.
    match goal with |- oneshot_collect fuel n _ _ _ _ ?e' ?p' ?z5 = _ -> _ =>
      set (zz := z5); set (ee := e'); set (pp := p') end.
    assert (Hring : mt.jobs zz
                    = <[u := set_dstBuff g_nullBuffer (set_srcStart NULL (mt.jobs z1 !!! u))]>
                        (mt.jobs z1) /\
                    mt.factory zz = mt.factory z1 /\
                    mt.jobIDMask zz = mt.jobIDMask z1 /\ mt.jobs_ptr zz = mt.jobs_ptr z1 /\
                    mt.doneJobID zz = mt.doneJobID z1 /\ mt.nextJobID zz = mt.nextJobID z1 /\
                    mt.jobReady zz = mt.jobReady z1).
    { destruct Hrely as (_ & _ & _ & _ & _ & Hhi & _).
      assert (Hin : (u < length (mt.jobs z1))%nat) by lia.
      subst zz. clear ee pp. destruct z1; mt_norm. rewrite !Nat2Z.id.
      repeat match goal with
             | |- context [if ?c then _ else _] => destruct c; cbn
             | |- context [ZSTDMT_releaseBuffer ?a ?b ?c] =>
                 destruct (ZSTDMT_releaseBuffer a b c); cbn
             end;
        rewrite ?list_insert_insert_eq, ?list_lookup_total_insert_eq by assumption;
        split_and!; reflexivity. }
    clearbody zz ee pp.
    destruct Hring as (Ej & Ef & Em & Ep & Ed & En & Er).
    intros Hrec. eapply IH; [|lia|exact Hrec].
    destruct Hrely as (Hm & Ht & Hd & Hn & Hr & Hhi & Hrun & Hcomp & Hidle).
    destruct (collected_job_fields (mt.jobs z1 !!! u)) as (Hnull & Hjc & Hss & Hco).
    unfold oneshot_inv. rewrite Ej, Ef, Em, Ep, Ed, En, Er, length_insert.
    split_and!; auto; try tauto; try lia.
    + intros i Hi. destruct (Hrun i Hi) as [Hb Hc].
      assert (i <> u) by (intros ->; contradiction).
      split; [lia|]. rewrite list_lookup_total_insert_ne by auto. exact Hc.
    + intros i. destruct (decide (i = u)) as [->|Hne].
      * rewrite list_lookup_total_insert_eq by lia. rewrite Hjc, Hss, Hco. apply Hcomp.
      * rewrite list_lookup_total_insert_ne by auto. apply Hcomp.
    + intros i Hi Hout. destruct (decide (i = u)) as [->|Hne].
      * rewrite list_lookup_total_insert_eq by lia. rewrite Hss, Hco.
        split; [assumption|]. rewrite Hcomp; [lia|].
        unfold truthy. apply negb_true_iff. now apply Z.eqb_neq.
      * rewrite list_lookup_total_insert_ne by auto. apply Hidle; [assumption|lia].
Qed.

Lemma oneshot_inv_ext lo hi z z' :
  mt.factory z' = mt.factory z -> mt.jobs_ptr z' = mt.jobs_ptr z ->
  mt.jobIDMask z' = mt.jobIDMask z -> mt.jobs z' = mt.jobs z ->
  mt.jobReady z' = mt.jobReady z ->
  mt.doneJobID z' = mt.doneJobID z -> mt.nextJobID z' = mt.nextJobID z ->
  oneshot_inv lo hi z -> oneshot_inv lo hi z'.
Proof.
  intros Ef Ep Em Ej Er Ed En. unfold oneshot_inv.
  rewrite Ef, Ep, Em, Ej, Er, Ed, En. auto.
Qed.

(** The ring after a one-shot compression that kept its job table. *)
Lemma compress_advanced_oneshot fuel z dst cap src0 srcSize0 cdict0 params0 r z' :
  mt_inv z -> mt.nextJobID z = 0 -> truthy (mt.jobReady z) = false ->
  ZSTDMT_computeNbChunks srcSize0 (windowLog (cParams params0)) (nbThreads params0) < 2 ^ 31 ->
  ZSTDMT_compress_advanced_internal fuel z dst cap src0 srcSize0 cdict0 params0
    = Some (r, z') ->
  mt.jobs_ptr z' <> NULL ->
  exists n, oneshot_inv n n z'.
Proof.
  intros Hinv Hn Hr Hchunks. unfold ZSTDMT_compress_advanced_internal.
  set (nbChunks := ZSTDMT_computeNbChunks _ _ _) in *.
  apply oneshot_inv_start in Hinv; [|assumption|assumption].
  destruct ((nbChunks =? 1) || _).
  { destruct (if truthy cdict0 then _ else _) as [[r0 m0] w0].
    intros [= <- <-] _. exists 0%nat.
    revert Hinv. apply oneshot_inv_ext; destruct z; reflexivity. }
  set (z1 := mt.set_bufPool _ z).
  assert (Hinv1 : oneshot_inv 0 0 z1)
    by (revert Hinv; apply oneshot_inv_ext; destruct z; reflexivity).
  clearbody z1. clear Hinv Hn Hr z.
  assert (Hmask : 0 <= mt.jobIDMask z1 + 1 < 2 ^ 32 /\
                  Z.of_nat (length (mt.jobs z1)) = mt.jobIDMask z1 + 1).
  { destruct Hinv1 as ((k & Hk & Hm) & [Ht _] & _). rewrite Hm in *.
    pose proof (pow2_pos k ltac:(lia)).
    assert (2 ^ k <= 2 ^ 31) by (apply Z.pow_le_mono_r; lia).
    rewrite Z.ones_equiv in *. lia. }
  match goal with |- match ?e with _ => _ end = _ -> _ =>
    assert (Henl : match e with
                   | inl ze => mt.jobs_ptr ze = NULL
                   | inr z2 => oneshot_inv 0 0 z2 /\
                               (Z.to_nat nbChunks <= length (mt.jobs z2))%nat
                   end);
    [|destruct e as [ze|z2]]
  end.
  { destruct (nbChunks >? U32 (mt.jobIDMask z1 + 1)) eqn:Ebig.
    - rewrite Z.gtb_ltb in Ebig. apply Z.ltb_lt in Ebig.
      rewrite U32_small in Ebig by lia.
      destruct (ZSTDMT_allocJobsTable _ _) as [[nj tbl] w2] eqn:Etab.
      destruct tbl as [[p jobs]|]; [|destruct z1; reflexivity].
      apply allocJobsTable_ok in Etab; [|lia].
      destruct Etab as (Hp & -> & -> & Hk & Hlt).
      set (k := Z.log2 nbChunks + 1) in *.
      pose proof (pow2_pos k ltac:(lia)).
      assert (Hp2 : 2 ^ k <= 2 ^ 31) by (apply Z.pow_le_mono_r; lia).
      assert (Hm : U32 (2 ^ k - 1) = Z.ones k)
        by (rewrite Z.ones_equiv; apply U32_small; lia).
      destruct Hinv1 as (_ & _ & Hd & Hn & Hr & _ & Hrun & _ & _).
      rewrite Hm. destruct z1; cbn in *.
      split; [|rewrite length_replicate; lia].
      unfold oneshot_inv; cbn.
      split_and!; auto; try lia.
      + exists k. split; [lia|reflexivity].
      + rewrite length_replicate, Z.ones_equiv. lia.
      + intros i Hi. destruct (Hrun i Hi). lia.
      + intros i.
        destruct (decide (i < Z.to_nat (2 ^ k))%nat) as [Hlt'|Hge].
        * rewrite lookup_total_replicate_2 by assumption. cbn. discriminate.
        * rewrite lookup_total_beyond by (rewrite length_replicate; lia). cbn. discriminate.
      + intros i Hi _. rewrite length_replicate in Hi.
        rewrite lookup_total_replicate_2 by assumption. cbn. split; [reflexivity|lia].
    - rewrite Z.gtb_ltb in Ebig. apply Z.ltb_ge in Ebig.
      rewrite U32_small in Ebig by lia. split; [assumption|lia]. }
  { intros [= <- <-] Hp. contradiction. }
  destruct Henl as [Hinv2 Hlen].
  destruct (oneshot_dispatch _ _ _ _ _ _ _ _ _ _ _ _ _ z2) as [d3 z3] eqn:Edisp.
  assert (Hinv3 : oneshot_inv 0 (Z.to_nat nbChunks) z3).
  { pose proof (oneshot_dispatch_inv (Z.to_nat nbChunks) 0) as Hd.
    cbn [Z.of_nat Nat.add] in Hd.
    match type of Edisp with ?t = _ => replace z3 with (snd t) by now rewrite Edisp end.
    apply Hd; [assumption|assumption|lia]. }
  destruct (oneshot_collect _ _ _ _ _ _ _ _ z3) as [[[e4 p4] z4]|] eqn:Ecol; [|discriminate].
  pose proof (oneshot_collect_inv fuel (Z.to_nat nbChunks) 0) as Hc.
  cbn [Z.of_nat Nat.add] in Hc. apply Hc in Ecol; [|assumption|lia].
  destruct (truthy (checksumFlag (fParams params0))).
  - destruct (size_t (p4 + 4) >? cap).
    + intros [= <- <-] _. eauto.
    + intros [= <- <-] _. exists (Z.to_nat nbChunks).
      revert Ecol. apply oneshot_inv_ext; destruct z4; reflexivity.
  - intros [= <- <-] _. eauto.
Qed.

(** The single-pass shortcut keeps the invariant of the orchestrator. *)
Lemma compressStream_shortcut_inv fuel z out input r z' out' input' :
  mt_inv z -> mt.nextJobID z = 0 -> truthy (mt.jobReady z) = false ->
  ZSTDMT_computeNbChunks (size_t (i_size input - i_pos input))
    (windowLog (cParams (mt.params z))) (nbThreads (mt.params z)) < 2 ^ 31 ->
  compressStream_shortcut fuel z out input = Some (r, z', out', input') ->
  mt.jobs_ptr z' <> NULL ->
  mt_inv z'.
Proof.
  intros Hinv Hn Hr Hchunks. unfold compressStream_shortcut.
  destruct (ZSTDMT_compress_advanced_internal _ _ _ _ _ _ _ _) as [[c z1]|] eqn:Ecomp;
    [|discriminate].
  pose proof (compress_advanced_oneshot _ _ _ _ _ _ _ _ _ _ Hinv Hn Hr Hchunks Ecomp) as Hone.
  destruct (ZSTD_isError c).
  - intros [= <- <- <- <-] Hp. destruct (Hone Hp) as [n Hn1].
    eapply oneshot_inv_end; eauto.
  - destruct (ZSTDMT_releaseBuffer _ _ _) as [bp w].
    intros [= <- <- <- <-] Hp.
    destruct Hone as [n Hn1]; [destruct z1; exact Hp|].
    eapply oneshot_inv_end; [exact Hn1|..]; destruct z1; reflexivity.
Qed.

End OneShotInv.

(** *** The workers keep to their discipline *)

Section WorkerRely.
Context {W : Type} `{ZSTD_constants} `{Allocator W} `{Compressor W}.
Implicit Types st : worker_state W.

Lemma stable_set_cSize v j : job_stable (set_cSize v j) = job_stable j.
Proof. now destruct j. Qed.
Lemma stable_set_dstBuff v j : job_stable (set_dstBuff v j) = job_stable j.
Proof. now destruct j. Qed.
Lemma stable_set_consumed v j : job_stable (set_consumed v j) = job_stable j.
Proof. now destruct j. Qed.

Ltac stable :=
  cbn [w_job upd_job upd_mem_world];
  repeat first [rewrite stable_set_cSize | rewrite stable_set_dstBuff
               | rewrite stable_set_consumed];
  try reflexivity.

Lemma resources_stable cctx st :
  match compressChunk_resources cctx st with
  | inl st' => job_stable (w_job st') = job_stable (w_job st)
  | inr (st', _) => job_stable (w_job st') = job_stable (w_job st)
  end.
Proof.
  unfold compressChunk_resources.
  destruct (cctx =? NULL); [stable|].
  destruct (start (dstBuff (w_job st)) =? NULL); [|reflexivity].
  destruct (ZSTDMT_getBuffer _ _) as [[b bp] w].
  destruct (start b =? NULL); stable.
Qed.

Lemma init_stable cctx st :
  match compressChunk_init cctx st with
  | inl st' | inr st' => job_stable (w_job st') = job_stable (w_job st)
  end.
Proof.
  unfold compressChunk_init.
  destruct (truthy (cdict (w_job st))).
  - destruct (ZSTD_compressBegin_advanced_internal _ _ _ _ _ _ _ _ _) as [e w].
    destruct (ZSTD_isError e); stable.
  - destruct (ZSTD_CCtxParam_setParameter _ _ _) as [jp fe].
    destruct (ZSTD_isError fe); [stable|].
    destruct (ZSTD_compressBegin_advanced_internal _ _ _ _ _ _ _ _ _) as [e w].
    destruct (ZSTD_isError e); stable.
Qed.

Lemma header_stable cctx src0 b st :
  match compressChunk_header cctx src0 b st with
  | inl st' | inr st' => job_stable (w_job st') = job_stable (w_job st)
  end.
Proof.
  unfold compressChunk_header.
  destruct (negb (truthy (firstChunk (w_job st)))); [|reflexivity].
  destruct (ZSTD_compressContinue _ _ _ _ _ _ _) as [[h m] w].
  destruct (ZSTD_isError h); stable.
Qed.

Lemma blocks_stable n : forall cctx blockNb ip op oend st,
  match compressChunk_blocks n cctx blockNb ip op oend st with
  | inl st' => job_stable (w_job st') = job_stable (w_job st)
  | inr (st', _, _) => job_stable (w_job st') = job_stable (w_job st)
  end.
Proof.
  induction n as [|n IH]; intros cctx blockNb ip op oend st; cbn [compressChunk_blocks].
  - reflexivity.
  - destruct (ZSTD_compressContinue _ _ _ _ _ _ _) as [[c m] w].
    destruct (ZSTD_isError c); [stable|].
    match goal with |- context [compressChunk_blocks n ?a ?b ?c ?d ?e ?s] =>
      specialize (IH a b c d e s); destruct (compressChunk_blocks n a b c d e s) as [s'|[[s' ?] ?]]
    end; rewrite IH; stable.
Qed.

Lemma last_stable cctx nbBlocks ip op oend st :
  job_stable (w_job (compressChunk_last cctx nbBlocks ip op oend st)) = job_stable (w_job st).
Proof.
  unfold compressChunk_last.
  destruct ((nbBlocks >? 0) || _); [|reflexivity].
  destruct (if truthy (lastChunk (w_job st)) then _ else _) as [[c m] w].
  destruct (ZSTD_isError c); stable.
Qed.

Lemma compress_stable cctx src0 b st :
  job_stable (w_job (compressChunk_compress cctx src0 b st)) = job_stable (w_job st).
Proof.
  unfold compressChunk_compress.
  match goal with |- context [compressChunk_blocks ?n ?a ?b ?c ?d ?e ?s] =>
    pose proof (blocks_stable n a b c d e s) as Hb;
    destruct (compressChunk_blocks n a b c d e s) as [s'|[[s' ?] ?]]
  end; [assumption|].
  rewrite last_stable. assumption.
Qed.

Lemma endJob_rely cctx st :
  let j' := w_job (compressChunk_endJob cctx st) in
  job_stable j' = job_stable (w_job st) /\ jobCompleted j' = 1 /\ consumed j' = srcSize j'.
Proof.
  unfold compressChunk_endJob.
  destruct (ZSTDMT_releaseCCtx _ _ _) as [cp w].
  destruct (ZSTDMT_releaseBuffer _ _ _) as [bp w'].
  cbn. destruct (w_job st); cbn. split_and!; reflexivity.
Qed.

(** A worker keeps to the discipline of [job_rely]. *)
Lemma compressChunk_job_rely st : job_rely (w_job st) (w_job (ZSTDMT_compressChunk st)).
Proof.
  assert (Hs : job_stable (w_job (ZSTDMT_compressChunk st)) = job_stable (w_job st) /\
               jobCompleted (w_job (ZSTDMT_compressChunk st)) = 1 /\
               consumed (w_job (ZSTDMT_compressChunk st))
               = srcSize (w_job (ZSTDMT_compressChunk st))).
  { unfold ZSTDMT_compressChunk.
    destruct (ZSTDMT_getCCtx _ _) as [[cctx cp] w].
    match goal with |- context [compressChunk_endJob cctx ?s] =>
      destruct (endJob_rely cctx s) as (Hst & Hjc & Hco); set (stf := s) in *
    end.
    split_and!; [|assumption|assumption].
    rewrite Hst. subst stf.
    match goal with |- context [compressChunk_resources cctx ?s] =>
      pose proof (resources_stable cctx s) as Hr;
      destruct (compressChunk_resources cctx s) as [s1|[s1 b]]
    end; [exact Hr|].
    pose proof (init_stable cctx s1) as Hi.
    destruct (compressChunk_init cctx s1) as [s2|s2]; [now rewrite Hi|].
    match goal with |- context [compressChunk_header cctx ?a ?bb s2] =>
      pose proof (header_stable cctx a bb s2) as Hh;
      destruct (compressChunk_header cctx a bb s2) as [s3|s3]
    end; [now rewrite Hh, Hi|].
    rewrite compress_stable, Hh, Hi. exact Hr. }
  destruct Hs as (Hst & Hjc & Hco).
  unfold job_stable in Hst. injection Hst as E1 E2 E3 E4 E5 E6 E7 E8 E9.
  unfold job_rely. split_and!; auto.
Qed.

End WorkerRely.

Section EagerRely.
Context {W : Type} `{ZSTD_constants} `{Allocator W} `{Compressor W}.
Implicit Types s : mt.t W.

Lemma run_worker_rely i s : In i (mt.factory s) -> worker_rely s (run_worker i s).
Proof.
  intros Hin. unfold run_worker.
  set (st := ZSTDMT_compressChunk _).
  pose proof (compressChunk_job_rely
                {| w_job := mt.jobs s !!! i; w_bufPool := mt.bufPool s;
                   w_cctxPool := mt.cctxPool s; w_mem := mt.memory s;
                   w_world := mt.world s |}) as Hj.
  fold st in Hj. cbn [w_job] in Hj. clearbody st.
  destruct s; cbn in *. unfold worker_rely; cbn.
  split_and!.
  - reflexivity.
  - apply length_insert.
  - intros k Hk. apply filter_In in Hk. tauto.
  - intros k Hk. apply list_lookup_total_insert_ne. intros ->. contradiction.
  - intros k Hk. destruct (decide (k = i)) as [->|Hne].
    + destruct (decide (i < length jobs)%nat) as [Hlt|Hge].
      * rewrite list_lookup_total_insert_eq by assumption. exact Hj.
      * rewrite list_insert_ge by lia. apply job_rely_refl.
    + rewrite list_lookup_total_insert_ne by auto. apply job_rely_refl.
  - intros k Hk. apply filter_In in Hk as [_ Hk].
    apply negb_true_iff, Nat.eqb_neq in Hk.
    rewrite list_lookup_total_insert_ne by auto. reflexivity.
Qed.

Lemma run_workers_rely n : forall s, worker_rely s (run_workers n s).
Proof.
  induction n as [|n IH]; intros s; cbn [run_workers].
  - apply worker_rely_refl.
  - destruct (mt.factory s) as [|i l] eqn:Ef; [apply worker_rely_refl|].
    eapply worker_rely_trans; [|apply IH].
    apply run_worker_rely. rewrite Ef. now left.
Qed.

(** The eager workers keep to the discipline of the workers. *)
Lemma eager_workers_rely s : worker_rely s (@ZSTD_pthread_cond_wait W eager_workers s).
Proof. apply run_workers_rely. Qed.

End EagerRely.

(** *** The states of a disciplined run *)

Section Invariant.
Context {W : Type} `{ZSTD_constants} `{Sizeof} `{Allocator W} `{Compressor W} `{Hash}
  `{ThreadPool W} `{ThreadPoolAdmin W} `{Workers W}.
Hypothesis cond_wait_rely : forall s : mt.t W, worker_rely s (ZSTD_pthread_cond_wait s).
Implicit Types s z : mt.t W.

(** The invariant holds of every state of a disciplined run. *)
Lemma disciplined_inv s : disciplined s -> mt_inv s.
Proof.
  induction 1 as [nbT m w s Hn Hc | s s' _ IH Hr | s m w _ IH | s p _ IH
                 | s fuel dict dictSize dictMode cdict params pledged r s' _ IH Hi
                 | s input endOp r s' _ IH Hf
                 | s input endOp s' input' progress endOp' _ IH Hf
                 | s fuel srcSize endFrame r s' _ IH Ha Hw Hc
                 | s fuel output block r s' output' _ IH Hf
                 | s fuel output input r s' output' input' _ IH Hn Hr Hch Hs Hp
                 | s fuel dst cap src0 srcSize0 cdict0 params0 r s' _ IH Hn Hr Hch Hs Hp].
  - eapply createCCtx_inv; eauto.
  - eapply mt_inv_rely; eauto.
  - now apply single_thread_inv.
  - revert IH. apply mt_inv_ext; destruct s; reflexivity.
  - eapply (initCStream_inv cond_wait_rely); eauto.
  - pose proof (compressStream_fill_ring s input endOp) as Hring. rewrite Hf in Hring.
    destruct Hring. eapply mt_inv_ext; eauto.
  - pose proof (compressStream_fill_ring s input endOp) as Hring. rewrite Hf in Hring.
    destruct Hring. eapply mt_inv_ext; eauto.
  - eapply (createCompressionJob_inv cond_wait_rely); eauto.
  - eapply (flushProduced_inv cond_wait_rely); eauto.
  - eapply (compressStream_shortcut_inv cond_wait_rely); eauto.
  - destruct (compress_advanced_oneshot cond_wait_rely fuel s dst cap src0 srcSize0 cdict0
                params0 r s' IH Hn Hr Hch Hs Hp) as [n Hone].
    eapply oneshot_inv_end; [exact Hone|..]; reflexivity.
Qed.


(** The value and the effect of the last stage of [ZSTDMT_flushProduced]. *)
Lemma flushProduced_return_cases z job r z' :
  flushProduced_return z job = (r, z') ->
  let more := (mt.doneJobID z <? mt.nextJobID z) || truthy (mt.jobReady z)
              || (filled (mt.inBuff z) >? 0) in
  (cSize job >? dstFlushed job) = true /\ r = size_t (cSize job - dstFlushed job) /\
    mt.allJobsCompleted z' = mt.allJobsCompleted z
  \/ (cSize job >? dstFlushed job) = false /\ (srcSize job >? consumed job) = true /\
     r = 1 /\ mt.allJobsCompleted z' = mt.allJobsCompleted z
  \/ (cSize job >? dstFlushed job) = false /\ (srcSize job >? consumed job) = false /\
     more = true /\ r = 1 /\ mt.allJobsCompleted z' = mt.allJobsCompleted z
  \/ (cSize job >? dstFlushed job) = false /\ (srcSize job >? consumed job) = false /\
     more = false /\ r = 0 /\ mt.allJobsCompleted z' = mt.frameEnded z.
Proof.
  unfold flushProduced_return.
  destruct (cSize job >? dstFlushed job); [intros [= <- <-]; left; now split_and!|].
  destruct (srcSize job >? consumed job); [intros [= <- <-]; right; left; now split_and!|].
  destruct (mt.doneJobID z <? mt.nextJobID z);
    [intros [= <- <-]; right; right; left; now split_and!|].
  destruct (truthy (mt.jobReady z));
    [intros [= <- <-]; right; right; left; now split_and!|].
  destruct (filled (mt.inBuff z) >? 0);
    [intros [= <- <-]; right; right; left; now split_and!|].
  intros [= <- <-]. right; right; right. split_and!; auto. destruct z; reflexivity.
Qed.

(** The copy stage without any assumption on the ring: what it leaves of
    the counters, and how the slot follows the local copy of the job. *)
Lemma flushProduced_copy_view z out w job job' z' out' :
  (Z.to_nat w < length (mt.jobs z))%nat ->
  set_frameChecksumNeeded 0 job = set_frameChecksumNeeded 0 (job_at z w) ->
  flushProduced_copy z out w job = (job', z', out') ->
  mt.nextJobID z' = mt.nextJobID z /\ mt.jobReady z' = mt.jobReady z /\
  mt.allJobsCompleted z' = mt.allJobsCompleted z /\ mt.frameEnded z' = mt.frameEnded z /\
  mt.inBuff z' = mt.inBuff z /\
  srcSize (job_at z' w) = srcSize job' /\ consumed (job_at z' w) = consumed job' /\
  ((mt.doneJobID z' = mt.doneJobID z /\
    cSize (job_at z' w) = cSize job' /\ dstFlushed (job_at z' w) = dstFlushed job') \/
   (mt.doneJobID z' = U32 (mt.doneJobID z + 1) /\ dstFlushed job' = cSize job')).
Proof.
  intros Hw Hag.
  destruct (same_but_checksum_fields _ _ Hag) as (_ & _ & Hss & Hco & Hcs & Hdf).
  clear Hag. unfold flushProduced_copy.
  destruct (start (dstBuff job) =? NULL); cbn [negb].
  { intros [= <- <- <-]. split_and!; auto. }
  set (toWrite := MIN _ _).
  set (job1 := set_dstFlushed (size_t (dstFlushed job + toWrite)) job).
  assert (J : srcSize job1 = srcSize job /\ consumed job1 = consumed job /\
              cSize job1 = cSize job /\ jobCompleted job1 = jobCompleted job)
    by (subst job1; destruct job; now split_and!).
  destruct J as (J1 & J2 & J3 & J4).
  assert (Hset : forall v j, srcSize (set_dstFlushed v j) = srcSize j /\
                             consumed (set_dstFlushed v j) = consumed j /\
                             cSize (set_dstFlushed v j) = cSize j /\
                             dstFlushed (set_dstFlushed v j) = v)
    by (intros v j; destruct j; now split_and!).
  assert (Hret : forall j, srcSize (set_jobCompleted 0 (set_dstBuff g_nullBuffer j)) = srcSize j /\
                           consumed (set_jobCompleted 0 (set_dstBuff g_nullBuffer j)) = consumed j)
    by (intros j; destruct j; now split).
  destruct (truthy (jobCompleted job1) && (dstFlushed job1 =? cSize job1)) eqn:Edrain.
  - apply andb_true_iff in Edrain as [_ Eeq]. apply Z.eqb_eq in Eeq.
    destruct (ZSTDMT_releaseBuffer _ _ _) as [bp w0].
    intros [= <- <- <-]. rewrite J1, J2.
    clearbody job1 toWrite. unfold job_at in *. destruct z; mt_norm.
    rewrite !list_lookup_total_insert_eq by (rewrite ?length_insert; exact Hw).
    destruct (Hret (jobs !!! Z.to_nat w)) as [R1 R2]. rewrite R1, R2.
    split_and!; auto.
  - intros [= <- <- <-]. rewrite J1, J2, J3.
    clearbody toWrite. unfold job_at in *. destruct z; mt_norm.
    rewrite !list_lookup_total_insert_eq by exact Hw.
    destruct (Hset (dstFlushed job1) (jobs !!! Z.to_nat w)) as (S1 & S2 & S3 & S4).
    rewrite S1, S2, S3, S4. split_and!; auto.
Qed.

Lemma U32_succ_neq (d : Z) : U32 (d + 1) <> d.
Proof.
  unfold U32. intros E.
  pose proof (Z.mod_pos_bound (d + 1) (2 ^ 32) ltac:(lia)) as Hb. rewrite E in Hb.
  destruct (Z.eq_dec (d + 1) (2 ^ 32)) as [E1|E1].
  - rewrite E1, Z.mod_same in E by lia. lia.
  - rewrite Z.mod_small in E by lia. lia.
Qed.

(** C7, amended: when ZSTDMT_flushProduced does not report an error, it
    returns the count of bytes that remain in the buffer of the current job
    when some remain (a strictly positive count for sizes that [size_t]
    holds); otherwise 1 when the current job has not consumed all its input
    (srcSize > consumed, the test that the specification leaves out), or
    more jobs are to be flushed (doneJobID < nextJobID), or a job is ready,
    or the input buffer is not empty; otherwise 0, and it is on that last
    path only that allJobsCompleted is set, to the value of frameEnded.
    This holds of every context whose job table has the slot of doneJobID,
    whatever the ring holds. *)
Theorem flushProduced_return_value s fuel output blockToFlush r s' output' :
  let w := Z.land (mt.doneJobID s) (mt.jobIDMask s) in
  (Z.to_nat w < length (mt.jobs s))%nat ->
  ZSTDMT_flushProduced fuel s output blockToFlush = Some (r, s', output') ->
  ZSTD_isError r = false ->
  let cur := job_at s' w in
  let pending := (mt.doneJobID s' =? mt.doneJobID s) && (cSize cur >? dstFlushed cur) in
  let unfinished := srcSize cur >? consumed cur in
  let more := (mt.doneJobID s' <? mt.nextJobID s') || truthy (mt.jobReady s')
              || (filled (mt.inBuff s') >? 0) in
  r = (if pending then size_t (cSize cur - dstFlushed cur)
       else if unfinished || more then 1 else 0) /\
  mt.allJobsCompleted s' =
    (if pending || unfinished || more then mt.allJobsCompleted s else mt.frameEnded s') /\
  mt.frameEnded s' = mt.frameEnded s /\
  (pending = true -> 0 <= dstFlushed cur -> cSize cur < 2 ^ 64 ->
   r = cSize cur - dstFlushed cur /\ 0 < r).
Proof.
  intros w Hw. unfold ZSTDMT_flushProduced. fold w.
  destruct (flushProduced_wait fuel s w blockToFlush) as [z1|] eqn:Ewait; [|discriminate].
  apply (flushProduced_wait_rely cond_wait_rely) in Ewait.
  pose proof (worker_rely_frame _ _ Ewait) as (_ & Ed1 & _ & _ & Ea1 & _ & Ef1 & _).
  assert (Hw1 : (Z.to_nat w < length (mt.jobs z1))%nat).
  { destruct Ewait as (_ & Hlen & _). now rewrite Hlen. }
  destruct (ZSTD_isError (cSize (job_at z1 w))) eqn:Eerr.
  { destruct (ZSTDMT_waitForAllJobsCompleted fuel z1); [|discriminate].
    intros [= <- <- <-] Hok. rewrite Hok in Eerr. discriminate. }
  destruct (flushProduced_checksum z1 w (job_at z1 w)) as [job1 zc] eqn:Ecs.
  apply flushProduced_checksum_stage in Ecs; [|exact Hw1|reflexivity].
  destruct Ecs as (Hv & _ & Hlenc & _ & Hag & _).
  assert (Hring : mt.doneJobID zc = mt.doneJobID z1 /\
                  mt.allJobsCompleted zc = mt.allJobsCompleted z1 /\
                  mt.frameEnded zc = mt.frameEnded z1).
  { unfold ring_view in Hv. injection Hv as _ _ _ -> _ _ -> ->. now split_and!. }
  destruct Hring as (Edc & Eac & Efc).
  destruct (flushProduced_copy zc output w job1) as [[job2 z2] out2] eqn:Ecp.
  apply flushProduced_copy_view in Ecp; [|now rewrite Hlenc|exact Hag].
  destruct Ecp as (_ & _ & Ea2 & Ef2 & _ & Hs2 & Hc2 & Hcase).
  assert (Hret : mt.jobs (snd (flushProduced_return z2 job2)) = mt.jobs z2 /\
                 mt.doneJobID (snd (flushProduced_return z2 job2)) = mt.doneJobID z2 /\
                 mt.nextJobID (snd (flushProduced_return z2 job2)) = mt.nextJobID z2 /\
                 mt.jobReady (snd (flushProduced_return z2 job2)) = mt.jobReady z2 /\
                 mt.inBuff (snd (flushProduced_return z2 job2)) = mt.inBuff z2 /\
                 mt.frameEnded (snd (flushProduced_return z2 job2)) = mt.frameEnded z2).
  { unfold flushProduced_return.
    repeat match goal with |- context [if ?c then _ else _] => destruct c end;
      destruct z2; cbn; split_and!; reflexivity. }
  pose proof (flushProduced_return_cases z2 job2) as Hcases.
  destruct (flushProduced_return z2 job2) as [r0 zr]. cbn [snd] in Hret.
  destruct Hret as (Ej & Ed & En & Er & Eib & Ef).
  specialize (Hcases r0 zr eq_refl). cbv zeta in Hcases.
  intros [= <- <- <-] Hok. cbv zeta.
  assert (Hcur : job_at zr w = job_at z2 w) by (unfold job_at; now rewrite Ej).
  rewrite Hcur, Hs2, Hc2, Ed, En, Er, Eib, Ef.
  set (more := (mt.doneJobID z2 <? mt.nextJobID z2) || truthy (mt.jobReady z2)
               || (filled (mt.inBuff z2) >? 0)) in *.
  assert (Ea : mt.allJobsCompleted z2 = mt.allJobsCompleted s) by congruence.
  assert (Efr : mt.frameEnded z2 = mt.frameEnded s) by congruence.
  rewrite <- Ea.
  destruct Hcase as [(Hd & Hcs & Hdf)|(Hd & Hfl)].
  - (* the job stays the current one *)
    assert (Hsame : (mt.doneJobID z2 =? mt.doneJobID s) = true)
      by (apply Z.eqb_eq; congruence).
    rewrite Hsame, Hcs, Hdf. cbn [andb].
    destruct Hcases as [(E1 & -> & Eall)|[(E1 & E2 & -> & Eall)|[(E1 & E2 & E3 & -> & Eall)
                                                                |(E1 & E2 & E3 & -> & Eall)]]];
      rewrite E1, Eall; cbn [orb]; try rewrite E2; try rewrite E3; cbn [orb].
    + split_and!; auto. intros _ Hf0 Hc64.
      rewrite Z.gtb_ltb in E1. apply Z.ltb_lt in E1.
      rewrite size_t_small by lia. lia.
    + split_and!; auto. discriminate.
    + split_and!; auto. discriminate.
    + split_and!; auto. discriminate.
  - (* the job is drained *)
    assert (Hne : (mt.doneJobID z2 =? mt.doneJobID s) = false).
    { apply Z.eqb_neq. rewrite Hd, Edc, Ed1. apply U32_succ_neq. }
    rewrite Hne. cbn [andb orb].
    assert (E1 : (cSize job2 >? dstFlushed job2) = false)
      by (rewrite Z.gtb_ltb; apply Z.ltb_ge; lia).
    destruct Hcases as [(E1' & _)|[(_ & E2 & -> & Eall)|[(_ & E2 & E3 & -> & Eall)
                                                       |(_ & E2 & E3 & -> & Eall)]]];
      try congruence; rewrite E2, Eall; try rewrite E3; cbn [orb];
      split_and!; auto; discriminate.
Qed.

End Invariant.

Section Checksum.
Context {W : Type} `{ZSTD_constants} `{Sizeof} `{Allocator W} `{Compressor W} `{Hash}
  `{ThreadPool W} `{ThreadPoolAdmin W} `{Workers W}.
Implicit Types zcs : mt.t W.






End Checksum.

(** * Further properties of the code

    ** The two pools *)

Section PoolRoundTrips.
Context {W : Type} `{Allocator W} `{Compressor W}.

(** X1: a buffer that is released into a pool with a free slot, and whose
    size is within the band of the pool's buffer size, is the buffer that
    the next ZSTDMT_getBuffer returns; the allocator is not called, the
    pool counts as many buffers as before and the slot is cleared. *)
Theorem releaseBuffer_getBuffer_roundtrip (pool : ZSTDMT_bufferPool) (buf : buffer_t) (w : W) :
  start buf <> NULL ->
  0 <= nbBuffers pool < totalBuffers pool ->
  totalBuffers pool = Z.of_nat (length (bTable pool)) ->
  totalBuffers pool < 2 ^ 32 ->
  bufferSize pool <= size buf ->
  Z.shiftr (size buf) 3 <= bufferSize pool ->
  ZSTDMT_getBuffer (fst (ZSTDMT_releaseBuffer pool buf w))
                   (snd (ZSTDMT_releaseBuffer pool buf w)) =
    (buf, set_slot (nbBuffers pool) g_nullBuffer (nbBuffers pool) pool, w).
Proof.
  intros Hs Hn Hl Ht Hlo Hhi. unfold ZSTDMT_releaseBuffer.
  destruct (start buf =? NULL) eqn:E; [apply Z.eqb_eq in E; contradiction|].
  destruct (nbBuffers pool <? totalBuffers pool) eqn:E2; [|lia]. cbn [fst snd].
  unfold ZSTDMT_getBuffer. cbn [nbBuffers set_slot bufferSize bTable].
  rewrite (U32_small (nbBuffers pool + 1)) by lia.
  assert (Ht1 : truthy (nbBuffers pool + 1) = true).
  { unfold truthy. destruct (nbBuffers pool + 1 =? 0) eqn:E3; [lia|reflexivity]. }
  rewrite Ht1. replace (nbBuffers pool + 1 - 1) with (nbBuffers pool) by lia.
  rewrite (U32_small (nbBuffers pool)) by lia.
  rewrite list_lookup_total_insert_eq by lia.
  assert (E4 : ((size buf >=? bufferSize pool) && (Z.shiftr (size buf) 3 <=? bufferSize pool))
               = true).
  { apply andb_true_intro; split; [rewrite Z.geb_leb; apply Z.leb_le|apply Z.leb_le]; lia. }
  rewrite E4. unfold set_slot. cbn [bufferSize totalBuffers nbBuffers bTable].
  rewrite list_insert_insert_eq. reflexivity.
Qed.

(** X2: ZSTDMT_getBuffer and ZSTDMT_releaseBuffer keep the count of pooled
    buffers between 0 and the capacity of the pool, whose table they never
    resize; a release adds one buffer at most, and a buffer that finds the
    pool full is handed to the allocator's free instead of being stored. *)
Theorem bufferPool_within_capacity (pool : ZSTDMT_bufferPool) (buf : buffer_t)
    (w : logged W) :
  pool_fits pool ->
  pool_fits (snd (fst (ZSTDMT_getBuffer pool w))) /\
  nbBuffers (snd (fst (ZSTDMT_getBuffer pool w))) <= nbBuffers pool /\
  pool_fits (fst (ZSTDMT_releaseBuffer pool buf w)) /\
  nbBuffers pool <= nbBuffers (fst (ZSTDMT_releaseBuffer pool buf w)) <= nbBuffers pool + 1 /\
  (start buf <> NULL -> nbBuffers pool = totalBuffers pool ->
   ZSTDMT_releaseBuffer pool buf w = (pool, (ZSTD_free (start buf) (fst w),
                                             snd w ++ [call_free (start buf)]))).
Proof.
  intros (Hn & Hl & Ht).
  assert (Hget : pool_fits (snd (fst (ZSTDMT_getBuffer pool w))) /\
                 nbBuffers (snd (fst (ZSTDMT_getBuffer pool w))) <= nbBuffers pool).
  { unfold ZSTDMT_getBuffer.
    destruct (truthy (nbBuffers pool)) eqn:Et.
    - assert (nbBuffers pool <> 0).
      { unfold truthy in Et. destruct (nbBuffers pool =? 0) eqn:E; [discriminate|lia]. }
      assert (Hfit : pool_fits (set_slot (U32 (nbBuffers pool - 1)) g_nullBuffer
                                  (U32 (nbBuffers pool - 1)) pool)).
      { rewrite U32_small by lia. unfold pool_fits, set_slot.
        cbn [nbBuffers totalBuffers bTable]. rewrite length_insert. lia. }
      assert (Hle : U32 (nbBuffers pool - 1) <= nbBuffers pool)
        by (rewrite U32_small by lia; lia).
      destruct (_ && _).
      + cbn [fst snd]. split; [exact Hfit|exact Hle].
      + destruct (ZSTDMT_getBuffer_new _ _) as [b w']. cbn [fst snd].
        split; [exact Hfit|exact Hle].
    - destruct (ZSTDMT_getBuffer_new _ _) as [b w']. cbn [fst snd].
      split; [now split_and!|lia]. }
  destruct Hget as [Hg1 Hg2]. split_and!; try assumption.
  - unfold ZSTDMT_releaseBuffer. destruct (start buf =? NULL); [now split_and!|].
    destruct (nbBuffers pool <? totalBuffers pool) eqn:E; [|now split_and!].
    cbn [fst]. rewrite U32_small by lia. unfold pool_fits, set_slot.
    cbn [nbBuffers totalBuffers bTable]. rewrite length_insert. lia.
  - unfold ZSTDMT_releaseBuffer. destruct (start buf =? NULL); [cbn; lia|].
    destruct (nbBuffers pool <? totalBuffers pool) eqn:E; [|cbn; lia].
    cbn [fst set_slot nbBuffers]. rewrite U32_small by lia. lia.
  - unfold ZSTDMT_releaseBuffer. destruct (start buf =? NULL); [cbn; lia|].
    destruct (nbBuffers pool <? totalBuffers pool) eqn:E; [|cbn; lia].
    cbn [fst set_slot nbBuffers]. rewrite U32_small by lia. lia.
  - intros Hs Hfull. unfold ZSTDMT_releaseBuffer.
    destruct (start buf =? NULL) eqn:E; [apply Z.eqb_eq in E; contradiction|].
    destruct (nbBuffers pool <? totalBuffers pool) eqn:E2; [lia|]. reflexivity.
Qed.

(** X3: a compression context that is released into a pool with a free
    slot is the context that the next ZSTDMT_getCCtx returns, without a
    call of the inner compressor's constructor; the pool counts as many
    available contexts as before the release. *)
Theorem releaseCCtx_getCCtx_roundtrip (pool : ZSTDMT_CCtxPool) (c : Z) (w : logged W) :
  c <> NULL ->
  0 <= availCCtx pool < totalCCtx pool ->
  totalCCtx pool = Z.of_nat (length (cctx pool)) ->
  totalCCtx pool < 2 ^ 32 ->
  ZSTDMT_getCCtx (fst (ZSTDMT_releaseCCtx pool c w)) (snd (ZSTDMT_releaseCCtx pool c w)) =
    (c, {| totalCCtx := totalCCtx pool; availCCtx := availCCtx pool;
           cctx := <[Z.to_nat (availCCtx pool) := c]> (cctx pool) |}, w).
Proof.
  intros Hc Hn Hl Ht. unfold ZSTDMT_releaseCCtx.
  destruct (c =? NULL) eqn:E; [apply Z.eqb_eq in E; contradiction|].
  destruct (availCCtx pool <? totalCCtx pool) eqn:E2; [|lia]. cbn [fst snd].
  unfold ZSTDMT_getCCtx. cbn [availCCtx totalCCtx cctx].
  rewrite (U32_small (availCCtx pool + 1)) by lia.
  assert (Ht1 : truthy (availCCtx pool + 1) = true).
  { unfold truthy. destruct (availCCtx pool + 1 =? 0) eqn:E3; [lia|reflexivity]. }
  rewrite Ht1. replace (availCCtx pool + 1 - 1) with (availCCtx pool) by lia.
  rewrite (U32_small (availCCtx pool)) by lia.
  rewrite list_lookup_total_insert_eq by lia. reflexivity.
Qed.

End PoolRoundTrips.

(** ** The multi-threading parameters *)

Section ParameterFacts.
Context {W : Type} `{ZSTD_constants}.

(** X4: ZSTDMT_setMTCtxParameter stores a job size of 0 (automatic) as it
    is and raises any other to ZSTDMT_JOBSIZE_MIN at least; it caps the
    overlap log at 9; in both cases it returns the value it stored and
    leaves the other parameters and the rest of the context alone.  Any
    other parameter is refused with parameter_unsupported and changes
    nothing. *)
Theorem setMTCtxParameter_clamps (mtctx : mt.t W) (parameter : ZSTDMT_parameter) (value : Z) :
  0 <= value < 2 ^ 32 -> 0 <= ZSTDMT_JOBSIZE_MIN < 2 ^ 32 ->
  let r := fst (ZSTDMT_setMTCtxParameter mtctx parameter value) in
  let mtctx' := snd (ZSTDMT_setMTCtxParameter mtctx parameter value) in
  match parameter with
  | ZSTDMT_p_jobSize =>
    r = (if value =? 0 then 0 else Z.max value ZSTDMT_JOBSIZE_MIN) /\
    mtctx' = mt.set_params (set_jobSize r (mt.params mtctx)) mtctx
  | ZSTDMT_p_overlapSectionLog =>
    r = Z.min value 9 /\
    mtctx' = mt.set_params (set_overlapSizeLog r (mt.params mtctx)) mtctx
  | ZSTDMT_p_other _ =>
    r = ERROR parameter_unsupported /\ ZSTD_isError r = true /\ mtctx' = mtctx
  end.
Proof.
  intros Hv Hm r mtctx'. subst r mtctx'. destruct parameter; cbn.
  - destruct (value >? 0) eqn:E1; destruct (value <? ZSTDMT_JOBSIZE_MIN) eqn:E2; cbn.
    + rewrite U32_small by lia. destruct (value =? 0) eqn:E0; [lia|].
      replace (Z.max value ZSTDMT_JOBSIZE_MIN) with ZSTDMT_JOBSIZE_MIN by lia. now split.
    + destruct (value =? 0) eqn:E0; [lia|].
      replace (Z.max value ZSTDMT_JOBSIZE_MIN) with value by lia. now split.
    + destruct (value =? 0) eqn:E0; [|lia]. apply Z.eqb_eq in E0. subst value. now split.
    + destruct (value =? 0) eqn:E0; [|lia]. apply Z.eqb_eq in E0. subst value. now split.
  - destruct (value >? 9) eqn:E1; cbn.
    + replace (Z.min value 9) with 9 by lia. now split.
    + destruct (value >=? 9) eqn:E2.
      * assert (value = 9) by lia. subst value. now split.
      * replace (Z.min value 9) with value by lia. now split.
  - split_and!; reflexivity.
Qed.

End ParameterFacts.

(** ** The worker, from start to end *)

Section WorkerRuns.
Context {W : Type} `{ZSTD_constants} `{Allocator W} `{Compressor W}.

(** X5: whatever happens to it, a worker ends its job by reporting it
    complete: jobCompleted is 1 and consumed equals srcSize, also when the
    compression failed; the source buffer is given back (src is the null
    buffer and srcStart is NULL), and the fields that describe the job are
    those it was given. *)
Theorem compressChunk_always_reports (st : worker_state W) :
  let job' := w_job (ZSTDMT_compressChunk st) in
  jobCompleted job' = 1 /\ consumed job' = srcSize job' /\
  srcSize job' = srcSize (w_job st) /\
  src job' = g_nullBuffer /\ srcStart job' = NULL /\
  job_stable job' = job_stable (w_job st).
Proof.
  intros job'. pose proof (compressChunk_job_rely st) as Hr. fold job' in Hr.
  assert (Hend : jobCompleted job' = 1 /\ consumed job' = srcSize job' /\
                 src job' = g_nullBuffer /\ srcStart job' = NULL).
  { subst job'. unfold ZSTDMT_compressChunk.
    destruct (ZSTDMT_getCCtx _ _) as [[c cp] w].
    match goal with |- context [compressChunk_endJob c ?s] => generalize s end.
    intros s. unfold compressChunk_endJob.
    destruct (ZSTDMT_releaseCCtx _ _ _) as [cp' w1].
    destruct (ZSTDMT_releaseBuffer _ _ _) as [bp' w2].
    cbn [w_job]. destruct (w_job s); cbn. now split_and!. }
  destruct Hend as (Hj1 & Hj2 & Hj3 & Hj4).
  destruct Hr as (E1 & E2 & E3 & E4 & E5 & E6 & E7 & E8 & E9 & _).
  split_and!; try assumption.
  unfold job_stable. now rewrite E1, E2, E3, E4, E5, E6, E7, E8, E9.
Qed.

Lemma block_calls_app l1 l2 : block_calls (l1 ++ l2) = block_calls l1 ++ block_calls l2.
Proof. unfold block_calls. apply List.filter_app. Qed.

Lemma endJob_fields c (st : worker_state (logged W)) :
  cSize (w_job (compressChunk_endJob c st)) = cSize (w_job st) /\
  dstBuff (w_job (compressChunk_endJob c st)) = dstBuff (w_job st) /\
  w_mem (compressChunk_endJob c st) = w_mem st /\
  jobCompleted (w_job (compressChunk_endJob c st)) = 1.
Proof.
  unfold compressChunk_endJob.
  destruct (ZSTDMT_releaseCCtx _ _ _) as [cp' w1].
  destruct (ZSTDMT_releaseBuffer _ _ _) as [bp' w2].
  cbn [w_job w_mem]. destruct (w_job st); cbn. now split_and!.
Qed.

(** X6: a worker that gets no compression context (the pool is empty and
    the inner compressor creates none), or that has a context but gets no
    destination buffer (the job has none, the pool is empty and the
    allocation fails), reports memory_allocation in cSize; it hands no block
    to the inner compressor, leaves the memory as it is, and still reports
    the job complete. *)
Theorem compressChunk_without_resources (st : worker_state (logged W)) :
  (availCCtx (w_cctxPool st) = 0 /\
   fst (ZSTD_createCCtx_advanced (fst (w_world st))) = NULL) \/
  (availCCtx (w_cctxPool st) <> 0 /\
   cctx (w_cctxPool st) !!! Z.to_nat (U32 (availCCtx (w_cctxPool st) - 1)) <> NULL /\
   start (dstBuff (w_job st)) = NULL /\
   nbBuffers (w_bufPool st) = 0 /\
   fst (ZSTD_malloc (bufferSize (w_bufPool st)) (fst (w_world st))) = NULL) ->
  let st' := ZSTDMT_compressChunk st in
  cSize (w_job st') = ERROR memory_allocation /\
  ZSTD_isError (cSize (w_job st')) = true /\
  block_calls (snd (w_world st')) = block_calls (snd (w_world st)) /\
  w_mem st' = w_mem st /\
  jobCompleted (w_job st') = 1.
Proof.
  intros Hcase st'. subst st'. unfold ZSTDMT_compressChunk.
  destruct Hcase as [(Ha & Hc)|(Ha & Hc & Hd & Hn & Hm)].
  - unfold ZSTDMT_getCCtx. rewrite Ha. cbn [truthy Z.eqb negb].
    cbn [ZSTD_createCCtx_advanced logged_compressor]. unfold log1.
    destruct (ZSTD_createCCtx_advanced (fst (w_world st))) as [c w1] eqn:E.
    cbn [fst snd] in *. subst c.
    unfold compressChunk_resources. cbn [Z.eqb NULL].
    match goal with |- context [compressChunk_endJob ?c ?s] =>
      destruct (endJob_fields c s) as (E1 & E2 & E3 & E4);
      pose proof (endJob_block_calls c s) as E5
    end.
    rewrite E1, E3, E4, E5. cbn [w_job upd_job w_mem w_world snd].
    rewrite cSize_set_cSize, block_calls_app. cbn. rewrite app_nil_r.
    split_and!; try reflexivity; try apply isError_memory_allocation.
  - unfold ZSTDMT_getCCtx.
    assert (Ht : truthy (availCCtx (w_cctxPool st)) = true).
    { unfold truthy. destruct (availCCtx (w_cctxPool st) =? 0) eqn:E; [lia|reflexivity]. }
    rewrite Ht. unfold compressChunk_resources. cbn [w_job w_bufPool w_world w_cctxPool w_mem].
    destruct (_ =? NULL) eqn:E; [apply Z.eqb_eq in E; contradiction|].
    rewrite Hd. cbn [Z.eqb NULL].
    unfold ZSTDMT_getBuffer. rewrite Hn. cbn [truthy Z.eqb negb].
    unfold ZSTDMT_getBuffer_new.
    cbn [ZSTD_malloc logged_allocator]. unfold log1.
    destruct (ZSTD_malloc (bufferSize (w_bufPool st)) (fst (w_world st))) as [p w1] eqn:Em.
    cbn [fst snd] in *. subst p. cbn [Z.eqb NULL start].
    match goal with |- context [compressChunk_endJob ?c ?s] =>
      destruct (endJob_fields c s) as (E1 & E2 & E3 & E4);
      pose proof (endJob_block_calls c s) as E5
    end.
    rewrite E1, E3, E4, E5. cbn [w_job upd_job w_mem w_world snd].
    rewrite cSize_set_cSize, block_calls_app. cbn. rewrite app_nil_r.
    split_and!; try reflexivity; try apply isError_memory_allocation.
Qed.

End WorkerRuns.

(** *** The blocks of a job *)

Lemma sum_of_app f l1 l2 : sum_of f (l1 ++ l2) = sum_of f l1 + sum_of f l2.
Proof. unfold sum_of. induction l1 as [|c l1 IH]; cbn; [reflexivity|]. rewrite IH. lia. Qed.

Lemma sum_of_cons f c l : sum_of f (c :: l) = f c + sum_of f l.
Proof. reflexivity. Qed.

Lemma consecutive_snoc B oend l : forall ip op c,
  consecutive_blocks B ip op oend l ->
  call_src c = ip + sum_of call_srcSize l -> 0 <= call_srcSize c <= B ->
  call_dst c = op + sum_of call_ret l ->
  call_dstCapacity c = size_t (oend - (op + sum_of call_ret l)) ->
  consecutive_blocks B ip op oend (l ++ [c]).
Proof.
  induction l as [|a l IH]; intros ip op c Hl Hs Hn Hd Hc.
  - cbn in *. rewrite Z.add_0_r in *. now split_and!.
  - rewrite !sum_of_cons in *. cbn [consecutive_blocks app] in *.
    destruct Hl as (E1 & E2 & E3 & E4 & Hl).
    refine (conj E1 (conj E2 (conj E3 (conj E4 _)))).
    apply IH; try assumption; [rewrite Hs|rewrite Hd|rewrite Hc; f_equal]; lia.
Qed.

Lemma size_t_add_l a b : size_t (size_t a + b) = size_t (a + b).
Proof. unfold size_t. apply Zplus_mod_idemp_l. Qed.

Lemma to_int_small x : 0 <= x < 2 ^ 31 -> to_int x = x.
Proof. intros Hx. unfold to_int. rewrite Z.mod_small; lia. Qed.

Section WorkerBlocks.
Context {W : Type} `{ZSTD_constants} `{Allocator W} `{Compressor W}.
Implicit Types st : worker_state (logged W).

Lemma getCCtx_block_calls (pool : ZSTDMT_CCtxPool) (w : logged W) :
  block_calls (snd (snd (ZSTDMT_getCCtx pool w))) = block_calls (snd w).
Proof.
  unfold ZSTDMT_getCCtx. destruct (truthy (availCCtx pool)); [reflexivity|].
  cbn [ZSTD_createCCtx_advanced logged_compressor]. unfold log1.
  destruct (ZSTD_createCCtx_advanced (fst w)) as [c w1]. cbn [fst snd].
  rewrite block_calls_app. cbn. apply app_nil_r.
Qed.

Lemma getBuffer_block_calls (pool : ZSTDMT_bufferPool) (w : logged W) :
  block_calls (snd (snd (ZSTDMT_getBuffer pool w))) = block_calls (snd w).
Proof.
  unfold ZSTDMT_getBuffer, ZSTDMT_getBuffer_new.
  cbn [ZSTD_malloc ZSTD_free logged_allocator]. unfold log1.
  destruct (truthy (nbBuffers pool)); [destruct (_ && _); [reflexivity|]|].
  - destruct (ZSTD_malloc _ _) as [p w1]. cbn [fst snd].
    rewrite !block_calls_app. cbn. now rewrite !app_nil_r.
  - destruct (ZSTD_malloc _ _) as [p w1]. cbn [fst snd].
    rewrite !block_calls_app. cbn. now rewrite !app_nil_r.
Qed.

Lemma resources_log c st st' d :
  compressChunk_resources c st = inr (st', d) ->
  block_calls (snd (w_world st')) = block_calls (snd (w_world st)) /\
  dstBuff (w_job st') = d /\ cSize (w_job st') = cSize (w_job st) /\
  job_stable (w_job st') = job_stable (w_job st).
Proof.
  unfold compressChunk_resources.
  destruct (c =? NULL); [discriminate|].
  destruct (start (dstBuff (w_job st)) =? NULL).
  - pose proof (getBuffer_block_calls (w_bufPool st) (w_world st)) as Hb.
    destruct (ZSTDMT_getBuffer _ _) as [[d' bp] w]. cbn [snd] in Hb.
    destruct (start d' =? NULL); [discriminate|].
    intros [= <- <-]. cbn [w_world w_job upd_job]. split_and!; [exact Hb| | |].
    + destruct (w_job st); reflexivity.
    + destruct (w_job st); reflexivity.
    + apply stable_set_dstBuff.
  - intros [= <- <-]. now split_and!.
Qed.

Lemma init_log c st st' :
  compressChunk_init c st = inr st' ->
  block_calls (snd (w_world st')) = block_calls (snd (w_world st)) /\
  w_job st' = w_job st.
Proof.
  unfold compressChunk_init.
  cbn [ZSTD_compressBegin_advanced_internal logged_compressor]. unfold log1.
  destruct (truthy (cdict (w_job st))).
  - destruct (ZSTD_compressBegin_advanced_internal _ _ _ _ _ _ _ _ _) as [e w].
    cbn [fst snd]. destruct (ZSTD_isError e); [discriminate|].
    intros [= <-]. cbn [w_world w_job upd_mem_world snd].
    rewrite block_calls_app. cbn. now rewrite app_nil_r.
  - destruct (ZSTD_CCtxParam_setParameter _ _ _) as [jp fe].
    destruct (ZSTD_isError fe); [discriminate|].
    destruct (ZSTD_compressBegin_advanced_internal _ _ _ _ _ _ _ _ _) as [e w].
    cbn [fst snd]. destruct (ZSTD_isError e); [discriminate|].
    intros [= <-]. cbn [w_world w_job upd_mem_world snd].
    rewrite block_calls_app. cbn. now rewrite app_nil_r.
Qed.

Lemma header_log c src0 d st st' :
  compressChunk_header c src0 d st = inr st' ->
  w_job st' = w_job st /\
  exists hdr,
    block_calls (snd (w_world st')) = block_calls (snd (w_world st)) ++ hdr /\
    if truthy (firstChunk (w_job st)) then hdr = []
    else exists h, hdr = [call_compressContinue c (start d) (size d) src0 0 h].
Proof.
  unfold compressChunk_header.
  destruct (truthy (firstChunk (w_job st))); cbn [negb].
  - intros [= <-]. split; [reflexivity|]. exists []. now rewrite app_nil_r.
  - cbn [ZSTD_compressContinue ZSTD_invalidateRepCodes logged_compressor]. unfold log2.
    destruct (ZSTD_compressContinue c (start d) (size d) src0 0 (w_mem st) (fst (w_world st)))
      as [[h m] w]. cbn [fst snd].
    destruct (ZSTD_isError h); [discriminate|].
    intros [= <-]. split; [reflexivity|].
    exists [call_compressContinue c (start d) (size d) src0 0 h].
    cbn [w_world upd_mem_world snd]. rewrite !block_calls_app. cbn.
    rewrite app_nil_r. split; [reflexivity|]. now exists h.
Qed.

Lemma blocks_log n : forall c blockNb ip op oend st st' ip' op',
  0 <= ZSTD_BLOCKSIZE_MAX ->
  compressChunk_blocks n c blockNb ip op oend st = inr (st', ip', op') ->
  exists data,
    block_calls (snd (w_world st')) = block_calls (snd (w_world st)) ++ data /\
    consecutive_blocks ZSTD_BLOCKSIZE_MAX ip op oend data /\
    sum_of call_srcSize data = Z.of_nat n * ZSTD_BLOCKSIZE_MAX /\
    ip' = ip + sum_of call_srcSize data /\
    op' = op + sum_of call_ret data /\
    size_t (cSize (w_job st')) = size_t (cSize (w_job st) + sum_of call_ret data) /\
    dstBuff (w_job st') = dstBuff (w_job st) /\
    job_stable (w_job st') = job_stable (w_job st) /\
    (n = O -> st' = st /\ data = []).
Proof.
  induction n as [|n IH]; intros c blockNb ip op oend st st' ip' op' HB.
  - cbn [compressChunk_blocks]. intros [= <- <- <-]. exists [].
    cbn. rewrite app_nil_r, !Z.add_0_r. now split_and!.
  - cbn [compressChunk_blocks].
    cbn [ZSTD_compressContinue logged_compressor]. unfold log2.
    destruct (ZSTD_compressContinue c op (size_t (oend - op)) ip ZSTD_BLOCKSIZE_MAX
                (w_mem st) (fst (w_world st))) as [[r m] w]. cbn [fst snd].
    destruct (ZSTD_isError r); [discriminate|].
    intros Hrec. apply IH in Hrec; [|exact HB].
    destruct Hrec as (data & Hlog & Hcons & Hsum & Hip & Hop & HcS & Hd & Hst & _).
    exists (call_compressContinue c op (size_t (oend - op)) ip ZSTD_BLOCKSIZE_MAX r :: data).
    cbn [w_world w_job upd_job upd_mem_world snd] in *.
    rewrite block_calls_app in Hlog. cbn in Hlog. rewrite <- app_assoc in Hlog. cbn in Hlog.
    split_and!.
    + exact Hlog.
    + cbn. split_and!; try reflexivity; try lia. exact Hcons.
    + rewrite sum_of_cons, Hsum. cbn [call_srcSize]. lia.
    + rewrite sum_of_cons. cbn [call_srcSize]. lia.
    + rewrite sum_of_cons. cbn [call_ret]. lia.
    + rewrite HcS, sum_of_cons. cbn [call_ret]. destruct (w_job st); cbn.
      rewrite size_t_add_l. f_equal. lia.
    + rewrite Hd. destruct (w_job st); reflexivity.
    + rewrite Hst. destruct (w_job st); reflexivity.
    + discriminate.
Qed.

Lemma last_log c nbBlocks ip op oend st :
  let st' := compressChunk_last c nbBlocks ip op oend st in
  ZSTD_isError (cSize (w_job st')) = false ->
  exists data,
    block_calls (snd (w_world st')) = block_calls (snd (w_world st)) ++ data /\
    (if (nbBlocks >? 0) || truthy (lastChunk (w_job st))
     then exists e,
            data = [e] /\ call_src e = ip /\ call_srcSize e = lastBlockSize (w_job st) /\
            call_dst e = op /\ call_dstCapacity e = size_t (oend - op) /\
            cSize (w_job st') = size_t (cSize (w_job st) + call_ret e)
     else data = [] /\ cSize (w_job st') = cSize (w_job st)) /\
    dstBuff (w_job st') = dstBuff (w_job st).
Proof.
  intros st'. subst st'. unfold compressChunk_last.
  destruct ((nbBlocks >? 0) || truthy (lastChunk (w_job st))).
  - cbn [ZSTD_compressContinue ZSTD_compressEnd logged_compressor]. unfold log2.
    destruct (truthy (lastChunk (w_job st))).
    + destruct (ZSTD_compressEnd c op (size_t (oend - op)) ip (lastBlockSize (w_job st))
                  (w_mem st) (fst (w_world st))) as [[r m] w]. cbn [fst snd].
      destruct (ZSTD_isError r) eqn:Er.
      * cbn [w_job upd_job upd_mem_world]. rewrite cSize_set_cSize. congruence.
      * intros _. cbn [w_world w_job upd_job upd_mem_world snd].
        eexists. rewrite block_calls_app. cbn. split; [reflexivity|].
        split; [|destruct (w_job st); reflexivity].
        eexists. split; [reflexivity|]. cbn. split_and!; try reflexivity.
        destruct (w_job st); reflexivity.
    + destruct (ZSTD_compressContinue c op (size_t (oend - op)) ip (lastBlockSize (w_job st))
                  (w_mem st) (fst (w_world st))) as [[r m] w]. cbn [fst snd].
      destruct (ZSTD_isError r) eqn:Er.
      * cbn [w_job upd_job upd_mem_world]. rewrite cSize_set_cSize. congruence.
      * intros _. cbn [w_world w_job upd_job upd_mem_world snd].
        eexists. rewrite block_calls_app. cbn. split; [reflexivity|].
        split; [|destruct (w_job st); reflexivity].
        eexists. split; [reflexivity|]. cbn. split_and!; try reflexivity.
        destruct (w_job st); reflexivity.
  - intros _. exists []. rewrite app_nil_r. now split_and!.
Qed.

Lemma full_blocks_and_last (B n : Z) :
  0 < B -> 0 <= n ->
  let nb := (n + (B - 1)) / B in
  let last := if n =? 0 then 0 else if n mod B =? 0 then B else n mod B in
  Z.of_nat (Z.to_nat (nb - 1)) * B + last = n /\
  ((nb >? 0) = false -> n = 0) /\ 0 <= last <= B /\ 0 <= nb.
Proof.
  intros HB Hn nb last.
  pose proof (Z.div_mod n B ltac:(lia)) as Hdm.
  pose proof (Z.mod_pos_bound n B HB) as Hr.
  assert (Hq : 0 <= n / B) by (apply Z.div_pos; lia).
  destruct (n =? 0) eqn:E0.
  - apply Z.eqb_eq in E0. subst n. subst nb last. cbn [Z.add].
    rewrite Z.div_small by lia. cbn. lia.
  - apply Z.eqb_neq in E0. destruct (n mod B =? 0) eqn:Em.
    + apply Z.eqb_eq in Em.
      assert (Hnb : nb = n / B).
      { subst nb. symmetry. apply (Z.div_unique _ _ _ (B - 1)); lia. }
      assert (1 <= n / B) by nia.
      subst last. rewrite Hnb. rewrite Z2Nat.id by lia. split_and!; try lia; nia.
    + apply Z.eqb_neq in Em.
      assert (Hnb : nb = n / B + 1).
      { subst nb. symmetry. apply (Z.div_unique _ _ _ (n mod B - 1)); lia. }
      subst last. rewrite Hnb. rewrite Z2Nat.id by lia. split_and!; try lia; nia.
Qed.

(** X7: when a worker succeeds on a job that starts with cSize = 0, the
    blocks it hands to the inner compressor are, after one empty block for
    the frame header if the job is not the first of its frame, blocks of
    ZSTD_BLOCKSIZE_MAX bytes at most that follow one another from the start
    of the job's payload and add up to srcSize; their results are written
    one after the other from the start of the destination buffer (over the
    header), each call being given the room left in the buffer, and cSize
    is the sum of the results. *)
Theorem compressChunk_blocks_cover st :
  0 <= ZSTD_BLOCKSIZELOG_MAX <= 32 ->
  0 <= srcSize (w_job st) ->
  srcSize (w_job st) + ZSTD_BLOCKSIZE_MAX <= 2 ^ 31 * ZSTD_BLOCKSIZE_MAX ->
  cSize (w_job st) = 0 ->
  let st' := ZSTDMT_compressChunk st in
  let d := dstBuff (w_job st') in
  let payload := srcStart (w_job st) + prefixSize (w_job st) in
  ZSTD_isError (cSize (w_job st')) = false ->
  exists hdr data,
    block_calls (snd (w_world st')) = block_calls (snd (w_world st)) ++ hdr ++ data /\
    (if truthy (firstChunk (w_job st)) then hdr = []
     else exists c h, hdr = [call_compressContinue c (start d) (size d) payload 0 h]) /\
    consecutive_blocks ZSTD_BLOCKSIZE_MAX payload (start d) (start d + size d) data /\
    sum_of call_srcSize data = srcSize (w_job st) /\
    cSize (w_job st') = size_t (sum_of call_ret data).
Proof.
  intros Hk Hn Hfit Hc0 st' d payload Hok.
  assert (HB : ZSTD_BLOCKSIZE_MAX = 2 ^ ZSTD_BLOCKSIZELOG_MAX)
    by (unfold ZSTD_BLOCKSIZE_MAX; apply Z.shiftl_1_l).
  assert (HBpos : 0 < ZSTD_BLOCKSIZE_MAX) by (rewrite HB; apply Z.pow_pos_nonneg; lia).
  assert (HBle : ZSTD_BLOCKSIZE_MAX <= 2 ^ 32) by (rewrite HB; apply Z.pow_le_mono_r; lia).
  subst d st' payload. revert Hok. unfold ZSTDMT_compressChunk.
  set (payload := srcStart (w_job st) + prefixSize (w_job st)). clearbody payload.
  pose proof (getCCtx_block_calls (w_cctxPool st) (w_world st)) as Hlog0.
  destruct (ZSTDMT_getCCtx (w_cctxPool st) (w_world st)) as [[c cp] w]. cbn [snd] in Hlog0.
  set (st0 := Build_worker_state (w_job st) (w_bufPool st) cp (w_mem st) w).
  match goal with |- context [compressChunk_endJob c ?s] =>
    destruct (endJob_fields c s) as (E1 & E2 & _ & _);
    pose proof (endJob_block_calls c s) as E5; rewrite E1, E2, E5; clear E1 E2 E5
  end.
  destruct (compressChunk_resources c st0) as [s1|[s1 d1]] eqn:Er.
  { cbv beta iota. intros Hok. apply resources_inl in Er. rewrite Er in Hok. discriminate Hok. }
  apply resources_log in Er. destruct Er as (Hlog1 & Hd1 & Hc1 & Hst1).
  destruct (compressChunk_init c s1) as [s2|s2] eqn:Ei.
  { cbv beta iota. intros Hok. apply init_inl in Ei. rewrite Ei in Hok. discriminate Hok. }
  apply init_log in Ei. destruct Ei as (Hlog2 & Hj2).
  destruct (compressChunk_header c payload d1 s2) as [s3|s3] eqn:Eh.
  { cbv beta iota. intros Hok. apply header_inl in Eh. rewrite Eh in Hok. discriminate Hok. }
  apply header_log in Eh. destruct Eh as (Hj3 & hdr & Hlog3 & Hhdr).
  unfold compressChunk_compress.
  assert (Hsrc : srcSize (w_job s3) = srcSize (w_job st)).
  { rewrite Hj3, Hj2. unfold job_stable in Hst1. now injection Hst1. }
  assert (Hfirst : firstChunk (w_job s2) = firstChunk (w_job st)).
  { rewrite Hj2. unfold job_stable in Hst1. now injection Hst1. }
  assert (Hlast : lastChunk (w_job s3) = lastChunk (w_job st)).
  { rewrite Hj3, Hj2. unfold job_stable in Hst1. now injection Hst1. }
  rewrite Hsrc.
  pose proof (full_blocks_and_last ZSTD_BLOCKSIZE_MAX (srcSize (w_job st)) HBpos Hn)
    as (Htot & Hnone & Hlastb & Hnb0).
  set (nb := (srcSize (w_job st) + (ZSTD_BLOCKSIZE_MAX - 1)) / ZSTD_BLOCKSIZE_MAX) in *.
  assert (Hnb : to_int (size_t (srcSize (w_job st) + (ZSTD_BLOCKSIZE_MAX - 1))
                        / ZSTD_BLOCKSIZE_MAX) = nb).
  { assert (2 ^ 31 * ZSTD_BLOCKSIZE_MAX <= 2 ^ 63).
    { change (2 ^ 63) with (2 ^ 31 * 2 ^ 32). apply Z.mul_le_mono_nonneg_l; lia. }
    rewrite size_t_small by lia. fold nb. apply to_int_small. split; [exact Hnb0|].
    subst nb. apply Z.div_lt_upper_bound; lia. }
  rewrite Hnb.
  destruct (compressChunk_blocks (Z.to_nat (nb - 1)) c 1 payload (start d1)
              (start d1 + size d1) s3) as [s4|[[s4 ip] op]] eqn:Eb.
  { cbv beta iota. intros Hok. apply blocks_inl in Eb. rewrite Eb in Hok. discriminate Hok. }
  apply blocks_log in Eb; [|lia].
  destruct Eb as (full & Hlog4 & Hcons & Hsum & Hip & Hop & HcS & Hd4 & Hst4 & Hzero).
  intros Hok. pose proof (last_log c nb ip op (start d1 + size d1) s4 Hok)
    as (data & Hlog5 & Hdata & Hd5).
  assert (Hsrc4 : srcSize (w_job s4) = srcSize (w_job st)).
  { unfold job_stable in Hst4. injection Hst4 as _ E _ _ _ _ _ _ _. now rewrite E. }
  assert (Hlast4 : lastChunk (w_job s4) = lastChunk (w_job st)).
  { unfold job_stable in Hst4. injection Hst4 as _ _ _ _ E _ _ _ _. now rewrite E. }
  assert (Hd : dstBuff (w_job (compressChunk_last c nb ip op (start d1 + size d1) s4)) = d1).
  { rewrite Hd5, Hd4, Hj3, Hj2. exact Hd1. }
  rewrite Hd. exists hdr, (full ++ data).
  assert (Hl : lastBlockSize (w_job s4) =
               if srcSize (w_job st) =? 0 then 0
               else if srcSize (w_job st) mod ZSTD_BLOCKSIZE_MAX =? 0 then ZSTD_BLOCKSIZE_MAX
                    else srcSize (w_job st) mod ZSTD_BLOCKSIZE_MAX).
  { rewrite <- Hsrc4. apply lastBlockSize_cases; [apply Hk|]. rewrite Hsrc4. exact Hn. }
  assert (Hc3 : cSize (w_job s3) = 0).
  { rewrite Hj3, Hj2, Hc1. exact Hc0. }
  split_and!.
  - rewrite Hlog5, Hlog4, Hlog3, Hlog2, Hlog1. subst st0. cbn [w_world].
    rewrite Hlog0, <- !app_assoc. reflexivity.
  - rewrite Hfirst in Hhdr.
    destruct (truthy (firstChunk (w_job st))); [exact Hhdr|].
    destruct Hhdr as [h Hh]. now exists c, h.
  - rewrite Hlast4 in Hdata.
    destruct ((nb >? 0) || truthy (lastChunk (w_job st))).
    + destruct Hdata as (e & -> & Es & En & Ed & Ec & _).
      apply consecutive_snoc; try assumption; try congruence;
        try (rewrite En, Hl; exact Hlastb).
    + destruct Hdata as (-> & _). rewrite app_nil_r. exact Hcons.
  - rewrite Hlast4 in Hdata. rewrite sum_of_app, Hsum.
    destruct ((nb >? 0) || truthy (lastChunk (w_job st))) eqn:Ecase.
    + destruct Hdata as (e & -> & Es & En & Ed & Ec & _).
      rewrite sum_of_cons. cbn [sum_of fold_right]. rewrite En, Hl. lia.
    + destruct Hdata as (-> & _). cbn [sum_of fold_right].
      apply orb_false_elim in Ecase as [Enb _]. specialize (Hnone Enb).
      rewrite Hnone in *. destruct (0 =? 0) eqn:E0 in Htot; [lia|discriminate].
  - rewrite Hlast4 in Hdata. rewrite sum_of_app.
    destruct ((nb >? 0) || truthy (lastChunk (w_job st))) eqn:Ecase.
    + destruct Hdata as (e & -> & Es & En & Ed & Ec & Hcs). rewrite Hcs.
      rewrite sum_of_cons. cbn [sum_of fold_right].
      rewrite <- size_t_add_l, HcS, Hc3, size_t_add_l. f_equal. lia.
    + destruct Hdata as (-> & Hcs). rewrite Hcs. cbn [sum_of fold_right].
      apply orb_false_elim in Ecase as [Enb _]. specialize (Hnone Enb).
      assert (Hz : Z.to_nat (nb - 1) = O).
      { subst nb. rewrite Hnone. cbn [Z.add]. rewrite Z.div_small by lia. reflexivity. }
      destruct (Hzero Hz) as [-> ->]. rewrite Hc3. reflexivity.
Qed.

End WorkerBlocks.

(** ** The orchestrator, from creation to failure *)

Section Creation.
Context {W : Type} `{ZSTD_constants} `{Sizeof} `{Allocator W} `{Compressor W} `{Hash}
  `{ThreadPool W} `{ThreadPoolAdmin W} `{Workers W}.

(** X8: ZSTDMT_createCCtx_advanced gives no context for fewer than one
    thread.  A context it gives is at rest (no job in flight, no worker,
    allJobsCompleted set) with the default parameters for the requested
    thread count clamped to 200; its job table is zeroed and has a power of
    two of slots, more than the requested thread count plus two and at most
    twice that; the buffer pool is empty with room for 2 * nbThreads + 3
    buffers, and the context pool holds one context that is not NULL. *)
Theorem createCCtx_advanced_result (n : Z) (m : mem) (w : W) :
  n + 2 < 2 ^ 31 ->
  (n < 1 -> ZSTDMT_createCCtx_advanced n m w = None) /\
  (forall s, ZSTDMT_createCCtx_advanced n m w = Some s ->
     let threads := Z.min n ZSTDMT_NBTHREADS_MAX in
     nbThreads (mt.params s) = threads /\
     overlapSizeLog (mt.params s) = ZSTDMT_OVERLAPLOG_DEFAULT /\
     jobSize (mt.params s) = 0 /\
     (exists k, 0 <= k < 32 /\ mt.jobIDMask s + 1 = 2 ^ k) /\
     n + 2 < mt.jobIDMask s + 1 <= 2 * (n + 2) /\
     Z.of_nat (length (mt.jobs s)) = mt.jobIDMask s + 1 /\
     (forall i : nat, mt.jobs s !!! i = zero_job) /\
     totalBuffers (mt.bufPool s) = 2 * threads + 3 /\
     nbBuffers (mt.bufPool s) = 0 /\
     totalCCtx (mt.cctxPool s) = threads /\
     availCCtx (mt.cctxPool s) = 1 /\
     cctx (mt.cctxPool s) !!! 0%nat <> NULL /\
     mt.factory s = [] /\ mt.doneJobID s = 0 /\ mt.nextJobID s = 0 /\
     mt.allJobsCompleted s = 1 /\ mt.singleBlockingThread s = 0 /\
     mt.memory s = m).
Proof.
  intros Hn. split.
  - intros Hlt. unfold ZSTDMT_createCCtx_advanced.
    destruct (n <? 1) eqn:E; [reflexivity|lia].
  - intros s. unfold ZSTDMT_createCCtx_advanced.
    destruct (n <? 1) eqn:E1; [discriminate|]. apply Z.ltb_ge in E1.
    destruct (ZSTD_calloc _ w) as [p w0].
    destruct (p =? NULL); [discriminate|].
    assert (Hmin : MIN n ZSTDMT_NBTHREADS_MAX = Z.min n ZSTDMT_NBTHREADS_MAX).
    { unfold MIN. destruct (n <? ZSTDMT_NBTHREADS_MAX) eqn:E; lia. }
    rewrite Hmin. set (threads := Z.min n ZSTDMT_NBTHREADS_MAX).
    assert (Ht : 1 <= threads <= 200) by (subst threads; unfold ZSTDMT_NBTHREADS_MAX; lia).
    assert (Hp : ZSTDMT_CCtxParam_setNbThreads zero_params threads
                 = (set_jobSize 0 (set_overlapSizeLog ZSTDMT_OVERLAPLOG_DEFAULT
                                     (set_nbThreads threads zero_params)), threads)).
    { unfold ZSTDMT_CCtxParam_setNbThreads, ZSTDMT_NBTHREADS_MAX.
      destruct (threads >? 200) eqn:Ea; [lia|].
      destruct (threads <? 1) eqn:Eb; [lia|]. reflexivity. }
    rewrite Hp.
    destruct (POOL_create_advanced _ _ _) as [ok w1].
    destruct (ZSTDMT_allocJobsTable _ _) as [[nj tbl] w2] eqn:Etab.
    unfold ZSTDMT_createBufferPool, ZSTDMT_createCCtxPool.
    destruct (ZSTD_calloc _ w2) as [pb w3].
    destruct (pb =? NULL).
    { destruct (ZSTD_calloc _ w3) as [pc w4].
      destruct (pc =? NULL); [|destruct (ZSTD_createCCtx_advanced w4) as [c w5];
                                destruct (c =? NULL)];
        destruct ok; try discriminate; destruct tbl as [[? ?]|]; discriminate. }
    destruct (ZSTD_calloc _ w3) as [pc w4].
    destruct (pc =? NULL).
    { destruct ok; try discriminate; destruct tbl as [[? ?]|]; discriminate. }
    destruct (ZSTD_createCCtx_advanced w4) as [c w5].
    destruct (c =? NULL) eqn:Ec.
    { destruct ok; try discriminate; destruct tbl as [[? ?]|]; discriminate. }
    destruct ok; [|discriminate]. destruct tbl as [[jp jobs]|]; [|discriminate].
    intros [= <-]. cbv zeta.
    rewrite (U32_small (n + 2)) in Etab by lia.
    apply allocJobsTable_ok in Etab; [|lia].
    destruct Etab as (Hjp & -> & -> & Hk & Hlt).
    set (k := Z.log2 (n + 2) + 1) in *.
    pose proof (pow2_pos k ltac:(lia)).
    assert (Hp2 : 2 ^ k <= 2 ^ 31) by (apply Z.pow_le_mono_r; lia).
    assert (Hm : U32 (2 ^ k - 1) + 1 = 2 ^ k) by (rewrite U32_small; lia).
    assert (Hup : 2 ^ k <= 2 * (n + 2)).
    { subst k. rewrite Z.pow_add_r by (try apply Z.log2_nonneg; lia).
      pose proof (Z.log2_spec (n + 2) ltac:(lia)). change (2 ^ 1) with 2. lia. }
    cbn [mt.params mt.jobIDMask mt.jobs mt.bufPool mt.cctxPool mt.factory mt.doneJobID
         mt.nextJobID mt.allJobsCompleted mt.singleBlockingThread mt.memory
         nbThreads overlapSizeLog jobSize set_jobSize set_overlapSizeLog set_nbThreads
         zero_params totalBuffers nbBuffers ZSTDMT_createBufferPool_init totalCCtx
         availCCtx cctx].
    rewrite Hm. split_and!; try reflexivity; try lia.
    + exists k. split; [lia|reflexivity].
    + rewrite length_replicate. lia.
    + intros i. destruct (decide (i < Z.to_nat (2 ^ k))%nat) as [Hi|Hi].
      * now apply lookup_total_replicate_2.
      * apply lookup_total_beyond. rewrite length_replicate. lia.
    + apply U32_small. lia.
    + cbn. apply Z.eqb_neq in Ec. exact Ec.
Qed.

End Creation.

Section Failures.
Context {W : Type} `{ZSTD_constants} `{Sizeof} `{Allocator W} `{Compressor W} `{Hash}
  `{ThreadPool W} `{ThreadPoolAdmin W} `{Workers W}.
Hypothesis cond_wait_rely : forall s : mt.t W, worker_rely s (ZSTD_pthread_cond_wait s).
Implicit Types s z : mt.t W.

(** X9: a disciplined run (jobs are only created while allJobsCompleted is
    clear and while nextJobID + jobIDMask + 1 < 2 ^ 32; the shortcut and
    the one-shot compression start on an empty ring and keep the job
    table) keeps the slots in order.  In each of its states, the jobs that
    the thread pool holds are jobs in flight (between doneJobID and
    nextJobID) that are not complete; a slot of the table that holds no job
    in flight has no destination buffer; a job that is marked complete has
    consumed all its input; and when allJobsCompleted is set, no job is in
    flight and no worker is left. *)
Theorem protocol_keeps_slots_discipline s :
  disciplined s ->
  (forall i : nat, In i (mt.factory s) ->
     in_window s i /\ (i < length (mt.jobs s))%nat /\ jobCompleted (mt.jobs s !!! i) = 0) /\
  (forall i : nat, (i < length (mt.jobs s))%nat -> ~ in_window s i ->
     start (dstBuff (mt.jobs s !!! i)) = NULL) /\
  (forall i : nat, jobCompleted (mt.jobs s !!! i) <> 0 ->
     consumed (mt.jobs s !!! i) = srcSize (mt.jobs s !!! i)) /\
  (mt.allJobsCompleted s <> 0 -> mt.doneJobID s = mt.nextJobID s /\ mt.factory s = []).
Proof.
  intros Hdisc. pose proof (disciplined_inv cond_wait_rely s Hdisc) as Hinv.
  pose proof Hinv as [Imask Itable Iorder Iring Iwrap Irun Iidle Icomp Iready Iflush].
  split_and!.
  - intros i Hi. destruct (Irun i Hi) as [Hw Hc]. split_and!; try assumption.
    destruct Hw as (id & _ & <-). apply slot_lt_length. exact Hinv.
  - intros i Hi Hw. now destruct (Iidle i Hi Hw).
  - intros i Hc. apply Icomp. unfold truthy.
    destruct (jobCompleted (mt.jobs s !!! i) =? 0) eqn:E; [|reflexivity].
    apply Z.eqb_eq in E. contradiction.
  - intros Ha. destruct (Iflush Ha) as [Heq _]. split; [exact Heq|].
    apply draining_no_workers; [now apply mt_inv_draining|lia].
Qed.

Lemma released_inBuff s :
  buffer (mt.inBuff (ZSTDMT_releaseAllJobResources s)) = g_nullBuffer.
Proof.
  unfold ZSTDMT_releaseAllJobResources.
  set (n := Z.to_nat (mt.jobIDMask s + 1)). clearbody n.
  set (s1 := releaseAllJobResources_loop n 0 s). clearbody s1.
  destruct (ZSTDMT_releaseBuffer _ _ _) as [bp w]. destruct s1; reflexivity.
Qed.

(** The state after the ring was drained and every resource released. *)
Lemma drained_and_released fuel z zw :
  draining z -> mt.doneJobID z <= mt.nextJobID z ->
  ZSTDMT_waitForAllJobsCompleted fuel z = Some zw ->
  let z' := ZSTDMT_releaseAllJobResources zw in
  mt_inv z' /\ mt.factory z' = [] /\
  mt.doneJobID z' = mt.nextJobID z /\ mt.nextJobID z' = mt.nextJobID z /\
  mt.jobIDMask z' = mt.jobIDMask z /\ mt.allJobsCompleted z' = 1 /\
  (forall i : nat, mt.jobs z' !!! i = zero_job) /\
  buffer (mt.inBuff z') = g_nullBuffer.
Proof.
  intros Hdr Hle Ew z'.
  destruct (waitForAll_drains cond_wait_rely fuel z zw Hdr Ew)
    as (Hdr' & Hf' & Hle' & Hd1 & _ & Hn' & Hm' & _).
  specialize (Hd1 Hle).
  destruct (releaseAll_inv zw Hdr' Hf') as (Hi' & Ed & En & Em & Ha & _ & _ & Hz);
    [congruence|].
  fold z' in Hi', Ed, En, Em, Ha, Hz.
  split_and!; try assumption; try congruence.
  - apply draining_no_workers; [now apply mt_inv_draining|]. rewrite Ed, En. lia.
  - apply released_inBuff.
Qed.

(** X10: on a context that satisfies the ring invariant [mt_inv], when
    the job at the head of the ring has completed with an error,
    ZSTDMT_flushProduced returns that error and writes nothing to the
    output; it has then waited for every job in flight and released every
    resource: the invariant holds again, no worker is left, doneJobID has
    caught up with nextJobID, the job table is zeroed, the input buffer is
    given back and allJobsCompleted is set. *)
Theorem flushProduced_reports_job_error s fuel output blockToFlush r s' output' :
  let head := job_at s (Z.land (mt.doneJobID s) (mt.jobIDMask s)) in
  mt_inv s ->
  jobCompleted head <> 0 ->
  ZSTD_isError (cSize head) = true ->
  ZSTDMT_flushProduced fuel s output blockToFlush = Some (r, s', output') ->
  r = cSize head /\ output' = output /\
  mt_inv s' /\ mt.factory s' = [] /\
  mt.doneJobID s' = mt.nextJobID s /\ mt.nextJobID s' = mt.nextJobID s /\
  mt.allJobsCompleted s' = 1 /\
  (forall i : nat, mt.jobs s' !!! i = zero_job) /\
  buffer (mt.inBuff s') = g_nullBuffer.
Proof.
  intros head Hinv Hdone Herr.
  unfold ZSTDMT_flushProduced.
  set (w := Z.land (mt.doneJobID s) (mt.jobIDMask s)) in *.
  destruct (flushProduced_wait fuel s w blockToFlush) as [z1|] eqn:Ewait; [|discriminate].
  apply (flushProduced_wait_rely cond_wait_rely) in Ewait.
  pose proof (mt_inv_rely _ _ Hinv Ewait) as Hinv1.
  pose proof (worker_rely_frame _ _ Ewait) as (Em & Ed & En & _).
  assert (Hsame : job_at z1 w = head).
  { destruct Ewait as (_ & _ & _ & Hout & _). apply Hout.
    intros Hin. destruct (inv_running s Hinv _ Hin) as [_ Hc]. contradiction. }
  rewrite Hsame, Herr.
  destruct (ZSTDMT_waitForAllJobsCompleted fuel z1) as [zw|] eqn:Edrain; [|discriminate].
  intros [= <- <- <-].
  pose proof (inv_order z1 Hinv1) as Ho.
  destruct (drained_and_released fuel z1 zw (mt_inv_draining _ Hinv1) ltac:(lia) Edrain)
    as (Hi' & Hf & Hd' & Hn' & _ & Ha & Hz & Hb).
  split_and!; try assumption; try reflexivity; congruence.
Qed.

(** X11: on a context that satisfies the ring invariant [mt_inv] and
    whose job counter is not at its end (nextJobID + jobIDMask + 1 <
    2 ^ 32), the only non-zero value that ZSTDMT_createCompressionJob
    returns is memory_allocation, when no buffer could be had for the next
    input.  The job that was being prepared is counted and dropped: the
    function has waited for every job in flight and released every
    resource, so that the invariant holds again, no worker is left,
    doneJobID equals nextJobID, which is one more than before, the job
    table is zeroed and allJobsCompleted is set. *)
Theorem createCompressionJob_error_resets s fuel srcSize endFrame r s' :
  mt_inv s ->
  mt.nextJobID s + mt.jobIDMask s + 1 < 2 ^ 32 ->
  ZSTDMT_createCompressionJob fuel s srcSize endFrame = Some (r, s') ->
  r <> 0 ->
  r = ERROR memory_allocation /\ truthy endFrame = false /\
  truthy (mt.jobReady s) = false /\
  mt_inv s' /\ mt.factory s' = [] /\
  mt.doneJobID s' = mt.nextJobID s + 1 /\ mt.nextJobID s' = mt.nextJobID s + 1 /\
  mt.allJobsCompleted s' = 1 /\
  (forall i : nat, mt.jobs s' !!! i = zero_job) /\
  buffer (mt.inBuff s') = g_nullBuffer.
Proof.
  intros Hinv Hwrap.
  unfold ZSTDMT_createCompressionJob.
  destruct (mt.nextJobID s >? U32 (mt.doneJobID s + mt.jobIDMask s)) eqn:Eg.
  { intros [= <- <-] Hr. contradiction. }
  pose proof (guard_room s Hinv Eg) as Hroom.
  destruct (truthy (mt.jobReady s)) eqn:Er; cbn [negb].
  { intros [= Hpost] Hr. exfalso. apply Hr.
    pose proof (f_equal fst Hpost) as Hp. rewrite post_ret in Hp. now symmetry. }
  destruct (createCompressionJob_prepare _ _ _ _ _) as [[[r0 z0]|z1]|] eqn:Eprep;
    [| |discriminate].
  - intros [= <- <-] _.
    pose proof (next_slot_idle s Hinv Hroom) as Hfree.
    pose proof (slot_lt_length s (mt.nextJobID s) Hinv) as Hlt.
    assert (Hend : truthy endFrame = false /\ r0 = ERROR memory_allocation).
    { revert Eprep. unfold createCompressionJob_prepare.
      destruct (truthy endFrame); cbn [negb].
      - match goal with |- context [if ?c then _ else _] => destruct c end; discriminate.
      - destruct (ZSTDMT_getBuffer _ _) as [[b bp] w0].
        match goal with |- context [if ?c then _ else _] => destruct c end; [|discriminate].
        destruct (ZSTDMT_waitForAllJobsCompleted _ _); [|discriminate].
        intros [= <- _]. now split. }
    destruct Hend as [Hend ->].
    apply prepare_inl_ring in Eprep; [|assumption].
    destruct Eprep as (zf & zw & Ew & -> & Ej & Ef & Ep & Em & Ed & En & Erdy).
    pose proof Hinv as [Imask Itable Iorder Iring Iwrap Irun Iidle Icomp Iready Iflush].
    assert (Hn : U32 (mt.nextJobID s + 1) = mt.nextJobID s + 1).
    { destruct Imask as (k & Hk & Hm). pose proof (pow2_pos k ltac:(lia)).
      rewrite Hm, Z.ones_equiv in *. apply U32_small. lia. }
    rewrite Hn in En.
    assert (Hdr : draining zf).
    { unfold draining. rewrite Em, Ed, En, Ep, Ef, Ej, length_insert.
      split_and!; auto; try lia.
      intros i Hi. destruct (Irun i Hi) as [Hw Hc]. split.
      - eapply in_window_grow; eauto.
      - rewrite list_lookup_total_insert_ne; [assumption|].
        intros <-. contradiction. }
    destruct (drained_and_released fuel zf zw Hdr ltac:(lia) Ew)
      as (Hi' & Hf & Hd' & Hn' & _ & Ha & Hz & Hb).
    split_and!; try assumption; try reflexivity; congruence.
  - intros [= Hpost] Hr. exfalso. apply Hr.
    pose proof (f_equal fst Hpost) as Hp. rewrite post_ret in Hp. now symmetry.
Qed.

End Failures.

(** ** Starting a frame *)

Lemma jobSize_set_jobSize v p : jobSize (set_jobSize v p) = v.
Proof. now destruct p. Qed.

Lemma set_jobSize_others v p :
  cParams (set_jobSize v p) = cParams p /\ fParams (set_jobSize v p) = fParams p /\
  overlapSizeLog (set_jobSize v p) = overlapSizeLog p /\
  nbThreads (set_jobSize v p) = nbThreads p.
Proof. now destruct p. Qed.

(** The job size that [ZSTDMT_initCStream_internal] settles on. *)
Lemma initCStream_jobSize_spec (p : ZSTD_CCtx_params) :
  0 <= windowLog (cParams p) -> 0 <= jobSize p ->
  let p' := initCStream_jobSize p in
  cParams p' = cParams p /\ fParams p' = fParams p /\
  overlapSizeLog p' = overlapSizeLog p /\ nbThreads p' = nbThreads p /\
  0 < jobSize p' <= ZSTDMT_JOBSIZE_MAX /\
  (jobSize p <> 0 -> jobSize p' = Z.min (jobSize p) ZSTDMT_JOBSIZE_MAX) /\
  (jobSize p = 0 ->
   jobSize p' = if windowLog (cParams p) >=? 29 then ZSTDMT_JOBSIZE_MAX
                else 2 ^ (windowLog (cParams p) + 2)).
Proof.
  intros Hw Hj p'. subst p'. unfold initCStream_jobSize.
  assert (HM : ZSTDMT_JOBSIZE_MAX = 2 ^ 31) by reflexivity.
  destruct (jobSize p =? 0) eqn:E0.
  - apply Z.eqb_eq in E0. destruct (windowLog (cParams p) >=? 29) eqn:Ew.
    + rewrite jobSize_set_jobSize.
      destruct (ZSTDMT_JOBSIZE_MAX >? ZSTDMT_JOBSIZE_MAX) eqn:E; [lia|].
      rewrite jobSize_set_jobSize.
      destruct (set_jobSize_others ZSTDMT_JOBSIZE_MAX p) as (-> & -> & -> & ->).
      split_and!; try reflexivity; try lia.
    + assert (Hlt : windowLog (cParams p) < 29) by lia.
      rewrite (U32_small (windowLog (cParams p) + 2)) by lia.
      rewrite Z.shiftl_1_l.
      assert (Hp : 0 < 2 ^ (windowLog (cParams p) + 2) <= 2 ^ 30).
      { split; [apply Z.pow_pos_nonneg; lia|apply Z.pow_le_mono_r; lia]. }
      rewrite U32_small by lia.
      rewrite jobSize_set_jobSize.
      destruct (2 ^ (windowLog (cParams p) + 2) >? ZSTDMT_JOBSIZE_MAX) eqn:E; [lia|].
      rewrite jobSize_set_jobSize.
      destruct (set_jobSize_others (2 ^ (windowLog (cParams p) + 2)) p) as (-> & -> & -> & ->).
      split_and!; try reflexivity; try lia.
  - apply Z.eqb_neq in E0.
    destruct (jobSize p >? ZSTDMT_JOBSIZE_MAX) eqn:E.
    + rewrite jobSize_set_jobSize.
      destruct (set_jobSize_others ZSTDMT_JOBSIZE_MAX p) as (-> & -> & -> & ->).
      split_and!; try reflexivity; try lia.
    + split_and!; try reflexivity; try lia.
Qed.

Section Settings.
Context {W : Type} `{ZSTD_constants} `{Sizeof} `{Allocator W} `{Compressor W} `{Hash}
  `{ThreadPool W} `{ThreadPoolAdmin W} `{Workers W}.
Hypothesis cond_wait_rely : forall s : mt.t W, worker_rely s (ZSTD_pthread_cond_wait s).
Implicit Types s z : mt.t W.

Lemma rely_settings s s' : worker_rely s s' -> settings_view s' = settings_view s.
Proof. intros (E & _). rewrite E. destruct s; reflexivity. Qed.

Lemma waitForAll_loop_settings fuel n : forall s s',
  waitForAllJobsCompleted_loop fuel n s = Some s' -> settings_view s' = settings_view s.
Proof.
  induction n as [|n IH]; intros s s'; cbn [waitForAllJobsCompleted_loop].
  - now intros [= <-].
  - destruct (mt.doneJobID s <? mt.nextJobID s); [|now intros [= <-]].
    destruct (wait_while _ _ _) as [s1|] eqn:Ew; [|discriminate].
    apply (wait_while_rely cond_wait_rely) in Ew as [Hr _].
    intros Hrec. apply IH in Hrec. rewrite Hrec, <- (rely_settings _ _ Hr).
    destruct s1; reflexivity.
Qed.

Lemma waitForAll_settings fuel s s' :
  ZSTDMT_waitForAllJobsCompleted fuel s = Some s' -> settings_view s' = settings_view s.
Proof. apply waitForAll_loop_settings. Qed.

Lemma releaseAll_loop_settings n : forall jobID s,
  settings_view (releaseAllJobResources_loop n jobID s) = settings_view s.
Proof.
  induction n as [|n IH]; intros jobID s; cbn [releaseAllJobResources_loop].
  - reflexivity.
  - destruct (ZSTDMT_releaseBuffer _ _ _) as [bp w].
    destruct (ZSTDMT_releaseBuffer (mt.bufPool _) _ _) as [bp' w'].
    rewrite IH. destruct s; reflexivity.
Qed.

Lemma releaseAll_settings s :
  settings_view (ZSTDMT_releaseAllJobResources s) = settings_view s.
Proof.
  unfold ZSTDMT_releaseAllJobResources.
  set (n := Z.to_nat (mt.jobIDMask s + 1)). clearbody n.
  rewrite <- (releaseAll_loop_settings n 0 s).
  set (s1 := releaseAllJobResources_loop n 0 s). clearbody s1.
  destruct (ZSTDMT_releaseBuffer _ _ _) as [bp w]. destruct s1; reflexivity.
Qed.

(** The state that a multi-threaded [ZSTDMT_initCStream_internal] leaves. *)
Lemma init_multithread fuel z dict dictSize dictMode cdict0 params pledged r z' :
  ZSTDMT_JOBSIZE_MIN < pledged ->
  ZSTDMT_initCStream_internal fuel z dict dictSize dictMode cdict0 params pledged
    = Some (r, z') ->
  let p := initCStream_jobSize params in
  let prefix :=
    if overlapSizeLog p =? 0 then 0
    else size_t (Z.shiftl 1 (U32 (windowLog (cParams p) - U32 (9 - overlapSizeLog p)))) in
  let wanted := if jobSize p <? ZSTDMT_JOBSIZE_MIN then ZSTDMT_JOBSIZE_MIN else jobSize p in
  let section := if wanted <? prefix then prefix else wanted in
  mt.singleBlockingThread z' = 0 /\
  ((r = ERROR memory_allocation /\ truthy dict = true) \/
   (r = 0 /\ mt.params z' = p /\
    mt.targetPrefixSize z' = prefix /\ mt.targetSectionSize z' = section /\
    mt.inBuffSize z' = size_t (prefix + section) /\
    bufferSize (mt.bufPool z') = MAX (size_t (prefix + section)) (ZSTD_compressBound section) /\
    mt.doneJobID z' = 0 /\ mt.nextJobID z' = 0 /\ mt.frameEnded z' = 0 /\
    mt.allJobsCompleted z' = 0 /\ mt.consumed z' = 0 /\ mt.produced z' = 0 /\
    mt.prefixSize z' = 0 /\ buffer (mt.inBuff z') = g_nullBuffer /\
    mt.frameContentSize z' = pledged /\
    (if truthy dict then mt.cdict z' = mt.cdictLocal z' /\ mt.cdictLocal z' <> NULL
     else mt.cdict z' = cdict0 /\ mt.cdictLocal z' = NULL))).
Proof.
  intros Hmt. unfold ZSTDMT_initCStream_internal.
  assert (Hle : (pledged <=? ZSTDMT_JOBSIZE_MIN) = false) by (apply Z.leb_gt; lia).
  rewrite Hle.
  set (z0 := mt.set_singleBlockingThread (c_bool false) z).
  assert (Hs0 : mt.singleBlockingThread z0 = 0) by (subst z0; destruct z; reflexivity).
  clearbody z0. rewrite Hs0. cbn [truthy Z.eqb negb].
  match goal with |- match ?c with _ => _ end = _ -> _ =>
    assert (Hc : match c with
                 | Some zc => mt.singleBlockingThread zc = 0
                 | None => True
                 end);
    [|destruct c as [zc|]; [|discriminate]]
  end.
  { destruct (mt.allJobsCompleted z0 =? 0).
    - destruct (ZSTDMT_waitForAllJobsCompleted fuel z0) as [zw|] eqn:Ew; [|exact I].
      apply waitForAll_settings in Ew.
      pose proof (releaseAll_settings zw) as Hr. rewrite Ew in Hr.
      set (zr := ZSTDMT_releaseAllJobResources zw) in *. clearbody zr.
      unfold settings_view in Hr. injection Hr as _ _ _ _ _ _ Hr _ _ _ _ _ _.
      destruct zr; cbn in *. congruence.
    - exact Hs0. }
  set (p := initCStream_jobSize params). clearbody p.
  destruct zc; cbn in *.
  destruct (truthy dict); cbn.
  - destruct (ZSTD_createCDict_advanced _ _ _ _ _ _) as [cd w1]; cbn.
    destruct (cd =? NULL) eqn:Ecd; cbn.
    + intros [= <- <-]. split; [assumption|]. left. now split.
    + apply Z.eqb_neq in Ecd.
      destruct (overlapSizeLog p =? 0); cbn;
        destruct (jobSize p <? ZSTDMT_JOBSIZE_MIN); cbn;
        repeat match goal with |- context [if ?c then _ else _] => destruct c; cbn end;
        intros [= <- <-]; (split; [assumption|]); right; cbn; now split_and!.
  - destruct (overlapSizeLog p =? 0); cbn;
      destruct (jobSize p <? ZSTDMT_JOBSIZE_MIN); cbn;
      repeat match goal with |- context [if ?c then _ else _] => destruct c; cbn end;
      intros [= <- <-]; (split; [assumption|]); right; cbn; now split_and!.
Qed.

Lemma initCStream_jobSize_others (p : ZSTD_CCtx_params) :
  cParams (initCStream_jobSize p) = cParams p /\
  fParams (initCStream_jobSize p) = fParams p /\
  overlapSizeLog (initCStream_jobSize p) = overlapSizeLog p /\
  nbThreads (initCStream_jobSize p) = nbThreads p.
Proof.
  unfold initCStream_jobSize.
  repeat match goal with |- context [if ?c then _ else _] => destruct c end;
    destruct p; now split_and!.
Qed.

Lemma error_not_zero e : ERROR e <> 0.
Proof. destruct e; vm_compute; discriminate. Qed.

(** X12: a call of ZSTDMT_initCStream_internal for more than
    ZSTDMT_JOBSIZE_MIN pledged bytes that returns 0 leaves the context in
    multi-threaded mode at the start of a frame: the job counters, the
    progress counters and the prefix are 0, no input buffer is held and
    the two end flags are clear.  The job size it keeps is positive and at
    most ZSTDMT_JOBSIZE_MAX; the section size is the largest of that job
    size, ZSTDMT_JOBSIZE_MIN and the prefix size; the input buffer size is
    the sum of prefix and section sizes; and the buffers of the pool are
    sized for the larger of the input buffer and the bound of a compressed
    section. *)
Theorem initCStream_multithread_sizes fuel z dict dictSize dictMode cdict0 params pledged z' :
  ZSTDMT_JOBSIZE_MIN < pledged ->
  0 <= windowLog (cParams params) -> 0 <= jobSize params ->
  ZSTDMT_initCStream_internal fuel z dict dictSize dictMode cdict0 params pledged
    = Some (0, z') ->
  mt.singleBlockingThread z' = 0 /\
  0 < jobSize (mt.params z') <= ZSTDMT_JOBSIZE_MAX /\
  mt.targetSectionSize z' =
    Z.max (Z.max (jobSize (mt.params z')) ZSTDMT_JOBSIZE_MIN) (mt.targetPrefixSize z') /\
  mt.inBuffSize z' = size_t (mt.targetPrefixSize z' + mt.targetSectionSize z') /\
  bufferSize (mt.bufPool z') =
    Z.max (mt.inBuffSize z') (ZSTD_compressBound (mt.targetSectionSize z')) /\
  mt.doneJobID z' = 0 /\ mt.nextJobID z' = 0 /\
  mt.frameEnded z' = 0 /\ mt.allJobsCompleted z' = 0 /\
  mt.consumed z' = 0 /\ mt.produced z' = 0 /\ mt.prefixSize z' = 0 /\
  buffer (mt.inBuff z') = g_nullBuffer /\ mt.frameContentSize z' = pledged.
Proof.
  intros Hmt Hw Hj Hinit.
  destruct (init_multithread _ _ _ _ _ _ _ _ _ _ Hmt Hinit) as [Hs [[Hr _]|Hok]].
  { symmetry in Hr. now apply error_not_zero in Hr. }
  destruct Hok as (_ & Hp & Hpre & Hsec & Hin & Hbuf & Hd & Hn & Hf & Ha & Hc & Hpr & Hps & Hb
                   & Hfc & _).
  destruct (initCStream_jobSize_spec params Hw Hj) as (_ & _ & _ & _ & Hjs & _).
  cbv zeta in Hjs. rewrite <- Hp in Hjs.
  rewrite <- Hpre in Hsec, Hin, Hbuf. rewrite <- Hsec in Hin, Hbuf. rewrite <- Hin in Hbuf.
  rewrite <- Hp in Hsec.
  split_and!; try assumption; try apply Hjs.
  - rewrite Hsec.
    destruct (jobSize (mt.params z') <? ZSTDMT_JOBSIZE_MIN) eqn:E1;
    match goal with |- context [if ?a <? ?b then _ else _] =>
      destruct (a <? b) eqn:E2 end; lia.
  - rewrite Hbuf. unfold MAX. match goal with |- context [if ?a >? ?b then _ else _] =>
      destruct (a >? b) eqn:E1 end; lia.
Qed.

(** X13: with an overlap log between 0 and 9, the prefix size that a
    multi-threaded ZSTDMT_initCStream_internal sets for the stream is the
    overlap size that the one-shot compression computes from the
    parameters the context keeps. *)
Theorem streaming_prefix_is_oneshot_overlap fuel z dict dictSize dictMode cdict0 params
    pledged z' :
  ZSTDMT_JOBSIZE_MIN < pledged ->
  0 <= overlapSizeLog params <= 9 ->
  ZSTDMT_initCStream_internal fuel z dict dictSize dictMode cdict0 params pledged
    = Some (0, z') ->
  mt.targetPrefixSize z' = overlapSize (mt.params z') /\
  (overlapSizeLog params = 0 -> mt.targetPrefixSize z' = 0).
Proof.
  intros Hmt Hlog Hinit.
  destruct (init_multithread _ _ _ _ _ _ _ _ _ _ Hmt Hinit) as [Hs [[Hr _]|Hok]].
  { symmetry in Hr. now apply error_not_zero in Hr. }
  destruct Hok as (_ & Hp & Hpre & _).
  destruct (initCStream_jobSize_others params) as (Hc & _ & Ho & _).
  rewrite Hpre, Hp. unfold overlapSize, overlapRLog. rewrite Ho.
  destruct (overlapSizeLog params >? 9) eqn:E9; [lia|].
  rewrite (U32_small (9 - overlapSizeLog params)) by lia.
  destruct (overlapSizeLog params =? 0) eqn:E0.
  - apply Z.eqb_eq in E0. rewrite E0. cbn. now split.
  - apply Z.eqb_neq in E0.
    destruct (9 - overlapSizeLog params >=? 9) eqn:E; [lia|]. split; [reflexivity|lia].
Qed.

End Settings.

Section SmallInput.
Context {W : Type} `{ZSTD_constants} `{Sizeof} `{Allocator W} `{Compressor W} `{Hash}
  `{ThreadPool W} `{ThreadPoolAdmin W} `{Workers W}.
Implicit Types s z : mt.t W.

(** X14: for ZSTDMT_JOBSIZE_MIN pledged bytes at most,
    ZSTDMT_initCStream_internal returns without waiting for anything: it
    sets singleBlockingThread, hands the initialisation to the inner
    compressor on the first context of the pool and returns its result; the
    jobs, the ring, the pools and even the parameters of the context are
    left as they were.  ZSTDMT_compressStream_generic on the resulting
    context hands the call to the inner compressor as well. *)
Theorem initCStream_small_input_is_delegated fuel z dict dictSize dictMode cdict0 params
    pledged :
  pledged <= ZSTDMT_JOBSIZE_MIN ->
  let inner :=
    ZSTD_initCStream_internal (cctx (mt.cctxPool z) !!! 0%nat) dict dictSize cdict0
      (ZSTDMT_initJobCCtxParams (initCStream_jobSize params)) pledged
      (mt.memory z) (mt.world z) in
  let z' := mt.set_world (snd inner) (mt.set_singleBlockingThread 1 z) in
  ZSTDMT_initCStream_internal fuel z dict dictSize dictMode cdict0 params pledged
    = Some (fst inner, z') /\
  mt.singleBlockingThread z' = 1 /\
  ring_view z' = ring_view z /\ mt.jobs z' = mt.jobs z /\ mt.params z' = mt.params z /\
  mt.bufPool z' = mt.bufPool z /\ mt.cctxPool z' = mt.cctxPool z /\
  mt.memory z' = mt.memory z /\
  forall fuel' output input endOp,
    ZSTDMT_compressStream_generic fuel' z' output input endOp =
      let '(r, output', input', m, w) :=
        ZSTD_compressStream_generic (cctx (mt.cctxPool z) !!! 0%nat) output input endOp
          (mt.memory z) (snd inner) in
      Some (r, mt.set_world w (mt.set_memory m z'), output', input').
Proof.
  intros Hle inner z'.
  assert (Hl : (pledged <=? ZSTDMT_JOBSIZE_MIN) = true) by (apply Z.leb_le; lia).
  split_and!.
  - unfold ZSTDMT_initCStream_internal. rewrite Hl.
    assert (Hs : mt.singleBlockingThread (mt.set_singleBlockingThread (c_bool true) z) = 1)
      by (destruct z; reflexivity).
    rewrite Hs. cbn [truthy Z.eqb negb]. subst z' inner.
    destruct z; cbn.
    destruct (ZSTD_initCStream_internal _ _ _ _ _ _ _ _) as [r w]. reflexivity.
  - subst z'. destruct z; reflexivity.
  - subst z'. destruct z; reflexivity.
  - subst z'. destruct z; reflexivity.
  - subst z'. destruct z; reflexivity.
  - subst z'. destruct z; reflexivity.
  - subst z'. destruct z; reflexivity.
  - subst z'. destruct z; reflexivity.
  - intros fuel' output input endOp. unfold ZSTDMT_compressStream_generic.
    assert (Hs : mt.singleBlockingThread z' = 1) by (subst z'; destruct z; reflexivity).
    rewrite Hs. cbn [truthy Z.eqb negb].
    replace (mt.cctxPool z') with (mt.cctxPool z) by (subst z'; destruct z; reflexivity).
    replace (mt.memory z') with (mt.memory z) by (subst z'; destruct z; reflexivity).
    replace (mt.world z') with (snd inner) by (subst z'; destruct z; reflexivity).
    reflexivity.
Qed.

End SmallInput.

Section EntryPointFacts.
Context {W : Type} `{ZSTD_constants} `{Sizeof} `{Allocator W} `{Compressor W} `{Hash}
  `{ThreadPool W} `{ThreadPoolAdmin W} `{Workers W} `{ParameterTables W}.
Hypothesis cond_wait_rely : forall s : mt.t W, worker_rely s (ZSTD_pthread_cond_wait s).
Implicit Types s z : mt.t W.

Lemma set_cf_params c f p :
  cParams (set_fParams f (set_cParams c p)) = c /\
  fParams (set_fParams f (set_cParams c p)) = f /\
  jobSize (set_fParams f (set_cParams c p)) = jobSize p /\
  overlapSizeLog (set_fParams f (set_cParams c p)) = overlapSizeLog p /\
  nbThreads (set_fParams f (set_cParams c p)) = nbThreads p.
Proof. now destruct p. Qed.

(** X15: ZSTDMT_initCStream_usingCDict refuses a NULL dictionary with
    dictionary_wrong and leaves the context as it was.  With a dictionary
    and more than ZSTDMT_JOBSIZE_MIN pledged bytes it returns 0; the
    context then refers to the caller's dictionary and owns no dictionary
    of its own, its compression parameters are those of the dictionary and
    its frame parameters those of the call, while the thread count and the
    overlap log are those it had. *)
Theorem initCStream_usingCDict_result fuel z cdict0 fParams0 pledged :
  (cdict0 = NULL ->
   ZSTDMT_initCStream_usingCDict fuel z cdict0 fParams0 pledged
     = Some (ERROR dictionary_wrong, z)) /\
  (forall r z',
     cdict0 <> NULL -> ZSTDMT_JOBSIZE_MIN < pledged ->
     ZSTDMT_initCStream_usingCDict fuel z cdict0 fParams0 pledged = Some (r, z') ->
     r = 0 /\ mt.cdict z' = cdict0 /\ mt.cdictLocal z' = NULL /\
     cParams (mt.params z') = ZSTD_getCParamsFromCDict cdict0 (mt.memory z) (mt.world z) /\
     fParams (mt.params z') = fParams0 /\
     nbThreads (mt.params z') = nbThreads (mt.params z) /\
     overlapSizeLog (mt.params z') = overlapSizeLog (mt.params z)).
Proof.
  split.
  - intros ->. reflexivity.
  - intros r z' Hc Hmt. unfold ZSTDMT_initCStream_usingCDict.
    destruct (cdict0 =? NULL) eqn:E; [apply Z.eqb_eq in E; contradiction|].
    intros Hinit.
    destruct (init_multithread cond_wait_rely _ _ _ _ _ _ _ _ _ _ Hmt Hinit) as [Hs [[_ Hd]|Hok]].
    { discriminate Hd. }
    destruct Hok as (-> & Hp & _ & _ & _ & _ & _ & _ & _ & _ & _ & _ & _ & _ & _ & Hcd).
    cbn in Hcd. destruct Hcd as [Hcd Hcl].
    destruct (initCStream_jobSize_others
                (set_fParams fParams0
                   (set_cParams (ZSTD_getCParamsFromCDict cdict0 (mt.memory z) (mt.world z))
                      (mt.params z)))) as (E1 & E2 & E3 & E4).
    destruct (set_cf_params (ZSTD_getCParamsFromCDict cdict0 (mt.memory z) (mt.world z))
                fParams0 (mt.params z)) as (F1 & F2 & _ & F4 & F5).
    rewrite Hp. split_and!; try assumption; try reflexivity; congruence.
Qed.

(** X16: a job size set with ZSTDMT_setMTCtxParameter is kept by the
    ZSTDMT_initCStream that follows: the stream starts in multi-threaded
    mode with that job size, raised to ZSTDMT_JOBSIZE_MIN and capped at
    ZSTDMT_JOBSIZE_MAX, and its sections have that size unless the prefix is
    larger; the thread count and the overlap log of the context are kept,
    and the compression parameters are those of the level. *)
Theorem jobSize_parameter_reaches_stream fuel z value level r z' :
  0 < value < 2 ^ 32 ->
  0 <= ZSTDMT_JOBSIZE_MIN <= ZSTDMT_JOBSIZE_MAX ->
  ZSTDMT_JOBSIZE_MIN < ZSTD_CONTENTSIZE_UNKNOWN ->
  ZSTDMT_initCStream fuel (snd (ZSTDMT_setMTCtxParameter z ZSTDMT_p_jobSize value)) level
    = Some (r, z') ->
  r = 0 /\ mt.singleBlockingThread z' = 0 /\
  jobSize (mt.params z') = Z.min (Z.max value ZSTDMT_JOBSIZE_MIN) ZSTDMT_JOBSIZE_MAX /\
  mt.targetSectionSize z' = Z.max (jobSize (mt.params z')) (mt.targetPrefixSize z') /\
  nbThreads (mt.params z') = nbThreads (mt.params z) /\
  overlapSizeLog (mt.params z') = overlapSizeLog (mt.params z) /\
  cParams (mt.params z') = p_cParams (ZSTD_getParams level ZSTD_CONTENTSIZE_UNKNOWN 0).
Proof.
  intros Hv Hm Hmt. unfold ZSTDMT_initCStream. intros Hinit.
  destruct (init_multithread cond_wait_rely _ _ _ _ _ _ _ _ _ _ Hmt Hinit) as [Hs [[_ Hd]|Hok]].
  { discriminate Hd. }
  destruct Hok as (-> & Hp & Hpre & Hsec & _).
  set (q := ZSTD_getParams level ZSTD_CONTENTSIZE_UNKNOWN 0) in *.
  assert (Hz1 : mt.params (snd (ZSTDMT_setMTCtxParameter z ZSTDMT_p_jobSize value))
                = set_jobSize (Z.max value ZSTDMT_JOBSIZE_MIN) (mt.params z)).
  { cbn. assert (HJ : ZSTDMT_JOBSIZE_MAX = 2 ^ 31) by reflexivity.
    destruct (value >? 0) eqn:E1; [|lia].
    destruct (value <? ZSTDMT_JOBSIZE_MIN) eqn:E2; cbn.
    - rewrite U32_small by lia.
      replace (Z.max value ZSTDMT_JOBSIZE_MIN) with ZSTDMT_JOBSIZE_MIN by lia.
      destruct z; reflexivity.
    - replace (Z.max value ZSTDMT_JOBSIZE_MIN) with value by lia.
      destruct z; reflexivity. }
  rewrite Hz1 in *.
  set (p0 := set_fParams (p_fParams q) (set_cParams (p_cParams q)
               (set_jobSize (Z.max value ZSTDMT_JOBSIZE_MIN) (mt.params z)))) in *.
  assert (Hj0 : jobSize p0 = Z.max value ZSTDMT_JOBSIZE_MIN).
  { subst p0. destruct (mt.params z); reflexivity. }
  assert (Hothers : cParams p0 = p_cParams q /\ nbThreads p0 = nbThreads (mt.params z) /\
                    overlapSizeLog p0 = overlapSizeLog (mt.params z)).
  { subst p0. destruct (mt.params z); now split_and!. }
  destruct Hothers as (Hc0 & Hn0 & Ho0).
  destruct (initCStream_jobSize_others p0) as (E1 & E2 & E3 & E4).
  assert (Hjs : jobSize (initCStream_jobSize p0)
                = Z.min (Z.max value ZSTDMT_JOBSIZE_MIN) ZSTDMT_JOBSIZE_MAX).
  { unfold initCStream_jobSize. cbv zeta. rewrite Hj0.
    destruct (Z.max value ZSTDMT_JOBSIZE_MIN =? 0) eqn:E0; [lia|]. rewrite Hj0.
    destruct (Z.max value ZSTDMT_JOBSIZE_MIN >? ZSTDMT_JOBSIZE_MAX) eqn:Eg.
    - rewrite jobSize_set_jobSize. lia.
    - rewrite Hj0. lia. }
  rewrite <- Hpre in Hsec. rewrite Hjs in Hsec. rewrite Hp, Hjs.
  split_and!; try assumption; try reflexivity; try congruence.
  rewrite Hsec.
  destruct (Z.min (Z.max value ZSTDMT_JOBSIZE_MIN) ZSTDMT_JOBSIZE_MAX <? ZSTDMT_JOBSIZE_MIN)
    eqn:Ea; [lia|].
  match goal with |- context [if ?a <? ?b then _ else _] => destruct (a <? b) eqn:Eb end; lia.
Qed.

End EntryPointFacts.

(** ** The bytes that go in and come out *)

Lemma memcpy_inside (m : mem) (dst src n k : Z) :
  0 <= k < n -> memcpy m dst src n (dst + k) = m (src + k).
Proof.
  intros Hk. unfold memcpy, memmove.
  destruct ((dst <=? dst + k) && (dst + k <? dst + n)) eqn:E.
  - f_equal. lia.
  - apply andb_false_iff in E as [E|E]; lia.
Qed.

Lemma MIN_min a b : MIN a b = Z.min a b.
Proof. unfold MIN. destruct (a <? b) eqn:E; lia. Qed.

Section Bytes.
Context {W : Type} `{ZSTD_constants} `{Sizeof} `{Allocator W} `{Compressor W} `{Hash}
  `{ThreadPool W} `{ThreadPoolAdmin W} `{Workers W}.
Implicit Types s z : mt.t W.

(** X17: when no prepared job is waiting and input is left, the fill stage
    of ZSTDMT_compressStream_generic loads as many bytes as the input has
    and the input buffer has room for, into a buffer that it first takes
    from the pool if the context holds none (loading nothing if none can be
    had).  The bytes are copied as they are behind the bytes already
    buffered, the input position and the fill count move by the number of
    bytes loaded, nothing else in memory changes, and an end directive is
    turned into a flush when input remains. *)
Theorem compressStream_fill_loads z input endOp z' input' progress endOp' :
  truthy (mt.jobReady z) = false ->
  0 <= i_pos input < i_size input -> i_size input < 2 ^ 64 ->
  0 <= mt.inBuffSize z < 2 ^ 64 ->
  (start (buffer (mt.inBuff z)) <> NULL -> 0 <= filled (mt.inBuff z) <= mt.inBuffSize z) ->
  compressStream_fill z input endOp = inr (z', input', progress, endOp') ->
  let b := buffer (mt.inBuff z') in
  let before := if start (buffer (mt.inBuff z)) =? NULL then 0 else filled (mt.inBuff z) in
  let toLoad := if start b =? NULL then 0
                else Z.min (i_size input - i_pos input) (mt.inBuffSize z - before) in
  (start (buffer (mt.inBuff z)) <> NULL -> b = buffer (mt.inBuff z)) /\
  input' = set_i_pos (i_pos input + toLoad) input /\
  filled (mt.inBuff z') = before + toLoad /\
  progress = c_bool (toLoad >? 0) /\
  (forall k, 0 <= k < toLoad ->
     mt.memory z' (start b + before + k) = mt.memory z (i_src input + i_pos input + k)) /\
  (forall a, ~ (start b + before <= a < start b + before + toLoad) ->
     mt.memory z' a = mt.memory z a) /\
  endOp' = (if (i_pos input' <? i_size input') && endOp_eqb endOp ZSTD_e_end
            then ZSTD_e_flush else endOp).
Proof.
  intros Hr Hpos Hsz Hbs Hfill. unfold compressStream_fill.
  rewrite Hr. cbn [negb andb].
  destruct (i_size input >? i_pos input) eqn:Ein; [|lia].
  destruct input as [isrc isize ipos]. cbn [i_src i_size i_pos] in *.
  destruct (start (buffer (mt.inBuff z)) =? NULL) eqn:Es.
  - destruct (ZSTDMT_getBuffer _ _) as [[b0 bp] w].
    destruct z; cbn in *.
    destruct (start b0 =? NULL) eqn:Eb; cbn.
    + destruct (doneJobID =? nextJobID); cbn; [discriminate|].
      rewrite Eb. cbn. intros [= <- <- <- <-]. cbn. rewrite Eb. cbn.
      rewrite !Z.add_0_r.
      split_and!; try reflexivity.
      * intros Hn. apply Z.eqb_eq in Es. contradiction.
      * intros k Hk. lia.
    + rewrite Eb. cbn. intros [= <- <- <- <-]. cbn. rewrite Eb. cbn.
      rewrite !MIN_min, Z.sub_0_r, !Z.add_0_r.
      rewrite (size_t_small (isize - ipos)) by lia.
      rewrite (size_t_small inBuffSize) by lia.
      set (toLoad := Z.min (isize - ipos) inBuffSize).
      assert (Ht : 0 <= toLoad <= isize - ipos) by (subst toLoad; lia).
      rewrite (size_t_small (ipos + toLoad)) by lia.
      rewrite (size_t_small (0 + toLoad)) by lia.
      split_and!; try reflexivity.
      * intros Hn. apply Z.eqb_eq in Es. contradiction.
      * intros k Hk. now apply memcpy_inside.
      * intros a Ha. apply memcpy_other. lia.
  - rewrite Es. cbn [negb].
    assert (Hne : start (buffer (mt.inBuff z)) <> NULL) by (now apply Z.eqb_neq).
    specialize (Hfill Hne).
    destruct z; cbn in *. intros [= <- <- <- <-]. cbn. rewrite Es. cbn.
    rewrite !MIN_min.
    rewrite (size_t_small (isize - ipos)) by lia.
    rewrite (size_t_small (inBuffSize - filled inBuff)) by lia.
    set (toLoad := Z.min (isize - ipos) (inBuffSize - filled inBuff)).
    assert (Ht : 0 <= toLoad <= isize - ipos) by (subst toLoad; lia).
    assert (Ht2 : toLoad <= inBuffSize - filled inBuff) by (subst toLoad; lia).
    rewrite (size_t_small (ipos + toLoad)) by lia.
    rewrite (size_t_small (filled inBuff + toLoad)) by lia.
    split_and!; try reflexivity.
    + intros k Hk. now apply memcpy_inside.
    + intros a Ha. apply memcpy_other. lia.
Qed.

Lemma flushProduced_return_fields z job :
  mt.doneJobID (snd (flushProduced_return z job)) = mt.doneJobID z /\
  mt.consumed (snd (flushProduced_return z job)) = mt.consumed z /\
  mt.produced (snd (flushProduced_return z job)) = mt.produced z /\
  mt.nextJobID (snd (flushProduced_return z job)) = mt.nextJobID z.
Proof.
  unfold flushProduced_return.
  repeat match goal with |- context [if ?c then _ else _] => destruct c end;
    destruct z; cbn; auto.
Qed.

(** X18: when ZSTDMT_flushProduced finds at the head of the ring a job
    without error that has a destination buffer and no checksum to append,
    and does not sleep (it was asked not to block, or the job is complete),
    it copies to the output, behind what the output holds, the next bytes
    of the job's buffer that were not flushed yet, as many as remain and as
    the output has room for, and changes nothing else in memory.  If the
    job is complete and all its bytes are out, the job is retired:
    doneJobID moves to the next job, the buffer leaves the slot, and the
    size of the job's input and output are added to the consumed and
    produced counters; otherwise the count of flushed bytes is remembered
    in the slot. *)
Theorem flushProduced_copies_job s fuel output blockToFlush r s' output' :
  let w := Z.land (mt.doneJobID s) (mt.jobIDMask s) in
  let job := job_at s w in
  (Z.to_nat w < length (mt.jobs s))%nat ->
  blockToFlush = 0 \/ jobCompleted job = 1 ->
  ZSTD_isError (cSize job) = false ->
  truthy (jobCompleted job) && truthy (frameChecksumNeeded job) = false ->
  start (dstBuff job) <> NULL ->
  0 <= dstFlushed job <= cSize job -> cSize job < 2 ^ 64 ->
  0 <= o_pos output <= o_size output -> o_size output < 2 ^ 64 ->
  ZSTDMT_flushProduced fuel s output blockToFlush = Some (r, s', output') ->
  let toWrite := Z.min (cSize job - dstFlushed job) (o_size output - o_pos output) in
  output' = set_o_pos (o_pos output + toWrite) output /\
  (forall k, 0 <= k < toWrite ->
     mt.memory s' (o_dst output + o_pos output + k)
     = mt.memory s (start (dstBuff job) + dstFlushed job + k)) /\
  (forall a, ~ (o_dst output + o_pos output <= a < o_dst output + o_pos output + toWrite) ->
     mt.memory s' a = mt.memory s a) /\
  (if truthy (jobCompleted job) && (dstFlushed job + toWrite =? cSize job)
   then mt.doneJobID s' = U32 (mt.doneJobID s + 1) /\
        dstBuff (job_at s' w) = g_nullBuffer /\ jobCompleted (job_at s' w) = 0 /\
        mt.consumed s' = U64 (mt.consumed s + srcSize job) /\
        mt.produced s' = U64 (mt.produced s + cSize job)
   else mt.doneJobID s' = mt.doneJobID s /\
        dstFlushed (job_at s' w) = dstFlushed job + toWrite /\
        dstBuff (job_at s' w) = dstBuff job /\
        jobCompleted (job_at s' w) = jobCompleted job /\
        mt.consumed s' = mt.consumed s /\ mt.produced s' = mt.produced s).
Proof.
  intros w job Hlt Hnowait Herr Hck Hbuf Hfl Hcs Hpos Hsz.
  unfold ZSTDMT_flushProduced. fold w.
  assert (Hwait : flushProduced_wait fuel s w blockToFlush = Some s).
  { destruct Hnowait as [->|Hc]; [reflexivity|now apply flushProduced_wait_completed]. }
  rewrite Hwait. fold job. rewrite Herr.
  unfold flushProduced_checksum. rewrite Hck.
  unfold flushProduced_copy.
  assert (Hb : negb (start (dstBuff job) =? NULL) = true).
  { destruct (start (dstBuff job) =? NULL) eqn:E; [|reflexivity].
    apply Z.eqb_eq in E. contradiction. }
  rewrite Hb. rewrite MIN_min.
  rewrite (size_t_small (cSize job - dstFlushed job)) by lia.
  rewrite (size_t_small (o_size output - o_pos output)) by lia.
  cbv zeta.
  set (toWrite := Z.min (cSize job - dstFlushed job) (o_size output - o_pos output)).
  assert (Ht : 0 <= toWrite <= cSize job - dstFlushed job) by (subst toWrite; lia).
  assert (Ht2 : toWrite <= o_size output - o_pos output) by (subst toWrite; lia).
  rewrite (size_t_small (o_pos output + toWrite)) by lia.
  rewrite (size_t_small (dstFlushed job + toWrite)) by lia.
  assert (Hj : jobCompleted (set_dstFlushed (dstFlushed job + toWrite) job) = jobCompleted job /\
               dstFlushed (set_dstFlushed (dstFlushed job + toWrite) job)
               = dstFlushed job + toWrite /\
               cSize (set_dstFlushed (dstFlushed job + toWrite) job) = cSize job /\
               srcSize (set_dstFlushed (dstFlushed job + toWrite) job) = srcSize job /\
               dstBuff (set_dstFlushed (dstFlushed job + toWrite) job) = dstBuff job).
  { destruct job; now split_and!. }
  destruct Hj as (Hj1 & Hj2 & Hj3 & Hj4 & Hj5).
  rewrite Hj1, Hj2, Hj3, Hj4, Hj5.
  destruct (truthy (jobCompleted job) && (dstFlushed job + toWrite =? cSize job)) eqn:Edone.
  - destruct (ZSTDMT_releaseBuffer _ _ _) as [bp w0].
    match goal with |- context [flushProduced_return ?a ?b] =>
      destruct (flushProduced_return_frame a b) as (Fj & Fm);
      destruct (flushProduced_return_fields a b) as (Fd & Fc & Fp & _);
      destruct (flushProduced_return a b) as [r0 zr]
    end.
    cbn [snd] in *. intros [= <- <- <-].
    unfold job_at. rewrite Fj, Fm, Fd, Fc, Fp. clear Fj Fm Fd Fc Fp.
    subst job. unfold job_at in *. destruct s; mt_norm.
    rewrite !list_lookup_total_insert_eq; rewrite ?length_insert; try lia.
    split_and!; try reflexivity.
    + intros k Hk. now apply memcpy_inside.
    + intros a Ha. apply memcpy_other. lia.
    + now destruct (_ !!! _).
    + now destruct (_ !!! _).
  - match goal with |- context [flushProduced_return ?a ?b] =>
      destruct (flushProduced_return_frame a b) as (Fj & Fm);
      destruct (flushProduced_return_fields a b) as (Fd & Fc & Fp & _);
      destruct (flushProduced_return a b) as [r0 zr]
    end.
    cbn [snd] in *. intros [= <- <- <-].
    unfold job_at. rewrite Fj, Fm, Fd, Fc, Fp. clear Fj Fm Fd Fc Fp.
    subst job. unfold job_at in *. destruct s; mt_norm.
    rewrite !list_lookup_total_insert_eq; rewrite ?length_insert; try lia.
    split_and!; try reflexivity.
    + intros k Hk. now apply memcpy_inside.
    + intros a Ha. apply memcpy_other. lia.
    + now destruct (_ !!! _).
    + now destruct (_ !!! _).
    + now destruct (_ !!! _).
Qed.

End Bytes.

(** ** Cutting a source into chunks *)

Section Chunks.
Context {W : Type} `{ZSTD_constants} `{Sizeof} `{Allocator W} `{Compressor W} `{Hash}
  `{ThreadPool W} `{ThreadPoolAdmin W} `{Workers W}.
Implicit Types s z : mt.t W.

Lemma dispatch_slots n : forall u nbChunks cwd avg ov dst src0 srcSize0 cdict0 params jobParams
    d z d' z',
  0 <= avg -> 0 <= u -> u + Z.of_nat n < 2 ^ 32 ->
  0 <= remainingSrcSize d -> 0 <= frameStartPos d ->
  frameStartPos d + remainingSrcSize d < 2 ^ 64 ->
  (Z.to_nat u + n <= length (mt.jobs z))%nat ->
  oneshot_dispatch n u nbChunks cwd avg ov dst src0 srcSize0 cdict0 params jobParams d z
    = (d', z') ->
  length (mt.jobs z') = length (mt.jobs z) /\
  remainingSrcSize d' = remainingSrcSize d - Z.min (Z.of_nat n * avg) (remainingSrcSize d) /\
  frameStartPos d' = frameStartPos d + Z.min (Z.of_nat n * avg) (remainingSrcSize d) /\
  mt.factory z' = mt.factory z ++ seq (Z.to_nat u) n /\
  (forall i : nat, (i < Z.to_nat u)%nat -> mt.jobs z' !!! i = mt.jobs z !!! i) /\
  (forall k, 0 <= k < Z.of_nat n ->
     let j := job_at z' (u + k) in
     srcStart j + prefixSize j
       = src0 + frameStartPos d + Z.min (k * avg) (remainingSrcSize d) /\
     srcSize j = Z.min ((k + 1) * avg) (remainingSrcSize d)
                 - Z.min (k * avg) (remainingSrcSize d) /\
     prefixSize j = (if truthy (u + k) then ov else 0) /\
     firstChunk j = c_bool (u + k =? 0) /\
     lastChunk j = c_bool (u + k =? U32 (nbChunks - 1)) /\
     jobCompleted j = 0 /\ fullFrameSize j = srcSize0).
Proof.
  induction n as [|n IH];
    intros u nbChunks cwd avg ov dst src0 srcSize0 cdict0 params jobParams d z d' z'
           Havg Hu Hfit HR HP Hsum Hlen; cbn [oneshot_dispatch].
  - intros [= <- <-]. rewrite app_nil_r. cbn [Z.of_nat Z.mul].
    replace (Z.min 0 (remainingSrcSize d)) with 0 by lia.
    split_and!; try reflexivity; try lia.
  - rewrite MIN_min.
    set (c := Z.min (remainingSrcSize d) avg).
    assert (Hc : 0 <= c <= remainingSrcSize d) by (subst c; lia).
    rewrite (size_t_small (remainingSrcSize d - c)) by lia.
    rewrite (size_t_small (frameStartPos d + c)) by lia.
    rewrite (U32_small (u + 1)) by lia.
    set (jb := oneshot_job _ _ _ _ _ _ _ _ _ _ _).
    match goal with |- oneshot_dispatch n _ _ _ _ _ _ _ _ _ _ _ ?d1 ?z1 = _ -> _ =>
      set (z1' := z1); set (d1' := d1) end.
    assert (Hz1 : mt.jobs z1' = <[Z.to_nat u := jb]> (mt.jobs z) /\
                  mt.factory z1' = mt.factory z ++ [Z.to_nat u]).
    { subst z1'. destruct z; cbn. split; reflexivity. }
    destruct Hz1 as [Hj1 Hf1].
    assert (Hjb : srcStart jb + prefixSize jb = src0 + frameStartPos d /\ srcSize jb = c /\
                  prefixSize jb = (if truthy u then ov else 0) /\
                  firstChunk jb = c_bool (u =? 0) /\
                  lastChunk jb = c_bool (u =? U32 (nbChunks - 1)) /\
                  jobCompleted jb = 0 /\ fullFrameSize jb = srcSize0).
    { subst jb. cbn. split_and!; try reflexivity. lia. }
    clearbody jb z1'.
    intros Hrec. apply IH in Hrec; subst d1'; cbn [remainingSrcSize frameStartPos]; try lia.
    2:{ rewrite Hj1, length_insert. lia. }
    cbn [remainingSrcSize frameStartPos] in Hrec.
    destruct Hrec as (Hl & Hrem & Hpos & Hfac & Hlow & Hjobs).
    rewrite Hj1, length_insert in Hl.
    assert (Hn1 : Z.to_nat (u + 1) = S (Z.to_nat u)) by lia.
    assert (Hmin : forall k, 0 <= k ->
              c + Z.min (k * avg) (remainingSrcSize d - c)
              = Z.min ((k + 1) * avg) (remainingSrcSize d)).
    { intros k Hk. assert (0 <= k * avg) by nia.
      replace ((k + 1) * avg) with (k * avg + avg) by ring. subst c. lia. }
    split_and!.
    + exact Hl.
    + pose proof (Hmin (Z.of_nat n) ltac:(lia)) as Hm.
      replace (Z.of_nat (S n)) with (Z.of_nat n + 1) by lia. lia.
    + pose proof (Hmin (Z.of_nat n) ltac:(lia)) as Hm.
      replace (Z.of_nat (S n)) with (Z.of_nat n + 1) by lia. lia.
    + rewrite Hfac, Hf1, Hn1, <- app_assoc. reflexivity.
    + intros i Hi. rewrite Hlow by lia. rewrite Hj1.
      apply list_lookup_total_insert_ne. lia.
    + intros k Hk. destruct (Z.eq_dec k 0) as [->|Hk0].
      * rewrite Z.add_0_r. unfold job_at. rewrite Hlow by lia. rewrite Hj1.
        rewrite list_lookup_total_insert_eq by lia.
        destruct Hjb as (E1 & E2 & E3 & E4 & E5 & E6 & E7).
        cbn [Z.mul]. replace (Z.min 0 (remainingSrcSize d)) with 0 by lia.
        replace ((0 + 1) * avg) with avg by ring.
        split_and!; try assumption; try lia.
      * specialize (Hjobs (k - 1) ltac:(lia)). cbv zeta in Hjobs.
        replace (u + 1 + (k - 1)) with (u + k) in Hjobs by lia.
        destruct Hjobs as (E1 & E2 & E3 & E4 & E5 & E6 & E7).
        replace (k - 1 + 1) with k in E2 by lia.
        pose proof (Hmin (k - 1) ltac:(lia)) as Hm1.
        replace (k - 1 + 1) with k in Hm1 by lia.
        pose proof (Hmin k ltac:(lia)) as Hm2.
        split_and!; try assumption; lia.
Qed.

Lemma avgChunkSize_covers (srcSize0 nbChunks : Z) :
  1 <= nbChunks < 2 ^ 32 -> 0 <= srcSize0 -> srcSize0 + nbChunks + 0xFFFF <= 2 ^ 64 ->
  0 <= avgChunkSize srcSize0 nbChunks /\
  srcSize0 <= nbChunks * avgChunkSize srcSize0 nbChunks.
Proof.
  intros Hn Hs Hfit. unfold avgChunkSize, proposedChunkSize.
  rewrite (U32_small (nbChunks - 1)) by lia.
  rewrite (size_t_small (srcSize0 + (nbChunks - 1))) by lia.
  set (q := (srcSize0 + (nbChunks - 1)) / nbChunks).
  pose proof (Z.div_mod (srcSize0 + (nbChunks - 1)) nbChunks ltac:(lia)) as Hdm.
  pose proof (Z.mod_pos_bound (srcSize0 + (nbChunks - 1)) nbChunks ltac:(lia)) as Hr.
  fold q in Hdm.
  assert (Hq : 0 <= q) by (subst q; apply Z.div_pos; lia).
  assert (Hqle : q <= srcSize0 + (nbChunks - 1)).
  { subst q. apply Z.div_le_upper_bound; nia. }
  assert (Hcov : srcSize0 <= nbChunks * q) by lia.
  destruct (Z.land (size_t (q - 1)) 131071 <? 32767).
  - rewrite size_t_small by lia. split; [lia|nia].
  - split; [lia|exact Hcov].
Qed.

(** X19: the dispatch loop of the one-shot compression cuts the source
    into consecutive chunks.  With the average chunk size of
    ZSTDMT_compress_advanced_internal, chunk u starts at offset
    min(u * avg, srcSize) of the source and ends where chunk u + 1 starts,
    the last one at the end of the source, so that the chunks cover the
    source exactly; every chunk but the first has the overlap as its
    prefix, the first and the last chunk are flagged as such, and the
    chunks are handed to the thread pool in order. *)
Theorem oneshot_dispatch_partitions nbChunks cwd ov dst src0 srcSize0 cdict0 params jobParams
    xxh z d' z' :
  let avg := avgChunkSize srcSize0 nbChunks in
  1 <= nbChunks < 2 ^ 32 -> 0 <= srcSize0 -> srcSize0 + nbChunks + 0xFFFF <= 2 ^ 64 ->
  (Z.to_nat nbChunks <= length (mt.jobs z))%nat ->
  oneshot_dispatch (Z.to_nat nbChunks) 0 nbChunks cwd avg ov dst src0 srcSize0 cdict0
    params jobParams
    {| remainingSrcSize := srcSize0; frameStartPos := 0; dstBufferPos := 0; xxh64 := xxh |} z
    = (d', z') ->
  remainingSrcSize d' = 0 /\ frameStartPos d' = srcSize0 /\
  Z.min (nbChunks * avg) srcSize0 = srcSize0 /\
  mt.factory z' = mt.factory z ++ seq 0 (Z.to_nat nbChunks) /\
  forall u, 0 <= u < nbChunks ->
    let j := job_at z' u in
    let first := Z.min (u * avg) srcSize0 in
    let next := Z.min ((u + 1) * avg) srcSize0 in
    srcStart j + prefixSize j = src0 + first /\
    srcSize j = next - first /\ 0 <= srcSize j <= avg /\
    prefixSize j = (if u =? 0 then 0 else ov) /\
    firstChunk j = c_bool (u =? 0) /\ lastChunk j = c_bool (u =? nbChunks - 1) /\
    jobCompleted j = 0 /\ fullFrameSize j = srcSize0.
Proof.
  intros avg Hn Hs Hfit Hlen Hd.
  destruct (avgChunkSize_covers srcSize0 nbChunks Hn Hs Hfit) as [Havg Hcov]. fold avg in Havg, Hcov.
  apply dispatch_slots in Hd; cbn [remainingSrcSize frameStartPos]; try lia.
  cbn [remainingSrcSize frameStartPos] in Hd.
  destruct Hd as (_ & Hrem & Hpos & Hfac & _ & Hjobs).
  rewrite Z2Nat.id in Hrem, Hpos by lia.
  assert (Hmin : Z.min (nbChunks * avg) srcSize0 = srcSize0) by lia.
  split_and!; try lia.
  - exact Hfac.
  - intros u Hu. specialize (Hjobs u ltac:(lia)). cbv zeta in Hjobs |- *.
    rewrite Z.add_0_l in Hjobs.
    destruct Hjobs as (E1 & E2 & E3 & E4 & E5 & E6 & E7).
    rewrite (U32_small (nbChunks - 1)) in E5 by lia.
    assert (Hu0 : 0 <= u * avg) by nia.
    assert (Hu1 : (u + 1) * avg = u * avg + avg) by ring.
    split_and!; try assumption; try lia.
    rewrite E3. unfold truthy. destruct (u =? 0); reflexivity.
Qed.

End Chunks.

(** ** Frame progression *)

Lemma U64_add_l a b : U64 (U64 a + b) = U64 (a + b).
Proof. unfold U64. apply Zplus_mod_idemp_l. Qed.

Lemma progression_add_comm fs a b c x y z :
  progression_add (progression_add fs a b c) x y z
  = progression_add (progression_add fs x y z) a b c.
Proof.
  unfold progression_add. cbn [fp_consumed ingested fp_produced].
  rewrite !U64_add_l. f_equal; f_equal; lia.
Qed.

Section ProgressionFacts.
Context {W : Type}.
Implicit Types s z : mt.t W.

Lemma progression_loop_step n jobNb s fs :
  getFrameProgression_loop (S n) jobNb s fs =
  getFrameProgression_loop n (U32 (jobNb + 1)) s
    (let j := job_at s (Z.land jobNb (mt.jobIDMask s)) in
     progression_add fs (consumed j) (srcSize j)
       (if ZSTD_isError (cSize j) then 0 else cSize j)).
Proof. reflexivity. Qed.

Lemma progression_loop_add n : forall jobNb s fs a b c,
  getFrameProgression_loop n jobNb s (progression_add fs a b c)
  = progression_add (getFrameProgression_loop n jobNb s fs) a b c.
Proof.
  induction n as [|n IH]; intros jobNb s fs a b c.
  - reflexivity.
  - rewrite !progression_loop_step. cbv zeta.
    rewrite progression_add_comm. apply IH.
Qed.

Lemma progression_loop_ext n : forall jobNb s s' fs,
  mt.jobIDMask s' = mt.jobIDMask s ->
  (forall i : nat, job_progress (mt.jobs s' !!! i) = job_progress (mt.jobs s !!! i)) ->
  getFrameProgression_loop n jobNb s' fs = getFrameProgression_loop n jobNb s fs.
Proof.
  induction n as [|n IH]; intros jobNb s s' fs Hm Hj.
  - reflexivity.
  - rewrite !progression_loop_step. cbv zeta. rewrite Hm.
    unfold job_at.
    pose proof (Hj (Z.to_nat (Z.land jobNb (mt.jobIDMask s)))) as E.
    unfold job_progress in E. injection E as -> -> ->.
    now apply IH.
Qed.

Lemma upd_job_at_progress s w f :
  (forall j, job_progress (f j) = job_progress j) ->
  forall i : nat, job_progress (mt.jobs (upd_job_at w f s) !!! i) = job_progress (mt.jobs s !!! i).
Proof.
  intros Hf i. unfold upd_job_at, job_at. destruct s; cbn.
  destruct (decide (i = Z.to_nat w)) as [->|Hne].
  - destruct (decide (Z.to_nat w < length jobs)%nat) as [Hlt|Hge].
    + rewrite list_lookup_total_insert_eq by exact Hlt. apply Hf.
    + rewrite list_insert_ge by lia. reflexivity.
  - rewrite list_lookup_total_insert_ne by auto. reflexivity.
Qed.

End ProgressionFacts.

Section ProgressionFlush.
Context {W : Type} `{ZSTD_constants} `{Sizeof} `{Allocator W} `{Compressor W} `{Hash}
  `{ThreadPool W} `{ThreadPoolAdmin W} `{Workers W}.
Hypothesis cond_wait_rely : forall s : mt.t W, worker_rely s (ZSTD_pthread_cond_wait s).
Implicit Types s z : mt.t W.

Lemma insert_progress (l : list ZSTDMT_jobDescription) (k i : nat) (j : ZSTDMT_jobDescription) :
  job_progress j = job_progress (l !!! k) ->
  job_progress (<[k := j]> l !!! i) = job_progress (l !!! i).
Proof.
  intros Hj. destruct (decide (i = k)) as [->|Hne].
  - destruct (decide (k < length l)%nat) as [Hlt|Hge].
    + rewrite list_lookup_total_insert_eq by exact Hlt. exact Hj.
    + rewrite list_insert_ge by lia. reflexivity.
  - rewrite list_lookup_total_insert_ne by auto. reflexivity.
Qed.

Lemma progress_set_jobCompleted v j : job_progress (set_jobCompleted v j) = job_progress j.
Proof. now destruct j. Qed.
Lemma progress_set_dstBuff v j : job_progress (set_dstBuff v j) = job_progress j.
Proof. now destruct j. Qed.
Lemma progress_set_dstFlushed v j : job_progress (set_dstFlushed v j) = job_progress j.
Proof. now destruct j. Qed.

(** What a flush that does not sleep and appends no checksum leaves of the
    counters. *)
Lemma flushProduced_nowait_view s fuel output blockToFlush r s' output' :
  let w := Z.land (mt.doneJobID s) (mt.jobIDMask s) in
  let job := job_at s w in
  blockToFlush = 0 \/ jobCompleted job = 1 ->
  ZSTD_isError (cSize job) = false ->
  truthy (jobCompleted job) && truthy (frameChecksumNeeded job) = false ->
  ZSTDMT_flushProduced fuel s output blockToFlush = Some (r, s', output') ->
  mt.jobIDMask s' = mt.jobIDMask s /\ mt.nextJobID s' = mt.nextJobID s /\
  mt.jobReady s' = mt.jobReady s /\ mt.inBuff s' = mt.inBuff s /\
  mt.prefixSize s' = mt.prefixSize s /\
  (forall i : nat, job_progress (mt.jobs s' !!! i) = job_progress (mt.jobs s !!! i)) /\
  ((mt.doneJobID s' = mt.doneJobID s /\ mt.consumed s' = mt.consumed s /\
    mt.produced s' = mt.produced s) \/
   (truthy (jobCompleted job) = true /\ start (dstBuff job) <> NULL /\
    mt.doneJobID s' = U32 (mt.doneJobID s + 1) /\
    mt.consumed s' = U64 (mt.consumed s + srcSize job) /\
    mt.produced s' = U64 (mt.produced s + cSize job))).
Proof.
  intros w job Hnowait Herr Hck.
  unfold ZSTDMT_flushProduced. fold w.
  assert (Hwait : flushProduced_wait fuel s w blockToFlush = Some s).
  { destruct Hnowait as [->|Hc]; [reflexivity|now apply flushProduced_wait_completed]. }
  rewrite Hwait. fold job. rewrite Herr.
  unfold flushProduced_checksum. rewrite Hck.
  unfold flushProduced_copy.
  assert (Hret : forall z j,
            mt.jobIDMask (snd (flushProduced_return z j)) = mt.jobIDMask z /\
            mt.nextJobID (snd (flushProduced_return z j)) = mt.nextJobID z /\
            mt.jobReady (snd (flushProduced_return z j)) = mt.jobReady z /\
            mt.inBuff (snd (flushProduced_return z j)) = mt.inBuff z /\
            mt.prefixSize (snd (flushProduced_return z j)) = mt.prefixSize z /\
            mt.jobs (snd (flushProduced_return z j)) = mt.jobs z /\
            mt.doneJobID (snd (flushProduced_return z j)) = mt.doneJobID z /\
            mt.consumed (snd (flushProduced_return z j)) = mt.consumed z /\
            mt.produced (snd (flushProduced_return z j)) = mt.produced z).
  { intros z j. unfold flushProduced_return.
    repeat match goal with |- context [if ?c then _ else _] => destruct c end;
      destruct z; cbn; split_and!; reflexivity. }
  destruct (start (dstBuff job) =? NULL) eqn:Eb; cbn [negb].
  - specialize (Hret s job). destruct (flushProduced_return s job) as [r0 zr].
    cbn [snd] in Hret. destruct Hret as (F1 & F2 & F3 & F4 & F5 & F6 & F7 & F8 & F9).
    intros [= <- <- <-]. rewrite F6. split_and!; try assumption; try reflexivity.
    left. now split_and!.
  - apply Z.eqb_neq in Eb.
    set (toWrite := MIN _ _).
    set (job1 := set_dstFlushed (size_t (dstFlushed job + toWrite)) job).
    assert (Hj1 : jobCompleted job1 = jobCompleted job /\ srcSize job1 = srcSize job /\
                  cSize job1 = cSize job /\ dstBuff job1 = dstBuff job).
    { subst job1. destruct job; now split_and!. }
    destruct Hj1 as (J1 & J2 & J3 & J4). rewrite J1.
    destruct (truthy (jobCompleted job) && (dstFlushed job1 =? cSize job1)) eqn:Edone.
    + apply andb_true_iff in Edone as [Hc _].
      destruct (ZSTDMT_releaseBuffer _ _ _) as [bp w0].
      match goal with |- context [flushProduced_return ?a ?b] =>
        specialize (Hret a b); destruct (flushProduced_return a b) as [r0 zr] end.
      cbn [snd] in Hret. destruct Hret as (F1 & F2 & F3 & F4 & F5 & F6 & F7 & F8 & F9).
      intros [= <- <- <-]. rewrite F1, F2, F3, F4, F5, F6, F7, F8, F9, J2, J3.
      clear F1 F2 F3 F4 F5 F6 F7 F8 F9.
      clearbody job1 toWrite. subst job. unfold job_at in *. destruct s; mt_norm.
      split_and!; try reflexivity.
      * intros i.
        rewrite insert_progress by apply progress_set_jobCompleted.
        rewrite insert_progress by apply progress_set_dstBuff. reflexivity.
      * right. now split_and!.
    + match goal with |- context [flushProduced_return ?a ?b] =>
        specialize (Hret a b); destruct (flushProduced_return a b) as [r0 zr] end.
      cbn [snd] in Hret. destruct Hret as (F1 & F2 & F3 & F4 & F5 & F6 & F7 & F8 & F9).
      intros [= <- <- <-]. rewrite F1, F2, F3, F4, F5, F6, F7, F8, F9.
      clear F1 F2 F3 F4 F5 F6 F7 F8 F9.
      clearbody job1 toWrite. subst job. unfold job_at in *. destruct s; mt_norm.
      split_and!; try reflexivity.
      * intros i. rewrite insert_progress by apply progress_set_dstFlushed. reflexivity.
      * left. now split_and!.
Qed.

(** X20: on a context that satisfies the ring invariant [mt_inv], a call
    of ZSTDMT_flushProduced that does not sleep, meets no error and
    appends no checksum leaves the frame progression that
    ZSTDMT_getFrameProgression reports as it is: what a retired job had
    consumed and produced moves from the job to the counters of the
    context, and the bytes flushed are not counted twice.  (Without the
    invariant a flush can retire a job that the progression did not
    count.) *)
Theorem frameProgression_kept_by_flush s fuel output blockToFlush r s' output' :
  let w := Z.land (mt.doneJobID s) (mt.jobIDMask s) in
  let job := job_at s w in
  mt_inv s ->
  blockToFlush = 0 \/ jobCompleted job = 1 ->
  ZSTD_isError (cSize job) = false ->
  truthy (jobCompleted job) && truthy (frameChecksumNeeded job) = false ->
  0 <= mt.jobReady s -> mt.nextJobID s + mt.jobReady s < 2 ^ 32 ->
  ZSTDMT_flushProduced fuel s output blockToFlush = Some (r, s', output') ->
  ZSTDMT_getFrameProgression s' = ZSTDMT_getFrameProgression s.
Proof.
  intros w job Hinv Hnowait Herr Hck Hr0 Hr1 Hflush.
  destruct (flushProduced_nowait_view s fuel output blockToFlush r s' output'
              Hnowait Herr Hck Hflush) as (Em & En & Er & Ei & Ep & Hj & Hcase).
  fold w job in Hcase.
  unfold ZSTDMT_getFrameProgression. rewrite En, Er, Ei, Ep.
  destruct Hcase as [(Ed & Ec & Epr)|(Hc & Hb & Ed & Ec & Epr)].
  - rewrite Ed, Ec, Epr. now apply progression_loop_ext.
  - pose proof Hinv as [Imask Itable Iorder Iring Iwrap Irun Iidle Icomp Iready Iflush].
    pose proof (slot_lt_length s (mt.doneJobID s) Hinv) as Hlt. fold w in Hlt.
    assert (Hwin : mt.doneJobID s < mt.nextJobID s).
    { destruct (Z_lt_ge_dec (mt.doneJobID s) (mt.nextJobID s)) as [|Hge]; [assumption|].
      exfalso. apply Hb. apply (Iidle (Z.to_nat w) Hlt). apply empty_window. lia. }
    assert (Hcons : consumed job = srcSize job) by (apply Icomp; exact Hc).
    assert (Hmask : 0 <= mt.jobIDMask s).
    { destruct Imask as (k & Hk & ->). pose proof (pow2_pos k ltac:(lia)).
      rewrite Z.ones_equiv. lia. }
    rewrite (U32_small (mt.doneJobID s + 1)) in Ed by lia.
    rewrite (U32_small (mt.nextJobID s + mt.jobReady s)) by lia.
    rewrite Ed, Ec, Epr.
    replace (Z.to_nat (mt.nextJobID s + mt.jobReady s - mt.doneJobID s))
      with (S (Z.to_nat (mt.nextJobID s + mt.jobReady s - (mt.doneJobID s + 1)))) by lia.
    rewrite progression_loop_step. cbv zeta. fold w job.
    rewrite (U32_small (mt.doneJobID s + 1)) by lia.
    rewrite Herr, Hcons.
    rewrite (progression_loop_ext _ _ s s') by assumption.
    f_equal. unfold progression_add. cbn [fp_consumed ingested fp_produced].
    f_equal. rewrite !U64_add_l. f_equal. lia.
Qed.

End ProgressionFlush.

(** ** The entry points *)

Lemma isError_zero : ZSTD_isError 0 = false.
Proof. reflexivity. Qed.

Lemma isError_not_zero r : ZSTD_isError r = true -> r <> 0.
Proof. intros Hr ->. rewrite isError_zero in Hr. discriminate. Qed.

Section EntryPointsAtWork.
Context {W : Type} `{ZSTD_constants} `{Sizeof} `{Allocator W} `{Compressor W} `{Hash}
  `{ThreadPool W} `{ThreadPoolAdmin W} `{Workers W} `{ParameterTables W}.
Hypothesis cond_wait_rely : forall s : mt.t W, worker_rely s (ZSTD_pthread_cond_wait s).
Implicit Types s z : mt.t W.

(** X21: a one-shot compression with ZSTDMT_compressCCtx, on a context
    that satisfies the ring invariant [mt_inv], has an empty ring
    (nextJobID = 0, no prepared job) and keeps its job table, gives the
    context back at rest, whether it succeeded or not: the invariant holds
    again, so that the next one-shot compression finds what this one
    found; no worker holds a job, the job counters are still 0, and no slot
    of the table keeps a destination buffer or an unfinished job. *)
Theorem compressCCtx_leaves_ring_at_rest s fuel dst dstCapacity src0 srcSize0 level r s' :
  mt_inv s ->
  mt.nextJobID s = 0 -> truthy (mt.jobReady s) = false ->
  ZSTDMT_computeNbChunks srcSize0 (windowLog (p_cParams (ZSTD_getParams level srcSize0 0)))
    (nbThreads (mt.params s)) < 2 ^ 31 ->
  ZSTDMT_compressCCtx fuel s dst dstCapacity src0 srcSize0 level = Some (r, s') ->
  mt.jobs_ptr s' <> NULL ->
  mt_inv s' /\ truthy (mt.jobReady s') = false /\
  mt.factory s' = [] /\ mt.doneJobID s' = 0 /\ mt.nextJobID s' = 0 /\
  forall i : nat, (i < length (mt.jobs s'))%nat ->
    start (dstBuff (mt.jobs s' !!! i)) = NULL /\
    srcSize (mt.jobs s' !!! i) <= consumed (mt.jobs s' !!! i).
Proof.
  intros Hinv Hn Hr Hchunks Hc Hp.
  unfold ZSTDMT_compressCCtx, ZSTDMT_compress_advanced in Hc.
  match type of Hc with
  | ZSTDMT_compress_advanced_internal _ _ _ _ _ _ _ ?p = _ => set (p0 := p) in *
  end.
  assert (Hp0 : windowLog (cParams p0) = windowLog (p_cParams (ZSTD_getParams level srcSize0 0))
                /\ nbThreads p0 = nbThreads (mt.params s)).
  { subst p0. destruct (mt.params s); cbn. now split. }
  destruct Hp0 as [Hw0 Hn0].
  destruct (compress_advanced_oneshot cond_wait_rely fuel s dst dstCapacity src0 srcSize0 NULL
              p0 r s' Hinv Hn Hr) as [n Hone]; try assumption.
  { now rewrite Hw0, Hn0. }
  pose proof (oneshot_inv_end n s' s' Hone eq_refl eq_refl eq_refl eq_refl eq_refl eq_refl
                eq_refl) as Hinv'.
  destruct Hone as (_ & _ & Hd & Hnx & Hrdy & _ & Hrun & _ & Hidle).
  split_and!; try assumption.
  - destruct (mt.factory s') as [|i l] eqn:Ef; [reflexivity|].
    exfalso. destruct (Hrun i) as [Hb _]; [now left|lia].
  - intros i Hi. apply Hidle; [assumption|lia].
Qed.

Lemma fill_inl_error s input endOp r z :
  compressStream_fill s input endOp = inl (r, z) -> r = ERROR memory_allocation.
Proof.
  unfold compressStream_fill.
  destruct (negb (truthy (mt.jobReady s)) && _); [|discriminate].
  destruct (start (buffer (mt.inBuff s)) =? NULL).
  - destruct (ZSTDMT_getBuffer _ _) as [[b bp] w].
    match goal with |- context [if ?c then inl _ else _] => destruct c end.
    + now intros [= <- _].
    + match goal with |- context [if ?c then _ else _] => destruct c end; discriminate.
  - match goal with |- context [if ?c then _ else _] => destruct c end; discriminate.
Qed.

(** The input that the fill stage gives back. *)
Lemma fill_inr_input s input endOp z input' progress endOp' :
  0 <= i_pos input <= i_size input -> i_size input < 2 ^ 64 ->
  compressStream_fill s input endOp = inr (z, input', progress, endOp') ->
  i_src input' = i_src input /\ i_size input' = i_size input /\
  i_pos input <= i_pos input' <= i_size input.
Proof.
  intros Hpos Hsz. unfold compressStream_fill.
  destruct (negb (truthy (mt.jobReady s)) && (i_size input >? i_pos input)) eqn:Eg.
  2:{ intros [= <- <- <- <-]. split_and!; try reflexivity; lia. }
  apply andb_true_iff in Eg as [_ Eg].
  assert (Hstep : forall toLoad : Z,
            let x := MIN (size_t (i_size input - i_pos input)) toLoad in
            0 <= toLoad ->
            i_pos input <= size_t (i_pos input + x) <= i_size input).
  { intros t x Ht. subst x. rewrite MIN_min.
    rewrite (size_t_small (i_size input - i_pos input)) by lia.
    rewrite size_t_small by lia. lia. }
  assert (Hst : forall x, 0 <= size_t x).
  { intros x. unfold size_t. apply Z.mod_pos_bound. reflexivity. }
  destruct (start (buffer (mt.inBuff s)) =? NULL).
  - destruct (ZSTDMT_getBuffer _ _) as [[b bp] w].
    match goal with |- context [if ?c then inl _ else _] => destruct c end; [discriminate|].
    match goal with |- context [if negb ?c then _ else _] => destruct c end; cbn [negb].
    + intros [= <- <- <- <-]. split_and!; try reflexivity; lia.
    + intros [= <- <- <- <-]. cbn [set_i_pos i_src i_size i_pos].
      split; [reflexivity|]. split; [reflexivity|]. apply Hstep. apply Hst.
  - match goal with |- context [if negb ?c then _ else _] => destruct c end; cbn [negb].
    + intros [= <- <- <- <-]. split_and!; try reflexivity; lia.
    + intros [= <- <- <- <-]. cbn [set_i_pos i_src i_size i_pos].
      split; [reflexivity|]. split; [reflexivity|]. apply Hstep. apply Hst.
Qed.

(** X22: in multi-threaded mode, ZSTDMT_compressStream_generic never moves
    the input position backwards or past the end of the input, and it
    leaves the address and the size of the input alone; when it returns 0,
    the whole input has been consumed. *)
Theorem compressStream_generic_consumes_input s fuel output input endOp r s' output' input' :
  truthy (mt.singleBlockingThread s) = false ->
  0 <= i_pos input <= i_size input -> i_size input < 2 ^ 64 ->
  ZSTDMT_compressStream_generic fuel s output input endOp = Some (r, s', output', input') ->
  i_src input' = i_src input /\ i_size input' = i_size input /\
  i_pos input <= i_pos input' <= i_size input /\
  (r = 0 -> i_pos input' = i_size input).
Proof.
  intros Hmt Hpos Hsz. unfold ZSTDMT_compressStream_generic. rewrite Hmt.
  destruct (truthy (mt.frameEnded s) && endOp_eqb endOp ZSTD_e_continue).
  { intros [= <- <- <- <-]. split_and!; try reflexivity; try lia.
    intros Hr. now apply error_not_zero in Hr. }
  match goal with |- context [if ?c then compressStream_shortcut _ _ _ _ else _] =>
    destruct c end.
  { unfold compressStream_shortcut.
    destruct (ZSTDMT_compress_advanced_internal _ _ _ _ _ _ _ _) as [[c z1]|]; [|discriminate].
    destruct (ZSTD_isError c) eqn:Ec.
    - intros [= <- <- <- <-]. split_and!; try reflexivity; try lia.
      intros Hr. now apply isError_not_zero in Ec.
    - destruct (ZSTDMT_releaseBuffer _ _ _) as [bp w].
      intros [= <- <- <- <-]. cbn. split_and!; try reflexivity; lia. }
  destruct (compressStream_fill s input endOp) as [[r0 z0]|[[[z0 in0] prog] endOp0]] eqn:Efill.
  { apply fill_inl_error in Efill. intros [= <- <- <- <-].
    split_and!; try reflexivity; try lia.
    intros Hr. rewrite Efill in Hr. now apply error_not_zero in Hr. }
  apply fill_inr_input in Efill; [|assumption|assumption].
  destruct Efill as (E1 & E2 & E3).
  match goal with |- match ?c with _ => _ end = _ -> _ => destruct c as [[e z1]|] end;
    [|discriminate].
  destruct (ZSTD_isError e) eqn:Ee.
  { intros [= <- <- <- <-]. split_and!; try assumption; try lia.
    intros Hr. now apply isError_not_zero in Ee. }
  destruct (ZSTDMT_flushProduced _ _ _ _) as [[[rem z2] out2]|]; [|discriminate].
  destruct (i_pos in0 <? i_size in0) eqn:Elt.
  - intros [= <- <- <- <-]. split_and!; try assumption; try lia.
    unfold MAX. destruct (rem >? 1) eqn:Eg; lia.
  - intros [= <- <- <- <-]. split_and!; try assumption; try lia.
Qed.

End EntryPointsAtWork.

(** ** The end of a frame *)

Lemma same_chunk_set_jobCompleted v j : same_chunk j (set_jobCompleted v j).
Proof. destruct j; repeat split. Qed.
Lemma same_chunk_set_dstFlushed v j : same_chunk j (set_dstFlushed v j).
Proof. destruct j; repeat split. Qed.
Lemma same_chunk_set_frameChecksumNeeded v j : same_chunk j (set_frameChecksumNeeded v j).
Proof. destruct j; repeat split. Qed.

Lemma insert_same_chunk (l : list ZSTDMT_jobDescription) (k i : nat) (j : ZSTDMT_jobDescription) :
  same_chunk (l !!! k) j -> same_chunk (l !!! i) (<[k := j]> l !!! i).
Proof.
  intros Hj. destruct (decide (i = k)) as [->|Hne].
  - destruct (decide (k < length l)%nat) as [Hlt|Hge].
    + rewrite list_lookup_total_insert_eq by exact Hlt. exact Hj.
    + rewrite list_insert_ge by lia. apply same_chunk_refl.
  - rewrite list_lookup_total_insert_ne by auto. apply same_chunk_refl.
Qed.

Section EndOfFrame.
Context {W : Type} `{ZSTD_constants} `{Sizeof} `{Allocator W} `{Compressor W} `{Hash}
  `{ThreadPool W} `{ThreadPoolAdmin W} `{Workers W}.
Hypothesis cond_wait_rely : forall s : mt.t W, worker_rely s (ZSTD_pthread_cond_wait s).
Implicit Types s z : mt.t W.

Lemma rely_same_chunk s s' :
  worker_rely s s' -> forall i : nat, same_chunk (mt.jobs s !!! i) (mt.jobs s' !!! i).
Proof.
  intros (_ & _ & _ & Hout & Hin & _) i.
  destruct (in_dec Nat.eq_dec i (mt.factory s)) as [Hi|Hi].
  - destruct (Hin i Hi) as (_ & E1 & _ & E2 & E3 & _). now repeat split.
  - rewrite (Hout i Hi). apply same_chunk_refl.
Qed.

Lemma frame_view_fields s s' :
  frame_view s' = frame_view s ->
  mt.singleBlockingThread s' = mt.singleBlockingThread s /\
  mt.frameEnded s' = mt.frameEnded s /\ mt.jobIDMask s' = mt.jobIDMask s.
Proof. unfold frame_view. intros [= -> -> ->]. now split_and!. Qed.

Lemma rely_frame_view s s' : worker_rely s s' -> frame_view s' = frame_view s.
Proof. intros (E & _). rewrite E. destruct s; reflexivity. Qed.

(** A flush that reports no error keeps the chunks and the end flag. *)
Lemma flushProduced_keeps_frame fuel z out block r z' out' :
  ZSTDMT_flushProduced fuel z out block = Some (r, z', out') ->
  ZSTD_isError r = false ->
  frame_view z' = frame_view z /\
  forall i : nat, same_chunk (mt.jobs z !!! i) (mt.jobs z' !!! i).
Proof.
  unfold ZSTDMT_flushProduced.
  set (w := Z.land (mt.doneJobID z) (mt.jobIDMask z)).
  destruct (flushProduced_wait fuel z w block) as [z1|] eqn:Ewait; [|discriminate].
  apply (flushProduced_wait_rely cond_wait_rely) in Ewait.
  pose proof (rely_same_chunk _ _ Ewait) as Hc1.
  pose proof (rely_frame_view _ _ Ewait) as Hv1.
  destruct (ZSTD_isError (cSize (job_at z1 w))) eqn:Eerr.
  { destruct (ZSTDMT_waitForAllJobsCompleted fuel z1); [|discriminate].
    intros [= <- <- <-] Hr. rewrite Hr in Eerr. discriminate. }
  assert (Hret : forall (zz : mt.t W) j,
            frame_view (snd (flushProduced_return zz j)) = frame_view zz /\
            mt.jobs (snd (flushProduced_return zz j)) = mt.jobs zz).
  { intros zz j. unfold flushProduced_return.
    repeat match goal with |- context [if ?c then _ else _] => destruct c end;
      destruct zz; cbn; split; reflexivity. }
  assert (Hcs : forall job1 zc, flushProduced_checksum z1 w (job_at z1 w) = (job1, zc) ->
            frame_view zc = frame_view z1 /\
            forall i : nat, same_chunk (mt.jobs z1 !!! i) (mt.jobs zc !!! i)).
  { unfold flushProduced_checksum. intros job1 zc.
    destruct (truthy _ && truthy _).
    - intros [= <- <-]. unfold job_at. destruct z1; mt_norm. split; [reflexivity|].
      intros i. eapply same_chunk_trans.
      2:{ apply insert_same_chunk. apply same_chunk_set_frameChecksumNeeded. }
      apply insert_same_chunk. apply same_chunk_set_cSize.
    - intros [= <- <-]. split; [reflexivity|]. intros i. apply same_chunk_refl. }
  destruct (flushProduced_checksum z1 w (job_at z1 w)) as [job1 zc] eqn:Ecs.
  destruct (Hcs job1 zc eq_refl) as [Hv2 Hc2]. clear Hcs Ecs.
  assert (Hcp : forall job2 z2 out2, flushProduced_copy zc out w job1 = (job2, z2, out2) ->
            frame_view z2 = frame_view zc /\
            forall i : nat, same_chunk (mt.jobs zc !!! i) (mt.jobs z2 !!! i)).
  { unfold flushProduced_copy. intros job2 z2 out2.
    destruct (start (dstBuff job1) =? NULL); cbn [negb].
    { intros [= <- <- <-]. split; [reflexivity|]. intros i. apply same_chunk_refl. }
    match goal with |- context [if ?c then _ else _] => destruct c end.
    - destruct (ZSTDMT_releaseBuffer _ _ _) as [bp w0].
      intros [= <- <- <-]. unfold job_at. destruct zc; mt_norm. split; [reflexivity|].
      intros i. eapply same_chunk_trans.
      2:{ apply insert_same_chunk. apply same_chunk_set_jobCompleted. }
      apply insert_same_chunk. apply same_chunk_set_dstBuff.
    - intros [= <- <- <-]. unfold job_at. destruct zc; mt_norm. split; [reflexivity|].
      intros i. apply insert_same_chunk. apply same_chunk_set_dstFlushed. }
  destruct (flushProduced_copy zc out w job1) as [[job2 z2] out2] eqn:Ecp.
  destruct (Hcp job2 z2 out2 eq_refl) as [Hv3 Hc3]. clear Hcp Ecp.
  destruct (Hret z2 job2) as [Hv4 Hj4].
  destruct (flushProduced_return z2 job2) as [r0 zr]. cbn [snd] in Hv4, Hj4.
  intros [= <- <- <-] _. split; [congruence|].
  intros i. rewrite Hj4. eauto using same_chunk_trans.
Qed.

(** What the preparation of the job that ends the frame leaves. *)
Lemma prepare_end fuel z jobID srcSize0 r :
  createCompressionJob_prepare fuel z jobID srcSize0 1 = Some r ->
  exists z', r = inr z' /\
    mt.jobs z' = <[Z.to_nat jobID := prepared_job z srcSize0 1]> (mt.jobs z) /\
    mt.singleBlockingThread z' = mt.singleBlockingThread z /\
    mt.jobIDMask z' = mt.jobIDMask z /\ mt.frameEnded z' = 1.
Proof.
  unfold createCompressionJob_prepare. change (truthy 1) with true. cbn [negb].
  destruct z; cbn.
  destruct (truthy (checksumFlag (fParams _))); cbn;
    destruct (nextJobID =? 0); cbn; intros [= <-]; eexists; split; try reflexivity;
    cbn; split_and!; reflexivity.
Qed.

Lemma post_frame_view z p :
  frame_view (snd (createCompressionJob_post z p)) = frame_view z /\
  mt.jobs (snd (createCompressionJob_post z p)) = mt.jobs z.
Proof.
  unfold createCompressionJob_post.
  destruct (POOL_tryAdd (mt.world z)) as [[] w]; destruct z; cbn; split; reflexivity.
Qed.

(** X23: in multi-threaded mode, on a context whose job table has the
    slot of nextJobID, when no prepared job is waiting for a worker and
    the ring has room, a call of ZSTDMT_endStream that returns
    no error has ended the frame: frameEnded is set, and
    ZSTDMT_compressStream_generic then refuses more input with stage_wrong
    and changes nothing.  If the frame was not ended before, the call has
    prepared, in the slot of nextJobID, a job marked as the last chunk for
    the bytes that were buffered behind the prefix (an empty job if there
    were none); that job is the first chunk as well if no job came before
    it. *)
Theorem endStream_ends_frame s fuel output r s' output' :
  let slot := Z.land (mt.nextJobID s) (mt.jobIDMask s) in
  (Z.to_nat slot < length (mt.jobs s))%nat ->
  truthy (mt.singleBlockingThread s) = false ->
  truthy (mt.jobReady s) = false ->
  mt.nextJobID s <= U32 (mt.doneJobID s + mt.jobIDMask s) ->
  ZSTDMT_endStream fuel s output = Some (r, s', output') ->
  ZSTD_isError r = false ->
  truthy (mt.frameEnded s') = true /\
  (forall fuel' output0 input,
     ZSTDMT_compressStream_generic fuel' s' output0 input ZSTD_e_continue
     = Some (ERROR stage_wrong, s', output0, input)) /\
  (truthy (mt.frameEnded s) = false ->
   lastChunk (job_at s' slot) = 1 /\
   srcSize (job_at s' slot) = size_t (filled (mt.inBuff s) - mt.prefixSize s) /\
   firstChunk (job_at s' slot) = c_bool (mt.nextJobID s =? 0)).
Proof.
  intros slot Hlt Hmt Hready Hroom Hend Hok.
  unfold ZSTDMT_endStream in Hend. rewrite Hmt in Hend.
  unfold ZSTDMT_flushStream_internal in Hend. cbv zeta in Hend.
  rewrite Hready in Hend. change (truthy 1) with true in Hend. cbn [orb andb] in Hend.
  set (n := size_t (filled (mt.inBuff s) - mt.prefixSize s)) in *.
  assert (Hgen : forall z : mt.t W, truthy (mt.singleBlockingThread z) = false ->
            truthy (mt.frameEnded z) = true ->
            forall fuel' output0 input,
              ZSTDMT_compressStream_generic fuel' z output0 input ZSTD_e_continue
              = Some (ERROR stage_wrong, z, output0, input)).
  { intros z Hz1 Hz2 fuel' o i. unfold ZSTDMT_compressStream_generic.
    rewrite Hz1, Hz2. reflexivity. }
  destruct ((n >? 0) || negb (truthy (mt.frameEnded s))) eqn:Ecreate.
  - unfold ZSTDMT_createCompressionJob in Hend. fold slot in Hend.
    assert (Hguard : (mt.nextJobID s >? U32 (mt.doneJobID s + mt.jobIDMask s)) = false) by lia.
    rewrite Hguard, Hready in Hend. cbn [negb] in Hend.
    destruct (createCompressionJob_prepare fuel s slot n 1) as [p|] eqn:Eprep; [|discriminate].
    destruct (prepare_end fuel s slot n p Eprep) as (z1 & -> & Hj1 & Hs1 & Hm1 & Hf1).
    destruct (post_frame_view z1 slot) as [Hv2 Hj2].
    pose proof (post_ret z1 slot) as Hr2.
    destruct (createCompressionJob_post z1 slot) as [r2 z2]. cbn [fst snd] in Hv2, Hj2, Hr2.
    subst r2. change (ZSTD_isError 0) with false in Hend. cbv iota in Hend.
    destruct (flushProduced_keeps_frame fuel z2 output 1 r s' output' Hend Hok) as [Hv3 Hc3].
    apply frame_view_fields in Hv2 as (V1 & V2 & V3).
    apply frame_view_fields in Hv3 as (V4 & V5 & V6).
    assert (Hs' : mt.singleBlockingThread s' = mt.singleBlockingThread s) by congruence.
    assert (Hf' : mt.frameEnded s' = 1) by congruence.
    assert (Hm' : mt.jobIDMask s' = mt.jobIDMask s) by congruence.
    assert (He : truthy (mt.frameEnded s') = true) by (rewrite Hf'; reflexivity).
    split; [exact He|]. split; [apply Hgen; [now rewrite Hs'|exact He]|].
    intros _. specialize (Hc3 (Z.to_nat slot)). rewrite Hj2, Hj1 in Hc3.
    rewrite list_lookup_total_insert_eq in Hc3 by exact Hlt.
    destruct Hc3 as (E1 & E2 & E3). unfold job_at. rewrite E1, E2, E3.
    split_and!; reflexivity.
  - apply orb_false_iff in Ecreate as [_ He0]. apply negb_false_iff in He0.
    change (ZSTD_isError 0) with false in Hend. cbv iota in Hend.
    destruct (flushProduced_keeps_frame fuel s output 1 r s' output' Hend Hok) as [Hv3 _].
    apply frame_view_fields in Hv3 as (V4 & V5 & V6).
    assert (Hs' : mt.singleBlockingThread s' = mt.singleBlockingThread s) by congruence.
    assert (Hf' : mt.frameEnded s' = mt.frameEnded s) by congruence.
    assert (He : truthy (mt.frameEnded s') = true) by (rewrite Hf'; exact He0).
    split; [exact He|]. split; [apply Hgen; [now rewrite Hs'|exact He]|].
    intros Hne. rewrite Hne in He0. discriminate.
Qed.

End EndOfFrame.

(** ** The properties at work on the toy context *)

(** Closed facts are settled by evaluation. *)
Ltac by_compute :=
  solve [ repeat match goal with H : _ |- _ => clear H end;
          vm_compute; repeat split;
          first [reflexivity | discriminate | intro; discriminate | repeat constructor] ].

(** C1 at work: a last chunk of one block and five bytes ends with a block
    of five bytes. *)
Lemma compressChunk_last_block_witness :
  exists cctx dst dstCapacity src ret,
    last (block_calls (snd (w_world (ZSTDMT_compressChunk (toy_worker (2 ^ 17 + 5))))))
    = Some (call_compressEnd cctx dst dstCapacity src 5 ret).
Proof.
  destruct (compressChunk_last_block (toy_worker (2 ^ 17 + 5)))
    as (cctx & dst & dstCapacity & src & ret & E); try by_compute.
  exists cctx, dst, dstCapacity, src, ret. exact E.
Defined.

(** C1 as the specification has it fails: a last chunk of exactly one block
    ends with a block of [ZSTD_BLOCKSIZE_MAX] bytes, not with an empty
    one. *)
Lemma last_block_of_full_chunk_not_empty :
  truthy (lastChunk (w_job (toy_worker (2 ^ 17)))) = true /\
  srcSize (w_job (toy_worker (2 ^ 17))) mod ZSTD_BLOCKSIZE_MAX = 0 /\
  last (block_calls (snd (w_world (ZSTDMT_compressChunk (toy_worker (2 ^ 17))))))
  = Some (call_compressEnd 1024 4096 263232 1048576 131072 131075).
Proof. vm_compute. repeat split. Qed.

(** C2 at work: two chunks for [2 ^ 18 + 2] bytes. *)
Lemma avgChunkSize_adjustment_witness : avgChunkSize (2 ^ 18 + 2) 2 = 131073 + 0xFFFF.
Proof.
  exact (proj2 (proj2 (avgChunkSize_adjustment (2 ^ 18 + 2) 2 ltac:(lia) ltac:(lia)))).
Defined.

(** C6 at work: one gigabyte, a window of [2 ^ 17] bytes, two threads. *)
Lemma computeNbChunks_formula_witness : ZSTDMT_computeNbChunks (2 ^ 30) 17 2 = 514.
Proof.
  pose proof (computeNbChunks_formula (2 ^ 30) 17 2) as Hw. cbv zeta in Hw.
  apply Hw; by_compute.
Defined.

(** C5 at work: the cached buffer of [toy_bufPool] is within the band. *)
Lemma getBuffer_size_band_witness :
  exists pool' w',
    ZSTDMT_getBuffer toy_bufPool ((toy_world0, []) : logged toy_world)
    = ({| start := 8192; size := 128 |}, pool', (w', [])).
Proof.
  destruct (ZSTDMT_getBuffer toy_bufPool ((toy_world0, []) : logged toy_world))
    as [[buf pool'] [w' log]] eqn:E.
  destruct (getBuffer_size_band toy_bufPool pool' toy_world0 w' buf log
              ltac:(by_compute) E) as (Hband & _).
  destruct (proj2 (Hband ltac:(by_compute))) as [-> ->]; [by_compute|].
  exists pool', w'. reflexivity.
Defined.

(** C8 at work: the frame of [toy_posted] is ended. *)
Lemma compressStream_after_end_witness :
  ZSTDMT_compressStream_generic 1 toy_posted toy_output toy_input ZSTD_e_continue
  = Some (ERROR stage_wrong, toy_posted, toy_output, toy_input).
Proof.
  apply (compressStream_after_end 1 toy_posted toy_output toy_input); by_compute.
Defined.

Lemma toy_cond_wait_rely :
  forall s : mt.t toy_world, worker_rely s (ZSTD_pthread_cond_wait s).
Proof. exact eager_workers_rely. Qed.

Lemma toy_zcs_disciplined : disciplined toy_zcs.
Proof.
  unfold toy_zcs.
  assert (H0 : disciplined toy_zcs0).
  { unfold toy_zcs0, toy_created.
    destruct (ZSTDMT_createCCtx_advanced 2 toy_mem toy_world0) as [z|] eqn:E.
    - eapply disc_fresh; [|exact E]. by_compute.
    - exfalso. revert E. by_compute. }
  destruct (ZSTDMT_initCStream_internal _ _ _ _ _ _ _ _) as [[r z]|] eqn:E; [|exact H0].
  eapply disc_init; [exact H0|exact E].
Qed.

Lemma toy_filled_disciplined : disciplined toy_filled.
Proof.
  unfold toy_filled.
  destruct (compressStream_fill toy_zcs toy_input ZSTD_e_end) as [[r z]|[[[z i] p] e]] eqn:E.
  - exact toy_zcs_disciplined.
  - eapply disc_fill; [exact toy_zcs_disciplined|exact E].
Qed.

Lemma toy_posted_disciplined : disciplined toy_posted.
Proof.
  unfold toy_posted.
  destruct (ZSTDMT_createCompressionJob 1 toy_filled 10 1) as [[r z]|] eqn:E;
    [|exact toy_filled_disciplined].
  eapply disc_job; [exact toy_filled_disciplined| | |exact E]; by_compute.
Qed.

Lemma toy_worked_disciplined : disciplined toy_worked.
Proof.
  eapply (disc_workers toy_posted); [exact toy_posted_disciplined|apply toy_cond_wait_rely].
Qed.



(** C7 as the specification has it fails: on [toy_restarted_flushed] the
    current slot is slot 1, which holds the job of the input that was given
    after the end of the first frame; no byte of it remains to be flushed,
    no job is queued or ready and the input buffer is empty, and
    ZSTDMT_flushProduced returns 1, not 0, because the job has not consumed
    its input. *)
Lemma flushProduced_returns_1_for_unfinished_job :
  Z.land (mt.doneJobID toy_restarted_flushed) (mt.jobIDMask toy_restarted_flushed) = 1 /\
  match ZSTDMT_flushProduced 1 toy_restarted_flushed toy_sink 0 with
  | Some (r, _, _) => r
  | None => 0
  end = 1 /\
  cSize (job_at toy_stalled 1) = dstFlushed (job_at toy_stalled 1) /\
  mt.doneJobID toy_stalled = mt.nextJobID toy_stalled /\
  truthy (mt.jobReady toy_stalled) = false /\
  filled (mt.inBuff toy_stalled) = 0 /\
  srcSize (job_at toy_stalled 1) = 10 /\ consumed (job_at toy_stalled 1) = 0.
Proof. by_compute. Qed.

(** C7 at work: five of the thirteen bytes of the job of [toy_worked] fit
    the output, eight remain. *)
Lemma flushProduced_return_value_witness :
  exists r s' output',
    ZSTDMT_flushProduced 1 toy_worked toy_output 0 = Some (r, s', output') /\
    r = 8 /\
    cSize (job_at s' 0) - dstFlushed (job_at s' 0) = 8 /\
    mt.allJobsCompleted s' = mt.allJobsCompleted toy_worked.
Proof.
  assert (Hsome : match ZSTDMT_flushProduced 1 toy_worked toy_output 0 with
                  | Some _ => true
                  | None => false
                  end = true) by by_compute.
  destruct (ZSTDMT_flushProduced 1 toy_worked toy_output 0) as [[[r s'] o']|] eqn:E;
    [clear Hsome|discriminate Hsome].
  assert (Hr : r = 8).
  { apply (f_equal (fun x => match x with Some (r, _, _) => r | None => 0 end)) in E.
    rewrite <- E. by_compute. }
  assert (Hd : mt.doneJobID s' = 0).
  { apply (f_equal (fun x => match x with Some (_, s, _) => mt.doneJobID s | None => 0 end)) in E.
    rewrite <- E. by_compute. }
  assert (Hc : cSize (job_at s' 0) = 13).
  { apply (f_equal (fun x => match x with Some (_, s, _) => cSize (job_at s 0) | None => 0 end)) in E.
    rewrite <- E. by_compute. }
  assert (Hf : dstFlushed (job_at s' 0) = 5).
  { apply (f_equal (fun x => match x with Some (_, s, _) => dstFlushed (job_at s 0) | None => 0 end)) in E.
    rewrite <- E. by_compute. }
  exists r, s', o'. split; [reflexivity|].
  assert (Hok : ZSTD_isError r = false) by (rewrite Hr; by_compute).
  pose proof (flushProduced_return_value toy_cond_wait_rely toy_worked 1 toy_output 0 r s' o')
    as Hv.
  cbv zeta in Hv. specialize (Hv ltac:(by_compute) E Hok).
  destruct Hv as (Hret & Hall & _ & Hpos).
  assert (Hw : Z.land (mt.doneJobID toy_worked) (mt.jobIDMask toy_worked) = 0) by by_compute.
  assert (Hd0 : mt.doneJobID toy_worked = 0) by by_compute.
  rewrite Hw, Hd0, Hd, Hc, Hf in *.
  split; [exact Hr|]. split; [lia|].
  exact Hall.
Defined.



(** X1 at work: [toy_buffer] goes into the empty pool and comes back. *)
Lemma releaseBuffer_getBuffer_roundtrip_witness :
  ZSTDMT_getBuffer (fst (ZSTDMT_releaseBuffer toy_emptyPool toy_buffer toy_world0))
                   (snd (ZSTDMT_releaseBuffer toy_emptyPool toy_buffer toy_world0)) =
    (toy_buffer, set_slot 0 g_nullBuffer 0 toy_emptyPool, toy_world0).
Proof.
  apply (releaseBuffer_getBuffer_roundtrip toy_emptyPool toy_buffer toy_world0); by_compute.
Defined.

(** X2 at work: the empty pool of a context for two threads. *)
Lemma bufferPool_within_capacity_witness :
  pool_fits toy_emptyPool /\
  nbBuffers (fst (ZSTDMT_releaseBuffer toy_emptyPool toy_buffer
                    ((toy_world0, []) : logged toy_world))) <= 1.
Proof.
  assert (Hfit : pool_fits toy_emptyPool) by by_compute.
  split; [exact Hfit|].
  destruct (bufferPool_within_capacity toy_emptyPool toy_buffer
              ((toy_world0, []) : logged toy_world) Hfit) as (_ & _ & _ & Hn & _).
  exact (proj2 Hn).
Defined.

(** X3 at work: a context goes into the free slot of [toy_cctxPool] and
    comes back. *)
Lemma releaseCCtx_getCCtx_roundtrip_witness :
  ZSTDMT_getCCtx (fst (ZSTDMT_releaseCCtx toy_cctxPool 2048 ((toy_world0, []) : logged toy_world)))
                 (snd (ZSTDMT_releaseCCtx toy_cctxPool 2048 ((toy_world0, []) : logged toy_world)))
  = (2048, {| totalCCtx := 2; availCCtx := 1; cctx := [1024; 2048] |}, (toy_world0, [])).
Proof.
  apply (releaseCCtx_getCCtx_roundtrip toy_cctxPool 2048 ((toy_world0, []) : logged toy_world));
    by_compute.
Defined.

(** X4 at work: a job size of five bytes is raised to [ZSTDMT_JOBSIZE_MIN]. *)
Lemma setMTCtxParameter_clamps_witness :
  fst (ZSTDMT_setMTCtxParameter toy_zcs0 ZSTDMT_p_jobSize 5) = 2 ^ 20.
Proof.
  assert (Hv : 0 <= 5 < 2 ^ 32) by lia.
  assert (Hmin : 0 <= ZSTDMT_JOBSIZE_MIN < 2 ^ 32) by by_compute.
  pose proof (setMTCtxParameter_clamps toy_zcs0 ZSTDMT_p_jobSize 5 Hv Hmin) as Hw.
  cbv beta iota zeta in Hw. destruct Hw as [Hr _].
  exact Hr.
Defined.

(** X6 at work: a worker in a world without memory. *)
Lemma compressChunk_without_resources_witness :
  cSize (w_job (ZSTDMT_compressChunk toy_starved)) = ERROR memory_allocation /\
  block_calls (snd (w_world (ZSTDMT_compressChunk toy_starved))) = [].
Proof.
  destruct (compressChunk_without_resources toy_starved) as (Hc & _ & Hb & _).
  - right. by_compute.
  - split; [exact Hc|exact Hb].
Defined.

(** X7 at work: a chunk of one block and five bytes is handed over in two
    blocks. *)
Lemma compressChunk_blocks_cover_witness :
  exists data,
    block_calls (snd (w_world (ZSTDMT_compressChunk (toy_worker (2 ^ 17 + 5))))) = data /\
    sum_of call_srcSize data = 2 ^ 17 + 5.
Proof.
  pose proof (compressChunk_blocks_cover (toy_worker (2 ^ 17 + 5))) as Hw.
  do 4 specialize (Hw ltac:(by_compute)). cbv zeta in Hw.
  specialize (Hw ltac:(by_compute)).
  destruct Hw as (hdr & data & Hlog & Hhdr & _ & Hsum & _).
  assert (Hfirst : truthy (firstChunk (w_job (toy_worker (2 ^ 17 + 5)))) = true) by by_compute.
  rewrite Hfirst in Hhdr. subst hdr.
  exists data. split; [exact Hlog|exact Hsum].
Defined.

(** X8 at work: the context for two threads has a table of eight slots. *)
Lemma createCCtx_advanced_result_witness :
  exists s, ZSTDMT_createCCtx_advanced 2 toy_mem toy_world0 = Some s /\
    4 < mt.jobIDMask s + 1 <= 8 /\ mt.allJobsCompleted s = 1.
Proof.
  destruct (ZSTDMT_createCCtx_advanced 2 toy_mem toy_world0) as [s|] eqn:E.
  - exists s. split; [reflexivity|].
    destruct (proj2 (createCCtx_advanced_result 2 toy_mem toy_world0 ltac:(lia)) s E)
      as (_ & _ & _ & _ & Hm & _ & _ & _ & _ & _ & _ & _ & _ & _ & _ & Ha & _).
    split; [exact Hm|exact Ha].
  - exfalso. revert E. by_compute.
Defined.

Lemma toy_zcs0_disciplined : disciplined toy_zcs0.
Proof.
  unfold toy_zcs0, toy_created.
  destruct (ZSTDMT_createCCtx_advanced 2 toy_mem toy_world0) as [z|] eqn:E.
  - eapply disc_fresh; [|exact E]. by_compute.
  - exfalso. revert E. by_compute.
Qed.

Lemma toy_filled_full_disciplined : disciplined toy_filled_full.
Proof. apply disc_single_thread. exact toy_filled_disciplined. Qed.

Lemma toy_failed_disciplined : disciplined toy_failed.
Proof.
  eapply (disc_workers toy_posted_full); [|apply toy_cond_wait_rely].
  apply disc_single_thread. exact toy_posted_disciplined.
Qed.

Lemma toy_inv (s : mt.t toy_world) : disciplined s -> mt_inv s.
Proof. apply disciplined_inv. exact toy_cond_wait_rely. Qed.

(** X9 at work: the job of [toy_worked] is complete and has consumed its
    ten bytes. *)
Lemma protocol_keeps_slots_discipline_witness :
  consumed (mt.jobs toy_worked !!! 0%nat) = srcSize (mt.jobs toy_worked !!! 0%nat).
Proof.
  destruct (protocol_keeps_slots_discipline toy_cond_wait_rely toy_worked toy_worked_disciplined)
    as (_ & _ & Hc & _).
  apply Hc. by_compute.
Defined.

(** X10 at work: the job of [toy_failed] found no memory; the flush
    reports it and leaves the output alone. *)
Lemma flushProduced_reports_job_error_witness :
  exists s',
    ZSTDMT_flushProduced 1 toy_failed toy_output 0
    = Some (ERROR memory_allocation, s', toy_output) /\
    mt.allJobsCompleted s' = 1.
Proof.
  assert (Hsome : match ZSTDMT_flushProduced 1 toy_failed toy_output 0 with
                  | Some _ => true
                  | None => false
                  end = true) by by_compute.
  destruct (ZSTDMT_flushProduced 1 toy_failed toy_output 0) as [[[r s'] o']|] eqn:E;
    [clear Hsome|discriminate Hsome].
  pose proof (flushProduced_reports_job_error toy_cond_wait_rely toy_failed 1 toy_output 0
                r s' o') as Hw.
  cbv zeta in Hw. specialize (Hw (toy_inv _ toy_failed_disciplined)).
  do 2 specialize (Hw ltac:(by_compute)). specialize (Hw E).
  destruct Hw as (Hr & Ho & _ & _ & _ & _ & Ha & _).
  assert (Hc : cSize (job_at toy_failed (Z.land (mt.doneJobID toy_failed)
                                           (mt.jobIDMask toy_failed)))
               = ERROR memory_allocation) by by_compute.
  exists s'. rewrite Hr, Ho, Hc. split; [reflexivity|exact Ha].
Defined.

(** X11 at work: no buffer can be had for the input that follows the job. *)
Lemma createCompressionJob_error_resets_witness :
  exists s',
    ZSTDMT_createCompressionJob 1 toy_filled_full 10 0 = Some (ERROR memory_allocation, s') /\
    mt.doneJobID s' = 1 /\ mt.nextJobID s' = 1 /\ mt.allJobsCompleted s' = 1.
Proof.
  assert (Hsome : match ZSTDMT_createCompressionJob 1 toy_filled_full 10 0 with
                  | Some _ => true
                  | None => false
                  end = true) by by_compute.
  destruct (ZSTDMT_createCompressionJob 1 toy_filled_full 10 0) as [[r s']|] eqn:E;
    [clear Hsome|discriminate Hsome].
  assert (Hr : r <> 0).
  { apply (f_equal (fun x => match x with Some (r, _) => r | None => 0 end)) in E.
    rewrite <- E. by_compute. }
  pose proof (createCompressionJob_error_resets toy_cond_wait_rely toy_filled_full 1 10 0 r s'
                (toy_inv _ toy_filled_full_disciplined)) as Hw.
  specialize (Hw ltac:(by_compute) E Hr).
  destruct Hw as (Hm & _ & _ & _ & _ & Hd & Hn & Ha & _).
  assert (Hn0 : mt.nextJobID toy_filled_full = 0) by by_compute.
  rewrite Hn0 in Hd, Hn.
  exists s'. rewrite Hm. split; [reflexivity|]. split; [exact Hd|]. split; [exact Hn|exact Ha].
Defined.

(** X12 at work: the stream of [toy_zcs], with an unknown content size. *)
Lemma initCStream_multithread_sizes_witness :
  exists z',
    ZSTDMT_initCStream_internal 1 toy_zcs0 NULL 0 ZSTD_dm_auto NULL toy_params
      ZSTD_CONTENTSIZE_UNKNOWN = Some (0, z') /\
    mt.singleBlockingThread z' = 0 /\
    mt.inBuffSize z' = size_t (mt.targetPrefixSize z' + mt.targetSectionSize z').
Proof.
  assert (Hsome : match ZSTDMT_initCStream_internal 1 toy_zcs0 NULL 0 ZSTD_dm_auto NULL
                          toy_params ZSTD_CONTENTSIZE_UNKNOWN with
                  | Some (r, _) => r =? 0
                  | None => false
                  end = true) by by_compute.
  destruct (ZSTDMT_initCStream_internal 1 toy_zcs0 NULL 0 ZSTD_dm_auto NULL toy_params
              ZSTD_CONTENTSIZE_UNKNOWN) as [[r z']|] eqn:E; [|discriminate Hsome].
  apply Z.eqb_eq in Hsome. subst r.
  pose proof (initCStream_multithread_sizes toy_cond_wait_rely 1 toy_zcs0 NULL 0 ZSTD_dm_auto
                NULL toy_params ZSTD_CONTENTSIZE_UNKNOWN z') as Hw.
  do 3 specialize (Hw ltac:(by_compute)). specialize (Hw E).
  destruct Hw as (Hs & _ & _ & Hin & _).
  exists z'. split; [reflexivity|]. split; [exact Hs|exact Hin].
Defined.

(** X13 at work: the prefix of the stream of [toy_zcs]. *)
Lemma streaming_prefix_is_oneshot_overlap_witness :
  exists z',
    ZSTDMT_initCStream_internal 1 toy_zcs0 NULL 0 ZSTD_dm_auto NULL toy_params
      ZSTD_CONTENTSIZE_UNKNOWN = Some (0, z') /\
    mt.targetPrefixSize z' = overlapSize (mt.params z').
Proof.
  assert (Hsome : match ZSTDMT_initCStream_internal 1 toy_zcs0 NULL 0 ZSTD_dm_auto NULL
                          toy_params ZSTD_CONTENTSIZE_UNKNOWN with
                  | Some (r, _) => r =? 0
                  | None => false
                  end = true) by by_compute.
  destruct (ZSTDMT_initCStream_internal 1 toy_zcs0 NULL 0 ZSTD_dm_auto NULL toy_params
              ZSTD_CONTENTSIZE_UNKNOWN) as [[r z']|] eqn:E; [|discriminate Hsome].
  apply Z.eqb_eq in Hsome. subst r.
  pose proof (streaming_prefix_is_oneshot_overlap toy_cond_wait_rely 1 toy_zcs0 NULL 0
                ZSTD_dm_auto NULL toy_params ZSTD_CONTENTSIZE_UNKNOWN z') as Hw.
  do 2 specialize (Hw ltac:(by_compute)). specialize (Hw E).
  exists z'. split; [reflexivity|exact (proj1 Hw)].
Defined.

(** X14 at work: a stream of a hundred bytes. *)
Lemma initCStream_small_input_is_delegated_witness :
  exists r z',
    ZSTDMT_initCStream_internal 1 toy_zcs0 NULL 0 ZSTD_dm_auto NULL toy_params 100
    = Some (r, z') /\
    mt.singleBlockingThread z' = 1 /\ mt.params z' = mt.params toy_zcs0.
Proof.
  assert (Hp : 100 <= ZSTDMT_JOBSIZE_MIN) by by_compute.
  pose proof (initCStream_small_input_is_delegated 1 toy_zcs0 NULL 0 ZSTD_dm_auto NULL
                toy_params 100 Hp) as Hw.
  cbv zeta in Hw. destruct Hw as (E & Hs & _ & _ & Hpar & _).
  eexists _, _. split; [exact E|]. split; [exact Hs|exact Hpar].
Defined.

(** X15 at work: without a dictionary, and with the dictionary at 4096. *)
Lemma initCStream_usingCDict_result_witness :
  ZSTDMT_initCStream_usingCDict 1 toy_zcs0 NULL (fParams toy_params) ZSTD_CONTENTSIZE_UNKNOWN
  = Some (ERROR dictionary_wrong, toy_zcs0) /\
  exists z',
    ZSTDMT_initCStream_usingCDict 1 toy_zcs0 4096 (fParams toy_params)
      ZSTD_CONTENTSIZE_UNKNOWN = Some (0, z') /\
    mt.cdict z' = 4096 /\ windowLog (cParams (mt.params z')) = 17.
Proof.
  split.
  - exact (proj1 (initCStream_usingCDict_result toy_cond_wait_rely 1 toy_zcs0 NULL
                    (fParams toy_params) ZSTD_CONTENTSIZE_UNKNOWN) eq_refl).
  - assert (Hsome : match ZSTDMT_initCStream_usingCDict 1 toy_zcs0 4096 (fParams toy_params)
                            ZSTD_CONTENTSIZE_UNKNOWN with
                    | Some _ => true
                    | None => false
                    end = true) by by_compute.
    destruct (ZSTDMT_initCStream_usingCDict 1 toy_zcs0 4096 (fParams toy_params)
                ZSTD_CONTENTSIZE_UNKNOWN) as [[r z']|] eqn:E; [clear Hsome|discriminate Hsome].
    pose proof (proj2 (initCStream_usingCDict_result toy_cond_wait_rely 1 toy_zcs0 4096
                         (fParams toy_params) ZSTD_CONTENTSIZE_UNKNOWN) r z') as Hw.
    do 2 specialize (Hw ltac:(by_compute)). specialize (Hw E).
    destruct Hw as (Hr & Hc & _ & Hcp & _).
    exists z'. rewrite Hr. split; [reflexivity|]. split; [exact Hc|].
    rewrite Hcp. reflexivity.
Defined.

(** X16 at work: a job size of five bytes, then a stream at level 3. *)
Lemma jobSize_parameter_reaches_stream_witness :
  exists z',
    ZSTDMT_initCStream 1 (snd (ZSTDMT_setMTCtxParameter toy_zcs0 ZSTDMT_p_jobSize 5)) 3
    = Some (0, z') /\
    jobSize (mt.params z') = 2 ^ 20 /\ mt.singleBlockingThread z' = 0.
Proof.
  assert (Hsome : match ZSTDMT_initCStream 1
                          (snd (ZSTDMT_setMTCtxParameter toy_zcs0 ZSTDMT_p_jobSize 5)) 3 with
                  | Some _ => true
                  | None => false
                  end = true) by by_compute.
  destruct (ZSTDMT_initCStream 1 (snd (ZSTDMT_setMTCtxParameter toy_zcs0 ZSTDMT_p_jobSize 5)) 3)
    as [[r z']|] eqn:E; [clear Hsome|discriminate Hsome].
  assert (Hv : 0 < 5 < 2 ^ 32) by lia.
  pose proof (jobSize_parameter_reaches_stream toy_cond_wait_rely 1 toy_zcs0 5 3 r z' Hv) as Hw.
  do 2 specialize (Hw ltac:(by_compute)). specialize (Hw E).
  destruct Hw as (Hr & Hs & Hj & _).
  assert (Hjv : Z.min (Z.max 5 ZSTDMT_JOBSIZE_MIN) ZSTDMT_JOBSIZE_MAX = 2 ^ 20) by by_compute.
  rewrite Hjv in Hj.
  exists z'. rewrite Hr. split; [reflexivity|]. split; [exact Hj|exact Hs].
Defined.

(** X17 at work: the ten bytes of [toy_input] are loaded into a buffer
    taken from the pool. *)
Lemma compressStream_fill_loads_witness :
  exists z' endOp',
    compressStream_fill toy_zcs toy_input ZSTD_e_end
    = inr (z', set_i_pos 10 toy_input, 1, endOp') /\
    filled (mt.inBuff z') = 10 /\
    mt.memory z' (start (buffer (mt.inBuff z')) + 3) = mt.memory toy_zcs (2 ^ 21 + 3).
Proof.
  assert (Hsome : match compressStream_fill toy_zcs toy_input ZSTD_e_end with
                  | inr (z, _, _, _) => negb (start (buffer (mt.inBuff z)) =? NULL)
                  | inl _ => false
                  end = true) by by_compute.
  destruct (compressStream_fill toy_zcs toy_input ZSTD_e_end) as [e|[[[z' input'] progress] endOp']]
    eqn:E; [discriminate Hsome|].
  apply negb_true_iff in Hsome.
  assert (Hnull : start (buffer (mt.inBuff toy_zcs)) = NULL) by by_compute.
  pose proof (compressStream_fill_loads toy_zcs toy_input ZSTD_e_end z' input' progress endOp')
    as Hw.
  do 4 specialize (Hw ltac:(by_compute)).
  specialize (Hw ltac:(intros Hn; exfalso; exact (Hn Hnull)) E).
  cbv zeta in Hw. rewrite Hsome, Hnull in Hw. change (NULL =? NULL) with true in Hw.
  cbv beta iota in Hw.
  assert (Hload : Z.min (i_size toy_input - i_pos toy_input) (mt.inBuffSize toy_zcs - 0) = 10)
    by by_compute.
  rewrite Hload in Hw.
  destruct Hw as (_ & Hin & Hf & Hp & Hcopy & _).
  exists z', endOp'. rewrite Hin, Hp. split; [reflexivity|]. split; [exact Hf|].
  specialize (Hcopy 3 ltac:(lia)).
  rewrite Z.add_0_r in Hcopy. exact Hcopy.
Defined.

(** X18 at work: five of the thirteen bytes of the job of [toy_worked]
    fit [toy_output]. *)
Lemma flushProduced_copies_job_witness :
  exists r s',
    ZSTDMT_flushProduced 1 toy_worked toy_output 0 = Some (r, s', set_o_pos 5 toy_output) /\
    dstFlushed (job_at s' 0) = 5 /\
    mt.memory s' (2 ^ 22 + 4) = mt.memory toy_worked (start (dstBuff (job_at toy_worked 0)) + 4).
Proof.
  assert (Hsome : match ZSTDMT_flushProduced 1 toy_worked toy_output 0 with
                  | Some _ => true
                  | None => false
                  end = true) by by_compute.
  destruct (ZSTDMT_flushProduced 1 toy_worked toy_output 0) as [[[r s'] o']|] eqn:E;
    [clear Hsome|discriminate Hsome].
  pose proof (flushProduced_copies_job toy_worked 1 toy_output 0 r s' o') as Hw.
  cbv zeta in Hw.
  specialize (Hw ltac:(by_compute) ltac:(left; reflexivity)).
  do 7 specialize (Hw ltac:(by_compute)). specialize (Hw E).
  assert (Hslot : Z.land (mt.doneJobID toy_worked) (mt.jobIDMask toy_worked) = 0) by by_compute.
  rewrite Hslot in Hw.
  assert (Hc : cSize (job_at toy_worked 0) = 13) by by_compute.
  assert (Hd : dstFlushed (job_at toy_worked 0) = 0) by by_compute.
  assert (Hj : truthy (jobCompleted (job_at toy_worked 0)) = true) by by_compute.
  rewrite Hc, Hd, Hj in Hw.
  change (Z.min (13 - 0) (o_size toy_output - o_pos toy_output)) with 5 in Hw.
  change (true && (0 + 5 =? 13)) with false in Hw. cbv iota in Hw.
  destruct Hw as (Ho & Hcopy & _ & _ & Hf & _).
  exists r, s'. rewrite Ho. split; [reflexivity|]. split; [exact Hf|].
  specialize (Hcopy 4 ltac:(lia)). rewrite Z.add_0_r in Hcopy. exact Hcopy.
Defined.

(** X19 at work: two chunks for [2 ^ 18 + 2] bytes. *)
Lemma oneshot_dispatch_partitions_witness :
  exists d' z',
    oneshot_dispatch 2 0 2 0 (avgChunkSize (2 ^ 18 + 2) 2) 1024 (2 ^ 22) (2 ^ 21) (2 ^ 18 + 2)
      NULL toy_params toy_params
      {| remainingSrcSize := 2 ^ 18 + 2; frameStartPos := 0; dstBufferPos := 0;
         xxh64 := XXH64_reset 0 |} toy_zcs0 = (d', z') /\
    remainingSrcSize d' = 0 /\
    srcSize (job_at z' 0) + srcSize (job_at z' 1) = 2 ^ 18 + 2.
Proof.
  destruct (oneshot_dispatch 2 0 2 0 (avgChunkSize (2 ^ 18 + 2) 2) 1024 (2 ^ 22) (2 ^ 21)
              (2 ^ 18 + 2) NULL toy_params toy_params
              {| remainingSrcSize := 2 ^ 18 + 2; frameStartPos := 0; dstBufferPos := 0;
                 xxh64 := XXH64_reset 0 |} toy_zcs0) as [d' z'] eqn:E.
  pose proof (oneshot_dispatch_partitions 2 0 1024 (2 ^ 22) (2 ^ 21) (2 ^ 18 + 2) NULL
                toy_params toy_params (XXH64_reset 0) toy_zcs0 d' z') as Hw.
  cbv zeta in Hw.
  specialize (Hw ltac:(lia) ltac:(lia) ltac:(lia) ltac:(by_compute) E).
  destruct Hw as (Hrem & _ & Hmin & _ & Hjobs).
  destruct (Hjobs 0 ltac:(lia)) as (_ & H0 & _).
  destruct (Hjobs 1 ltac:(lia)) as (_ & H1 & _).
  exists d', z'. split; [reflexivity|]. split; [exact Hrem|].
  rewrite H0, H1. change (1 + 1) with 2. rewrite Hmin. cbn [Z.mul]. lia.
Defined.

(** X20 at work: the progression of [toy_worked] before and after five
    bytes are flushed. *)
Lemma frameProgression_kept_by_flush_witness :
  exists r s' output',
    ZSTDMT_flushProduced 1 toy_worked toy_output 0 = Some (r, s', output') /\
    ZSTDMT_getFrameProgression s' = ZSTDMT_getFrameProgression toy_worked.
Proof.
  assert (Hsome : match ZSTDMT_flushProduced 1 toy_worked toy_output 0 with
                  | Some _ => true
                  | None => false
                  end = true) by by_compute.
  destruct (ZSTDMT_flushProduced 1 toy_worked toy_output 0) as [[[r s'] o']|] eqn:E;
    [clear Hsome|discriminate Hsome].
  pose proof (frameProgression_kept_by_flush toy_worked 1 toy_output 0 r s' o') as Hw.
  cbv zeta in Hw.
  specialize (Hw (toy_inv _ toy_worked_disciplined) ltac:(left; reflexivity)).
  do 4 specialize (Hw ltac:(by_compute)). specialize (Hw E).
  exists r, s', o'. split; [reflexivity|exact Hw].
Defined.

(** X21 at work: [2 ^ 16] bytes compressed at once, in two chunks. *)
Lemma compressCCtx_leaves_ring_at_rest_witness :
  exists r s',
    ZSTDMT_compressCCtx 4 toy_zcs0 (2 ^ 22) (2 ^ 20) (2 ^ 21) (2 ^ 16) 3 = Some (r, s') /\
    mt.factory s' = [] /\ mt.doneJobID s' = 0 /\ mt.nextJobID s' = 0.
Proof.
  assert (Hsome : match ZSTDMT_compressCCtx 4 toy_zcs0 (2 ^ 22) (2 ^ 20) (2 ^ 21) (2 ^ 16) 3 with
                  | Some (_, s) => negb (mt.jobs_ptr s =? NULL)
                  | None => false
                  end = true) by by_compute.
  destruct (ZSTDMT_compressCCtx 4 toy_zcs0 (2 ^ 22) (2 ^ 20) (2 ^ 21) (2 ^ 16) 3)
    as [[r s']|] eqn:E; [|discriminate Hsome].
  apply negb_true_iff, Z.eqb_neq in Hsome.
  pose proof (compressCCtx_leaves_ring_at_rest toy_cond_wait_rely toy_zcs0 4 (2 ^ 22) (2 ^ 20)
                (2 ^ 21) (2 ^ 16) 3 r s' (toy_inv _ toy_zcs0_disciplined)) as Hw.
  do 3 specialize (Hw ltac:(by_compute)). specialize (Hw E Hsome).
  destruct Hw as (_ & _ & Hf & Hd & Hn & _).
  exists r, s'. split; [reflexivity|]. split; [exact Hf|]. split; [exact Hd|exact Hn].
Defined.

(** X22 at work: the ten bytes of [toy_input] are taken. *)
Lemma compressStream_generic_consumes_input_witness :
  exists r s' output' input',
    ZSTDMT_compressStream_generic 1 toy_zcs toy_output toy_input ZSTD_e_end
    = Some (r, s', output', input') /\
    i_size input' = 10 /\ 0 <= i_pos input' <= 10.
Proof.
  assert (Hsome : match ZSTDMT_compressStream_generic 1 toy_zcs toy_output toy_input
                          ZSTD_e_end with
                  | Some _ => true
                  | None => false
                  end = true) by by_compute.
  destruct (ZSTDMT_compressStream_generic 1 toy_zcs toy_output toy_input ZSTD_e_end)
    as [[[[r s'] o'] i']|] eqn:E; [clear Hsome|discriminate Hsome].
  pose proof (compressStream_generic_consumes_input toy_zcs 1 toy_output toy_input ZSTD_e_end
                r s' o' i') as Hw.
  do 3 specialize (Hw ltac:(by_compute)). specialize (Hw E).
  destruct Hw as (_ & Hs & Hp & _).
  exists r, s', o', i'. split; [reflexivity|]. split; [exact Hs|exact Hp].
Defined.

(** X23 at work: a frame that is ended before any input was given has one
    empty job, the first and the last of the frame. *)
Lemma endStream_ends_frame_witness :
  exists r s' output',
    ZSTDMT_endStream 1 toy_zcs toy_sink = Some (r, s', output') /\
    truthy (mt.frameEnded s') = true /\
    lastChunk (job_at s' 0) = 1 /\ srcSize (job_at s' 0) = 0 /\ firstChunk (job_at s' 0) = 1.
Proof.
  assert (Hsome : match ZSTDMT_endStream 1 toy_zcs toy_sink with
                  | Some (r, _, _) => negb (ZSTD_isError r)
                  | None => false
                  end = true) by by_compute.
  destruct (ZSTDMT_endStream 1 toy_zcs toy_sink) as [[[r s'] o']|] eqn:E;
    [|discriminate Hsome].
  apply negb_true_iff in Hsome.
  pose proof (endStream_ends_frame toy_cond_wait_rely toy_zcs 1 toy_sink r s' o') as Hw.
  cbv zeta in Hw.
  do 4 specialize (Hw ltac:(by_compute)). specialize (Hw E Hsome).
  destruct Hw as (He & _ & Hjob).
  assert (Hslot : Z.land (mt.nextJobID toy_zcs) (mt.jobIDMask toy_zcs) = 0) by by_compute.
  rewrite Hslot in Hjob.
  destruct Hjob as (Hl & Hs & Hf); [by_compute|].
  assert (Hn : size_t (filled (mt.inBuff toy_zcs) - mt.prefixSize toy_zcs) = 0) by by_compute.
  assert (Hc : c_bool (mt.nextJobID toy_zcs =? 0) = 1) by by_compute.
  rewrite Hn in Hs. rewrite Hc in Hf.
  exists r, s', o'. split; [reflexivity|]. split; [exact He|].
  split; [exact Hl|]. split; [exact Hs|exact Hf].
Defined.
